(** * FAC [faclib/array.c]: block arrays, integer-vector hash and multi-arrays

    A shallow embedding of [src/faclib/array.c].  C objects reached through
    pointers are represented by their contents; a pointer that may be [NULL]
    is an [option]; a function that returns a pointer to a slot returns the
    contents of that slot, and a caller that writes through the returned
    pointer is modelled by an update function applied to the slot.

    An execution that has no defined result in C (a [NULL] or freed pointer
    is dereferenced, an index leaves its array, a division by zero, a loop
    that never ends) yields [Undefined]. *)

From Stdlib Require Import ZArith List Lia Bool QArith.
From stdpp Require Import base list.
Import ListNotations.

Local Open Scope Z_scope.

(** ** Machine integers *)

(** [int] is 32 bits wide.  Signed overflow has no defined result in C; the
    embedding writes the two's complement wrap-around that the compiled code
    performs, and the theorems say where the mathematical value is meant. *)
Definition sint (z : Z) : Z := (z + 2 ^ 31) mod 2 ^ 32 - 2 ^ 31.

(** Conversion to [unsigned short]. *)
Definition ushort (z : Z) : Z := z mod 2 ^ 16.

(** Conversion to [ub4], declared [unsigned long int]: [w] bits, 64 on LP64
    systems and 32 elsewhere. *)
Definition ub4 (w z : Z) : Z := z mod 2 ^ w.

Definition fits_int (z : Z) : Prop := - 2 ^ 31 <= z < 2 ^ 31.

(** ** Results *)

Inductive result (T : Type) : Type :=
| Ok (t : T)
| Undefined.
Arguments Ok {T} t.
Arguments Undefined {T}.

Definition bind {T U : Type} (m : result T) (k : T -> result U) : result U :=
  match m with
  | Ok t => k t
  | Undefined => Undefined
  end.

Notation "'do' x <- m ; k" := (bind m (fun x => k))
  (at level 10, x pattern, m at level 100, k at level 200).

(** ** Locks, raw storage, hooks *)

(** A [LOCK] object, identified by its address.  The lock primitives are
    opaque; a sequential run acquires and releases without blocking. *)
Inductive LOCK : Type := LockAt (addr : Z).

(** What [malloc] hands out before any initialisation, read at type [A]. *)
Class Raw (A : Type) := raw : A.

(** Array accesses [l[i]] and [l[i] = v] on storage of [length l] cells. *)
Definition load {A : Type} (l : list A) (i : Z) : result A :=
  if (0 <=? i) && (i <? Z.of_nat (length l)) then
    match l !! Z.to_nat i with
    | Some x => Ok x
    | None => Undefined
    end
  else Undefined.

Definition store {A : Type} (l : list A) (i : Z) (v : A) : result (list A) :=
  if (0 <=? i) && (i <? Z.of_nat (length l))
  then Ok (<[Z.to_nat i := v]> l)
  else Undefined.

(** [for (k = from; k < upto; k++) body], the state threaded through. *)
Fixpoint for_loop {S : Type} (count : nat) (k : Z)
    (body : Z -> S -> result S) (s : S) : result S :=
  match count with
  | O => Ok s
  | Datatypes.S c => do s' <- body k s; for_loop c (k + 1) body s'
  end.

Definition for_range {S : Type} (from upto : Z)
    (body : Z -> S -> result S) (s : S) : result S :=
  for_loop (Z.to_nat (upto - from)) from body s.

(** The [InitData] hook, called on a buffer and an element count: every
    hook of the module works element by element; [None] is a [NULL] hook. *)
Definition init_hook (A : Type) : Type := option (A -> A).

(** The [FreeElem] hook, called on one element: what it leaves there. *)
Definition free_hook (A : Type) : Type := option (A -> A).

Definition run_hook {A : Type} (h : option (A -> A)) (x : A) : A :=
  match h with
  | Some f => f x
  | None => x
  end.

(** ** DATA and ARRAY *)

(** A value of type [DATA *]: [NULL], a dangling pointer (to a block that
    has been freed, or never set), or a pointer to a live block with its payload [dptr] ([None] when
    [dptr == NULL]) and its [next] link. *)
Inductive DATA (A : Type) : Type :=
| NULL
| Dangling
| Block (dptr : option (list A)) (next : DATA A).
Arguments NULL {A}.
Arguments Dangling {A}.
Arguments Block {A} dptr next.

Record ARRAY (A : Type) : Type := mkARRAY {
  esize : Z;
  block : Z;
  bsize : Z;
  dim : Z;
  data : DATA A;
  lock : option LOCK
}.
Arguments mkARRAY {A}.
Arguments esize {A}.
Arguments block {A}.
Arguments bsize {A}.
Arguments dim {A}.
Arguments data {A}.
Arguments lock {A}.

Definition set_dim {A} (a : ARRAY A) (d : Z) : ARRAY A :=
  mkARRAY (esize a) (block a) (bsize a) d (data a) (lock a).
Definition set_data {A} (a : ARRAY A) (p : DATA A) : ARRAY A :=
  mkARRAY (esize a) (block a) (bsize a) (dim a) p (lock a).
Definition set_lock {A} (a : ARRAY A) (l : option LOCK) : ARRAY A :=
  mkARRAY (esize a) (block a) (bsize a) (dim a) (data a) l.

Definition is_null {A} (p : DATA A) : bool :=
  match p with
  | NULL => true
  | _ => false
  end.

Section BlockArray.
Context {A : Type} {rawA : Raw A}.

(** [ArrayInit].  [lk] is what lines 148-156 leave in [a->lock]: a fresh
    lock when [USE_MPI == 2] and [InitLock] succeeds, [NULL] otherwise. *)
Definition ArrayInit (esize block : Z) (lk : option LOCK) : ARRAY A :=
  mkARRAY esize block (sint (esize * block)) 0 NULL lk.

(** The loop of [ArrayGet] from [p = a->data]. *)
Fixpoint ArrayGet_walk (blk : Z) (p : DATA A) (i : Z) : result (option A) :=
  match p with
  | NULL | Dangling => Undefined
  | Block dptr next =>
      if blk <=? i then ArrayGet_walk blk next (i - blk)
      else
        match dptr with
        | Some buf =>
            match buf !! Z.to_nat i with
            | Some x => Ok (Some x)
            | None => Undefined
            end
        | None => Ok None
        end
  end.

Definition ArrayGet (a : ARRAY A) (i : Z) : result (option A) :=
  if (i <? 0) || (dim a <=? i) then Ok None
  else ArrayGet_walk (block a) (data a) i.

(** A buffer of [blk] elements on which [InitData] has run. *)
Definition init_cells (blk : Z) (InitData : init_hook A) : list A :=
  map (run_hook InitData) (repeat raw (Z.to_nat blk)).

(** [malloc(a->bsize)] followed by [InitData(dptr, a->block)].  The
    buffer has [bsize] bytes, that is [bsize / esize] elements of [esize]
    bytes; [bsize] is the [int] that [ArrayInit] computed, so it can be
    zero or negative, or smaller than [esize * block] bytes.  A size
    that is not positive gives no buffer to write to, elements of no bytes
    hold no value, and [InitData] writes [block] elements: past the end
    when the buffer has fewer. *)
Definition fresh_block (esz blk bsz : Z) (InitData : init_hook A)
    : result (list A) :=
  if (0 <? esz) && (0 <? bsz) then
    let buf := repeat raw (Z.to_nat (Z.quot bsz esz)) in
    match InitData with
    | None => Ok buf
    | Some f =>
        if blk <=? Z.quot bsz esz
        then Ok (map f (take (Z.to_nat blk) buf) ++ drop (Z.to_nat blk) buf)
        else Undefined
    end
  else Undefined.

(** Lines 222-241 of [ArraySet]: walk to the block of [i], creating the
    missing links and payload, and reach the slot [pt].  [alloc] is what
    [malloc(a->bsize)] followed by [InitData] yields when the block of [i]
    has no payload; [upd] is what is done through [pt]; it yields the new
    contents of the slot and a value handed back to the caller.  The
    recursion is on [fuel]; with a positive block size the walk makes
    [i / block] steps, and with any other block size it never ends once
    entered. *)
Fixpoint ArraySet_walk {R : Type} (fuel : nat) (blk : Z)
    (alloc : result (list A)) (upd : A -> result (A * R))
    (p : DATA A) (i : Z) : result (DATA A * R) :=
  match p with
  | NULL | Dangling => Undefined
  | Block dptr next =>
      if blk <=? i then
        match fuel with
        | O => Undefined
        | S fuel' =>
            let next1 := if is_null next then Block None NULL else next in
            do (next2, r) <-
               ArraySet_walk fuel' blk alloc upd next1 (i - blk);
            Ok (Block dptr next2, r)
        end
      else
        do buf <- match dptr with
                  | Some b => Ok b
                  | None => alloc
                  end;
        let off := Z.to_nat i in
        match buf !! off with
        | Some x =>
            do (y, r) <- upd x;
            Ok (Block (Some (<[off := y]> buf)) next, r)
        | None => Undefined
        end
  end.

Definition ArraySet_slot {R : Type} (a : ARRAY A) (i : Z)
    (InitData : init_hook A) (upd : A -> result (A * R))
    : result (ARRAY A * R) :=
  let alloc := fresh_block (esize a) (block a) (bsize a) InitData in
  do data0 <-
     (if dim a =? 0 then do buf <- alloc; Ok (Block (Some buf) NULL)
      else Ok (data a));
  let dim1 := if dim a <=? i then sint (i + 1) else dim a in
  do (p, r) <-
     ArraySet_walk (Z.to_nat (i / block a)) (block a) alloc upd data0 i;
  Ok (set_data (set_dim a dim1) p, r).

(** [if (d) memcpy(pt, d, a->esize); return pt;] *)
Definition copy_in (d : option A) (x : A) : result (A * A) :=
  match d with
  | Some v => Ok (v, v)
  | None => Ok (x, x)
  end.

Definition ArraySet (a : ARRAY A) (i : Z) (d : option A)
    (InitData : init_hook A) : result (ARRAY A * A) :=
  ArraySet_slot a i InitData (copy_in d).

Definition ArrayAppend (a : ARRAY A) (d : option A)
    (InitData : init_hook A) : result (ARRAY A * A) :=
  let i := dim a in
  ArraySet a i d InitData.

(** The loop of [ArrayContiguous]; [i] elements remain to be copied. *)
Fixpoint ArrayContiguous_walk (blk : Z) (p : DATA A) (i : Z)
    : result (list A) :=
  match p with
  | NULL | Dangling => Undefined
  | Block dptr next =>
      match dptr with
      | None => Undefined
      | Some buf =>
          if i <=? blk then
            if (0 <=? i) && (i <=? Z.of_nat (length buf))
            then Ok (take (Z.to_nat i) buf)
            else Undefined
          else
            if (0 <=? blk) && (blk <=? Z.of_nat (length buf))
            then
              do rest <- ArrayContiguous_walk blk next (i - blk);
              Ok (take (Z.to_nat blk) buf ++ rest)
            else Undefined
      end
  end.

(** [ArrayContiguous].  [r = malloc(a->esize*a->dim)]: the product is an
    [int], and the [dim] elements of [esize] bytes that the loop copies
    fit the buffer only when the product has not wrapped; elements of no
    bytes hold no value.  The loop copies [m = a->esize*a->block] bytes
    only from a block that is followed by more elements, where [block] is
    below [dim] and [m] below the size of the buffer. *)
Definition ArrayContiguous (a : ARRAY A) : result (option (list A)) :=
  if dim a =? 0 then Ok None
  else if (0 <? esize a) && (esize a * dim a <=? sint (esize a * dim a)) then
    do r <- ArrayContiguous_walk (block a) (data a) (dim a);
    Ok (Some r)
  else Undefined.

(** [ArrayFreeData]: the chain from [p] is released; the function returns
    0 and leaves nothing behind, so only definedness is recorded.  With a
    hook, [FreeElem] visits [block] elements of every payload. *)
Fixpoint ArrayFreeData (p : DATA A) (blk : Z) (FreeElem : free_hook A)
    : result unit :=
  match p with
  | NULL => Ok tt
  | Dangling => Undefined
  | Block dptr next =>
      do _ <- (if is_null next then Ok tt
               else ArrayFreeData next blk FreeElem);
      match FreeElem, dptr with
      | Some _, Some buf =>
          if blk <=? Z.of_nat (length buf) then Ok tt else Undefined
      | _, _ => Ok tt
      end
  end.

Definition ArrayFree (a : ARRAY A) (FreeElem : free_hook A)
    : result (ARRAY A) :=
  if dim a =? 0 then Ok a
  else
    do _ <- ArrayFreeData (data a) (block a) FreeElem;
    Ok (set_lock (set_data (set_dim a 0) NULL) None).

(** [FreeElem] on the elements [i .. blk-1] of a payload (lines 412-418). *)
Definition free_tail (FreeElem : free_hook A) (blk i : Z)
    (dptr : option (list A)) : result (option (list A)) :=
  match dptr, FreeElem with
  | Some buf, Some f =>
      if blk <=? i then Ok dptr
      else if (0 <=? i) && (blk <=? Z.of_nat (length buf)) then
        Ok (Some (take (Z.to_nat i) buf
                  ++ map f (take (Z.to_nat (blk - i)) (drop (Z.to_nat i) buf))
                  ++ drop (Z.to_nat blk) buf))
      else Undefined
  | _, _ => Ok dptr
  end.

(** Lines 397-419 of [ArrayTrim].  The result is the chain as the array
    sees it afterwards: when [i] reaches 0 at a block boundary the block is
    freed while the link that led to it keeps its value. *)
Fixpoint ArrayTrim_walk (blk : Z) (FreeElem : free_hook A)
    (p : DATA A) (i : Z) : result (DATA A) :=
  match p with
  | NULL => if blk <=? i then Undefined
            else if i =? 0 then Ok NULL
            else Undefined
  | Dangling => Undefined
  | Block dptr next =>
      if blk <=? i then
        do next' <- ArrayTrim_walk blk FreeElem next (i - blk);
        Ok (Block dptr next')
      else if i =? 0 then
        do _ <- ArrayFreeData p blk FreeElem;
        Ok Dangling
      else
        do _ <- (if is_null next then Ok tt
                 else ArrayFreeData next blk FreeElem);
        do dptr' <- free_tail FreeElem blk i dptr;
        Ok (Block dptr' NULL)
  end.

Definition ArrayTrim (a : ARRAY A) (n : Z) (FreeElem : free_hook A)
    : result (ARRAY A) :=
  if dim a <=? n then Ok a
  else if n =? 0 then ArrayFree a FreeElem
  else
    do p <- ArrayTrim_walk (block a) FreeElem (data a) n;
    Ok (set_dim (set_data a p) n).

(** Appending the elements of a list, one [ArrayAppend] each. *)
Fixpoint append_all (a : ARRAY A) (l : list A) (InitData : init_hook A)
    : result (ARRAY A) :=
  match l with
  | [] => Ok a
  | x :: l' =>
      do (a', _) <- ArrayAppend a (Some x) InitData;
      append_all a' l' InitData
  end.

End BlockArray.

(** ** Index array *)

Module IdxAry.
Record IDXARY : Type := mk {
  n : Z;
  d : option (list Z);
  m0 : Z;
  m1 : Z;
  m : Z;
  i : option (list Z)
}.
End IdxAry.
Abbreviation IDXARY := IdxAry.IDXARY.

(** Lines 1193-1198 of [InitIdxAry]: the running minimum and maximum. *)
Definition InitIdxAry_bounds (d : list Z) (k : Z) (mm : Z * Z)
    : result (Z * Z) :=
  do dk <- load d k;
  let m0 := if dk <? fst mm then dk else fst mm in
  let m1 := if snd mm <? dk then dk else snd mm in
  Ok (m0, m1).

(** Lines 1205-1207: [ia->i[ia->d[k]-ia->m0] = k]. *)
Definition InitIdxAry_fill (d : list Z) (m0 : Z) (k : Z) (tbl : list Z)
    : result (list Z) :=
  do dk <- load d k;
  store tbl (sint (dk - m0)) k.

Definition InitIdxAry (n : Z) (d : list Z) : result IDXARY :=
  if n =? 0 then Ok (IdxAry.mk n None 0 0 0 None)
  else
    do d0 <- load d 0;
    do mm <- for_range 1 n (InitIdxAry_bounds d) (d0, d0);
    let m := sint (sint (1 + snd mm) - fst mm) in
    let tbl := repeat (-1) (Z.to_nat m) in
    do tbl' <- for_range 0 n (InitIdxAry_fill d (fst mm)) tbl;
    Ok (IdxAry.mk n (Some d) (fst mm) (snd mm) m (Some tbl')).

Definition IdxGet (ia : IDXARY) (d : Z) : result Z :=
  if d <? IdxAry.m0 ia then Ok (-1)
  else if IdxAry.m1 ia <? d then Ok (-2)
  else
    match IdxAry.i ia with
    | Some tbl => load tbl (sint (d - IdxAry.m0 ia))
    | None => Undefined
    end.

(** ** Integer-vector hash *)

(** The macro [Mix(a, b, c)] on [w]-bit words. *)
Definition Mix (w : Z) (abc : Z * Z * Z) : Z * Z * Z :=
  let '(a, b, c) := abc in
  let a := ub4 w (a - b) in let a := ub4 w (a - c) in
  let a := Z.lxor a (Z.shiftr c 13) in
  let b := ub4 w (b - c) in let b := ub4 w (b - a) in
  let b := Z.lxor b (ub4 w (Z.shiftl a 8)) in
  let c := ub4 w (c - a) in let c := ub4 w (c - b) in
  let c := Z.lxor c (Z.shiftr b 13) in
  let a := ub4 w (a - b) in let a := ub4 w (a - c) in
  let a := Z.lxor a (Z.shiftr c 12) in
  let b := ub4 w (b - c) in let b := ub4 w (b - a) in
  let b := Z.lxor b (ub4 w (Z.shiftl a 16)) in
  let c := ub4 w (c - a) in let c := ub4 w (c - b) in
  let c := Z.lxor c (Z.shiftr b 5) in
  let a := ub4 w (a - b) in let a := ub4 w (a - c) in
  let a := Z.lxor a (Z.shiftr c 3) in
  let b := ub4 w (b - c) in let b := ub4 w (b - a) in
  let b := Z.lxor b (ub4 w (Z.shiftl a 10)) in
  let c := ub4 w (c - a) in let c := ub4 w (c - b) in
  let c := Z.lxor c (Z.shiftr b 15) in
  (a, b, c).

(** [#define HashSize(n) ((ub4)1<<(((n)/2)+16))]; a shift by a negative
    amount or by the word width or more has no defined result. *)
Definition HashSize (w n : Z) : result Z :=
  let s := sint (Z.quot n 2 + 16) in
  if (0 <=? s) && (s <? w) then Ok (Z.shiftl 1 s) else Undefined.

(** The loop [while (len >= 3)] of [Hash2] over the words not yet consumed;
    it returns the accumulators and the at most two words left. *)
Fixpoint Hash2_loop (w : Z) (k : list Z) (abc : Z * Z * Z)
    : Z * Z * Z * list Z :=
  match k with
  | k0 :: k1 :: k2 :: k' =>
      let '(a, b, c) := abc in
      Hash2_loop w k'
        (Mix w (ub4 w (a + k0), ub4 w (b + k1), ub4 w (c + k2)))
  | _ => (abc, k)
  end.

(** [Hash2(id, length, initval, n, m)].  [kd] holds 32 words; the first
    [length] ints of [id] are converted to [ub4]. *)
Definition Hash2 (w : Z) (id : list Z) (length initval : Z) (n m : Z)
    : result Z :=
  let len := ub4 w length in
  if (32 <? len) || (Z.of_nat (List.length id) <? len) then Undefined
  else
    let k := map (ub4 w) (take (Z.to_nat len) id) in
    let '(a, b, c, rest) :=
      Hash2_loop w k (ub4 w 2654435769, ub4 w 2654435769, ub4 w initval) in
    let c := ub4 w (c + len) in
    let '(a, b) :=
      match rest with
      | [k0; k1] => (ub4 w (a + k0), ub4 w (b + k1))
      | [k0] => (ub4 w (a + k0), b)
      | _ => (a, b)
      end in
    let '(_, _, c) := Mix w (a, b, c) in
    Ok (sint (Z.land c (ub4 w m))).

(** ** MDATA, MULTI and the global counters *)

Module MDATA.
(** An entry of a hash bucket: [index] and [data] are owned buffers,
    [None] when the pointer is [NULL]. *)
Record t (V : Type) : Type := mk {
  index : option (list Z);
  lock : option LOCK;
  data : option V
}.
Arguments mk {V}.
Arguments index {V}.
Arguments lock {V}.
Arguments data {V}.
End MDATA.
Abbreviation MDATA := MDATA.t.

(** The file-scope counters [_maxsize], [_totalsize], [_overheadsize].  The
    three are doubles.  The two totals only ever receive sums and
    differences of [int] byte counts and are kept as integers (exact in a
    double below 2^53); a budget is any number and is kept as a rational.
    Rounding in [0.1*_totalsize] is outside the embedding. *)
Record GLOBALS : Type := mkGLOBALS {
  _maxsize : Q;
  _totalsize : Z;
  _overheadsize : Z
}.

Module MULTI.
(** The struct [MULTI].  Its declaration is in [array.h]; the fields are
    those [array.c] uses, with the types its assignments show.  The three
    flavours store different things behind [array], [ia] and [da], so the
    record is generic in what these point to.  The diagnostic fields [id]
    and [maxelem] are only printed and are left out. *)
Record t (ARR IAT DAT : Type) : Type := mk {
  maxsize : Q;
  totalsize : Z;
  overheadsize : Z;
  numelem : Z;
  clean_mode : Z;
  clean_thread : Z;
  ndim : Z;
  ndim1 : Z;
  isize : Z;
  esize : Z;
  hsize : Z;
  hmask : Z;
  aidx : Z;
  isf : Z;
  block : list Z;
  iidx : list Z;
  sidx : list Z;
  ridx : list Z;
  iblock : list Z;
  array : ARR;
  ia : IAT;
  da : DAT;
  lock : option LOCK
}.
Arguments mk {ARR IAT DAT}.
Arguments maxsize {ARR IAT DAT}.
Arguments totalsize {ARR IAT DAT}.
Arguments overheadsize {ARR IAT DAT}.
Arguments numelem {ARR IAT DAT}.
Arguments clean_mode {ARR IAT DAT}.
Arguments clean_thread {ARR IAT DAT}.
Arguments ndim {ARR IAT DAT}.
Arguments ndim1 {ARR IAT DAT}.
Arguments isize {ARR IAT DAT}.
Arguments esize {ARR IAT DAT}.
Arguments hsize {ARR IAT DAT}.
Arguments hmask {ARR IAT DAT}.
Arguments aidx {ARR IAT DAT}.
Arguments isf {ARR IAT DAT}.
Arguments block {ARR IAT DAT}.
Arguments iidx {ARR IAT DAT}.
Arguments sidx {ARR IAT DAT}.
Arguments ridx {ARR IAT DAT}.
Arguments iblock {ARR IAT DAT}.
Arguments array {ARR IAT DAT}.
Arguments ia {ARR IAT DAT}.
Arguments da {ARR IAT DAT}.
Arguments lock {ARR IAT DAT}.

Section Setters.
Context {ARR IAT DAT : Type}.
Implicit Type ma : t ARR IAT DAT.

Definition set_maxsize ma (x : Q) : t ARR IAT DAT :=
  mk x (totalsize ma) (overheadsize ma) (numelem ma)
     (clean_mode ma) (clean_thread ma) (ndim ma) (ndim1 ma) (isize ma)
     (esize ma) (hsize ma) (hmask ma) (aidx ma) (isf ma) (block ma)
     (iidx ma) (sidx ma) (ridx ma) (iblock ma) (array ma) (ia ma) (da ma)
     (lock ma).
Definition set_totalsize ma (x : Z) : t ARR IAT DAT :=
  mk (maxsize ma) x (overheadsize ma) (numelem ma)
     (clean_mode ma) (clean_thread ma) (ndim ma) (ndim1 ma) (isize ma)
     (esize ma) (hsize ma) (hmask ma) (aidx ma) (isf ma) (block ma)
     (iidx ma) (sidx ma) (ridx ma) (iblock ma) (array ma) (ia ma) (da ma)
     (lock ma).
Definition set_numelem ma (x : Z) : t ARR IAT DAT :=
  mk (maxsize ma) (totalsize ma) (overheadsize ma) x
     (clean_mode ma) (clean_thread ma) (ndim ma) (ndim1 ma) (isize ma)
     (esize ma) (hsize ma) (hmask ma) (aidx ma) (isf ma) (block ma)
     (iidx ma) (sidx ma) (ridx ma) (iblock ma) (array ma) (ia ma) (da ma)
     (lock ma).
Definition set_clean_mode ma (x : Z) : t ARR IAT DAT :=
  mk (maxsize ma) (totalsize ma) (overheadsize ma) (numelem ma)
 x (clean_thread ma) (ndim ma) (ndim1 ma) (isize ma)
     (esize ma) (hsize ma) (hmask ma) (aidx ma) (isf ma) (block ma)
     (iidx ma) (sidx ma) (ridx ma) (iblock ma) (array ma) (ia ma) (da ma)
     (lock ma).
Definition set_clean_thread ma (x : Z) : t ARR IAT DAT :=
  mk (maxsize ma) (totalsize ma) (overheadsize ma) (numelem ma)
     (clean_mode ma) x (ndim ma) (ndim1 ma) (isize ma)
     (esize ma) (hsize ma) (hmask ma) (aidx ma) (isf ma) (block ma)
     (iidx ma) (sidx ma) (ridx ma) (iblock ma) (array ma) (ia ma) (da ma)
     (lock ma).
Definition set_array ma (x : ARR) : t ARR IAT DAT :=
  mk (maxsize ma) (totalsize ma) (overheadsize ma) (numelem ma)
     (clean_mode ma) (clean_thread ma) (ndim ma) (ndim1 ma) (isize ma)
     (esize ma) (hsize ma) (hmask ma) (aidx ma) (isf ma) (block ma)
     (iidx ma) (sidx ma) (ridx ma) (iblock ma) x (ia ma) (da ma)
     (lock ma).
Definition set_ia ma (x : IAT) : t ARR IAT DAT :=
  mk (maxsize ma) (totalsize ma) (overheadsize ma) (numelem ma)
     (clean_mode ma) (clean_thread ma) (ndim ma) (ndim1 ma) (isize ma)
     (esize ma) (hsize ma) (hmask ma) (aidx ma) (isf ma) (block ma)
     (iidx ma) (sidx ma) (ridx ma) (iblock ma) (array ma) x (da ma)
     (lock ma).
Definition set_da ma (x : DAT) : t ARR IAT DAT :=
  mk (maxsize ma) (totalsize ma) (overheadsize ma) (numelem ma)
     (clean_mode ma) (clean_thread ma) (ndim ma) (ndim1 ma) (isize ma)
     (esize ma) (hsize ma) (hmask ma) (aidx ma) (isf ma) (block ma)
     (iidx ma) (sidx ma) (ridx ma) (iblock ma) (array ma) (ia ma) x
     (lock ma).
(** What [MMultiIndex] writes: [iidx], [sidx], [ridx], [isf], [aidx]. *)
Definition set_index ma (ii si ri : list Z) (f ai : Z) : t ARR IAT DAT :=
  mk (maxsize ma) (totalsize ma) (overheadsize ma) (numelem ma)
     (clean_mode ma) (clean_thread ma) (ndim ma) (ndim1 ma) (isize ma)
     (esize ma) (hsize ma) (hmask ma) ai f (block ma)
 ii si ri (iblock ma) (array ma) (ia ma) (da ma)
     (lock ma).
End Setters.
End MULTI.
Abbreviation MULTI := MULTI.t.

(** The out-parameter [LOCK **lock]: [None] when the caller passes [NULL],
    otherwise the present value of the caller's [LOCK *] variable. *)
Definition lock_out : Type := option (option LOCK).

(** [if (lock) *lock = l]. *)
Definition write_lock (lock : lock_out) (l : option LOCK) : lock_out :=
  match lock with
  | Some _ => Some l
  | None => None
  end.

(** [void AddMultiSize(MULTI *ma, int size)] *)
Definition AddMultiSize {ARR IAT DAT} (ma : MULTI ARR IAT DAT) (g : GLOBALS)
    (size : Z) : MULTI ARR IAT DAT * GLOBALS :=
  (MULTI.set_totalsize ma (MULTI.totalsize ma + size),
   mkGLOBALS (_maxsize g) (_totalsize g + size) (_overheadsize g)).

(** [void LimitMultiSize(MULTI *ma, double r)] *)
Definition LimitMultiSize {ARR IAT DAT} (ma : option (MULTI ARR IAT DAT))
    (g : GLOBALS) (r : Q) : option (MULTI ARR IAT DAT) * GLOBALS :=
  match ma with
  | None => (None, mkGLOBALS r (_totalsize g) (_overheadsize g))
  | Some m => (Some (MULTI.set_maxsize m r), g)
  end.

(** ** Scanning the entries of one block *)

Inductive scan (E : Type) : Type :=
| Hit (off : nat) (j : Z) (e : E)
| Miss (m j : Z).
Arguments Hit {E} off j e.
Arguments Miss {E} m j.

(** [for (m = 0; m < a->block && j < i; j++, m++) { if (memcmp(...) == 0)
    ...; pt++; }] with [pt] running over the payload. [same] is the
    comparison of the entry under [pt] with the key. *)
Fixpoint scan_for {E : Type} (same : E -> result bool) (blk i : Z)
    (pt : list E) (off : nat) (m j : Z) : result (scan E) :=
  if (m <? blk) && (j <? i) then
    match pt with
    | [] => Undefined
    | e :: pt' =>
        do eq <- same e;
        if eq : bool then Ok (Hit off j e)
        else scan_for same blk i pt' (S off) (m + 1) (j + 1)
    end
  else Ok (Miss m j).

(** The payload under [pt = p->dptr]; nothing can be read under [NULL]. *)
Definition payload {E : Type} (dptr : option (list E)) : list E :=
  match dptr with
  | Some buf => buf
  | None => []
  end.

(** [memcmp(x, y, n * size) == 0] on two buffers of cells. *)
Definition memcmp_eq (x y : list Z) (n : Z) : result bool :=
  if (n <? 0) || (Z.of_nat (length x) <? n) || (Z.of_nat (length y) <? n)
  then Undefined
  else Ok (bool_decide (take (Z.to_nat n) x = take (Z.to_nat n) y)).

(** The loop [while (p) { pt = p->dptr; for (...) ...; p0 = p; p = p->next; }]
    of [NMultiGet], [MMultiGet] and [MMultiSet].  Block [nb] of the chain is
    under [p]; [last] is the block under [p0] with the value of [m] the
    inner loop left there, [None] before the first round. *)
Inductive chain_scan (E : Type) : Type :=
| Found (j : Z) (e : E)
| NotFound (last : option (nat * Z)).
Arguments Found {E} j e.
Arguments NotFound {E} last.

Fixpoint scan_chain {E : Type} (same : E -> result bool) (blk i : Z)
    (p : DATA E) (nb : nat) (j : Z) (last : option (nat * Z))
    : result (chain_scan E) :=
  match p with
  | NULL => Ok (NotFound last)
  | Dangling => Undefined
  | Block dptr next =>
      do r <- scan_for same blk i (payload dptr) 0 0 j;
      match r with
      | Hit _ j' e => Ok (Found j' e)
      | Miss m j' => scan_chain same blk i next (S nb) j' (Some (nb, m))
      end
  end.

(** Writing through a pointer into block [nb], slot [off], of a chain. *)
Fixpoint chain_update {E : Type} (p : DATA E) (nb off : nat)
    (f : E -> result E) : result (DATA E) :=
  match p with
  | NULL | Dangling => Undefined
  | Block dptr next =>
      match nb with
      | O =>
          match payload dptr !! off with
          | Some e => do e' <- f e; Ok (Block (Some (<[off := e']> (payload dptr))) next)
          | None => Undefined
          end
      | S nb' =>
          do next' <- chain_update next nb' off f;
          Ok (Block dptr next')
      end
  end.

(** [p0->next = q] where [p0] is block [nb] of the chain. *)
Fixpoint chain_set_next {E : Type} (p : DATA E) (nb : nat) (q : DATA E)
    : result (DATA E) :=
  match p with
  | NULL | Dangling => Undefined
  | Block dptr next =>
      match nb with
      | O => Ok (Block dptr q)
      | S nb' =>
          do next' <- chain_set_next next nb' q;
          Ok (Block dptr next')
      end
  end.

(** ** Dense nested multi-array (SMulti) *)

(** The storage reached by [SMultiGet] and [SMultiSet]: an element of a
    block array is raw memory, a user element of [esize] bytes, or an
    [ARRAY] struct of the next dimension. *)
#[warnings="-register-all"]
Inductive SNODE (V : Type) : Type :=
| SRaw
| SElem (v : V)
| SArray (a : ARRAY (SNODE V)).
Arguments SRaw {V}.
Arguments SElem {V} v.
Arguments SArray {V} a.

#[export] Instance SNODE_raw {V : Type} : Raw (SNODE V) := SRaw.

Section SMulti.
Context {V : Type} {rawV : Raw V} {rawZ : Raw Z} {rawL : Raw (option LOCK)}.
(** [sizeof(ARRAY)], from the missing declaration. *)
Variable sizeof_ARRAY : Z.

Abbreviation SMULTI := (MULTI (option (ARRAY (SNODE V))) unit unit).

(** [InitArrayData] on one element: [dim] and [esize] are zeroed, the
    other fields keep what the memory held. *)
Definition InitArrayData (x : SNODE V) : SNODE V :=
  match x with
  | SArray a => SArray (mkARRAY 0 (block a) (bsize a) 0 (data a) (lock a))
  | _ => SArray (mkARRAY 0 raw raw 0 Dangling raw)
  end.

(** A user hook on the storage of a leaf array. *)
Definition leaf_hook (h : option (V -> V)) : option (SNODE V -> SNODE V) :=
  match h with
  | Some f =>
      Some (fun x => match x with
                     | SElem v => SElem (f v)
                     | _ => SElem (f raw)
                     end)
  | None => None
  end.

(** [SMultiInit]; [ma] is the struct as found, [block] the caller's
    [int] array. *)
Definition SMultiInit {ARR IAT DAT} (ma : MULTI ARR IAT DAT)
    (esize ndim : Z) (block : list Z) : result (MULTI (option (ARRAY (SNODE V))) IAT DAT) :=
  do blk <- for_range 0 ndim
              (fun i acc => do b <- load block i; Ok (acc ++ [ushort b])) [];
  Ok (MULTI.mk (-1)%Q 0 (MULTI.overheadsize ma) (MULTI.numelem ma)
        (-1) (MULTI.clean_thread ma) ndim (MULTI.ndim1 ma)
        (MULTI.isize ma) esize (MULTI.hsize ma) (MULTI.hmask ma)
        (MULTI.aidx ma) (MULTI.isf ma) blk (MULTI.iidx ma) (MULTI.sidx ma)
        (MULTI.ridx ma) (MULTI.iblock ma) None (MULTI.ia ma) (MULTI.da ma)
        (MULTI.lock ma)).

(** The loop of [SMultiGet]: [count] dimensions remain from [i], and [x]
    is the storage under [a], read as an [ARRAY]. *)
Fixpoint SMultiGet_walk (count : nat) (k : list Z) (i : Z) (x : SNODE V)
    : result (option (SNODE V)) :=
  match count with
  | O => Ok (Some x)
  | S count' =>
      match x with
      | SArray a =>
          do ki <- load k i;
          do r <- ArrayGet a ki;
          match r with
          | Some y => SMultiGet_walk count' k (i + 1) y
          | None => Ok None
          end
      | _ => Undefined
      end
  end.

Definition SMultiGet {IAT DAT} (ma : MULTI (option (ARRAY (SNODE V))) IAT DAT)
    (k : list Z) (lock : lock_out)
    : result (option (SNODE V) * lock_out) :=
  match MULTI.array ma with
  | None => Ok (None, lock)
  | Some a =>
      do r <- SMultiGet_walk (Z.to_nat (MULTI.ndim ma)) k 0 (SArray a);
      Ok (r, lock)
  end.

(** Lines 517-529 of [SMultiSet] from dimension [i], with [count] inner
    dimensions left before the last one. *)
Fixpoint SMultiSet_walk (count : nat) (ndim2 esz : Z) (blocks k : list Z)
    (d : option V) (InitData : init_hook V) (lk : option LOCK)
    (i : Z) (a : ARRAY (SNODE V)) : result (ARRAY (SNODE V) * SNODE V) :=
  match count with
  | O =>
      do ki <- load k i;
      ArraySet a ki (option_map SElem d) (leaf_hook InitData)
  | S count' =>
      do ki <- load k i;
      ArraySet_slot a ki (Some InitArrayData)
        (fun x =>
           match x with
           | SArray sub =>
               do sub1 <-
                  (if esize sub =? 0 then
                     do b <- load blocks (sint (i + 1));
                     Ok (ArrayInit
                           (if i <? ndim2 then sizeof_ARRAY else esz) b lk)
                   else Ok sub);
               do (sub2, pt) <-
                  SMultiSet_walk count' ndim2 esz blocks k d InitData lk
                    (i + 1) sub1;
               Ok (SArray sub2, pt)
           | _ => Undefined
           end)
  end.

(** [SMultiSet].  [lk] is what the lock initialisation inside [ArrayInit]
    yields in this call. *)
Definition SMultiSet {IAT DAT} (ma : MULTI (option (ARRAY (SNODE V))) IAT DAT)
    (k : list Z) (d : option V) (lock : lock_out)
    (InitData : init_hook V) (FreeElem : free_hook V) (lk : option LOCK)
    : result (MULTI (option (ARRAY (SNODE V))) IAT DAT * SNODE V * lock_out) :=
  do a0 <-
     match MULTI.array ma with
     | Some a => Ok a
     | None =>
         do b0 <- load (MULTI.block ma) 0;
         Ok (ArrayInit
               (if 1 <? MULTI.ndim ma then sizeof_ARRAY else MULTI.esize ma)
               b0 lk)
     end;
  let ndim1 := sint (MULTI.ndim ma - 1) in
  let ndim2 := sint (MULTI.ndim ma - 2) in
  do (a1, pt) <-
     SMultiSet_walk (Z.to_nat ndim1) ndim2 (MULTI.esize ma) (MULTI.block ma)
       k d InitData lk 0 a0;
  Ok (MULTI.set_array ma (Some a1), pt, lock).

End SMulti.

(** ** Hash-sparse multi-array (NMulti) *)

(** Comparisons of doubles. *)
Definition Qltb (x y : Q) : bool := negb (Qle_bool y x).

Fixpoint map_result {X Y : Type} (f : X -> result Y) (l : list X)
    : result (list Y) :=
  match l with
  | [] => Ok []
  | x :: l' => do y <- f x; do l'' <- map_result f l'; Ok (y :: l'')
  end.

(** Where the scan of [NMultiSet] leaves [pt]. *)
Inductive cursor (E : Type) : Type :=
| AtEntry (nb off : nat) (e : E)
| AtFree (nb off : nat)
| NeedBlock (nb : nat).
Arguments AtEntry {E} nb off e.
Arguments AtFree {E} nb off.
Arguments NeedBlock {E} nb.

Section NMulti.
Context {V : Type} {rawV : Raw V}.
(** The width of [ub4], the sizes of the structs declared in [array.h]
    and the rank reported by [MyRankMPI()]. *)
Variables (w sizeof_DATA sizeof_LOCK sizeof_MDATA sizeof_ARRAY : Z).
Variable MyRankMPI : Z.

Abbreviation NMULTI := (MULTI (list (ARRAY (MDATA V))) unit unit).

(** [InitMDataData(p, n)]: the three fields of each of the [n] entries are
    set to [NULL], whatever the buffer held. *)
Definition InitMDataData (n : Z) : list (MDATA V) :=
  repeat (MDATA.mk None None None) (Z.to_nat n).

(** [NMultiInit].  [ma] is the struct as found; [lk] and [alk] are what
    the lock initialisation leaves in [ma->lock] and in the [lock] of each
    bucket.  The [block] storage is allocated and never written or read;
    the registration in [_multistats] serves the diagnostic dump only. *)
Definition NMultiInit {ARR IAT DAT} (ma : MULTI ARR IAT DAT) (g : GLOBALS)
    (esize ndim : Z) (block : list Z) (lk alk : option LOCK)
    : result (MULTI (list (ARRAY (MDATA V))) IAT DAT * GLOBALS) :=
  let s := sint (2 * ndim) in
  do hs <- HashSize w ndim;
  let n := sint hs in
  let s' := sizeof_ARRAY * n in
  if (0 <=? s') && (s' <? 2 ^ 31) then
    let tbl := repeat (ArrayInit sizeof_MDATA 8 alk) (Z.to_nat n) in
    Ok (MULTI.mk (-1)%Q 0 (MULTI.overheadsize ma + s + s') (MULTI.numelem ma)
          (-1) (MULTI.clean_thread ma) ndim (MULTI.ndim1 ma)
          (sint (4 * ndim)) esize n (sint (n - 1))
          (MULTI.aidx ma) (MULTI.isf ma) [] (MULTI.iidx ma) (MULTI.sidx ma)
          (MULTI.ridx ma) (MULTI.iblock ma) tbl (MULTI.ia ma) (MULTI.da ma)
          lk,
        mkGLOBALS (_maxsize g) (_totalsize g) (_overheadsize g + s + s'))
  else Undefined.

(** [memcmp(pt->index, k, ma->isize) == 0]: [isize] bytes are
    [isize / sizeof(int)] ints. *)
Definition same_index (isize : Z) (k : list Z) (e : MDATA V) : result bool :=
  match MDATA.index e with
  | Some idx => memcmp_eq idx k (Z.quot isize 4)
  | None => Undefined
  end.

Definition NMultiGet {IAT DAT} (ma : MULTI (list (ARRAY (MDATA V))) IAT DAT)
    (k : list Z) (lock : lock_out) : result (option V * lock_out) :=
  do h <- Hash2 w k (MULTI.ndim ma) 0 (MULTI.ndim ma) (MULTI.hmask ma);
  do a <- load (MULTI.array ma) h;
  do r <- scan_chain (same_index (MULTI.isize ma) k)
            (block a) (dim a) (data a) 0 0 None;
  match r with
  | Found _ e => Ok (MDATA.data e, write_lock lock (MDATA.lock e))
  | NotFound _ => Ok (None, lock)
  end.

(** [NMultiArrayFreeData]: every entry of every block of the chain is
    released and nothing is left; only definedness is recorded. *)
Fixpoint NMultiArrayFreeData (p : DATA (MDATA V)) (blk : Z)
    (FreeElem : free_hook V) : result unit :=
  match p with
  | NULL | Dangling => Undefined
  | Block dptr next =>
      do _ <- (if is_null next then Ok tt
               else NMultiArrayFreeData next blk FreeElem);
      match dptr with
      | Some buf =>
          if blk <=? Z.of_nat (length buf) then Ok tt else Undefined
      | None => Ok tt
      end
  end.

Definition NMultiFreeDataOnly (a : ARRAY (MDATA V)) (FreeElem : free_hook V)
    : result (ARRAY (MDATA V)) :=
  if dim a =? 0 then Ok a
  else
    do _ <- NMultiArrayFreeData (data a) (block a) FreeElem;
    Ok (set_data (set_dim a 0) NULL).

(** [NMultiFreeData].  The loop over the [hsize] buckets is a map over
    the first [hsize] cells of the table. *)
Definition NMultiFreeData {IAT DAT}
    (ma : MULTI (list (ARRAY (MDATA V))) IAT DAT) (g : GLOBALS)
    (FreeElem : free_hook V)
    : result (MULTI (list (ARRAY (MDATA V))) IAT DAT * GLOBALS) :=
  let t := inject_Z (MULTI.totalsize ma) in
  let gt := inject_Z (_totalsize g) in
  let clean :=
    if MULTI.clean_mode ma =? 0 then
      negb (Qltb t (MULTI.maxsize ma))
    else if MULTI.clean_mode ma =? 1 then
      negb (Qltb gt (_maxsize g) && Qle_bool t ((1 # 10) * gt))
    else
      negb (MULTI.totalsize ma <=? 0) in
  do (ma1, g1) <-
     (if clean then
        let tbl := MULTI.array ma in
        if (MULTI.hsize ma <=? Z.of_nat (length tbl)) then
          let n := Z.to_nat (MULTI.hsize ma) in
          do cleared <-
             map_result (fun a => NMultiFreeDataOnly a FreeElem) (take n tbl);
          let ma' := MULTI.set_clean_thread ma MyRankMPI in
          let ma' := MULTI.set_array ma' (cleared ++ drop n tbl) in
          let ma' := MULTI.set_totalsize ma' 0 in
          let ma' := MULTI.set_numelem ma' 0 in
          Ok (ma',
              mkGLOBALS (_maxsize g)
                (_totalsize g - MULTI.totalsize ma) (_overheadsize g))
        else Undefined
      else Ok (ma, g));
  Ok (MULTI.set_clean_mode ma1 (-1), g1).

(** The two triggers, lines 747 and 750-752. *)
Definition local_trigger {ARR IAT DAT} (ma : MULTI ARR IAT DAT) : bool :=
  Qltb 0 (MULTI.maxsize ma)
  && Qle_bool (MULTI.maxsize ma) (inject_Z (MULTI.totalsize ma)).

Definition global_trigger {ARR IAT DAT} (ma : MULTI ARR IAT DAT)
    (g : GLOBALS) : bool :=
  Qltb 0 (_maxsize g)
  && Qle_bool (_maxsize g) (inject_Z (_totalsize g))
  && Qltb ((1 # 10) * inject_Z (_totalsize g))
          (inject_Z (MULTI.totalsize ma)).

(** The block under [#pragma omp critical], lines 745-756. *)
Definition NMultiSet_critical {IAT DAT}
    (ma : MULTI (list (ARRAY (MDATA V))) IAT DAT) (g : GLOBALS)
    (FreeElem : free_hook V)
    : result (MULTI (list (ARRAY (MDATA V))) IAT DAT * GLOBALS) :=
  if local_trigger ma then
    NMultiFreeData (MULTI.set_clean_mode ma 0) g FreeElem
  else if global_trigger ma g then
    NMultiFreeData (MULTI.set_clean_mode ma 1) g FreeElem
  else Ok (ma, g).

(** The loop [while (p && j < i)], lines 783-806.  Block [nb] of the
    chain is under [p].  When the inner loop stops short of the block
    size with entries still to visit, the outer loop never ends. *)
Fixpoint NMultiSet_scan (same : MDATA V -> result bool) (blk i : Z)
    (p : DATA (MDATA V)) (nb : nat) (j : Z) : result (cursor (MDATA V)) :=
  match p with
  | NULL | Dangling => Undefined
  | Block dptr next =>
      do r <- scan_for same blk i (payload dptr) 0 0 j;
      match r with
      | Hit off _ e => Ok (AtEntry nb off e)
      | Miss m j' =>
          if m =? blk then
            match next with
            | NULL => Ok (NeedBlock nb)
            | Dangling => Undefined
            | Block _ _ =>
                if j' <? i then NMultiSet_scan same blk i next (S nb) j'
                else Ok (NeedBlock nb)
            end
          else if j' <? i then Undefined
          else Ok (AtFree nb (Z.to_nat m))
      end
  end.

(** Lines 856-876: the entry written under [pt]. *)
Definition new_entry (isize : Z) (k : list Z) (d : option V)
    (InitData : init_hook V) (newlock : option LOCK) : result (MDATA V) :=
  let n := Z.quot isize 4 in
  if (n <? 0) || (Z.of_nat (length k) <? n) then Undefined
  else
    Ok (MDATA.mk (Some (take (Z.to_nat n) k)) newlock
          (Some (match d with
                 | Some v => v
                 | None => run_hook InitData raw
                 end))).

(** Lines 856-881: the entry is written under [pt], slot [off] of block
    [nb] of the chain [p] of bucket [h], and the counters are advanced by
    its size and by [size0], the bytes of a block allocated on the way. *)
Definition NMultiSet_insert {IAT DAT}
    (ma : MULTI (list (ARRAY (MDATA V))) IAT DAT) (g : GLOBALS)
    (h : Z) (a : ARRAY (MDATA V)) (p : DATA (MDATA V)) (nb off : nat)
    (size0 : Z) (k : list Z) (d : option V) (lock : lock_out)
    (InitData : init_hook V) (newlock : option LOCK)
    : result (MULTI (list (ARRAY (MDATA V))) IAT DAT * GLOBALS
              * option V * lock_out) :=
  do e <- new_entry (MULTI.isize ma) k d InitData newlock;
  do p <- chain_update p nb off (fun _ => Ok e);
  let size := sint (sizeof_LOCK + sint (MULTI.esize ma + MULTI.isize ma)) in
  do tbl <- store (MULTI.array ma) h
              (set_dim (set_data a p) (sint (dim a + 1)));
  let ma := MULTI.set_array ma tbl in
  let ma := MULTI.set_totalsize ma (MULTI.totalsize ma + size0 + size) in
  let ma := MULTI.set_numelem ma (sint (MULTI.numelem ma + 1)) in
  Ok (ma,
      mkGLOBALS (_maxsize g) (_totalsize g + size0 + size) (_overheadsize g),
      MDATA.data e, write_lock lock newlock).

(** Lines 786-793: the entry under [pt] has the key; [d] is copied over
    its data if given. *)
Definition NMultiSet_overwrite (d : option V) (e : MDATA V)
    : result (MDATA V) :=
  match d, MDATA.data e with
  | Some v, Some _ => Ok (MDATA.mk (MDATA.index e) (MDATA.lock e) (Some v))
  | Some _, None => Undefined
  | None, _ => Ok e
  end.

(** Lines 757-881 of [NMultiSet], after the critical block.  [newlock] is
    what lines 857-865 leave in [pt->lock].  A sequential run never finds
    [a->dim > i] at line 811, [i] being the value of [a->dim] read at line
    779, so the second scan (lines 811-841) is not entered.  Acquiring and
    releasing the bucket lock changes no data. *)
Definition NMultiSet_body {IAT DAT}
    (ma : MULTI (list (ARRAY (MDATA V))) IAT DAT) (g : GLOBALS)
    (k : list Z) (d : option V) (lock : lock_out)
    (InitData : init_hook V) (newlock : option LOCK)
    : result (MULTI (list (ARRAY (MDATA V))) IAT DAT * GLOBALS
              * option V * lock_out) :=
  do h <- Hash2 w k (MULTI.ndim ma) 0 (MULTI.ndim ma) (MULTI.hmask ma);
  do a <- load (MULTI.array ma) h;
  let blocksize := sint (sizeof_DATA + bsize a) in
  if dim a =? 0 then
    NMultiSet_insert ma g h a
      (Block (Some (InitMDataData (block a))) NULL) 0 0 blocksize
      k d lock InitData newlock
  else if 0 <? dim a then
    do cur <- NMultiSet_scan (same_index (MULTI.isize ma) k)
                (block a) (dim a) (data a) 0 0;
    match cur with
    | AtEntry nb off e =>
        do p <- chain_update (data a) nb off (NMultiSet_overwrite d);
        do tbl <- store (MULTI.array ma) h (set_data a p);
        Ok (MULTI.set_array ma tbl, g,
            match d with Some v => Some v | None => MDATA.data e end,
            write_lock lock (MDATA.lock e))
    | AtFree nb off =>
        NMultiSet_insert ma g h a (data a) nb off 0
          k d lock InitData newlock
    | NeedBlock nb =>
        do p <- chain_set_next (data a) nb
                  (Block (Some (InitMDataData (block a))) NULL);
        NMultiSet_insert ma g h a p (S nb) 0 blocksize
          k d lock InitData newlock
    end
  else Undefined.

(** [NMultiSet]: the critical block, then the rest. *)
Definition NMultiSet {IAT DAT}
    (ma : MULTI (list (ARRAY (MDATA V))) IAT DAT) (g : GLOBALS)
    (k : list Z) (d : option V) (lock : lock_out)
    (InitData : init_hook V) (FreeElem : free_hook V)
    (newlock : option LOCK)
    : result (MULTI (list (ARRAY (MDATA V))) IAT DAT * GLOBALS
              * option V * lock_out) :=
  do (ma, g) <- NMultiSet_critical ma g FreeElem;
  NMultiSet_body ma g k d lock InitData newlock.

End NMulti.

(** ** Hybrid block-split multi-array (MMulti) *)

Section MMulti.
Context {V : Type} {rawV : Raw V} {rawZ : Raw Z}.
Variable w : Z.

Abbreviation MMULTI :=
  (MULTI (ARRAY V) (list (ARRAY (list Z))) (list (ARRAY V))).

(** The body of the loop at lines 1003-1010 of [MMultiInit], on
    [ma->block] and [ma->iblock]; [block] is the caller's [int] array. *)
Definition MMultiInit_block (block : list Z) (i : Z)
    (st : list Z * list Z) : result (list Z * list Z) :=
  let '(mb, ib) := st in
  do b <- load block i;
  do mb' <- store mb i (ushort b);
  do v <- (if 0 <? i then
             do prev <- load ib (i - 1); Ok (sint (b * prev))
           else Ok b);
  do ib' <- store ib i v;
  Ok (mb', ib').

(** [MMultiInit].  [ma] is the struct as found; the function assigns no
    value to [ma->hmask], [ma->numelem], [ma->overheadsize] or
    [ma->lock], which keep what the struct held.  [lk] is what the lock
    initialisation inside [ArrayInit] yields. *)
Definition MMultiInit {ARR IAT DAT} (ma : MULTI ARR IAT DAT)
    (esize ndim : Z) (block : list Z) (lk : option LOCK) : result MMULTI :=
  let ndim1 := sint (ndim - 1) in
  let isize := sint (2 * ndim) in
  let fresh := repeat raw (Z.to_nat ndim) in
  do (mb, ib) <- for_range 0 ndim (MMultiInit_block block) (fresh, fresh);
  do hs <- HashSize w ndim;
  let n := sint hs in
  do cell <- load ib ndim1;
  Ok (MULTI.mk (-1)%Q 0 (MULTI.overheadsize ma) (MULTI.numelem ma)
        (-1) (MULTI.clean_thread ma) ndim ndim1 isize esize n
        (MULTI.hmask ma) (MULTI.aidx ma) (MULTI.isf ma)
        mb fresh fresh fresh ib
        (ArrayInit esize cell lk)
        (repeat (ArrayInit isize 16 lk) (Z.to_nat n))
        (repeat (ArrayInit esize cell lk) (Z.to_nat n))
        (MULTI.lock ma)).

(** The body of the first loop of [MMultiIndex], lines 1028-1039. *)
Definition MMultiIndex_split (block k : list Z) (i : Z)
    (st : list Z * list Z * list Z * Z)
    : result (list Z * list Z * list Z * Z) :=
  let '(ii, si, ri, isf) := st in
  do ki <- load k i;
  do bi <- load block i;
  if bi <=? ki then
    if bi =? 0 then Undefined
    else
      let q := sint (Z.quot ki bi) in
      do ii' <- store ii i q;
      do si' <- store si i (ushort q);
      do ri' <- store ri i (ushort (Z.rem ki bi));
      Ok (ii', si', ri', 0)
  else
    do ii' <- store ii i 0;
    do si' <- store si i 0;
    do ri' <- store ri i (ushort ki);
    Ok (ii', si', ri', isf).

(** The body of the second loop, lines 1041-1043. *)
Definition MMultiIndex_offset (ridx iblock : list Z) (i : Z) (aidx : Z)
    : result Z :=
  do r <- load ridx i;
  do b <- load iblock (i - 1);
  Ok (sint (aidx + sint (r * b))).

Definition MMultiIndex {ARR IAT DAT} (ma : MULTI ARR IAT DAT) (k : list Z)
    : result (MULTI ARR IAT DAT) :=
  do (ii, si, ri, isf) <-
     for_range 0 (MULTI.ndim ma) (MMultiIndex_split (MULTI.block ma) k)
       (MULTI.iidx ma, MULTI.sidx ma, MULTI.ridx ma, 1);
  do r0 <- load ri 0;
  do aidx <- for_range 1 (MULTI.ndim ma)
               (MMultiIndex_offset ri (MULTI.iblock ma)) r0;
  Ok (MULTI.set_index ma ii si ri isf aidx).

(** [memcmp(pt, ma->sidx, ma->isize) == 0]: [isize] bytes are
    [isize / sizeof(unsigned short)] cells. *)
Definition same_cell (isize : Z) (sidx : list Z) (e : list Z) : result bool :=
  memcmp_eq e sidx (Z.quot isize 2).

(** [aidx + j*iblock[ndim1]] *)
Definition cell_offset {ARR IAT DAT} (ma : MULTI ARR IAT DAT) (j : Z)
    : result Z :=
  do c <- load (MULTI.iblock ma) (MULTI.ndim1 ma);
  Ok (sint (MULTI.aidx ma + sint (j * c))).

(** [MMultiGet]; [MMultiIndex] leaves the split of [k] in the struct. *)
Definition MMultiGet (ma : MMULTI) (k : list Z) (lock : lock_out)
    : result (MMULTI * option V * lock_out) :=
  do ma <- MMultiIndex ma k;
  if negb (MULTI.isf ma =? 0) then
    do r <- ArrayGet (MULTI.array ma) (MULTI.aidx ma);
    Ok (ma, r, lock)
  else
    do h <- Hash2 w (MULTI.iidx ma) (MULTI.ndim ma) 0 (MULTI.ndim ma)
              (MULTI.hmask ma);
    do a <- load (MULTI.ia ma) h;
    do r <- scan_chain (same_cell (MULTI.isize ma) (MULTI.sidx ma))
              (block a) (dim a) (data a) 0 0 None;
    match r with
    | Found j _ =>
        do da <- load (MULTI.da ma) h;
        do o <- cell_offset ma j;
        do v <- ArrayGet da o;
        Ok (ma, v, lock)
    | NotFound _ => Ok (ma, None, lock)
    end.

(** A block of the index array filled with bytes [0xFF], lines 1094-1101
    and 1120-1128: [bsize] bytes are [block] cells of [isize] bytes. *)
Definition ff_block (a : ARRAY (list Z)) : DATA (list Z) :=
  Block (Some (repeat (repeat 65535 (Z.to_nat (Z.quot (esize a) 2)))
                 (Z.to_nat (block a)))) NULL.

(** [MMultiSet]. *)
Definition MMultiSet (ma : MMULTI) (k : list Z) (d : option V)
    (lock : lock_out) (InitData : init_hook V) (FreeElem : free_hook V)
    : result (MMULTI * V * lock_out) :=
  do ma <- MMultiIndex ma k;
  if negb (MULTI.isf ma =? 0) then
    do (arr, pt) <- ArraySet (MULTI.array ma) (MULTI.aidx ma) d InitData;
    Ok (MULTI.set_array ma arr, pt, lock)
  else
    do h <- Hash2 w (MULTI.iidx ma) (MULTI.ndim ma) 0 (MULTI.ndim ma)
              (MULTI.hmask ma);
    do a <- load (MULTI.ia ma) h;
    do r <- (if dim a =? 0 then Ok (inr (ff_block a, O, O))
             else
               do r <- scan_chain (same_cell (MULTI.isize ma) (MULTI.sidx ma))
                         (block a) (dim a) (data a) 0 0 None;
               match r with
               | Found j _ => Ok (inl j)
               | NotFound None => Undefined
               | NotFound (Some (nb, m)) =>
                   if m =? block a then
                     do p <- chain_set_next (data a) nb (ff_block a);
                     Ok (inr (p, S nb, O))
                   else Ok (inr (data a, nb, Z.to_nat m))
               end);
    match r with
    | inl j =>
        do da <- load (MULTI.da ma) h;
        do o <- cell_offset ma j;
        do (da', pt) <- ArraySet da o d InitData;
        do tbl <- store (MULTI.da ma) h da';
        Ok (MULTI.set_da ma tbl, pt, lock)
    | inr (p, nb, off) =>
        let n := Z.quot (MULTI.isize ma) 2 in
        if (n <? 0) || (Z.of_nat (length (MULTI.sidx ma)) <? n)
        then Undefined
        else
          do p' <- chain_update p nb off
                     (fun _ => Ok (take (Z.to_nat n) (MULTI.sidx ma)));
          do o <- cell_offset ma (dim a);
          do itbl <- store (MULTI.ia ma) h
                       (set_dim (set_data a p') (sint (dim a + 1)));
          do da <- load (MULTI.da ma) h;
          do (da', pt) <- ArraySet da o d InitData;
          do tbl <- store (MULTI.da ma) h da';
          Ok (MULTI.set_da (MULTI.set_ia ma itbl) tbl, pt, lock)
    end.

End MMulti.

(** * Definitions used in the statements *)

(** A struct as [malloc] may return it, before any [...Init] call; [hm] is
    what the [hmask] field happens to hold. *)
Definition blank_MULTI (hm : Z) : MULTI unit unit unit :=
  MULTI.mk 0%Q 0 0 0 0 0 0 0 0 0 0 hm 0 0 [] [] [] [] [] tt tt tt None.

(** A hash-sparse array with one bucket holding one entry, whose lock is
    the lock at address 1. *)
Definition one_entry_NMULTI : MULTI (list (ARRAY (MDATA Z))) unit unit :=
  MULTI.mk (-1)%Q 0 0 1 (-1) 0 1 0 4 8 1 0 0 0 [] [] [] [] []
    [mkARRAY 24 8 192 1
       (Block (Some (MDATA.mk (Some [5]) (Some (LockAt 1)) (Some 70)
                     :: repeat (MDATA.mk None None None) 7)) NULL) None]
    tt tt None.

(** Keys used to show that [Hash2] reads every word of its key: the zero
    key of length [n] and the key with [c] at position [i]. *)
Definition probe_key (n i : nat) (c : Z) : list Z := <[i := c]> (repeat 0 n).

(** The bucket of [k] in a table for [ndim] dimensions, mask
    [HashMask(ndim)]. *)
Definition bucket_of (w ndim : Z) (k : list Z) : result Z :=
  do hs <- HashSize w ndim;
  Hash2 w k ndim 0 ndim (sint (sint hs - 1)).

Definition buckets_differ (x y : result Z) : bool :=
  match x, y with
  | Ok a, Ok b => negb (a =? b)
  | _, _ => false
  end.

(** Position [i] of a key of length [n] is seen by the hash: two keys that
    differ there only fall in different buckets. *)
Definition position_seen (w : Z) (n i : nat) : bool :=
  buckets_differ (bucket_of w (Z.of_nat n) (repeat 0 n))
                 (bucket_of w (Z.of_nat n) (probe_key n i 1)).

Definition all_positions_seen (w : Z) : bool :=
  forallb (fun n => forallb (position_seen w n) (seq 0 n)) (seq 1 29).

(** The residual that [MMultiIndex] stores for a coordinate [ki] in a
    dimension of block size [bi]. *)
Definition residual (ki bi : Z) : Z :=
  ushort (if bi <=? ki then Z.rem ki bi else ki).

(** [sum over i of r[i+1] * ib[i]] *)
Fixpoint weighted_sum (r ib : list Z) : Z :=
  match r, ib with
  | x :: r', b :: ib' => x * b + weighted_sum r' ib'
  | _, _ => 0
  end.

(** [residual[0] + sum over i >= 1 of residual[i] * iblock[i-1]] *)
Definition dense_offset (r ib : list Z) : Z :=
  match r with
  | [] => 0
  | r0 :: r' => r0 + weighted_sum r' ib
  end.


(** The index storage of a hybrid array has [ndim] cells each. *)
Definition MMulti_shape {ARR IAT DAT : Type} (ma : MULTI ARR IAT DAT) : Prop :=
  0 < MULTI.ndim ma
  /\ length (MULTI.block ma) = Z.to_nat (MULTI.ndim ma)
  /\ length (MULTI.iidx ma) = Z.to_nat (MULTI.ndim ma)
  /\ length (MULTI.sidx ma) = Z.to_nat (MULTI.ndim ma)
  /\ length (MULTI.ridx ma) = Z.to_nat (MULTI.ndim ma)
  /\ length (MULTI.iblock ma) = Z.to_nat (MULTI.ndim ma).


(** Coordinate [j] of the key [k] is below its block size. *)
Definition below (block k : list Z) (j : nat) : Prop :=
  exists kj bj, k !! j = Some kj /\ block !! j = Some bj /\ kj < bj.

(** The state of the first loop of [MMultiIndex] after [i] rounds, the
    index storage having [n] cells. *)
Definition split_inv (n : nat) (block k : list Z) (i : Z)
    (st : list Z * list Z * list Z * Z) : Prop :=
  let '(ii, si, ri, isf) := st in
  length ii = n /\ length si = n /\ length ri = n
  /\ (forall j kj bj, (Z.of_nat j < i) -> k !! j = Some kj ->
       block !! j = Some bj -> ri !! j = Some (residual kj bj))
  /\ ((isf = 1 /\ forall j, Z.of_nat j < i -> below block k j)
      \/ (isf = 0 /\ exists j, Z.of_nat j < i /\ ~ below block k j)).

(** The second loop: after the rounds before [i], [aidx] is the offset of
    the first [i] residuals. *)
Definition offset_inv (iblock ri : list Z) (i : Z) (aidx : Z) : Prop :=
  aidx = sint (dense_offset (take (Z.to_nat i) ri) iblock).

(** The hybrid array of the scenarios: two dimensions, block sizes 4 and 4,
    elements of 8 bytes, initialised in a struct whose [hmask] field holds
    [hm]. *)
Definition MMulti_4x4 (w hm : Z) {V : Type}
    : result (MULTI (ARRAY V) (list (ARRAY (list Z))) (list (ARRAY V))) :=
  MMultiInit (rawZ := 0) w (blank_MULTI hm) 8 2 [4; 4] None.

Definition MMulti_demo : MULTI (ARRAY Z) (list (ARRAY (list Z))) (list (ARRAY Z)) :=
  match MMulti_4x4 64 131071 with
  | Ok ma => ma
  | Undefined =>
      MULTI.mk 0%Q 0 0 0 0 0 0 0 0 0 0 0 0 0 [] [] [] [] []
        (mkARRAY 0 0 0 0 NULL None) [] [] None
  end.


(** The scenario on that array: two [Set]s, then three [Get]s; with each
    value read, the [isf] flag the [Get] left. *)
Definition MMulti_scenario {V : Type} {rawV : Raw V} (w hm : Z) (x y : V)
    : result (option V * Z * option V * Z * option V) :=
  do ma <- MMulti_4x4 w hm;
  do (ma, _, _) <- MMultiSet w ma [1; 2] (Some x) None None None;
  do (ma, _, _) <- MMultiSet w ma [5; 2] (Some y) None None None;
  do (ma, r1, _) <- MMultiGet w ma [1; 2] None;
  let isf1 := MULTI.isf ma in
  do (ma, r2, _) <- MMultiGet w ma [5; 2] None;
  let isf2 := MULTI.isf ma in
  do (ma, r3, _) <- MMultiGet w ma [1; 3] None;
  Ok (r1, isf1, r2, isf2, r3).


(** A chain that holds the elements [l], at least one, in blocks of [blk]
    cells: full blocks, then a last block whose unused cells hold [fill]. *)
Inductive stores {A : Type} (blk : nat) (fill : A) : list A -> DATA A -> Prop :=
| stores_last (l : list A) :
    (0 < length l <= blk)%nat ->
    stores blk fill l (Block (Some (l ++ repeat fill (blk - length l))) NULL)
| stores_more (buf l : list A) (p : DATA A) :
    length buf = blk -> stores blk fill l p ->
    stores blk fill (buf ++ l) (Block (Some buf) p).

(** An array that holds exactly the elements [l]. *)
Definition arr_holds {A : Type} (fill : A) (a : ARRAY A) (l : list A) : Prop :=
  dim a = Z.of_nat (length l)
  /\ match l with
     | [] => data a = NULL
     | _ => stores (Z.to_nat (block a)) fill l (data a)
     end.


(** The first entry of [l] that [same] accepts, with its position. *)
Fixpoint first_match {E : Type} (same : E -> result bool) (l : list E)
    : option (nat * E) :=
  match l with
  | [] => None
  | e :: l' =>
      match same e with
      | Ok true => Some (O, e)
      | _ => match first_match same l' with
             | Some (t, x) => Some (S t, x)
             | None => None
             end
      end
  end.

(** [same] has a defined result on every entry of [l]. *)
Definition same_defined {E : Type} (same : E -> result bool) (l : list E) : Prop :=
  Forall (fun e => exists b, same e = Ok b) l.


(** An entry as [InitMDataData] leaves it. *)
Definition null_entry {V : Type} : MDATA V := MDATA.mk None None None.

(** A live entry of an array of [nd] dimensions: a key of [nd] ints and a
    data buffer. *)
Definition entry_ok {V : Type} (nd : Z) (e : MDATA V) : Prop :=
  exists key v,
    MDATA.index e = Some key /\ Z.of_nat (length key) = nd
    /\ MDATA.data e = Some v.

(** The bucket [a] holds the entries [es], at most [N] of them, with
    distinct keys. *)
Definition bucket_rep {V : Type} (nd N : Z) (a : ARRAY (MDATA V))
    (es : list (MDATA V)) : Prop :=
  block a = 8
  /\ arr_holds null_entry a es
  /\ Z.of_nat (length es) <= N
  /\ Forall (entry_ok nd) es
  /\ NoDup (map MDATA.index es).

(** The hash-sparse array [ma] of [nd] dimensions holds the entries [ess],
    bucket by bucket. *)
Definition NMulti_rep {V IAT DAT : Type} (nd N : Z)
    (ma : MULTI (list (ARRAY (MDATA V))) IAT DAT)
    (ess : list (list (MDATA V))) : Prop :=
  0 <= nd <= 29
  /\ MULTI.ndim ma = nd
  /\ MULTI.isize ma = 4 * nd
  /\ MULTI.hsize ma = 2 ^ (nd / 2 + 16)
  /\ MULTI.hmask ma = 2 ^ (nd / 2 + 16) - 1
  /\ Forall2 (bucket_rep nd N) (MULTI.array ma) ess
  /\ Z.of_nat (length ess) = 2 ^ (nd / 2 + 16).

(** The entry with key [k] among [es], as the scans find it. *)
Definition find_key {V : Type} (nd : Z) (k : list Z) (es : list (MDATA V))
    : option (nat * MDATA V) :=
  first_match (same_index (4 * nd) k) es.

(** What [NMultiSet] writes for the key [k]: the data [d] if given, else
    the initialised buffer. *)
Definition fresh_entry {V : Type} {rawV : Raw V} (k : list Z) (d : option V)
    (InitData : init_hook V) (newlock : option LOCK) : MDATA V :=
  MDATA.mk (Some k) newlock
    (Some (match d with Some v => v | None => run_hook InitData raw end)).

(** The entry [e] after [NMultiSet] found it. *)
Definition overwritten {V : Type} (d : option V) (e : MDATA V) : MDATA V :=
  match d with
  | Some v => MDATA.mk (MDATA.index e) (MDATA.lock e) (Some v)
  | None => e
  end.

(** The entries of a bucket after [NMultiSet] of the key [k]. *)
Definition set_entries {V : Type} {rawV : Raw V} (nd : Z) (k : list Z)
    (d : option V) (InitData : init_hook V) (newlock : option LOCK)
    (es : list (MDATA V)) : list (MDATA V) :=
  match find_key nd k es with
  | Some (t, e) => <[t := overwritten d e]> es
  | None => es ++ [fresh_entry k d InitData newlock]
  end.

(** What [NMultiGet] returns for an entry found or not. *)
Definition get_view {V : Type} (r : option (nat * MDATA V)) (lock : lock_out)
    : option V * lock_out :=
  match r with
  | Some (_, e) => (MDATA.data e, write_lock lock (MDATA.lock e))
  | None => (None, lock)
  end.


(** The entry for the key [k] after [NMultiSet]. *)
Definition set_entry {V : Type} {rawV : Raw V} (nd : Z) (k : list Z)
    (d : option V) (InitData : init_hook V) (newlock : option LOCK)
    (es : list (MDATA V)) : MDATA V :=
  match find_key nd k es with
  | Some (_, e) => overwritten d e
  | None => fresh_entry k d InitData newlock
  end.


(** The calls made on one hash-sparse array: [NMultiSet] with its key,
    data, hook and the lock it creates, and [LimitMultiSize] on the array
    ([cache = true]) or on the global budget. *)
Inductive call (V : Type) : Type :=
| CallSet (k : list Z) (d : option V) (InitData : init_hook V)
    (newlock : option LOCK)
| CallLimit (cache : bool) (r : Q).
Arguments CallSet {V} k d InitData newlock.
Arguments CallLimit {V} cache r.

(** A sequence of calls; the flag tells whether some [NMultiSet] found a
    trigger at its start and evicted. *)
Fixpoint NMulti_run {V : Type} {rawV : Raw V}
    (w sizeof_DATA sizeof_LOCK MyRankMPI : Z) (FreeElem : free_hook V)
    (ma : MULTI (list (ARRAY (MDATA V))) unit unit) (g : GLOBALS)
    (cs : list (call V))
    : result (MULTI (list (ARRAY (MDATA V))) unit unit * GLOBALS * bool) :=
  match cs with
  | [] => Ok (ma, g, false)
  | CallSet k d InitData newlock :: cs' =>
      let fired := local_trigger ma || global_trigger ma g in
      do (ma', g', _, _) <-
         NMultiSet w sizeof_DATA sizeof_LOCK MyRankMPI ma g k d None
           InitData FreeElem newlock;
      do (ma'', g'', ev) <-
         NMulti_run w sizeof_DATA sizeof_LOCK MyRankMPI FreeElem ma' g' cs';
      Ok (ma'', g'', fired || ev)
  | CallLimit cache r :: cs' =>
      if cache then
        NMulti_run w sizeof_DATA sizeof_LOCK MyRankMPI FreeElem
          (MULTI.set_maxsize ma r) g cs'
      else
        NMulti_run w sizeof_DATA sizeof_LOCK MyRankMPI FreeElem
          ma (mkGLOBALS r (_totalsize g) (_overheadsize g)) cs'
  end.

(** Every key of the calls has [nd] ints. *)
Definition keys_ok {V : Type} (nd : Z) (cs : list (call V)) : bool :=
  forallb (fun c => match c with
                    | CallSet k _ _ _ => Z.of_nat (length k) =? nd
                    | CallLimit _ _ => true
                    end) cs.

(** [Set(k, v)] calls with the same hook and lock. *)
Definition sets_of {V : Type} (InitData : init_hook V) (newlock : option LOCK)
    (kvs : list (list Z * V)) : list (call V) :=
  map (fun kv => CallSet (fst kv) (Some (snd kv)) InitData newlock) kvs.

(** The value most recently set for the key [k], [cur] if none. *)
Fixpoint last_set {V : Type} (k : list Z) (kvs : list (list Z * V))
    (cur : option V) : option V :=
  match kvs with
  | [] => cur
  | (k', v) :: kvs' =>
      last_set k kvs' (if decide (k' = k) then Some v else cur)
  end.

(** The keys stored in the table, bucket by bucket, as the chains hold
    them. *)
Fixpoint chain_cells {E : Type} (p : DATA E) : list E :=
  match p with
  | Block dptr next => payload dptr ++ chain_cells next
  | _ => []
  end.

Definition bucket_keys {V : Type} (a : ARRAY (MDATA V))
    : list (option (list Z)) :=
  map MDATA.index (take (Z.to_nat (dim a)) (chain_cells (data a))).

Definition table_keys {V IAT DAT : Type}
    (ma : MULTI (list (ARRAY (MDATA V))) IAT DAT)
    : list (list (option (list Z))) :=
  map bucket_keys (MULTI.array ma).


(** The cache [ma] with entries [ess] has been flushed into [ma1]: no
    entry left, the total back to zero, the ledger [g1] lower than [g] by
    the total the cache had. *)
Definition flushed {V : Type} (nd N : Z)
    (ma : MULTI (list (ARRAY (MDATA V))) unit unit) (g : GLOBALS)
    (ess : list (list (MDATA V)))
    (ma1 : MULTI (list (ARRAY (MDATA V))) unit unit) (g1 : GLOBALS) : Prop :=
  NMulti_rep nd N ma1 (map (fun _ => []) ess)
  /\ MULTI.totalsize ma1 = 0
  /\ MULTI.numelem ma1 = 0
  /\ MULTI.clean_mode ma1 = -1
  /\ MULTI.maxsize ma1 = MULTI.maxsize ma
  /\ MULTI.esize ma1 = MULTI.esize ma
  /\ _totalsize g1 = _totalsize g - MULTI.totalsize ma
  /\ _maxsize g1 = _maxsize g
  /\ _overheadsize g1 = _overheadsize g.


(** The entry with the key [k] in the table [ess] of an array of [nd]
    dimensions: the bucket of the key, then the scan of its entries. *)
Definition entry_of {V : Type} (w nd : Z) (ess : list (list (MDATA V)))
    (k : list Z) : option (MDATA V) :=
  match bucket_of w nd k with
  | Ok h =>
      match ess !! Z.to_nat h with
      | Some es => option_map snd (find_key nd k es)
      | None => None
      end
  | Undefined => None
  end.

(** What [NMultiGet] returns for the entry [r] of the key, or for none. *)
Definition entry_view {V : Type} (r : option (MDATA V)) (lock : lock_out)
    : option V * lock_out :=
  match r with
  | Some e => (MDATA.data e, write_lock lock (MDATA.lock e))
  | None => (None, lock)
  end.

(** The entry of the key [k] after [NMultiSet], [r] being the entry the
    call found, if any. *)
Definition entry_set {V : Type} {rawV : Raw V} (k : list Z) (d : option V)
    (InitData : init_hook V) (newlock : option LOCK) (r : option (MDATA V))
    : MDATA V :=
  match r with
  | Some e => overwritten d e
  | None => fresh_entry k d InitData newlock
  end.

(** [NMultiInit] on the struct [ma0], then the calls [cs]. *)
Definition NMulti_start {V : Type} {rawV : Raw V} {ARR : Type}
    (w sizeof_DATA sizeof_LOCK sizeof_MDATA sizeof_ARRAY MyRankMPI : Z)
    (FreeElem : free_hook V) (ma0 : MULTI ARR unit unit) (g0 : GLOBALS)
    (esize ndim : Z) (block : list Z) (lk alk : option LOCK)
    (cs : list (call V))
    : result (MULTI (list (ARRAY (MDATA V))) unit unit * GLOBALS * bool) :=
  do (ma, g) <- NMultiInit w sizeof_MDATA sizeof_ARRAY ma0 g0 esize ndim
                  block lk alk;
  NMulti_run w sizeof_DATA sizeof_LOCK MyRankMPI FreeElem ma g cs.

(** The ledger of a process that has allocated nothing yet, lines 37-39. *)
Definition fresh_GLOBALS : GLOBALS := mkGLOBALS (-1)%Q 0 0.

(** On the hybrid array of the scenarios, [Set([1,2], x)], then [Get] of
    the key [[1,1]], which no call has set. *)
Definition MMulti_unset_key (w hm x raw0 : Z) : result (option Z) :=
  do ma <- MMulti_4x4 w hm;
  do (ma, _, _) <- MMultiSet (rawV := raw0) w ma [1; 2] (Some x) None None None;
  do (_, r, _) <- MMultiGet w ma [1; 1] None;
  Ok r.

(** On the hybrid array of the scenarios with a budget of one byte and
    [100] bytes accounted by [AddMultiSize]: two [MMultiSet]s.  The result
    tells whether the local trigger held before each, what [Get([1,2])]
    returns afterwards, and the total of the array at the end. *)
Definition MMulti_over_budget (w x y : Z)
    : result (bool * bool * option Z * Z) :=
  do ma <- MMulti_4x4 w 131071;
  match LimitMultiSize (Some ma) fresh_GLOBALS 1 with
  | (Some ma, g) =>
      let (ma, g) := AddMultiSize ma g 100 in
      let t1 := local_trigger ma in
      do (ma, _, _) <- MMultiSet (rawV := 0) w ma [1; 2] (Some x) None None None;
      let t2 := local_trigger ma in
      do (ma, _, _) <- MMultiSet (rawV := 0) w ma [1; 1] (Some y) None None None;
      do (ma, r, _) <- MMultiGet w ma [1; 2] None;
      Ok (t1, t2, r, MULTI.totalsize ma)
  | (None, _) => Undefined
  end.

(** On a fresh hash-sparse array of two dimensions with a budget of [B]
    bytes: [Set([1,2], x)] creating the lock [l1], then [Set([1,2], NULL)]
    creating the lock [l2] if it inserts.  The result has the data and the
    lock each call returns, then the ledger before and after the second
    call. *)
Definition NMulti_set_twice (w : Z) (B : Q) (x raw0 : Z) (l1 l2 : option LOCK)
    : result (option Z * lock_out * option Z * lock_out * GLOBALS * GLOBALS) :=
  do (ma, g) <- NMultiInit (V := Z) w 24 32 (blank_MULTI 0) fresh_GLOBALS
                  8 2 [4; 4] None None;
  match LimitMultiSize (Some ma) g B with
  | (Some ma, g) =>
      do (ma, g1, r1, o1) <-
         NMultiSet (rawV := raw0) w 16 40 0 ma g [1; 2] (Some x) (Some None)
           None None l1;
      do (ma, g2, r2, o2) <-
         NMultiSet (rawV := raw0) w 16 40 0 ma g1 [1; 2] None (Some None)
           None None l2;
      Ok (r1, o1, r2, o2, g1, g2)
  | (None, _) => Undefined
  end.



(** ** Block arrays written at any index *)

(** A chain of live blocks that ends in [NULL]; every payload present has
    [b] cells. *)
Inductive chain_wf {A : Type} (b : Z) : DATA A -> Prop :=
| chain_wf_null : chain_wf b NULL
| chain_wf_block (dptr : option (list A)) (next : DATA A) :
    (forall buf, dptr = Some buf -> Z.of_nat (length buf) = b) ->
    chain_wf b next -> chain_wf b (Block dptr next).

(** The number of blocks of a chain. *)
Fixpoint chain_nodes {A : Type} (p : DATA A) : nat :=
  match p with
  | Block _ next => S (chain_nodes next)
  | _ => O
  end.

(** The cell [i] of a chain, if its block is there and has a payload. *)
Fixpoint chain_cell {A : Type} (b : Z) (p : DATA A) (i : Z) : option A :=
  match p with
  | Block dptr next =>
      if b <=? i then chain_cell b next (i - b)
      else match dptr with
           | Some buf => buf !! Z.to_nat i
           | None => None
           end
  | _ => None
  end.

(** An array as [ArrayInit] and [ArraySet] leave it: a positive block
    size, and when it has elements a chain long enough for all of them. *)
Definition arr_wf {A : Type} (a : ARRAY A) : Prop :=
  1 <= block a /\ 0 <= dim a < 2 ^ 31
  /\ (0 < dim a ->
      chain_wf (block a) (data a)
      /\ (dim a - 1) / block a < Z.of_nat (chain_nodes (data a))).

(** The sizes of an array whose blocks have room for their elements:
    elements of at least one byte, and [bsize] the bytes of [block] of
    them, as [ArrayInit] computes it when the product fits an [int]. *)
Definition arr_sized {A : Type} (a : ARRAY A) : Prop :=
  0 < esize a /\ bsize a = esize a * block a /\ esize a * block a < 2 ^ 31.

(** [ArraySet(a, i, &v, InitData)] for each [(i, v)] of a list. *)
Fixpoint set_all {A : Type} {rawA : Raw A} (a : ARRAY A) (ops : list (Z * A))
    (InitData : init_hook A) : result (ARRAY A) :=
  match ops with
  | [] => Ok a
  | (i, v) :: ops' =>
      do (a', _) <- ArraySet a i (Some v) InitData;
      set_all a' ops' InitData
  end.

(** One more than the largest index written. *)
Fixpoint extent {A : Type} (ops : list (Z * A)) (cur : Z) : Z :=
  match ops with
  | [] => cur
  | (i, _) :: ops' => extent ops' (Z.max cur (i + 1))
  end.

(** The cell [i] after the writes [ops], [cur] being what it holds before:
    a write at [i] leaves its value there, and a write elsewhere in the
    block of [i] leaves there what the cell had, or an initialised cell
    [init] if the block had no payload yet. *)
Fixpoint cell_after {A : Type} (b : Z) (init : A) (ops : list (Z * A))
    (i : Z) (cur : option A) : option A :=
  match ops with
  | [] => cur
  | (i0, v) :: ops' =>
      cell_after b init ops' i
        (if i =? i0 then Some v
         else if i / b =? i0 / b then Some (default init cur)
         else cur)
  end.

(** The link [q] blocks down the chain points to freed storage. *)
Fixpoint dangling_at {A : Type} (q : nat) (p : DATA A) : Prop :=
  match q, p with
  | O, Dangling => True
  | S q', Block _ next => dangling_at q' next
  | _, _ => False
  end.


(** ** Index arrays *)

(** The position of the last occurrence of [v] in [d], counted from [k];
    [cur] if there is none. *)
Fixpoint last_index (v : Z) (d : list Z) (k cur : Z) : Z :=
  match d with
  | [] => cur
  | x :: d' => last_index v d' (k + 1) (if x =? v then k else cur)
  end.


(** ** The counters of a hash-sparse array *)

(** The sum of [f] over a list. *)
Definition sum_with {X : Type} (f : X -> Z) (l : list X) : Z :=
  fold_right (fun x s => f x + s) 0 l.

(** The bytes [NMultiSet] adds to the totals for a bucket of [n] entries:
    [blockbytes] for every block of 8 entries started, [entrybytes] for
    every entry. *)
Definition bucket_bytes (blockbytes entrybytes n : Z) : Z :=
  (n + 7) / 8 * blockbytes + n * entrybytes.

(** What [NMultiInit] fixes for the life of the array: the element size,
    the mode of the next flush, and the block bytes of every bucket. *)
Definition NMulti_static {V IAT DAT : Type} (esz bs : Z)
    (ma : MULTI (list (ARRAY (MDATA V))) IAT DAT) : Prop :=
  MULTI.esize ma = esz /\ MULTI.clean_mode ma = -1
  /\ Forall (fun a => bsize a = bs) (MULTI.array ma).

(** [NMultiFree].  [free(ma->array)] and [free(ma->block)] leave [NULL]
    in the two fields, an array of no cells. *)
Definition NMultiFree {V IAT DAT : Type} (MyRankMPI : Z)
    (ma : MULTI (list (ARRAY (MDATA V))) IAT DAT) (g : GLOBALS)
    (FreeElem : free_hook V)
    : result (MULTI (list (ARRAY (MDATA V))) IAT DAT * GLOBALS) :=
  if MULTI.ndim ma <=? 0 then Ok (ma, g)
  else
    do (ma1, g1) <- NMultiFreeData MyRankMPI ma g FreeElem;
    Ok (MULTI.mk (MULTI.maxsize ma1) (MULTI.totalsize ma1)
          (MULTI.overheadsize ma1) (MULTI.numelem ma1) (MULTI.clean_mode ma1)
          (MULTI.clean_thread ma1) 0 (MULTI.ndim1 ma1) (MULTI.isize ma1)
          (MULTI.esize ma1) (MULTI.hsize ma1) (MULTI.hmask ma1)
          (MULTI.aidx ma1) (MULTI.isf ma1) [] (MULTI.iidx ma1)
          (MULTI.sidx ma1) (MULTI.ridx ma1) (MULTI.iblock ma1) []
          (MULTI.ia ma1) (MULTI.da ma1) None,
        g1).


(** ** The dense layout of a hybrid array *)

(** [iblock] as the loop of [MMultiInit] fills it from the block sizes
    [bs]: [iblock[0] = bs[0]], [iblock[i] = bs[i] * iblock[i-1]]; [c] is the
    product so far. *)
Fixpoint running_products (c : Z) (bs : list Z) : list Z :=
  match bs with
  | [] => []
  | b :: bs' => (b * c) :: running_products (b * c) bs'
  end.

(** Every coordinate of the key [k] is in [0, bs[i]). *)
Definition in_blocks (k bs : list Z) : Prop :=
  Forall2 (fun x b => 0 <= x < b) k bs.

(** The key as a number in the mixed radix of the block sizes. *)
Fixpoint radix (k bs : list Z) : Z :=
  match k, bs with
  | x :: k', b :: bs' => x + b * radix k' bs'
  | _, _ => 0
  end.

(** [MMultiSet(ma, k, &v, NULL, InitData, FreeElem)] for each [(k, v)] of a
    list. *)
Fixpoint MMulti_set_all {V : Type} {rawV : Raw V} (w : Z)
    (ma : MULTI (ARRAY V) (list (ARRAY (list Z))) (list (ARRAY V)))
    (kvs : list (list Z * V)) (InitData : init_hook V)
    (FreeElem : free_hook V)
    : result (MULTI (ARRAY V) (list (ARRAY (list Z))) (list (ARRAY V))) :=
  match kvs with
  | [] => Ok ma
  | (k, v) :: kvs' =>
      do (ma', _, _) <- MMultiSet w ma k (Some v) None InitData FreeElem;
      MMulti_set_all w ma' kvs' InitData FreeElem
  end.

(** ** The tree of a dense nested array *)

(** An element of an inner array of a dense nested array: the [ARRAY] of
    the next dimension, either as [InitArrayData] leaves it, with [esize]
    and [dim] zero, or in use and satisfying [wf]. *)
Definition node_wf {V : Type} (wf : ARRAY (SNODE V) -> Prop) (y : SNODE V)
    : Prop :=
  match y with
  | SArray sub => if esize sub =? 0 then dim sub = 0 else wf sub
  | _ => False
  end.

(** An array with [depth] dimensions below it, as [SMultiSet] leaves
    it when the bytes of every block fit an [int]. *)
Fixpoint level_wf {V : Type} (depth : nat) (a : ARRAY (SNODE V)) : Prop :=
  arr_wf a /\ arr_sized a
  /\ match depth with
     | O => True
     | S depth' =>
         forall j y, 0 <= j -> chain_cell (block a) (data a) j = Some y ->
                     node_wf (level_wf depth') y
     end.

(** A dense nested array as [SMultiInit] and [SMultiSet] leave it, when
    the block sizes and the two element sizes are positive and a block of
    either kind of element has less than [2^31] bytes. *)
Definition SMulti_wf {V IAT DAT : Type} (sizeof_ARRAY : Z)
    (ma : MULTI (option (ARRAY (SNODE V))) IAT DAT) : Prop :=
  1 <= MULTI.ndim ma < 2 ^ 31
  /\ Z.of_nat (length (MULTI.block ma)) = MULTI.ndim ma
  /\ Forall (fun b => 1 <= b) (MULTI.block ma)
  /\ 0 < sizeof_ARRAY /\ 0 < MULTI.esize ma
  /\ Forall (fun b => sizeof_ARRAY * b < 2 ^ 31
                      /\ MULTI.esize ma * b < 2 ^ 31) (MULTI.block ma)
  /\ match MULTI.array ma with
     | None => True
     | Some a => level_wf (Z.to_nat (MULTI.ndim ma - 1)) a
     end.

(** [SMultiSet(ma, k, &v, NULL, InitData, FreeElem)] for each [(k, v)] of a
    list. *)
Fixpoint SMulti_set_all {V : Type} {rawV : Raw V} {rawZ : Raw Z}
    {rawL : Raw (option LOCK)} {IAT DAT : Type} (sizeof_ARRAY : Z)
    (ma : MULTI (option (ARRAY (SNODE V))) IAT DAT)
    (kvs : list (list Z * V)) (InitData : init_hook V)
    (FreeElem : free_hook V) (lk : option LOCK)
    : result (MULTI (option (ARRAY (SNODE V))) IAT DAT) :=
  match kvs with
  | [] => Ok ma
  | (k, v) :: kvs' =>
      do (ma', _, _) <-
         SMultiSet sizeof_ARRAY ma k (Some v) None InitData FreeElem lk;
      SMulti_set_all sizeof_ARRAY ma' kvs' InitData FreeElem lk
  end.

(** ** Freeing a dense nested array *)

(** [SMultiFreeDataOnly(a, d, FreeElem)] for [a != NULL]; the recursion is
    on [d].  What the calls on the elements leave in them is dropped:
    [ArrayFree(a, NULL)] then releases the blocks that hold the elements
    without reading them. *)
Fixpoint SMultiFreeDataOnly {V : Type} {rawV : Raw V} (d : nat)
    (a : ARRAY (SNODE V)) (FreeElem : free_hook V)
    : result (ARRAY (SNODE V)) :=
  match d with
  | S (S _ as d1) =>
      do _ <- for_range 0 (dim a)
                (fun i (_ : unit) =>
                   do r <- ArrayGet a i;
                   match r with
                   | Some (SArray b) =>
                       do _ <- SMultiFreeDataOnly d1 b FreeElem; Ok tt
                   | Some _ => Undefined
                   | None => Ok tt
                   end) tt;
      ArrayFree a None
  | _ => ArrayFree a (leaf_hook FreeElem)
  end.

(** [SMultiFreeData]: what it leaves in the [ARRAY] that [ma->array]
    points to, [None] when the pointer is [NULL]. *)
Definition SMultiFreeData {V : Type} {rawV : Raw V} {IAT DAT : Type}
    (ma : MULTI (option (ARRAY (SNODE V))) IAT DAT) (FreeElem : free_hook V)
    : result (option (ARRAY (SNODE V))) :=
  match MULTI.array ma with
  | None => Ok None
  | Some a =>
      do a' <- SMultiFreeDataOnly (Z.to_nat (MULTI.ndim ma)) a FreeElem;
      Ok (Some a')
  end.

(** [SMultiFree].  [free(ma->array)] and [free(ma->block)] leave [NULL] in
    the two fields; the freed [block] has no cells. *)
Definition SMultiFree {V : Type} {rawV : Raw V} {IAT DAT : Type}
    (ma : MULTI (option (ARRAY (SNODE V))) IAT DAT) (FreeElem : free_hook V)
    : result (MULTI (option (ARRAY (SNODE V))) IAT DAT) :=
  if MULTI.ndim ma <=? 0 then Ok ma
  else
    do _ <- SMultiFreeData ma FreeElem;
    Ok (MULTI.mk (MULTI.maxsize ma) (MULTI.totalsize ma)
          (MULTI.overheadsize ma) (MULTI.numelem ma) (MULTI.clean_mode ma)
          (MULTI.clean_thread ma) 0 (MULTI.ndim1 ma) (MULTI.isize ma)
          (MULTI.esize ma) (MULTI.hsize ma) (MULTI.hmask ma)
          (MULTI.aidx ma) (MULTI.isf ma) [] (MULTI.iidx ma)
          (MULTI.sidx ma) (MULTI.ridx ma) (MULTI.iblock ma) None
          (MULTI.ia ma) (MULTI.da ma) (MULTI.lock ma)).

(** ** Freeing the data of a hybrid array *)

(** The body of the loop of [MMultiFreeData], lines 1148-1157, on the two
    bucket tables. *)
Definition MMultiFreeData_tables {V : Type} (FreeElem : free_hook V) (i : Z)
    (st : list (ARRAY (list Z)) * list (ARRAY V))
    : result (list (ARRAY (list Z)) * list (ARRAY V)) :=
  let '(ia, da) := st in
  do a <- load ia i;
  do _ <- ArrayFreeData (data a) (block a) None;
  do ia' <- store ia i (set_data (set_dim a 0) NULL);
  do b <- load da i;
  do _ <- ArrayFreeData (data b) (block b) FreeElem;
  do da' <- store da i (set_data (set_dim b 0) NULL);
  Ok (ia', da').

(** [MMultiFreeData] on [ma != NULL]. *)
Definition MMultiFreeData {V : Type}
    (ma : MULTI (ARRAY V) (list (ARRAY (list Z))) (list (ARRAY V)))
    (FreeElem : free_hook V)
    : result (MULTI (ARRAY V) (list (ARRAY (list Z))) (list (ARRAY V))) :=
  if MULTI.ndim ma =? 0 then Ok ma
  else
    let a := MULTI.array ma in
    do _ <- ArrayFreeData (data a) (block a) FreeElem;
    do (ia, da) <- for_range 0 (MULTI.hsize ma)
                     (MMultiFreeData_tables FreeElem)
                     (MULTI.ia ma, MULTI.da ma);
    Ok (MULTI.set_da
          (MULTI.set_ia (MULTI.set_array ma (set_data (set_dim a 0) NULL)) ia)
          da).

(** ** Freeing an index array *)

(** [FreeIdxAry].  A freed pointer keeps its value in the struct and has
    nothing behind it any more: like [NULL], it is [None] here. *)
Definition FreeIdxAry (ia : IDXARY) (md : Z) : IDXARY :=
  let freed_d := if 0 <? IdxAry.n ia then None else IdxAry.d ia in
  let freed_i := if 0 <? IdxAry.m ia then None else IdxAry.i ia in
  if md =? 0 then
    IdxAry.mk 0 freed_d (IdxAry.m0 ia) (IdxAry.m1 ia) 0 freed_i
  else if md =? 1 then
    IdxAry.mk 0 freed_d (IdxAry.m0 ia) (IdxAry.m1 ia) (IdxAry.m ia)
      (IdxAry.i ia)
  else if md =? 2 then
    IdxAry.mk (IdxAry.n ia) (IdxAry.d ia) (IdxAry.m0 ia) (IdxAry.m1 ia) 0
      freed_i
  else ia.

(** * Properties *)

(** ** Index array *)

(** C9.  For the index array built from the domain [3; 7; 5]:
    [IdxGet(7) = 1], [IdxGet(3) = 0], [IdxGet(4) = -1] (inside the range, not
    in the domain), [IdxGet(2) = -1] (below the minimum) and
    [IdxGet(8) = -2] (above the maximum). *)
Theorem IdxGet_domain_3_7_5 :
  exists ia : IDXARY,
    InitIdxAry 3 [3; 7; 5] = Ok ia
    /\ IdxGet ia 7 = Ok 1
    /\ IdxGet ia 3 = Ok 0
    /\ IdxGet ia 4 = Ok (-1)
    /\ IdxGet ia 2 = Ok (-1)
    /\ IdxGet ia 8 = Ok (-2).
Proof.
  eexists. split; [vm_compute; reflexivity|].
  repeat split; vm_compute; reflexivity.
Qed.

(** The remaining member of the domain, for completeness. *)
Example IdxGet_domain_3_7_5_last :
  (do ia <- InitIdxAry 3 [3; 7; 5]; IdxGet ia 5) = Ok 2.
Proof. vm_compute. reflexivity. Qed.

(** ** Dense nested multi-array *)

Section SMultiFacts.
Context {V : Type} {rawV : Raw V} {rawZ : Raw Z} {rawL : Raw (option LOCK)}.
Variable sizeof_ARRAY : Z.

Lemma SMultiGet_lock (ma : MULTI (option (ARRAY (SNODE V))) unit unit)
    (k : list Z) (lock : lock_out) :
  match SMultiGet ma k lock with
  | Ok (_, l) => l = lock
  | Undefined => True
  end.
Proof.
  unfold SMultiGet. destruct (MULTI.array ma) as [a|]; [|reflexivity].
  destruct (SMultiGet_walk _ _ _ _); simpl; auto.
Qed.

Lemma SMultiSet_lock (ma : MULTI (option (ARRAY (SNODE V))) unit unit)
    (k : list Z) (d : option V) (lock : lock_out)
    (InitData : init_hook V) (FreeElem : free_hook V) (lk : option LOCK) :
  match SMultiSet sizeof_ARRAY ma k d lock InitData FreeElem lk with
  | Ok (_, _, l) => l = lock
  | Undefined => True
  end.
Proof.
  unfold SMultiSet.
  destruct (match MULTI.array ma with Some a => _ | None => _ end)
    as [a0|]; simpl; [|exact I].
  destruct (SMultiSet_walk _ _ _ _ _ _ _ _ _ _ _) as [[a1 pt]|]; simpl; auto.
Qed.
End SMultiFacts.

(** A dense array of two dimensions stores and returns an element, and an
    index never written is absent. *)
Example SMulti_set_get :
  let rawV : Raw Z := 0 in let rawZ : Raw Z := 0 in
  let rawL : Raw (option LOCK) := None in
  (do ma <- SMultiInit (blank_MULTI 0) 8 2 [4; 4];
   do (ma, _, l1) <- SMultiSet 32 ma [1; 6] (Some 7) (Some None) None None None;
   do (r1, l2) <- SMultiGet ma [1; 6] (Some None);
   do (r2, _) <- SMultiGet ma [1; 7] None;
   do (r3, _) <- SMultiGet ma [2; 6] None;
   Ok (r1, r2, r3, l1, l2))
  = Ok (Some (SElem 7), None, None, Some None, Some None).
Proof. vm_compute. reflexivity. Qed.

(** C10.  [SMultiGet] and [SMultiSet] never write through their [lock]
    argument: after every call the caller's lock pointer is as it was passed
    in.  [NMultiGet] and [NMultiSet] do write it: on the array above they
    leave the lock of the entry there. *)
Theorem SMulti_leaves_lock_untouched :
  (forall (V : Type) (rawV : Raw V) (rawZ : Raw Z) (rawL : Raw (option LOCK))
          (sizeof_ARRAY : Z)
          (ma : MULTI (option (ARRAY (SNODE V))) unit unit) (k : list Z)
          (d : option V) (lock : lock_out) (InitData : init_hook V)
          (FreeElem : free_hook V) (lk : option LOCK),
      match SMultiGet ma k lock with
      | Ok (_, l) => l = lock
      | Undefined => True
      end
      /\ match SMultiSet sizeof_ARRAY ma k d lock InitData FreeElem lk with
         | Ok (_, _, l) => l = lock
         | Undefined => True
         end)
  /\ NMultiGet 64 one_entry_NMULTI [5] (Some None)
     = Ok (Some 70, Some (Some (LockAt 1)))
  /\ (do (_, _, r, l) <-
         NMultiSet (rawV := 0) 64 16 40 0 one_entry_NMULTI
           (mkGLOBALS (-1)%Q 0 0) [5] None (Some None) None None None;
      Ok (r, l))
     = Ok (Some 70, Some (Some (LockAt 1))).
Proof.
  split; [|split; vm_compute; reflexivity].
  intros. split; [apply SMultiGet_lock | apply SMultiSet_lock].
Qed.

(** ** Integer-vector hash *)

Lemma sint_small (z : Z) : - 2 ^ 31 <= z < 2 ^ 31 -> sint z = z.
Proof.
  intros Hz. unfold sint.
  rewrite Z.mod_small by lia. lia.
Qed.

Lemma sint_range (z : Z) : - 2 ^ 31 <= sint z < 2 ^ 31.
Proof.
  unfold sint.
  pose proof (Z.mod_pos_bound (z + 2 ^ 31) (2 ^ 32) ltac:(lia)). lia.
Qed.

Lemma ub4_small (w z : Z) : 0 <= z < 2 ^ w -> ub4 w z = z.
Proof. intros Hz. unfold ub4. apply Z.mod_small. exact Hz. Qed.

Lemma HashSize_value (w ndim : Z) :
  0 <= ndim <= 29 -> 31 <= w ->
  HashSize w ndim = Ok (2 ^ (ndim / 2 + 16))
  /\ 16 <= ndim / 2 + 16 <= 30.
Proof.
  intros Hn Hw. unfold HashSize.
  rewrite Z.quot_div_nonneg by lia.
  assert (Hs : 0 <= ndim / 2 <= 14).
  { split; [apply Z.div_pos; lia|].
    assert (ndim / 2 < 15) by (apply Z.div_lt_upper_bound; lia). lia. }
  rewrite sint_small by lia.
  rewrite Z.shiftl_1_l.
  replace ((0 <=? ndim / 2 + 16) && (ndim / 2 + 16 <? w)) with true
    by (symmetry; apply andb_true_iff; split; lia).
  split; [reflexivity | lia].
Qed.

(** [Hash2] returns for every key of [length] words, [length] at most 32. *)
Lemma Hash2_defined (w : Z) (id : list Z) (len initval n m : Z) :
  ub4 w len <= 32 -> ub4 w len <= Z.of_nat (length id) ->
  exists h, Hash2 w id len initval n m = Ok h.
Proof.
  intros H32 Hlen. unfold Hash2.
  replace ((32 <? ub4 w len) || (Z.of_nat (length id) <? ub4 w len))
    with false by (symmetry; apply orb_false_iff; split; lia).
  destruct (Hash2_loop _ _ _) as [[[a b] c] rest].
  destruct (match rest with [k0; k1] => _ | _ => _ end) as [a' b'].
  destruct (Mix w _) as [[? ?] c']. eauto.
Qed.

(** With the mask [2^s - 1] the result lies in [0, 2^s). *)
Lemma Hash2_masked (w : Z) (id : list Z) (len initval n s h : Z) :
  0 <= s <= 30 -> s <= w ->
  Hash2 w id len initval n (2 ^ s - 1) = Ok h -> 0 <= h < 2 ^ s.
Proof.
  intros Hs Hw. unfold Hash2.
  destruct ((32 <? ub4 w len) || _); [discriminate|].
  destruct (Hash2_loop _ _ _) as [[[a b] c] rest].
  destruct (match rest with [k0; k1] => _ | _ => _ end) as [a' b'].
  destruct (Mix w _) as [[? ?] c'].
  intros [= <-].
  assert (Hpow : 0 < 2 ^ s <= 2 ^ 30).
  { split; [apply Z.pow_pos_nonneg; lia|].
    apply Z.pow_le_mono_r; lia. }
  assert (Hsw : 2 ^ s <= 2 ^ w) by (apply Z.pow_le_mono_r; lia).
  rewrite ub4_small by lia.
  replace (2 ^ s - 1) with (Z.ones s) by (rewrite Z.ones_equiv; lia).
  rewrite Z.land_ones by lia.
  pose proof (Z.mod_pos_bound c' (2 ^ s) ltac:(lia)).
  rewrite sint_small; lia.
Qed.

(** The result is a function of the first [length] words of the key, the
    seed and the mask; the argument [n] is not used. *)
Lemma Hash2_deterministic (w : Z) (id id' : list Z) (len initval n n' m : Z) :
  take (Z.to_nat (ub4 w len)) id = take (Z.to_nat (ub4 w len)) id' ->
  (Z.of_nat (length id) <? ub4 w len) = (Z.of_nat (length id') <? ub4 w len) ->
  Hash2 w id len initval n m = Hash2 w id' len initval n' m.
Proof.
  intros Htake Hlen. unfold Hash2. rewrite Htake, Hlen. reflexivity.
Qed.

(** The bucket of a key in a table for [ndim] dimensions is inside the
    table. *)
Lemma bucket_of_in_table (w ndim : Z) (k : list Z) :
  0 <= ndim <= 29 -> 31 <= w -> Z.of_nat (length k) = ndim ->
  exists h, bucket_of w ndim k = Ok h /\ 0 <= h < 2 ^ (ndim / 2 + 16).
Proof.
  intros Hn Hw Hk. unfold bucket_of.
  destruct (HashSize_value w ndim Hn Hw) as [-> Hs]. cbn [bind].
  assert (Hpow : 0 < 2 ^ (ndim / 2 + 16) <= 2 ^ 30).
  { split; [apply Z.pow_pos_nonneg; lia|].
    apply Z.pow_le_mono_r; lia. }
  rewrite (sint_small (2 ^ (ndim / 2 + 16))) by lia.
  rewrite sint_small by lia.
  assert (Hw32 : 2 ^ 5 <= 2 ^ w) by (apply Z.pow_le_mono_r; lia).
  destruct (Hash2_defined w k ndim 0 ndim (2 ^ (ndim / 2 + 16) - 1))
    as [h Hh].
  - rewrite ub4_small; lia.
  - rewrite ub4_small; lia.
  - exists h. split; [exact Hh|].
    eapply Hash2_masked; [| |exact Hh]; lia.
Qed.

Lemma all_positions_seen_32 : all_positions_seen 32 = true.
Proof. vm_compute. reflexivity. Qed.

Lemma all_positions_seen_64 : all_positions_seen 64 = true.
Proof. vm_compute. reflexivity. Qed.

(** Every word of the key enters the hash: for a 32-bit and for a 64-bit
    [ub4], every length from 1 to 29 and every position, there are two keys
    that differ only at that position and fall in different buckets. *)
Lemma Hash2_reads_every_word (w : Z) (n i : nat) :
  w = 32 \/ w = 64 -> (1 <= n <= 29)%nat -> (i < n)%nat ->
  exists k k' : list Z,
    length k = n /\ length k' = n
    /\ (forall j, j <> i -> k !! j = k' !! j)
    /\ bucket_of w (Z.of_nat n) k <> bucket_of w (Z.of_nat n) k'.
Proof.
  intros Hw Hn Hi.
  assert (Hall : all_positions_seen w = true).
  { destruct Hw as [-> | ->];
      [apply all_positions_seen_32 | apply all_positions_seen_64]. }
  unfold all_positions_seen in Hall.
  rewrite forallb_forall in Hall.
  specialize (Hall n).
  rewrite forallb_forall in Hall.
  assert (Hseen : position_seen w n i = true).
  { apply Hall; apply in_seq; lia. }
  exists (repeat 0 n), (probe_key n i 1).
  unfold probe_key. rewrite length_insert, repeat_length.
  repeat split.
  - intros j Hj. rewrite list_lookup_insert_ne by congruence. reflexivity.
  - intros Heq. unfold position_seen, probe_key in Hseen. rewrite <- Heq in Hseen.
    destruct (bucket_of w (Z.of_nat n) (repeat 0 n)); cbn in Hseen;
      [rewrite Z.eqb_refl in Hseen|]; discriminate.
Qed.

(** ** Loops and array cells *)

Lemma load_Ok {A : Type} (l : list A) (i : Z) (x : A) :
  load l i = Ok x <-> 0 <= i /\ l !! Z.to_nat i = Some x.
Proof.
  unfold load. split.
  - destruct ((0 <=? i) && (i <? Z.of_nat (length l))) eqn:Hb; [|discriminate].
    apply andb_true_iff in Hb as [H0 H1].
    destruct (l !! Z.to_nat i); [|discriminate].
    intros [= ->]. split; [lia | reflexivity].
  - intros [H0 Hx].
    pose proof (lookup_lt_Some _ _ _ Hx) as Hlt.
    replace ((0 <=? i) && (i <? Z.of_nat (length l))) with true
      by (symmetry; apply andb_true_iff; split; lia).
    rewrite Hx. reflexivity.
Qed.

Lemma load_nat {A : Type} (l : list A) (i : nat) (x : A) :
  l !! i = Some x -> load l (Z.of_nat i) = Ok x.
Proof.
  intros Hx. apply load_Ok. rewrite Nat2Z.id. split; [lia | exact Hx].
Qed.

Lemma store_Ok {A : Type} (l : list A) (i : Z) (v : A) :
  0 <= i < Z.of_nat (length l) ->
  store l i v = Ok (<[Z.to_nat i := v]> l).
Proof.
  intros Hi. unfold store.
  replace ((0 <=? i) && (i <? Z.of_nat (length l))) with true
    by (symmetry; apply andb_true_iff; split; lia).
  reflexivity.
Qed.

Lemma store_inv {A : Type} (l l' : list A) (i : Z) (v : A) :
  store l i v = Ok l' ->
  0 <= i < Z.of_nat (length l) /\ l' = <[Z.to_nat i := v]> l.
Proof.
  unfold store.
  destruct ((0 <=? i) && (i <? Z.of_nat (length l))) eqn:Hb; [|discriminate].
  apply andb_true_iff in Hb as [H0 H1]. intros [= <-]. split; [lia | reflexivity].
Qed.

(** A loop whose body is defined wherever the invariant holds is defined,
    and the invariant holds at its end. *)
Lemma for_loop_total {St : Type} (P : Z -> St -> Prop)
    (body : Z -> St -> result St) (count : nat) (k : Z) (s : St) :
  P k s ->
  (forall i t, k <= i < k + Z.of_nat count -> P i t ->
               exists t', body i t = Ok t' /\ P (i + 1) t') ->
  exists s', for_loop count k body s = Ok s' /\ P (k + Z.of_nat count) s'.
Proof.
  revert k s. induction count as [|c IH]; intros k s Hs Hbody.
  - exists s. rewrite Z.add_0_r. split; [reflexivity | exact Hs].
  - destruct (Hbody k s ltac:(lia) Hs) as (t & Ht & HP).
    cbn [for_loop]. rewrite Ht. cbn [bind].
    destruct (IH (k + 1) t HP) as (s' & Hs' & HP').
    + intros i u Hi. apply Hbody. lia.
    + exists s'. split; [exact Hs'|].
      replace (k + Z.of_nat (S c)) with (k + 1 + Z.of_nat c) by lia. exact HP'.
Qed.

(** The invariant of a loop that ended. *)
Lemma for_loop_inv {St : Type} (P : Z -> St -> Prop)
    (body : Z -> St -> result St) (count : nat) (k : Z) (s s' : St) :
  P k s ->
  (forall i t t', k <= i < k + Z.of_nat count -> P i t ->
                  body i t = Ok t' -> P (i + 1) t') ->
  for_loop count k body s = Ok s' -> P (k + Z.of_nat count) s'.
Proof.
  revert k s. induction count as [|c IH]; intros k s Hs Hbody.
  - cbn. intros [= <-]. rewrite Z.add_0_r. exact Hs.
  - cbn [for_loop]. destruct (body k s) as [t|] eqn:Ht; [|discriminate].
    cbn [bind]. intros Hrest.
    replace (k + Z.of_nat (S c)) with (k + 1 + Z.of_nat c) by lia.
    apply (IH (k + 1) t).
    + apply (Hbody k s t); [lia | exact Hs | exact Ht].
    + intros i u u' Hi. apply Hbody. lia.
    + exact Hrest.
Qed.

Lemma sint_mod (z : Z) : sint z mod 2 ^ 32 = z mod 2 ^ 32.
Proof.
  unfold sint.
  rewrite Zminus_mod, Z.mod_mod by lia.
  rewrite <- Zminus_mod. f_equal. lia.
Qed.

Lemma sint_congr (a b : Z) : a mod 2 ^ 32 = b mod 2 ^ 32 -> sint a = sint b.
Proof.
  intros Hab. unfold sint. f_equal.
  rewrite (Zplus_mod a), (Zplus_mod b), Hab. reflexivity.
Qed.

Lemma sint_add_r (a b : Z) : sint (a + sint b) = sint (a + b).
Proof.
  apply sint_congr. rewrite Zplus_mod, sint_mod, <- Zplus_mod. reflexivity.
Qed.

Lemma sint_add_l (a b : Z) : sint (sint a + b) = sint (a + b).
Proof.
  apply sint_congr. rewrite Zplus_mod, sint_mod, <- Zplus_mod. reflexivity.
Qed.

Lemma ushort_range (z : Z) : 0 <= ushort z < 2 ^ 16.
Proof. unfold ushort. apply Z.mod_pos_bound. lia. Qed.

Lemma weighted_sum_snoc (r ib : list Z) (x b : Z) :
  ib !! length r = Some b ->
  weighted_sum (r ++ [x]) ib = weighted_sum r ib + x * b.
Proof.
  revert ib. induction r as [|y r IH]; intros [|c ib] Hb; try discriminate.
  - cbn in Hb. injection Hb as ->. cbn. lia.
  - cbn in Hb. cbn. rewrite (IH ib Hb). lia.
Qed.

(** ** Hybrid multi-array: the split of a key *)

Section MMultiIndexFacts.
Context {ARR IAT DAT : Type}.
Variable ma : MULTI ARR IAT DAT.
Variable k : list Z.
Hypothesis Hshape : MMulti_shape ma.
Hypothesis Hk : length k = Z.to_nat (MULTI.ndim ma).

Local Abbreviation n := (Z.to_nat (MULTI.ndim ma)).
Local Abbreviation below := (below (MULTI.block ma) k).
Local Abbreviation split_inv := (split_inv (Z.to_nat (MULTI.ndim ma)) (MULTI.block ma) k).
Local Abbreviation offset_inv := (offset_inv (MULTI.iblock ma)).

Lemma below_all : (forall j, (j < n)%nat -> below j) <-> Forall2 Z.lt k (MULTI.block ma).
Proof.
  destruct Hshape as (_ & Hb & _).
  rewrite Forall2_same_length_lookup. split.
  - intros Hall. split; [lia|].
    intros j x y Hx Hy.
    destruct (Hall j) as (kj & bj & Hkj & Hbj & Hlt).
    { apply lookup_lt_Some in Hx. fold n in Hk. lia. }
    congruence.
  - intros [_ Hall] j Hj.
    destruct (lookup_lt_is_Some_2 k j) as [kj Hkj]; [lia|].
    destruct (lookup_lt_is_Some_2 (MULTI.block ma) j) as [bj Hbj]; [lia|].
    exists kj, bj. eauto.
Qed.

Lemma split_step (i : Z) (st st' : list Z * list Z * list Z * Z) :
  0 <= i < MULTI.ndim ma -> split_inv i st ->
  MMultiIndex_split (MULTI.block ma) k i st = Ok st' ->
  split_inv (i + 1) st'.
Proof.
  intros Hi. destruct st as [[[ii si] ri] isf].
  intros (Hii & Hsi & Hri & Hres & Hisf).
  unfold MMultiIndex_split.
  destruct (load k i) as [ki|] eqn:Hki; [|discriminate].
  destruct (load (MULTI.block ma) i) as [bi|] eqn:Hbi; [|discriminate].
  apply load_Ok in Hki as [_ Hki]. apply load_Ok in Hbi as [_ Hbi].
  cbn [bind].
  assert (Hnew : forall ii' si' ri' isf',
             length ii' = n -> length si' = n ->
             ri' = <[Z.to_nat i := residual ki bi]> ri ->
             ((bi <= ki /\ isf' = 0) \/ (ki < bi /\ isf' = isf)) ->
             split_inv (i + 1) (ii', si', ri', isf')).
  { intros ii' si' ri' isf' Hl1 Hl2 -> Hcase.
    unfold split_inv. rewrite length_insert.
    split; [exact Hl1|]. split; [exact Hl2|]. split; [exact Hri|]. split.
    - intros j kj bj Hj Hkj Hbj.
      destruct (decide (j = Z.to_nat i)) as [->|Hne].
      + rewrite list_lookup_insert_eq by lia. congruence.
      + rewrite list_lookup_insert_ne by congruence.
        apply Hres; [lia | exact Hkj | exact Hbj].
    - destruct Hcase as [[Hge ->]|[Hlt ->]].
      + right. split; [reflexivity|]. exists (Z.to_nat i). split; [lia|].
        intros (kj & bj & Hkj & Hbj & Hlt). simplify_eq. lia.
      + destruct Hisf as [[-> Hall]|[-> (j & Hj & Hnot)]].
        * left. split; [reflexivity|]. intros j Hj.
          destruct (decide (j = Z.to_nat i)) as [->|Hne].
          -- exists ki, bi. eauto.
          -- apply Hall. lia.
        * right. split; [reflexivity|]. exists j. split; [lia | exact Hnot]. }
  destruct (bi <=? ki) eqn:Hcmp.
  - destruct (bi =? 0); [discriminate|].
    destruct (store ii i _) as [ii'|] eqn:E1; [|discriminate].
    destruct (store si i _) as [si'|] eqn:E2; [|discriminate].
    destruct (store ri i _) as [ri'|] eqn:E3; [|discriminate].
    cbn [bind]. intros [= <-].
    apply store_inv in E1 as [_ ->]. apply store_inv in E2 as [_ ->].
    apply store_inv in E3 as [_ ->].
    apply Hnew; rewrite ?length_insert; auto.
    + unfold residual. rewrite Hcmp. reflexivity.
    + left. split; [lia | reflexivity].
  - destruct (store ii i _) as [ii'|] eqn:E1; [|discriminate].
    destruct (store si i _) as [si'|] eqn:E2; [|discriminate].
    destruct (store ri i _) as [ri'|] eqn:E3; [|discriminate].
    cbn [bind]. intros [= <-].
    apply store_inv in E1 as [_ ->]. apply store_inv in E2 as [_ ->].
    apply store_inv in E3 as [_ ->].
    apply Hnew; rewrite ?length_insert; auto.
    + unfold residual. rewrite Hcmp. reflexivity.
    + right. split; [lia | reflexivity].
Qed.

(** The body of the first loop is defined unless it divides by a zero
    block size. *)
Lemma split_defined (i : Z) (st : list Z * list Z * list Z * Z) :
  0 <= i < MULTI.ndim ma -> split_inv i st ->
  (below (Z.to_nat i) \/ MULTI.block ma !! Z.to_nat i <> Some 0) ->
  exists st', MMultiIndex_split (MULTI.block ma) k i st = Ok st'.
Proof.
  intros Hi. destruct st as [[[ii si] ri] isf].
  intros (Hii & Hsi & Hri & _) Hok.
  destruct Hshape as (_ & Hb & _).
  destruct (lookup_lt_is_Some_2 k (Z.to_nat i)) as [ki Hki]; [lia|].
  destruct (lookup_lt_is_Some_2 (MULTI.block ma) (Z.to_nat i)) as [bi Hbi];
    [lia|].
  unfold MMultiIndex_split.
  rewrite (proj2 (load_Ok k i ki)) by (split; [lia | exact Hki]).
  rewrite (proj2 (load_Ok (MULTI.block ma) i bi)) by (split; [lia | exact Hbi]).
  cbn [bind].
  destruct (bi <=? ki) eqn:Hcmp.
  - destruct (bi =? 0) eqn:Hz.
    + exfalso. apply Z.eqb_eq in Hz. subst bi. apply Z.leb_le in Hcmp.
      destruct Hok as [(kj & bj & Hkj & Hbj & Hlt)|Hnz].
      * simplify_eq. lia.
      * apply Hnz. exact Hbi.
    + repeat (rewrite store_Ok by lia; cbn [bind]).
      eauto.
  - repeat (rewrite store_Ok by lia; cbn [bind]).
    eauto.
Qed.

Lemma offset_step (ri : list Z) (i aidx : Z) :
  length ri = n -> 1 <= i < MULTI.ndim ma -> offset_inv ri i aidx ->
  exists aidx', MMultiIndex_offset ri (MULTI.iblock ma) i aidx = Ok aidx'
                /\ offset_inv ri (i + 1) aidx'.
Proof.
  intros Hri Hi ->.
  destruct Hshape as (_ & _ & _ & _ & _ & Hib).
  destruct (lookup_lt_is_Some_2 ri (Z.to_nat i)) as [r Hr]; [lia|].
  destruct (lookup_lt_is_Some_2 (MULTI.iblock ma) (Z.to_nat (i - 1))) as [b Hb];
    [lia|].
  unfold MMultiIndex_offset.
  rewrite (proj2 (load_Ok ri i r)) by (split; [lia | exact Hr]).
  rewrite (proj2 (load_Ok (MULTI.iblock ma) (i - 1) b)) by (split; [lia | exact Hb]).
  cbn [bind]. eexists. split; [reflexivity|].
  unfold offset_inv. rewrite sint_add_r, sint_add_l.
  replace (Z.to_nat (i + 1)) with (S (Z.to_nat i)) by lia.
  rewrite (take_S_r ri (Z.to_nat i) r Hr).
  f_equal.
  destruct (take (Z.to_nat i) ri) as [|r0 rest] eqn:Htake.
  { apply (f_equal length) in Htake. rewrite length_take in Htake.
    cbn in Htake. fold n in Hri. lia. }
  cbn [dense_offset app].
  rewrite (weighted_sum_snoc rest (MULTI.iblock ma) r b); [lia|].
  apply (f_equal length) in Htake. rewrite length_take in Htake.
  cbn in Htake.
  replace (length rest) with (Z.to_nat (i - 1)) by lia.
  exact Hb.
Qed.

Lemma split_inv_start :
  split_inv 0 (MULTI.iidx ma, MULTI.sidx ma, MULTI.ridx ma, 1).
Proof.
  destruct Hshape as (_ & _ & Hii & Hsi & Hri & _).
  unfold split_inv. repeat split; auto; try lia.
  left. split; [reflexivity|]. intros j Hj. lia.
Qed.

(** [isf] is 1 exactly when every coordinate is below its block size. *)
Lemma MMultiIndex_isf (ma' : MULTI ARR IAT DAT) :
  MMultiIndex ma k = Ok ma' ->
  (MULTI.isf ma' = 1 <-> Forall2 Z.lt k (MULTI.block ma)).
Proof.
  unfold MMultiIndex, for_range.
  destruct (for_loop _ 0 (MMultiIndex_split _ _) _) as [[[[ii si] ri] isf]|] eqn:Hloop;
    [|discriminate].
  cbn [bind].
  destruct (load ri 0) as [r0|]; [|discriminate]. cbn [bind].
  destruct (for_loop _ 1 _ _) as [aidx|]; [|discriminate]. cbn [bind].
  intros [= <-]. cbn [MULTI.isf MULTI.set_index].
  apply (for_loop_inv split_inv) in Hloop.
  - destruct Hloop as (_ & _ & _ & _ & Hisf).
    rewrite <- below_all.
    replace (0 + Z.of_nat (Z.to_nat (MULTI.ndim ma - 0))) with (Z.of_nat n) in Hisf
      by lia.
    split.
    + intros ->. destruct Hisf as [[_ Hall]|[Habs _]]; [|discriminate].
      intros j Hj. apply Hall. lia.
    + intros Hall. destruct Hisf as [[-> _]|[_ (j & Hj & Hnot)]]; [reflexivity|].
      exfalso. apply Hnot, Hall. lia.
  - apply split_inv_start.
  - intros i t t' Hi. apply split_step. lia.
Qed.

(** [MMultiIndex] is defined when no coordinate at or above its block size
    meets a block size of zero. *)
Lemma MMultiIndex_defined :
  (forall j, below j \/ MULTI.block ma !! j <> Some 0) ->
  exists ma' ri aidx,
    MMultiIndex ma k = Ok ma'
    /\ MULTI.ridx ma' = ri /\ MULTI.aidx ma' = aidx
    /\ length ri = n
    /\ (forall j kj bj, k !! j = Some kj -> MULTI.block ma !! j = Some bj ->
                        ri !! j = Some (residual kj bj))
    /\ aidx = sint (dense_offset ri (MULTI.iblock ma))
    /\ MULTI.array ma' = MULTI.array ma /\ MULTI.ia ma' = MULTI.ia ma
    /\ MULTI.da ma' = MULTI.da ma /\ MULTI.hmask ma' = MULTI.hmask ma.
Proof.
  intros Hok.
  destruct Hshape as (Hpos & Hb & _).
  destruct (for_loop_total
              (fun i st => split_inv i st)
              (MMultiIndex_split (MULTI.block ma) k)
              (Z.to_nat (MULTI.ndim ma - 0)) 0
              (MULTI.iidx ma, MULTI.sidx ma, MULTI.ridx ma, 1))
    as ([[[ii si] ri] isf] & Hloop & Hinv).
  { apply split_inv_start. }
  { intros i t Hi Ht.
    destruct (split_defined i t ltac:(lia) Ht (Hok _)) as [t' Ht'].
    exists t'. split; [exact Ht'|].
    apply (split_step i t); [lia | exact Ht | exact Ht']. }
  destruct Hinv as (Hii & Hsi & Hri & Hres & _).
  destruct (lookup_lt_is_Some_2 ri 0) as [r0 Hr0]; [lia|].
  destruct (for_loop_total
              (fun i a => offset_inv ri i a)
              (MMultiIndex_offset ri (MULTI.iblock ma))
              (Z.to_nat (MULTI.ndim ma - 1)) 1 r0)
    as (aidx & Haidx & Hoff).
  { unfold offset_inv. change (Z.to_nat 1) with 1%nat.
    destruct (lookup_lt_is_Some_2 k 0) as [k0 Hk0]; [lia|].
    destruct (lookup_lt_is_Some_2 (MULTI.block ma) 0) as [b0 Hb0];
      [lia|].
    pose proof (Hres 0%nat k0 b0 ltac:(lia) Hk0 Hb0) as Hr.
    assert (r0 = residual k0 b0) as -> by congruence.
    destruct ri as [|x ri']; [discriminate|]. cbn in Hr0. injection Hr0 as ->.
    cbn [take firstn dense_offset weighted_sum].
    pose proof (ushort_range (if b0 <=? k0 then Z.rem k0 b0 else k0)) as Hu.
    fold (residual k0 b0) in Hu.
    rewrite take_0. cbn [weighted_sum].
    rewrite sint_small; lia. }
  { intros i a Hi Ha. apply offset_step; [exact Hri | lia | exact Ha]. }
  unfold offset_inv in Hoff.
  replace (Z.to_nat (1 + Z.of_nat (Z.to_nat (MULTI.ndim ma - 1)))) with n in Hoff
    by lia.
  rewrite firstn_all2 in Hoff by lia.
  eexists _, ri, aidx.
  split.
  { unfold MMultiIndex, for_range. rewrite Hloop. cbn [bind].
    rewrite (proj2 (load_Ok ri 0 r0)) by (split; [lia | exact Hr0]).
    cbn [bind]. rewrite Haidx. cbn [bind]. reflexivity. }
  cbn. repeat split; auto.
  intros j kj bj Hkj Hbj. apply Hres; [|exact Hkj | exact Hbj].
  apply lookup_lt_Some in Hkj. fold n in Hk. lia.
Qed.
End MMultiIndexFacts.

(** C6.  Fast path of the hybrid array.  [MMultiIndex] leaves [isf = 1]
    exactly when every coordinate [k[i]] is below the block size
    [block[i]].  For such a key the residuals are the coordinates (as
    [unsigned short]), the dense offset is
    [residual[0] + sum over i >= 1 of residual[i] * iblock[i-1]] (as an
    [int]; the very sum when it fits), and [MMultiGet] and [MMultiSet] are
    [ArrayGet] and [ArraySet] on the dense array at that offset: no hash is
    computed and the bucket tables [ia] and [da] are neither read nor
    changed. *)
Theorem MMulti_fast_path {V : Type} {rawV : Raw V} (w : Z)
    (ma : MULTI (ARRAY V) (list (ARRAY (list Z))) (list (ARRAY V)))
    (k : list Z) (d : option V) (lock : lock_out)
    (InitData : init_hook V) (FreeElem : free_hook V) :
  MMulti_shape ma ->
  length k = Z.to_nat (MULTI.ndim ma) ->
  (forall ma', MMultiIndex ma k = Ok ma' ->
     (MULTI.isf ma' = 1 <-> Forall2 Z.lt k (MULTI.block ma)))
  /\ (Forall (fun b => b <> 0) (MULTI.block ma) ->
      exists ma', MMultiIndex ma k = Ok ma')
  /\ (Forall2 Z.lt k (MULTI.block ma) ->
      exists ma',
        MMultiIndex ma k = Ok ma'
        /\ MULTI.isf ma' = 1
        /\ MULTI.ridx ma' = map ushort k
        /\ MULTI.aidx ma'
           = sint (dense_offset (MULTI.ridx ma') (MULTI.iblock ma))
        /\ (fits_int (dense_offset (MULTI.ridx ma') (MULTI.iblock ma)) ->
            MULTI.aidx ma' = dense_offset (MULTI.ridx ma') (MULTI.iblock ma))
        /\ MMultiGet w ma k lock
           = (do r <- ArrayGet (MULTI.array ma) (MULTI.aidx ma');
              Ok (ma', r, lock))
        /\ MMultiSet w ma k d lock InitData FreeElem
           = (do (arr, pt) <-
                 ArraySet (MULTI.array ma) (MULTI.aidx ma') d InitData;
              Ok (MULTI.set_array ma' arr, pt, lock))
        /\ MULTI.ia ma' = MULTI.ia ma /\ MULTI.da ma' = MULTI.da ma).
Proof.
  intros Hshape Hk. split; [|split].
  - intros ma'. apply MMultiIndex_isf; assumption.
  - intros Hnz.
    destruct (MMultiIndex_defined ma k Hshape Hk) as (ma' & _ & _ & Hma' & _).
    + intros j. right. intros Hj.
      rewrite Forall_forall in Hnz.
      apply (Hnz 0); [|reflexivity].
      apply list_elem_of_lookup. eauto.
    + eauto.
  - intros Hlt.
    pose proof (proj2 (below_all ma k Hshape Hk) Hlt) as Hbelow.
    destruct (MMultiIndex_defined ma k Hshape Hk)
      as (ma' & ri & aidx & Hma' & Hri & Haidx & Hlen & Hres & Hoff
          & Harr & Hia & Hda & _).
    { intros j. destruct (decide (j < Z.to_nat (MULTI.ndim ma))%nat) as [Hj|Hj].
      - left. apply Hbelow. exact Hj.
      - right. destruct Hshape as (_ & Hb & _).
        rewrite lookup_ge_None_2 by lia. discriminate. }
    assert (Hisf : MULTI.isf ma' = 1).
    { apply (MMultiIndex_isf ma k Hshape Hk ma' Hma'). exact Hlt. }
    exists ma'. split; [exact Hma'|]. split; [exact Hisf|].
    assert (Hrk : ri = map ushort k).
    { apply list_eq. intros j. rewrite list_lookup_fmap.
      destruct (decide (j < Z.to_nat (MULTI.ndim ma))%nat) as [Hj|Hj].
      - destruct (Hbelow j Hj) as (kj & bj & Hkj & Hbj & Hcmp).
        rewrite (Hres j kj bj Hkj Hbj), Hkj. cbn. f_equal.
        unfold residual. replace (bj <=? kj) with false by (symmetry; lia).
        reflexivity.
      - rewrite !lookup_ge_None_2 by lia. reflexivity. }
    rewrite Hri, Haidx. split; [exact Hrk|]. split; [exact Hoff|].
    split.
    { intros Hfits. rewrite Hoff. apply sint_small. exact Hfits. }
    split; [|split; [|split; assumption]].
    + unfold MMultiGet. rewrite Hma'. cbn [bind]. rewrite Hisf. cbn.
      rewrite Harr, Haidx. reflexivity.
    + unfold MMultiSet. rewrite Hma'. cbn [bind]. rewrite Hisf. cbn.
      rewrite Harr, Haidx. reflexivity.
Qed.

(** The fast path at the key [1; 2] of the array with block sizes 4 and 4:
    dense offset [1 + 2 * 4]. *)
Lemma MMulti_fast_path_witness :
  MMulti_shape MMulti_demo
  /\ length [1; 2] = Z.to_nat (MULTI.ndim MMulti_demo)
  /\ Forall2 Z.lt [1; 2] (MULTI.block MMulti_demo)
  /\ exists ma',
       MMultiIndex MMulti_demo [1; 2] = Ok ma' /\ MULTI.isf ma' = 1
       /\ MULTI.aidx ma' = 9.
Proof.
  assert (Hshape : MMulti_shape MMulti_demo).
  { vm_compute. repeat split; reflexivity. }
  assert (Hk : length [1; 2] = Z.to_nat (MULTI.ndim MMulti_demo)).
  { vm_compute. reflexivity. }
  assert (Hlt : Forall2 Z.lt [1; 2] (MULTI.block MMulti_demo)).
  { vm_compute. repeat constructor. }
  split; [exact Hshape|]. split; [exact Hk|]. split; [exact Hlt|].
  destruct (MMulti_fast_path (rawV := 0) 64 MMulti_demo [1; 2] None None None None
              Hshape Hk) as (_ & _ & Hfast).
  destruct (Hfast Hlt) as (ma' & Hma' & Hisf & Hr & _ & Hoff & _).
  exists ma'. split; [exact Hma'|]. split; [exact Hisf|].
  rewrite Hoff.
  - rewrite Hr. vm_compute. reflexivity.
  - rewrite Hr. vm_compute. split; [discriminate | reflexivity].
Defined.

(** ** Hybrid multi-array: the mask *)

(** With the mask of a table for two dimensions in [hmask] (as [NMultiInit]
    would leave it), or with a zeroed struct, the scenario runs as
    expected: [Get([1,2])] finds the first value on the dense path,
    [Get([5,2])] the second on the hashed path, [Get([1,3])] nothing. *)
Lemma MMulti_scenario_with_mask {V : Type} {rawV : Raw V} (w hm : Z) (x y : V) :
  w = 32 \/ w = 64 -> hm = 131071 \/ hm = 0 ->
  MMulti_scenario w hm x y = Ok (Some x, 1, Some y, 0, None).
Proof.
  intros [-> | ->] [-> | ->]; vm_compute; reflexivity.
Qed.

(** C7.  The scenario ([ndim = 2], [block = [4,4]], [Set([1,2], x)],
    [Set([5,2], y)], then [Get] of [1,2], [5,2] and [1,3]) started in a
    struct whose [hmask] field holds -1: [MMultiInit] leaves the field as it
    is, the first [Set] takes the dense path, and the second has no defined
    result, the bucket 432599792 being outside the table of 131072
    buckets. *)
Theorem MMulti_scenario_stale_mask :
  (do ma <- MMulti_4x4 (V := Z) 64 (-1); Ok (MULTI.hmask ma, MULTI.hsize ma))
  = Ok (-1, 131072)
  /\ (do ma <- MMulti_4x4 64 (-1);
      do (ma, pt, _) <- MMultiSet (rawV := 0) 64 ma [1; 2] (Some 7) None None None;
      do (ma', r, _) <- MMultiGet 64 ma [1; 2] None;
      Ok (r, MULTI.isf ma', MULTI.hmask ma'))
     = Ok (Some 7, 1, -1)
  /\ (do ma <- MMulti_4x4 64 (-1);
      do (ma, pt, _) <- MMultiSet (rawV := 0) 64 ma [1; 2] (Some 7) None None None;
      MMultiSet (rawV := 0) 64 ma [5; 2] (Some 9) None None None)
     = Undefined
  /\ MMulti_scenario (rawV := 0) 64 (-1) 7 9 = Undefined.
Proof. repeat split; vm_compute; reflexivity. Qed.

(** Bucket selection of the hash-sparse array: [NMultiInit] sets the mask
    to the table size minus one, so the bucket of every key of [ndim] words
    is inside the table it allocates. *)
Lemma NMulti_bucket_in_table {V ARR IAT DAT : Type}
    (w sizeof_MDATA sizeof_ARRAY : Z) (ma0 : MULTI ARR IAT DAT) (g0 : GLOBALS)
    (esize ndim : Z) (block : list Z) (lk alk : option LOCK) (k : list Z)
    (ma : MULTI (list (ARRAY (MDATA V))) IAT DAT) (g : GLOBALS) :
  0 <= ndim <= 29 -> 31 <= w -> Z.of_nat (length k) = ndim ->
  NMultiInit w sizeof_MDATA sizeof_ARRAY ma0 g0 esize ndim block lk alk
  = Ok (ma, g) ->
  exists h,
    Hash2 w k (MULTI.ndim ma) 0 (MULTI.ndim ma) (MULTI.hmask ma) = Ok h
    /\ 0 <= h < Z.of_nat (length (MULTI.array ma))
    /\ MULTI.hsize ma = Z.of_nat (length (MULTI.array ma)).
Proof.
  intros Hn Hw Hk. unfold NMultiInit.
  destruct (HashSize_value w ndim Hn Hw) as [Hhs Hs].
  destruct (bucket_of_in_table w ndim k Hn Hw Hk) as (h & Hh & Hrange).
  unfold bucket_of in Hh. rewrite Hhs in *. cbn [bind] in *.
  assert (Hpow : 0 < 2 ^ (ndim / 2 + 16) <= 2 ^ 30).
  { split; [apply Z.pow_pos_nonneg; lia|].
    apply Z.pow_le_mono_r; lia. }
  rewrite (sint_small (2 ^ (ndim / 2 + 16))) in * by lia.
  destruct ((0 <=? _) && (_ <? 2 ^ 31)); [|discriminate].
  intros [= <- <-]. cbn.
  rewrite repeat_length.
  exists h. split; [exact Hh|]. lia.
Qed.

(** C5.  [MMultiInit] stores the table size in [hsize] and assigns nothing
    to [hmask], the mask that [MMultiGet] and [MMultiSet] hand to [Hash2].
    In a struct whose [hmask] field holds -1 the super-cell [1; 0] of the key
    [5; 2] hashes to 432599792 (64-bit [ub4]) or 1983808119 (32-bit), far
    outside the table of 131072 buckets, and neither function has a defined
    result there. *)
Theorem MMulti_bucket_outside_table :
  (do ma <- MMulti_4x4 (V := Z) 64 (-1);
   do ma <- MMultiIndex ma [5; 2];
   do h <- Hash2 64 (MULTI.iidx ma) (MULTI.ndim ma) 0 (MULTI.ndim ma)
             (MULTI.hmask ma);
   Ok (MULTI.iidx ma, h, MULTI.hsize ma, Z.of_nat (length (MULTI.ia ma))))
  = Ok ([1; 0], 432599792, 131072, 131072)
  /\ (do ma <- MMulti_4x4 (V := Z) 32 (-1);
      do ma <- MMultiIndex ma [5; 2];
      do h <- Hash2 32 (MULTI.iidx ma) (MULTI.ndim ma) 0 (MULTI.ndim ma)
                (MULTI.hmask ma);
      Ok (MULTI.iidx ma, h, MULTI.hsize ma, Z.of_nat (length (MULTI.ia ma))))
     = Ok ([1; 0], 1983808119, 131072, 131072)
  /\ (do ma <- MMulti_4x4 (V := Z) 64 (-1); MMultiGet 64 ma [5; 2] None)
     = Undefined
  /\ (do ma <- MMulti_4x4 64 (-1);
      MMultiSet (rawV := 0) 64 ma [5; 2] (Some 9) None None None)
     = Undefined.
Proof. repeat split; vm_compute; reflexivity. Qed.

(** ** Tactics *)

(** Boolean comparisons of integers, settled by linear arithmetic. *)
Ltac solve_bool :=
  repeat first
    [ rewrite andb_true_iff | rewrite orb_false_iff
    | rewrite andb_false_iff | rewrite orb_true_iff
    | rewrite Z.leb_le | rewrite Z.ltb_lt | rewrite Z.leb_gt
    | rewrite Z.ltb_ge | rewrite Z.eqb_eq | rewrite Z.eqb_neq ];
  lia.

(** [test_is b v]: the test [b] of the goal has the value [v]. *)
Ltac test_is b v := replace b with v by (symmetry; solve_bool).

(** ** Block array *)

Section StoresFacts.
Context {A : Type}.
Variables (blk : nat) (fill : A).

Lemma stores_nonempty (l : list A) (p : DATA A) :
  stores blk fill l p -> (0 < length l)%nat.
Proof.
  induction 1 as [l Hl|buf l p Hbuf _ IH]; [lia|].
  rewrite length_app. lia.
Qed.

Lemma stores_not_null (l : list A) (p : DATA A) :
  stores blk fill l p -> is_null p = false.
Proof. destruct 1; reflexivity. Qed.

(** Reading element [i]. *)
Lemma stores_get (l : list A) (p : DATA A) (i : Z) (x : A) :
  stores blk fill l p -> 0 <= i -> l !! Z.to_nat i = Some x ->
  ArrayGet_walk (Z.of_nat blk) p i = Ok (Some x).
Proof.
  intros Hst. revert i.
  induction Hst as [l Hl|buf l p Hbuf _ IH]; intros i Hi Hx; cbn [ArrayGet_walk].
  - pose proof (lookup_lt_Some _ _ _ Hx) as Hlt.
    test_is (Z.of_nat blk <=? i) false.
    rewrite lookup_app_l by lia. rewrite Hx. reflexivity.
  - destruct (Z.of_nat blk <=? i) eqn:Hcmp.
    + apply IH; [lia|].
      rewrite lookup_app_r in Hx by lia.
      replace (Z.to_nat (i - Z.of_nat blk)) with (Z.to_nat i - length buf)%nat by lia.
      exact Hx.
    + rewrite lookup_app_l in Hx by lia. rewrite Hx. reflexivity.
Qed.

(** The contiguous copy. *)
Lemma stores_contiguous (l : list A) (p : DATA A) :
  stores blk fill l p ->
  ArrayContiguous_walk (Z.of_nat blk) p (Z.of_nat (length l)) = Ok l.
Proof.
  induction 1 as [l Hl|buf l p Hbuf Hst IH]; cbn [ArrayContiguous_walk].
  - test_is (Z.of_nat (length l) <=? Z.of_nat blk) true.
    rewrite length_app, repeat_length.
    test_is ((0 <=? Z.of_nat (length l))
             && (Z.of_nat (length l) <=? Z.of_nat (length l + (blk - length l)))) true.
    rewrite Nat2Z.id, take_app_length. reflexivity.
  - pose proof (stores_nonempty l p Hst) as Hne.
    rewrite length_app.
    test_is (Z.of_nat (length buf + length l) <=? Z.of_nat blk) false.
    test_is ((0 <=? Z.of_nat blk) && (Z.of_nat blk <=? Z.of_nat (length buf))) true.
    replace (Z.of_nat (length buf + length l) - Z.of_nat blk)
      with (Z.of_nat (length l)) by lia.
    rewrite IH. cbn [bind]. rewrite Nat2Z.id, <- Hbuf, firstn_all. reflexivity.
Qed.

(** Releasing the chain. *)
Lemma stores_free (l : list A) (p : DATA A) (FreeElem : free_hook A) :
  stores blk fill l p -> ArrayFreeData p (Z.of_nat blk) FreeElem = Ok tt.
Proof.
  induction 1 as [l Hl|buf l p Hbuf Hst IH]; cbn [ArrayFreeData is_null bind].
  - destruct FreeElem; [|reflexivity].
    rewrite length_app, repeat_length.
    test_is (Z.of_nat blk <=? Z.of_nat (length l + (blk - length l))) true.
    reflexivity.
  - rewrite (stores_not_null l p Hst), IH. cbn [bind].
    destruct FreeElem; [|reflexivity].
    test_is (Z.of_nat blk <=? Z.of_nat (length buf)) true.
    reflexivity.
Qed.

(** Trimming to [m] elements keeps the first [m]. *)
Lemma stores_trim (l : list A) (p : DATA A) (FreeElem : free_hook A) (m : Z) :
  stores blk fill l p -> 0 <= m < Z.of_nat (length l) ->
  exists p',
    ArrayTrim_walk (Z.of_nat blk) FreeElem p m = Ok p'
    /\ forall i x, 0 <= i < m -> l !! Z.to_nat i = Some x ->
                   ArrayGet_walk (Z.of_nat blk) p' i = Ok (Some x).
Proof.
  intros Hst. revert m.
  induction Hst as [l Hl|buf l p Hbuf Hst IH]; intros m Hm.
  - cbn [ArrayTrim_walk].
    test_is (Z.of_nat blk <=? m) false.
    destruct (m =? 0) eqn:Hm0.
    + rewrite (stores_free l _ FreeElem (stores_last blk fill l Hl)). cbn [bind].
      eexists. split; [reflexivity|]. intros i x Hi. lia.
    + cbn [is_null bind]. apply Z.eqb_neq in Hm0.
      unfold free_tail.
      destruct FreeElem as [f|].
      * test_is (Z.of_nat blk <=? m) false.
        rewrite length_app, repeat_length.
        test_is ((0 <=? m) && (Z.of_nat blk <=? Z.of_nat (length l + (blk - length l)))) true.
        cbn [bind]. eexists. split; [reflexivity|].
        intros i x Hi Hx. cbn [ArrayGet_walk].
        test_is (Z.of_nat blk <=? i) false.
        rewrite lookup_app_l by (rewrite length_take, length_app; lia).
        rewrite lookup_take_lt by lia. rewrite lookup_app_l by lia.
        rewrite Hx. reflexivity.
      * cbn [bind]. eexists. split; [reflexivity|].
        intros i x Hi Hx. cbn [ArrayGet_walk].
        test_is (Z.of_nat blk <=? i) false.
        rewrite lookup_app_l by lia. rewrite Hx. reflexivity.
  - pose proof (stores_nonempty l p Hst) as Hne.
    rewrite length_app in Hm. cbn [ArrayTrim_walk].
    destruct (Z.of_nat blk <=? m) eqn:Hcmp.
    + destruct (IH (m - Z.of_nat blk)) as (p' & Hp' & Hget); [lia|].
      rewrite Hp'. cbn [bind]. eexists. split; [reflexivity|].
      intros i x Hi Hx. cbn [ArrayGet_walk].
      destruct (Z.of_nat blk <=? i) eqn:Hcmpi.
      * apply Hget; [lia|].
        rewrite lookup_app_r in Hx by lia.
        replace (Z.to_nat (i - Z.of_nat blk)) with (Z.to_nat i - length buf)%nat by lia.
        exact Hx.
      * rewrite lookup_app_l in Hx by lia. rewrite Hx. reflexivity.
    + destruct (m =? 0) eqn:Hm0.
      * rewrite (stores_free _ _ FreeElem (stores_more blk fill buf l p Hbuf Hst)).
        cbn [bind]. eexists. split; [reflexivity|]. intros i x Hi. lia.
      * apply Z.eqb_neq in Hm0.
        rewrite (stores_not_null l p Hst), (stores_free l p FreeElem Hst).
        cbn [bind]. unfold free_tail.
        destruct FreeElem as [f|].
        -- rewrite Hcmp.
           test_is ((0 <=? m) && (Z.of_nat blk <=? Z.of_nat (length buf))) true.
           cbn [bind]. eexists. split; [reflexivity|].
           intros i x Hi Hx. cbn [ArrayGet_walk].
           test_is (Z.of_nat blk <=? i) false.
           rewrite lookup_app_l by (rewrite length_take; lia).
           rewrite lookup_take_lt by lia.
           rewrite lookup_app_l in Hx by lia. rewrite Hx. reflexivity.
        -- cbn [bind]. eexists. split; [reflexivity|].
           intros i x Hi Hx. cbn [ArrayGet_walk].
           test_is (Z.of_nat blk <=? i) false.
           rewrite lookup_app_l in Hx by lia. rewrite Hx. reflexivity.
Qed.

End StoresFacts.

Section AppendFacts.
Context {A : Type} {rawA : Raw A}.
Variable InitData : init_hook A.

Local Abbreviation fill := (run_hook InitData raw).

Lemma init_cells_repeat (blk : Z) :
  init_cells blk InitData = repeat fill (Z.to_nat blk).
Proof.
  unfold init_cells. induction (Z.to_nat blk) as [|n IH]; [reflexivity|].
  cbn. rewrite IH. reflexivity.
Qed.

(** The allocation of a block whose byte size has not wrapped. *)
Lemma fresh_block_sized (esz blk : Z) :
  0 < esz -> 1 <= blk ->
  fresh_block esz blk (esz * blk) InitData = Ok (init_cells blk InitData).
Proof.
  intros He Hb. unfold fresh_block.
  assert (Hpos : 0 < esz * blk) by nia.
  test_is ((0 <? esz) && (0 <? esz * blk)) true.
  rewrite (Z.mul_comm esz blk), Z.quot_mul by lia.
  rewrite init_cells_repeat.
  destruct InitData as [f|]; [|reflexivity].
  test_is (blk <=? blk) true.
  rewrite firstn_all2 by (rewrite repeat_length; lia).
  rewrite drop_ge by (rewrite repeat_length; lia).
  rewrite app_nil_r. f_equal. apply map_repeat.
Qed.

(** One step of the walk. *)
Lemma ArraySet_walk_unfold {R : Type} (fuel : nat) (blk : Z)
    (alloc : result (list A)) (upd : A -> result (A * R))
    (p : DATA A) (i : Z) :
  ArraySet_walk fuel blk alloc upd p i =
  match p with
  | NULL | Dangling => Undefined
  | Block dptr next =>
      if blk <=? i then
        match fuel with
        | O => Undefined
        | S fuel' =>
            do (next2, r) <-
               ArraySet_walk fuel' blk alloc upd
                 (if is_null next then Block None NULL else next) (i - blk);
            Ok (Block dptr next2, r)
        end
      else
        do buf <- match dptr with
                  | Some b => Ok b
                  | None => alloc
                  end;
        match buf !! Z.to_nat i with
        | Some x =>
            do (y, r) <- upd x;
            Ok (Block (Some (<[Z.to_nat i := y]> buf)) next, r)
        | None => Undefined
        end
  end.
Proof.
  destruct fuel; destruct p as [| |[b|] next]; reflexivity.
Qed.

(** The walk when an allocation yields the buffer [cells]. *)
Lemma ArraySet_walk_eq {R : Type} (fuel : nat) (blk : Z) (cells : list A)
    (upd : A -> result (A * R)) (p : DATA A) (i : Z) :
  ArraySet_walk fuel blk (Ok cells) upd p i =
  match p with
  | NULL | Dangling => Undefined
  | Block dptr next =>
      if blk <=? i then
        match fuel with
        | O => Undefined
        | S fuel' =>
            do (next2, r) <-
               ArraySet_walk fuel' blk (Ok cells) upd
                 (if is_null next then Block None NULL else next) (i - blk);
            Ok (Block dptr next2, r)
        end
      else
        match match dptr with
              | Some b => b
              | None => cells
              end !! Z.to_nat i with
        | Some x =>
            do (y, r) <- upd x;
            Ok (Block (Some (<[Z.to_nat i := y]>
                               match dptr with
                               | Some b => b
                               | None => cells
                               end)) next, r)
        | None => Undefined
        end
  end.
Proof.
  destruct fuel; destruct p as [| |[b|] next]; reflexivity.
Qed.

(** [ArraySet_slot] on an array whose block size in bytes has not
    wrapped. *)
Lemma ArraySet_slot_sized {R : Type} (a : ARRAY A) (i : Z)
    (upd : A -> result (A * R)) :
  arr_sized a -> 1 <= block a ->
  ArraySet_slot a i InitData upd
  = (let data0 :=
       if dim a =? 0 then Block (Some (init_cells (block a) InitData)) NULL
       else data a in
     let dim1 := if dim a <=? i then sint (i + 1) else dim a in
     do (p, r) <-
        ArraySet_walk (Z.to_nat (i / block a)) (block a)
          (Ok (init_cells (block a) InitData)) upd data0 i;
     Ok (set_data (set_dim a dim1) p, r)).
Proof.
  intros (He & Hbs & _) Hb. unfold ArraySet_slot.
  rewrite Hbs, fresh_block_sized by assumption.
  cbv zeta. destruct (dim a =? 0); reflexivity.
Qed.

(** Writing [x] just behind the elements held. *)
Lemma stores_append (blk : nat) (l : list A) (p : DATA A) (x : A) (fuel : nat) :
  (0 < blk)%nat -> stores blk fill l p ->
  (length l / blk <= fuel)%nat ->
  exists p',
    ArraySet_walk fuel (Z.of_nat blk)
      (Ok (init_cells (Z.of_nat blk) InitData)) (copy_in (Some x)) p
      (Z.of_nat (length l)) = Ok (p', x)
    /\ stores blk fill (l ++ [x]) p'.
Proof.
  intros Hblk Hst. revert fuel.
  induction Hst as [l Hl|buf l p Hbuf Hst IH]; intros fuel Hfuel;
    rewrite ArraySet_walk_eq.
  - destruct (Z.of_nat blk <=? Z.of_nat (length l)) eqn:Hcmp.
    + assert (Hfull : length l = blk) by lia.
      rewrite Hfull, Nat.div_same in Hfuel by lia.
      destruct fuel as [|fuel]; [lia|].
      cbn [is_null]. rewrite Hfull, Z.sub_diag.
      rewrite ArraySet_walk_eq.
      test_is (Z.of_nat blk <=? 0) false.
      rewrite init_cells_repeat, Nat2Z.id.
      destruct blk as [|b]; [lia|]. cbn [repeat Z.to_nat lookup list_lookup].
      cbn. eexists. split; [reflexivity|].
      rewrite Nat.sub_diag. cbn [repeat].
      rewrite app_nil_r. change (Z.to_nat 0) with 0%nat. cbn [insert list_insert].
      apply stores_more; [exact Hfull|].
      replace (x :: repeat fill b) with ([x] ++ repeat fill (S b - length [x]))
        by (cbn; repeat f_equal; lia).
      apply stores_last. cbn. lia.
    + assert (Hlt : (length l < blk)%nat) by lia.
      rewrite Nat2Z.id.
      rewrite lookup_app_r by lia. rewrite Nat.sub_diag.
      destruct (blk - length l)%nat as [|r] eqn:Hr; [lia|].
      cbn [repeat lookup list_lookup copy_in bind].
      eexists. split; [reflexivity|].
      replace (<[length l:=x]> (l ++ fill :: repeat fill r))
        with ((l ++ [x]) ++ repeat fill (blk - length (l ++ [x]))).
      * apply stores_last. rewrite length_app. cbn. lia.
      * rewrite insert_app_r_alt by lia. rewrite Nat.sub_diag. cbn.
        rewrite <- app_assoc. cbn. rewrite length_app. cbn.
        repeat f_equal. lia.
  - pose proof (stores_nonempty blk fill l p Hst) as Hne.
    rewrite length_app in *.
    test_is (Z.of_nat blk <=? Z.of_nat (length buf + length l)) true.
    assert (Hdiv : ((length buf + length l) / blk = S (length l / blk))%nat).
    { rewrite Hbuf. replace (blk + length l)%nat with (length l + 1 * blk)%nat by lia.
      rewrite Nat.div_add by lia. lia. }
    rewrite Hdiv in Hfuel.
    destruct fuel as [|fuel]; [lia|].
    rewrite (stores_not_null blk fill l p Hst).
    replace (Z.of_nat (length buf + length l) - Z.of_nat blk)
      with (Z.of_nat (length l)) by lia.
    destruct (IH fuel) as (p' & Hp' & Hst'); [lia|].
    rewrite Hp'. cbn [bind]. eexists. split; [reflexivity|].
    rewrite <- app_assoc. apply stores_more; assumption.
Qed.

(** [ArrayAppend] on an array that holds [l]. *)
Lemma ArrayAppend_holds (a : ARRAY A) (l : list A) (x : A) :
  1 <= block a -> arr_sized a ->
  arr_holds fill a l -> Z.of_nat (length l) + 1 < 2 ^ 31 ->
  exists a',
    ArrayAppend a (Some x) InitData = Ok (a', x)
    /\ arr_holds fill a' (l ++ [x])
    /\ block a' = block a /\ esize a' = esize a /\ bsize a' = bsize a
    /\ lock a' = lock a.
Proof.
  intros Hblk Hsized [Hdim Hdata] Hlen.
  unfold ArrayAppend, ArraySet.
  rewrite (ArraySet_slot_sized a _ _ Hsized Hblk). cbv zeta.
  test_is (dim a <=? dim a) true.
  rewrite sint_small by lia.
  destruct l as [|y l].
  - change (dim a = 0) in Hdim. rewrite Hdim. cbn [Z.eqb].
    rewrite Z.div_0_l by lia. rewrite ArraySet_walk_eq.
    test_is (block a <=? 0) false.
    rewrite init_cells_repeat.
    destruct (Z.to_nat (block a)) as [|b] eqn:Hb; [lia|].
    change (Z.to_nat 0) with 0%nat.
    cbn [repeat lookup list_lookup copy_in bind insert list_insert].
    eexists. split; [reflexivity|].
    split; [|auto].
    split; [reflexivity|]. cbn [data set_data set_dim block app].
    rewrite Hb.
    replace (x :: repeat fill b) with ([x] ++ repeat fill (S b - length [x]))
      by (cbn; repeat f_equal; lia).
    apply stores_last. cbn. lia.
  - assert (Hpos : (0 < length (y :: l))%nat) by (cbn; lia).
    test_is (dim a =? 0) false.
    destruct (stores_append (Z.to_nat (block a)) (y :: l) (data a) x
                (Z.to_nat (dim a / block a)))
      as (p' & Hp' & Hst'); [lia | exact Hdata | |].
    { rewrite Hdim, Z2Nat.inj_div, Nat2Z.id by lia. lia. }
    rewrite Z2Nat.id in Hp' by lia. rewrite <- Hdim in Hp'. rewrite Hp'.
    cbn [bind].
    eexists. split; [reflexivity|]. split; [|auto].
    split.
    + cbn [dim set_data set_dim]. rewrite length_app, Hdim. cbn [length]. lia.
    + cbn [data set_data block set_dim]. destruct l; exact Hst'.
Qed.

(** Appending the elements of [l2] to an array that holds [l1]. *)
Lemma append_all_holds (a : ARRAY A) (l1 l2 : list A) :
  1 <= block a -> arr_sized a -> arr_holds fill a l1 ->
  Z.of_nat (length l1 + length l2) < 2 ^ 31 ->
  exists a',
    append_all a l2 InitData = Ok a'
    /\ arr_holds fill a' (l1 ++ l2)
    /\ block a' = block a /\ esize a' = esize a /\ bsize a' = bsize a
    /\ lock a' = lock a.
Proof.
  revert a l1.
  induction l2 as [|x l2 IH]; intros a l1 Hblk Hsized Hholds Hlen.
  - exists a. rewrite app_nil_r. split; [reflexivity|].
    split; [exact Hholds|]. auto.
  - cbn [append_all].
    destruct (ArrayAppend_holds a l1 x Hblk Hsized Hholds)
      as (a1 & Ha1 & Hh1 & Hb1 & He1 & Hs1 & Hl1).
    { cbn in Hlen. lia. }
    rewrite Ha1. cbn [bind].
    destruct (IH a1 (l1 ++ [x])) as (a' & Ha' & Hh' & Hb' & He' & Hs' & Hl').
    + lia.
    + unfold arr_sized. rewrite He1, Hs1, Hb1. exact Hsized.
    + exact Hh1.
    + rewrite length_app. cbn in *. lia.
    + exists a'. rewrite <- app_assoc in Hh'. cbn in Hh'.
      repeat split; try congruence; apply Hh'.
Qed.

End AppendFacts.

(** [ArrayInit] with elements of at least one byte and a block whose bytes
    fit an [int]. *)
Lemma arr_sized_init {A : Type} (esz b : Z) (lk : option LOCK) :
  1 <= esz -> 1 <= b -> esz * b < 2 ^ 31 ->
  arr_sized (ArrayInit (A := A) esz b lk).
Proof.
  intros He Hb Hlt. unfold arr_sized. cbn [esize block bsize ArrayInit].
  split; [lia|]. split; [|exact Hlt]. apply sint_small. nia.
Qed.

Lemma arr_sized_eq {A : Type} (a a' : ARRAY A) :
  esize a' = esize a -> block a' = block a -> bsize a' = bsize a ->
  arr_sized a -> arr_sized a'.
Proof.
  unfold arr_sized. intros -> -> ->. exact id.
Qed.

(** The sizes C8 leaves out.  With elements of 8 bytes and a block
    capacity of [2^28] the byte size of a block, an [int], wraps to
    [-2^31] and the first [ArrayAppend] has no buffer to write to; with
    elements of [2^30] bytes in blocks of one, two appends succeed and
    [ArrayContiguous] asks for [2^31] bytes, which wraps as well. *)
Lemma block_array_wrapped_sizes :
  append_all (rawA := 0) (ArrayInit 8 (2 ^ 28) None) [10; 11; 12] None
  = Undefined
  /\ exists a,
       append_all (rawA := 0) (ArrayInit (2 ^ 30) 1 None) [10; 11] None = Ok a
       /\ dim a = 2
       /\ ArrayContiguous a = Undefined.
Proof.
  split; [vm_compute; reflexivity|].
  eexists. split; [vm_compute; reflexivity|].
  split; vm_compute; reflexivity.
Qed.

(** C8.  After appending the elements [l] to an empty block array of any
    block capacity [blk >= 1] with elements of [esz >= 1] bytes, the bytes
    of a block staying below [2^31]: the array has [length l] elements,
    for every [m] below [length l], [ArrayTrim(m)] leaves an array of
    length [m] whose elements [0 .. m-1] are the first [m] elements of [l],
    unchanged, while every index from [m] on is absent, and
    [ArrayContiguous] returns exactly [l] (and [NULL] when [l] is empty)
    when the bytes of all elements stay below [2^31], and has no defined
    result otherwise. *)
Theorem block_array_append_trim_contiguous {A : Type} {rawA : Raw A}
    (esz blk : Z) (lk : option LOCK) (InitData : init_hook A)
    (FreeElem : free_hook A) (l : list A) :
  1 <= blk -> 1 <= esz -> esz * blk < 2 ^ 31 ->
  Z.of_nat (length l) < 2 ^ 31 ->
  exists a,
    append_all (ArrayInit esz blk lk) l InitData = Ok a
    /\ dim a = Z.of_nat (length l)
    /\ (esz * Z.of_nat (length l) < 2 ^ 31 ->
        ArrayContiguous a = Ok (match l with [] => None | _ => Some l end))
    /\ (2 ^ 31 <= esz * Z.of_nat (length l) -> ArrayContiguous a = Undefined)
    /\ (forall i x, l !! i = Some x -> ArrayGet a (Z.of_nat i) = Ok (Some x))
    /\ forall m, 0 <= m < Z.of_nat (length l) ->
         exists a',
           ArrayTrim a m FreeElem = Ok a'
           /\ dim a' = m
           /\ (forall i x, (Z.of_nat i < m) -> l !! i = Some x ->
                 ArrayGet a' (Z.of_nat i) = Ok (Some x))
           /\ (forall i, m <= i -> ArrayGet a' i = Ok None).
Proof.
  intros Hblk Hesz Hbytes Hlen.
  assert (Hprod : 0 < esz * blk) by nia.
  destruct (append_all_holds InitData (ArrayInit esz blk lk) [] l)
    as (a & Ha & [Hdim Hdata] & Hb & He & _).
  { exact Hblk. }
  { apply arr_sized_init; assumption. }
  { split; reflexivity. }
  { cbn. lia. }
  cbn [app] in *. cbn [block esize ArrayInit] in Hb, He.
  exists a. split; [exact Ha|]. split; [exact Hdim|].
  assert (Hblk' : (0 < Z.to_nat blk)%nat) by lia.
  split; [|split; [|split]].
  - intros Hall. unfold ArrayContiguous. rewrite Hdim, He.
    destruct l as [|y l]; [reflexivity|].
    assert (Hpos : (0 < length (y :: l))%nat) by (cbn; lia).
    test_is (Z.of_nat (length (y :: l)) =? 0) false.
    assert (Hq : 0 < esz * Z.of_nat (length (y :: l))) by nia.
    rewrite (sint_small (esz * Z.of_nat (length (y :: l)))) by lia.
    test_is ((0 <? esz)
             && (esz * Z.of_nat (length (y :: l))
                 <=? esz * Z.of_nat (length (y :: l)))) true.
    rewrite Hb in *.
    pose proof (stores_contiguous (Z.to_nat blk) _ _ _ Hdata) as Hc.
    rewrite Z2Nat.id in Hc by lia. rewrite Hc. reflexivity.
  - intros Hall. unfold ArrayContiguous. rewrite Hdim, He.
    assert (Hne : Z.of_nat (length l) <> 0) by nia.
    test_is (Z.of_nat (length l) =? 0) false.
    pose proof (sint_range (esz * Z.of_nat (length l))) as Hr.
    test_is ((0 <? esz)
             && (esz * Z.of_nat (length l)
                 <=? sint (esz * Z.of_nat (length l)))) false.
    reflexivity.
  - intros i x Hx. unfold ArrayGet.
    pose proof (lookup_lt_Some _ _ _ Hx) as Hlt.
    test_is ((Z.of_nat i <? 0) || (dim a <=? Z.of_nat i)) false.
    destruct l as [|y l]; [discriminate|].
    rewrite Hb in *.
    pose proof (stores_get (Z.to_nat blk) _ _ _ (Z.of_nat i) x Hdata) as Hg.
    rewrite Z2Nat.id, Nat2Z.id in Hg by lia. apply Hg; [lia | exact Hx].
  - intros m Hm.
    destruct l as [|y l]; [cbn in Hm; lia|].
    rewrite Hb in *.
    unfold ArrayTrim.
    test_is (dim a <=? m) false.
    destruct (m =? 0) eqn:Hm0.
    + apply Z.eqb_eq in Hm0. subst m. unfold ArrayFree.
      test_is (dim a =? 0) false. rewrite Hb.
      pose proof (stores_free (Z.to_nat blk) _ _ _ FreeElem Hdata) as Hf.
      rewrite Z2Nat.id in Hf by lia. rewrite Hf. cbn [bind].
      eexists. split; [reflexivity|]. split; [reflexivity|].
      split; [intros; lia|].
      intros i Hi. unfold ArrayGet. cbn [dim set_lock set_data set_dim].
      test_is ((i <? 0) || (0 <=? i)) true. reflexivity.
    + apply Z.eqb_neq in Hm0.
      destruct (stores_trim (Z.to_nat blk) _ _ _ FreeElem m Hdata)
        as (p' & Hp' & Hget); [lia|].
      rewrite Z2Nat.id in Hp', Hget by lia. rewrite Hb, Hp'. cbn [bind].
      eexists. split; [reflexivity|]. split; [reflexivity|].
      split.
      * intros i x Hi Hx. unfold ArrayGet. cbn [dim block data set_dim set_data].
        test_is ((Z.of_nat i <? 0) || (m <=? Z.of_nat i)) false.
        rewrite Hb. apply Hget; [lia|]. rewrite Nat2Z.id. exact Hx.
      * intros i Hi. unfold ArrayGet. cbn [dim set_dim set_data].
        test_is ((i <? 0) || (m <=? i)) true. reflexivity.
Qed.

(** Seven elements of four bytes in blocks of three, trimmed to five. *)
Lemma block_array_append_trim_contiguous_witness :
  1 <= 3 /\ 1 <= 4 /\ 4 * 3 < 2 ^ 31
  /\ Z.of_nat (length [10; 11; 12; 13; 14; 15; 16]) < 2 ^ 31
  /\ exists a,
       append_all (rawA := 0) (ArrayInit 4 3 None) [10; 11; 12; 13; 14; 15; 16] None
       = Ok a
       /\ ArrayContiguous a = Ok (Some [10; 11; 12; 13; 14; 15; 16])
       /\ exists a', ArrayTrim a 5 None = Ok a' /\ dim a' = 5
                     /\ ArrayGet a' 4 = Ok (Some 14).
Proof.
  assert (H1 : 1 <= 3) by lia.
  assert (H2 : 1 <= 4) by lia.
  assert (H3 : 4 * 3 < 2 ^ 31) by (vm_compute; reflexivity).
  assert (H4 : Z.of_nat (length [10; 11; 12; 13; 14; 15; 16]) < 2 ^ 31)
    by (vm_compute; reflexivity).
  split; [exact H1|]. split; [exact H2|]. split; [exact H3|].
  split; [exact H4|].
  destruct (block_array_append_trim_contiguous (rawA := 0) 4 3 None None None
              [10; 11; 12; 13; 14; 15; 16] H1 H2 H3 H4)
    as (a & Ha & _ & Hc & _ & _ & Htrim).
  exists a. split; [exact Ha|].
  split; [apply Hc; vm_compute; reflexivity|].
  destruct (Htrim 5) as (a' & Ha' & Hd & Hg & _); [vm_compute; split; [discriminate | reflexivity]|].
  exists a'. split; [exact Ha'|]. split; [exact Hd|].
  apply (Hg 4%nat 14); [lia | reflexivity].
Defined.

(** ** Scanning a chain of entries *)

Section ScanFacts.
Context {E : Type}.
Variable same : E -> result bool.

Lemma first_match_lookup (l : list E) (t : nat) (e : E) :
  first_match same l = Some (t, e) -> l !! t = Some e /\ same e = Ok true.
Proof.
  revert t. induction l as [|x l IH]; intros t; cbn; [discriminate|].
  destruct (same x) as [[|]|] eqn:Hx.
  - intros [= <- <-]. auto.
  - destruct (first_match same l) as [[t' y]|]; [|discriminate].
    intros [= <- <-]. apply IH. reflexivity.
  - destruct (first_match same l) as [[t' y]|]; [|discriminate].
    intros [= <- <-]. apply IH. reflexivity.
Qed.

Lemma first_match_app_l (l1 l2 : list E) (t : nat) (e : E) :
  first_match same l1 = Some (t, e) ->
  first_match same (l1 ++ l2) = Some (t, e).
Proof.
  revert t. induction l1 as [|x l1 IH]; intros t; cbn; [discriminate|].
  destruct (same x) as [[|]|]; [auto| |].
  - destruct (first_match same l1) as [[t' y]|]; [|discriminate].
    intros [= <- <-]. rewrite (IH t' eq_refl). reflexivity.
  - destruct (first_match same l1) as [[t' y]|]; [|discriminate].
    intros [= <- <-]. rewrite (IH t' eq_refl). reflexivity.
Qed.

Lemma first_match_app_r (l1 l2 : list E) :
  same_defined same l1 -> first_match same l1 = None ->
  first_match same (l1 ++ l2)
  = match first_match same l2 with
    | Some (t, e) => Some ((length l1 + t)%nat, e)
    | None => None
    end.
Proof.
  induction l1 as [|x l1 IH]; intros Hdef Hnone; cbn.
  - destruct (first_match same l2) as [[t e]|]; reflexivity.
  - apply Forall_cons in Hdef as [[b Hb] Hdef]. cbn in Hnone.
    rewrite Hb in *. destruct b.
    + discriminate.
    + destruct (first_match same l1) as [[t' y]|]; [discriminate|].
      rewrite (IH Hdef eq_refl).
      destruct (first_match same l2) as [[t e]|]; reflexivity.
Qed.

(** The inner loop over the entries [l] that it is allowed to visit. *)
Lemma scan_for_spec (blk i : Z) (l rest : list E) (off : nat) (m j : Z) :
  same_defined same l ->
  Z.of_nat (length l) = Z.max 0 (Z.min (blk - m) (i - j)) ->
  scan_for same blk i (l ++ rest) off m j
  = match first_match same l with
    | Some (t, e) => Ok (Hit (off + t) (j + Z.of_nat t) e)
    | None => Ok (Miss (m + Z.of_nat (length l)) (j + Z.of_nat (length l)))
    end.
Proof.
  revert off m j. induction l as [|x l IH]; intros off m j Hdef Hlen.
  - cbn [length] in Hlen. cbn [first_match app length].
    destruct rest as [|y rest]; cbn [scan_for].
    + test_is ((m <? blk) && (j <? i)) false.
      rewrite !Z.add_0_r. reflexivity.
    + test_is ((m <? blk) && (j <? i)) false.
      rewrite !Z.add_0_r. reflexivity.
  - apply Forall_cons in Hdef as [[b Hb] Hdef].
    cbn [length] in Hlen. cbn [app scan_for first_match].
    test_is ((m <? blk) && (j <? i)) true.
    rewrite Hb. cbn [bind]. destruct b.
    + rewrite Nat.add_0_r, Z.add_0_r. reflexivity.
    + rewrite (IH (S off) (m + 1) (j + 1) Hdef) by lia.
      destruct (first_match same l) as [[t e]|].
      * f_equal. f_equal; lia.
      * cbn [length]. f_equal. f_equal; lia.
Qed.

Lemma scan_for_whole (blk i : Z) (l : list E) (off : nat) (m j : Z) :
  same_defined same l ->
  Z.of_nat (length l) = Z.max 0 (Z.min (blk - m) (i - j)) ->
  scan_for same blk i l off m j
  = match first_match same l with
    | Some (t, e) => Ok (Hit (off + t) (j + Z.of_nat t) e)
    | None => Ok (Miss (m + Z.of_nat (length l)) (j + Z.of_nat (length l)))
    end.
Proof.
  intros Hdef Hlen.
  pose proof (scan_for_spec blk i l [] off m j Hdef Hlen) as Hs.
  rewrite app_nil_r in Hs. exact Hs.
Qed.

End ScanFacts.

Section ChainFacts.
Context {E : Type}.
Variables (blk : nat) (fill : E).
Hypothesis Hblk : (0 < blk)%nat.

Lemma div_mod_small (t : nat) :
  (t < blk)%nat -> (t / blk = 0 /\ t mod blk = t)%nat.
Proof using Type.
  intros Ht. split; [apply Nat.div_small | apply Nat.mod_small]; exact Ht.
Qed.

Lemma div_mod_next (t : nat) :
  ((blk + t) / blk = S (t / blk) /\ (blk + t) mod blk = t mod blk)%nat.
Proof using Hblk.
  replace (blk + t)%nat with (t + 1 * blk)%nat by lia.
  rewrite Nat.div_add, Nat.Div0.mod_add by lia. split; lia.
Qed.

(** The loop of the three [Get] and [Set] functions over a chain that holds
    [es], [j0] entries having been passed. *)
Lemma scan_chain_stores (same : E -> result bool) (es : list E) (p : DATA E)
    (i j0 : Z) (nb : nat) (last : option (nat * Z)) :
  stores blk fill es p -> same_defined same es ->
  i = j0 + Z.of_nat (length es) ->
  match first_match same es with
  | Some (t, e) =>
      scan_chain same (Z.of_nat blk) i p nb j0 last
      = Ok (Found (j0 + Z.of_nat t) e)
  | None =>
      exists last', scan_chain same (Z.of_nat blk) i p nb j0 last
                    = Ok (NotFound last')
  end.
Proof using Hblk.
  intros Hst. revert i j0 nb last.
  induction Hst as [l Hl|buf l p Hbuf Hst IH]; intros i j0 nb last Hdef Hi;
    cbn [scan_chain payload].
  - rewrite (scan_for_spec same (Z.of_nat blk) i l _ 0 0 j0 Hdef) by lia.
    destruct (first_match same l) as [[t e]|]; cbn [bind].
    + reflexivity.
    + eauto.
  - pose proof (stores_nonempty blk fill l p Hst) as Hne.
    rewrite length_app in Hi.
    apply Forall_app in Hdef as [Hdef1 Hdef2].
    rewrite (scan_for_whole same (Z.of_nat blk) i buf 0 0 j0 Hdef1) by lia.
    destruct (first_match same buf) as [[t e]|] eqn:Hfm; cbn [bind].
    + rewrite (first_match_app_l same buf l t e Hfm). reflexivity.
    + rewrite (first_match_app_r same buf l Hdef1 Hfm).
      specialize (IH i (j0 + Z.of_nat (length buf)) (S nb)
                    (Some (nb, 0 + Z.of_nat (length buf))) Hdef2 ltac:(lia)).
      destruct (first_match same l) as [[t e]|].
      * rewrite IH. f_equal. f_equal. lia.
      * exact IH.
Qed.

(** Writing through a pointer to entry [t]. *)
Lemma chain_update_stores (es : list E) (p : DATA E) (t : nat) (e e' : E)
    (f : E -> result E) :
  stores blk fill es p -> es !! t = Some e -> f e = Ok e' ->
  exists p',
    chain_update p (t / blk) (t mod blk) f = Ok p'
    /\ stores blk fill (<[t := e']> es) p'.
Proof using Hblk.
  intros Hst. revert t.
  induction Hst as [l Hl|buf l p Hbuf Hst IH]; intros t Ht Hf.
  - pose proof (lookup_lt_Some _ _ _ Ht) as Hlt.
    destruct (div_mod_small t ltac:(lia)) as [-> ->].
    cbn [chain_update payload].
    rewrite lookup_app_l, Ht by lia. rewrite Hf. cbn [bind].
    eexists. split; [reflexivity|].
    rewrite insert_app_l by lia.
    replace (blk - length l)%nat with (blk - length (<[t:=e']> l))%nat
      by (rewrite length_insert; reflexivity).
    apply stores_last. rewrite length_insert. exact Hl.
  - destruct (decide (t < blk)%nat) as [Hlt|Hge].
    + destruct (div_mod_small t Hlt) as [-> ->].
      rewrite lookup_app_l in Ht by lia.
      cbn [chain_update payload]. rewrite Ht, Hf. cbn [bind].
      eexists. split; [reflexivity|].
      rewrite insert_app_l by lia.
      apply stores_more; [rewrite length_insert; exact Hbuf | exact Hst].
    + rewrite lookup_app_r in Ht by lia.
      destruct (div_mod_next (t - blk)) as [Hd Hm].
      replace (blk + (t - blk))%nat with t in Hd, Hm by lia.
      rewrite Hd, Hm. cbn [chain_update].
      rewrite Hbuf in Ht.
      destruct (IH (t - blk)%nat Ht Hf) as (p' & Hp' & Hst').
      rewrite Hp'. cbn [bind]. eexists. split; [reflexivity|].
      rewrite insert_app_r_alt by lia. rewrite Hbuf.
      apply stores_more; assumption.
Qed.

(** Writing a new entry into the free cell behind the entries. *)
Lemma chain_append_free (es : list E) (p : DATA E) (e' : E) :
  stores blk fill es p -> (length es mod blk <> 0)%nat ->
  exists p',
    chain_update p (length es / blk) (length es mod blk) (fun _ => Ok e')
    = Ok p'
    /\ stores blk fill (es ++ [e']) p'.
Proof using Hblk.
  induction 1 as [l Hl|buf l p Hbuf Hst IH]; intros Hmod.
  - assert (Hlt : (length l < blk)%nat).
    { destruct (decide (length l = blk)) as [Heq|]; [|lia].
      rewrite Heq, Nat.Div0.mod_same in Hmod. lia. }
    destruct (div_mod_small (length l) Hlt) as [-> ->].
    cbn [chain_update payload].
    rewrite lookup_app_r by lia. rewrite Nat.sub_diag.
    destruct (blk - length l)%nat as [|r] eqn:Hr; [lia|].
    cbn [repeat lookup list_lookup bind].
    eexists. split; [reflexivity|].
    replace (<[length l:=e']> (l ++ fill :: repeat fill r))
      with ((l ++ [e']) ++ repeat fill (blk - length (l ++ [e']))).
    + apply stores_last. rewrite length_app. cbn. lia.
    + rewrite insert_app_r_alt by lia. rewrite Nat.sub_diag. cbn.
      rewrite <- app_assoc. cbn. rewrite length_app. cbn.
      repeat f_equal. lia.
  - rewrite length_app, Hbuf in *.
    destruct (div_mod_next (length l)) as [Hd Hm]. rewrite Hd, Hm in *.
    cbn [chain_update].
    destruct (IH Hmod) as (p' & Hp' & Hst').
    rewrite Hp'. cbn [bind]. eexists. split; [reflexivity|].
    rewrite <- app_assoc. apply stores_more; assumption.
Qed.

(** Linking a fresh block behind a full chain and writing its first cell. *)
Lemma chain_append_block (es : list E) (p : DATA E) (e' : E) :
  stores blk fill es p -> (length es mod blk = 0)%nat ->
  exists p1 p2,
    chain_set_next p (length es / blk - 1) (Block (Some (repeat fill blk)) NULL)
    = Ok p1
    /\ chain_update p1 (length es / blk) 0 (fun _ => Ok e') = Ok p2
    /\ stores blk fill (es ++ [e']) p2.
Proof using Hblk.
  induction 1 as [l Hl|buf l p Hbuf Hst IH]; intros Hmod.
  - assert (Heq : length l = blk).
    { destruct (decide (length l = blk)) as [Heq|]; [exact Heq|].
      rewrite Nat.mod_small in Hmod by lia. lia. }
    rewrite Heq, Nat.div_same by lia. cbn [Nat.sub chain_set_next bind].
    destruct blk as [|b]; [lia|].
    eexists _, _. split; [reflexivity|].
    cbn [chain_update payload bind].
    cbn [repeat lookup list_lookup bind insert list_insert].
    split; [reflexivity|].
    replace (S b - S b)%nat with 0%nat by lia. cbn [repeat].
    rewrite app_nil_r. apply stores_more; [exact Heq|].
    replace (e' :: repeat fill b) with ([e'] ++ repeat fill (S b - length [e']))
      by (cbn; repeat f_equal; lia).
    apply stores_last. cbn. lia.
  - pose proof (stores_nonempty blk fill l p Hst) as Hne.
    rewrite length_app, Hbuf in *.
    destruct (div_mod_next (length l)) as [Hd Hm]. rewrite Hd, Hm in *.
    assert (Hq : (1 <= length l / blk)%nat).
    { apply Nat.div_le_lower_bound; [lia|].
      destruct (decide (length l < blk)%nat) as [Hlt|]; [|lia].
      rewrite Nat.mod_small in Hmod by lia. lia. }
    destruct (IH Hmod) as (p1 & p2 & Hp1 & Hp2 & Hst').
    replace (S (length l / blk) - 1)%nat with (S (length l / blk - 1)) by lia.
    exists (Block (Some buf) p1), (Block (Some buf) p2).
    cbn [chain_set_next chain_update]. rewrite Hp1, Hp2. cbn [bind].
    split; [reflexivity|]. split; [reflexivity|].
    rewrite <- app_assoc. apply stores_more; assumption.
Qed.

End ChainFacts.

(** ** Hash-sparse multi-array: one bucket *)

Section FirstMatchFacts.
Context {E : Type}.
Variable same : E -> result bool.

Lemma first_match_none_iff (l : list E) :
  same_defined same l ->
  first_match same l = None <-> Forall (fun e => same e = Ok false) l.
Proof.
  induction l as [|x l IH]; intros Hdef; cbn.
  - split; [constructor | reflexivity].
  - apply Forall_cons in Hdef as [[b Hb] Hdef]. rewrite Hb.
    specialize (IH Hdef). destruct b.
    + split; [discriminate|]. intros HF. apply Forall_cons in HF as [HF _].
      congruence.
    + destruct (first_match same l) as [[t e]|].
      * split; [discriminate|]. intros HF. apply Forall_cons in HF as [_ HF].
        apply IH in HF. discriminate.
      * split; [|reflexivity]. intros _. constructor; [exact Hb | apply IH; reflexivity].
Qed.

(** Replacing the entry found by one that [same] accepts too. *)
Lemma first_match_insert_same (l : list E) (t : nat) (e e' : E) :
  first_match same l = Some (t, e) -> same e' = Ok true ->
  first_match same (<[t := e']> l) = Some (t, e').
Proof.
  revert t. induction l as [|x l IH]; intros t; cbn; [discriminate|].
  destruct (same x) as [[|]|] eqn:Hx.
  - intros [= <- <-] He'. cbn. rewrite He'. reflexivity.
  - destruct (first_match same l) as [[t' y]|] eqn:Hfm; [|discriminate].
    intros [= <- <-] He'.
    change (<[S t':=e']> (x :: l)) with (x :: <[t':=e']> l).
    cbn [first_match]. rewrite Hx, (IH t' eq_refl He'). reflexivity.
  - destruct (first_match same l) as [[t' y]|] eqn:Hfm; [|discriminate].
    intros [= <- <-] He'.
    change (<[S t':=e']> (x :: l)) with (x :: <[t':=e']> l).
    cbn [first_match]. rewrite Hx, (IH t' eq_refl He'). reflexivity.
Qed.

(** Replacing an entry that [same] rejects by another that it rejects. *)
Lemma first_match_insert_other (l : list E) (t : nat) (e e' : E) :
  l !! t = Some e -> same e = Ok false -> same e' = Ok false ->
  first_match same (<[t := e']> l) = first_match same l.
Proof.
  revert t. induction l as [|x l IH]; intros t; [discriminate|].
  destruct t as [|t].
  - intros [= ->] He He'. cbn. rewrite He, He'. reflexivity.
  - intros Ht He He'.
    change (<[S t:=e']> (x :: l)) with (x :: <[t:=e']> l).
    cbn [first_match]. rewrite (IH t Ht He He'). reflexivity.
Qed.

Lemma first_match_snoc_same (l : list E) (e' : E) :
  same_defined same l -> first_match same l = None -> same e' = Ok true ->
  first_match same (l ++ [e']) = Some (length l, e').
Proof.
  intros Hdef Hnone He'. rewrite (first_match_app_r same l [e'] Hdef Hnone).
  cbn. rewrite He'. f_equal. f_equal. lia.
Qed.

Lemma first_match_snoc_other (l : list E) (e' : E) :
  same_defined same l -> same e' = Ok false ->
  first_match same (l ++ [e']) = first_match same l.
Proof.
  intros Hdef He'.
  destruct (first_match same l) as [[t e]|] eqn:Hfm.
  - apply first_match_app_l. exact Hfm.
  - rewrite (first_match_app_r same l [e'] Hdef Hfm). cbn. rewrite He'.
    reflexivity.
Qed.

End FirstMatchFacts.

Section KeyFacts.
Context {V : Type} {rawV : Raw V}.
Variable nd : Z.
Hypothesis Hnd : 0 <= nd.

(** On a live entry the comparison of the scans is equality of keys. *)
Lemma same_index_key (k : list Z) (e : MDATA V) :
  entry_ok nd e -> Z.of_nat (length k) = nd ->
  same_index (4 * nd) k e = Ok (bool_decide (MDATA.index e = Some k)).
Proof using Hnd.
  intros (key & v & Hidx & Hlen & _) Hk.
  unfold same_index, memcmp_eq. rewrite Hidx.
  replace (Z.quot (4 * nd) 4) with nd
    by (rewrite Z.mul_comm, Z.quot_mul; lia).
  test_is ((nd <? 0) || (Z.of_nat (length key) <? nd)
           || (Z.of_nat (length k) <? nd)) false.
  rewrite !firstn_all2 by lia.
  f_equal. apply bool_decide_ext. split; congruence.
Qed.

Lemma same_defined_ok (k : list Z) (es : list (MDATA V)) :
  Forall (entry_ok nd) es -> Z.of_nat (length k) = nd ->
  same_defined (same_index (4 * nd) k) es.
Proof using Hnd.
  intros Hes Hk. unfold same_defined.
  eapply Forall_impl; [exact Hes|].
  intros e He. cbn. rewrite (same_index_key k e He Hk). eauto.
Qed.

Lemma find_key_Some (k : list Z) (es : list (MDATA V)) (t : nat) (e : MDATA V) :
  Forall (entry_ok nd) es -> Z.of_nat (length k) = nd ->
  find_key nd k es = Some (t, e) ->
  es !! t = Some e /\ MDATA.index e = Some k /\ entry_ok nd e.
Proof using Hnd.
  intros Hes Hk Hfind.
  apply first_match_lookup in Hfind as [Ht Hsame].
  assert (He : entry_ok nd e).
  { rewrite Forall_forall in Hes. apply Hes.
    apply list_elem_of_lookup. eauto. }
  rewrite (same_index_key k e He Hk) in Hsame.
  injection Hsame as Hsame. apply bool_decide_eq_true in Hsame. auto.
Qed.

Lemma find_key_None (k : list Z) (es : list (MDATA V)) :
  Forall (entry_ok nd) es -> Z.of_nat (length k) = nd ->
  find_key nd k es = None -> Some k ∉ map MDATA.index es.
Proof using Hnd.
  intros Hes Hk Hfind Hin.
  apply (first_match_none_iff _ es (same_defined_ok k es Hes Hk)) in Hfind.
  apply list_elem_of_fmap in Hin as (e & Hidx & He).
  rewrite Forall_forall in Hfind, Hes.
  specialize (Hfind e He). rewrite (same_index_key k e (Hes e He) Hk) in Hfind.
  injection Hfind as Hfind. apply bool_decide_eq_false in Hfind. congruence.
Qed.

Lemma fresh_entry_ok (k : list Z) (d : option V) (InitData : init_hook V)
    (newlock : option LOCK) :
  Z.of_nat (length k) = nd -> entry_ok nd (fresh_entry k d InitData newlock).
Proof using Type.
  intros Hk. unfold entry_ok, fresh_entry. cbn. eauto.
Qed.

Lemma overwritten_ok (d : option V) (e : MDATA V) :
  entry_ok nd e ->
  entry_ok nd (overwritten d e)
  /\ MDATA.index (overwritten d e) = MDATA.index e
  /\ MDATA.lock (overwritten d e) = MDATA.lock e
  /\ MDATA.data (overwritten d e)
     = match d with Some v => Some v | None => MDATA.data e end.
Proof using Type.
  intros (key & v & Hidx & Hlen & Hdata).
  unfold overwritten, entry_ok. destruct d as [x|]; cbn; eauto 10.
Qed.

(** The entries of a bucket after [NMultiSet] of [k] are live and have
    distinct keys. *)
Lemma set_entries_ok (k : list Z) (d : option V) (InitData : init_hook V)
    (newlock : option LOCK) (es : list (MDATA V)) :
  Forall (entry_ok nd) es -> NoDup (map MDATA.index es) ->
  Z.of_nat (length k) = nd ->
  Forall (entry_ok nd) (set_entries nd k d InitData newlock es)
  /\ NoDup (map MDATA.index (set_entries nd k d InitData newlock es))
  /\ (length (set_entries nd k d InitData newlock es) <= S (length es))%nat.
Proof using Hnd.
  intros Hes Hnd' Hk. unfold set_entries.
  destruct (find_key nd k es) as [[t e]|] eqn:Hfind.
  - destruct (find_key_Some k es t e Hes Hk Hfind) as (Ht & Hidx & He).
    destruct (overwritten_ok d e He) as (He' & Hidx' & _).
    split; [|split].
    + apply Forall_insert; assumption.
    + rewrite list_fmap_insert, Hidx'.
      rewrite list_insert_id; [exact Hnd'|].
      rewrite list_lookup_fmap, Ht. reflexivity.
    + rewrite length_insert. lia.
  - split; [|split].
    + apply Forall_app. split; [exact Hes|].
      constructor; [apply fresh_entry_ok; exact Hk | constructor].
    + rewrite map_app. cbn.
      apply NoDup_app. split; [exact Hnd'|]. split.
      * intros x Hx Hx'. apply list_elem_of_singleton in Hx'. subst x.
        exact (find_key_None k es Hes Hk Hfind Hx).
      * apply NoDup_singleton.
    + rewrite length_app. cbn. lia.
Qed.

(** [NMultiGet] of [k] after [NMultiSet] of [k]. *)
Lemma find_set_same (k : list Z) (d : option V) (InitData : init_hook V)
    (newlock : option LOCK) (es : list (MDATA V)) :
  Forall (entry_ok nd) es -> Z.of_nat (length k) = nd ->
  exists t,
    find_key nd k (set_entries nd k d InitData newlock es)
    = Some (t, match find_key nd k es with
               | Some (_, e) => overwritten d e
               | None => fresh_entry k d InitData newlock
               end).
Proof using Hnd.
  intros Hes Hk. unfold set_entries.
  destruct (find_key nd k es) as [[t e]|] eqn:Hfind.
  - destruct (find_key_Some k es t e Hes Hk Hfind) as (Ht & Hidx & He).
    destruct (overwritten_ok d e He) as (He' & Hidx' & _).
    exists t. unfold find_key in *.
    apply (first_match_insert_same _ es t e); [exact Hfind|].
    rewrite (same_index_key k _ He' Hk), Hidx', Hidx.
    rewrite bool_decide_eq_true_2; reflexivity.
  - exists (length es). unfold find_key in *.
    apply first_match_snoc_same; [apply same_defined_ok; assumption | exact Hfind|].
    rewrite (same_index_key k _ (fresh_entry_ok k d InitData newlock Hk) Hk).
    rewrite bool_decide_eq_true_2; reflexivity.
Qed.

(** [NMultiGet] of another key after [NMultiSet] of [k]. *)
Lemma find_set_other (k k' : list Z) (d : option V) (InitData : init_hook V)
    (newlock : option LOCK) (es : list (MDATA V)) :
  Forall (entry_ok nd) es -> Z.of_nat (length k) = nd ->
  Z.of_nat (length k') = nd -> k' <> k ->
  find_key nd k' (set_entries nd k d InitData newlock es) = find_key nd k' es.
Proof using Hnd.
  intros Hes Hk Hk' Hne. unfold set_entries.
  destruct (find_key nd k es) as [[t e]|] eqn:Hfind.
  - destruct (find_key_Some k es t e Hes Hk Hfind) as (Ht & Hidx & He).
    destruct (overwritten_ok d e He) as (He' & Hidx' & _).
    unfold find_key.
    apply (first_match_insert_other _ es t e); [exact Ht| |].
    + rewrite (same_index_key k' e He Hk'), Hidx.
      rewrite bool_decide_eq_false_2; [reflexivity | congruence].
    + rewrite (same_index_key k' _ He' Hk'), Hidx', Hidx.
      rewrite bool_decide_eq_false_2; [reflexivity | congruence].
  - unfold find_key.
    apply first_match_snoc_other; [apply same_defined_ok; assumption|].
    rewrite (same_index_key k' _ (fresh_entry_ok k d InitData newlock Hk) Hk').
    rewrite bool_decide_eq_false_2; [reflexivity|]. cbn. congruence.
Qed.

End KeyFacts.

Section SetScanFacts.
Context {V : Type}.
Variables (blk : nat) (fill : MDATA V).
Variable same : MDATA V -> result bool.
Hypothesis Hblk : (0 < blk)%nat.

(** Where the scan of [NMultiSet] stops on a chain that holds [es]: at the
    entry with the key, at the free cell behind the entries, or at the end
    of a full chain. *)
Lemma NMultiSet_scan_stores (es : list (MDATA V)) (p : DATA (MDATA V))
    (i j0 : Z) (nb0 : nat) :
  stores blk fill es p -> same_defined same es ->
  i = j0 + Z.of_nat (length es) ->
  NMultiSet_scan same (Z.of_nat blk) i p nb0 j0
  = Ok (match first_match same es with
        | Some (t, e) => AtEntry (nb0 + t / blk) (t mod blk) e
        | None =>
            if (length es mod blk =? 0)%nat
            then NeedBlock (nb0 + length es / blk - 1)
            else AtFree (nb0 + length es / blk) (length es mod blk)
        end).
Proof using Hblk.
  intros Hst. revert i j0 nb0.
  induction Hst as [l Hl|buf l p Hbuf Hst IH]; intros i j0 nb0 Hdef Hi;
    cbn [NMultiSet_scan payload].
  - rewrite (scan_for_spec same (Z.of_nat blk) i l _ 0 0 j0 Hdef) by lia.
    destruct (first_match same l) as [[t e]|] eqn:Hfm; cbn [bind].
    + apply first_match_lookup in Hfm as [Ht _].
      apply lookup_lt_Some in Ht.
      destruct (div_mod_small blk t ltac:(lia)) as [-> ->].
      rewrite Nat.add_0_r. reflexivity.
    + destruct (decide (length l = blk)) as [Heq|Hne].
      * test_is (0 + Z.of_nat (length l) =? Z.of_nat blk) true.
        rewrite Heq, Nat.Div0.mod_same, Nat.div_same by lia.
        cbn [Nat.eqb]. f_equal. f_equal. lia.
      * test_is (0 + Z.of_nat (length l) =? Z.of_nat blk) false.
        test_is (j0 + Z.of_nat (length l) <? i) false.
        destruct (div_mod_small blk (length l) ltac:(lia)) as [-> ->].
        destruct (length l =? 0)%nat eqn:Hz; [apply Nat.eqb_eq in Hz; lia|].
        f_equal. f_equal; lia.
  - pose proof (stores_nonempty blk fill l p Hst) as Hne.
    rewrite length_app in *.
    apply Forall_app in Hdef as [Hdef1 Hdef2].
    rewrite (scan_for_whole same (Z.of_nat blk) i buf 0 0 j0 Hdef1) by lia.
    destruct (first_match same buf) as [[t e]|] eqn:Hfm; cbn [bind].
    + rewrite (first_match_app_l same buf l t e Hfm).
      apply first_match_lookup in Hfm as [Ht _].
      apply lookup_lt_Some in Ht.
      destruct (div_mod_small blk t ltac:(lia)) as [-> ->].
      rewrite Nat.add_0_r. reflexivity.
    + rewrite (first_match_app_r same buf l Hdef1 Hfm).
      test_is (0 + Z.of_nat (length buf) =? Z.of_nat blk) true.
      test_is (j0 + Z.of_nat (length buf) <? i) true.
      pose proof (IH i (j0 + Z.of_nat (length buf)) (S nb0) Hdef2
                    ltac:(lia)) as IHp.
      destruct p as [| |dptr next]; [inversion Hst | inversion Hst |].
      rewrite IHp, Hbuf.
      destruct (div_mod_next blk Hblk (length l)) as [Hd Hm].
      destruct (first_match same l) as [[t e]|].
      * destruct (div_mod_next blk Hblk t) as [-> ->].
        f_equal. f_equal. lia.
      * rewrite Hd, Hm.
        destruct (length l mod blk =? 0)%nat; f_equal; f_equal; lia.
Qed.

End SetScanFacts.

(** ** Hash-sparse multi-array: the table *)

Section NMultiFacts.
Context {V : Type} {rawV : Raw V}.
Variables (w sizeof_DATA sizeof_LOCK sizeof_MDATA sizeof_ARRAY : Z).
Variable MyRankMPI : Z.
Hypothesis Hw : 31 <= w.

Local Abbreviation NMULTI := (MULTI (list (ARRAY (MDATA V))) unit unit).

Lemma bucket_rep_weaken (nd N N' : Z) (a : ARRAY (MDATA V))
    (es : list (MDATA V)) :
  N <= N' -> bucket_rep nd N a es -> bucket_rep nd N' a es.
Proof using Type.
  intros HN (Hb & Hh & Hl & Hok & Hnd). repeat split; auto; try apply Hh. lia.
Qed.

Lemma NMulti_rep_weaken (nd N N' : Z) (ma : NMULTI)
    (ess : list (list (MDATA V))) :
  N <= N' -> NMulti_rep nd N ma ess -> NMulti_rep nd N' ma ess.
Proof using Type.
  intros HN (H1 & H2 & H3 & H4 & H5 & H6 & H7).
  repeat split; auto; try lia.
  eapply Forall2_impl; [exact H6|].
  intros a es. apply bucket_rep_weaken. exact HN.
Qed.

(** The bucket of a key. *)
Lemma rep_bucket (nd N : Z) (ma : NMULTI) (ess : list (list (MDATA V)))
    (k : list Z) :
  NMulti_rep nd N ma ess -> Z.of_nat (length k) = nd ->
  exists h a es,
    Hash2 w k (MULTI.ndim ma) 0 (MULTI.ndim ma) (MULTI.hmask ma) = Ok h
    /\ bucket_of w nd k = Ok h
    /\ 0 <= h < Z.of_nat (length ess)
    /\ load (MULTI.array ma) h = Ok a
    /\ ess !! Z.to_nat h = Some es
    /\ bucket_rep nd N a es.
Proof using Hw.
  intros (Hnd & Hndim & Hisz & Hhs & Hhm & Hbk & Hlen) Hk.
  destruct (bucket_of_in_table w nd k Hnd Hw Hk) as (h & Hh & Hrange).
  destruct (HashSize_value w nd Hnd Hw) as [Hhsv Hs].
  assert (Hpow : 0 < 2 ^ (nd / 2 + 16) <= 2 ^ 30).
  { split; [apply Z.pow_pos_nonneg; lia|].
    apply Z.pow_le_mono_r; lia. }
  pose proof Hh as Hh'. unfold bucket_of in Hh'. rewrite Hhsv in Hh'.
  cbn [bind] in Hh'.
  rewrite (sint_small (2 ^ (nd / 2 + 16))) in Hh' by lia.
  rewrite sint_small in Hh' by lia.
  destruct (lookup_lt_is_Some_2 ess (Z.to_nat h)) as [es Hes]; [lia|].
  destruct (Forall2_lookup_r _ _ _ _ _ Hbk Hes) as (a & Ha & Hrep).
  exists h, a, es. rewrite Hndim, Hhm.
  split; [exact Hh'|]. split; [exact Hh|]. split; [lia|].
  split; [|split; assumption].
  apply load_Ok. split; [lia | exact Ha].
Qed.

(** [NMultiGet] finds the entry with the key in the bucket of the key. *)
Lemma NMultiGet_rep (nd N : Z) (ma : NMULTI) (ess : list (list (MDATA V)))
    (k : list Z) (lock : lock_out) :
  NMulti_rep nd N ma ess -> Z.of_nat (length k) = nd ->
  exists h es,
    bucket_of w nd k = Ok h /\ ess !! Z.to_nat h = Some es
    /\ NMultiGet w ma k lock = Ok (get_view (find_key nd k es) lock).
Proof using Hw.
  intros Hrep Hk.
  destruct (rep_bucket nd N ma ess k Hrep Hk)
    as (h & a & es & Hh & Hb & Hrange & Ha & Hes & Hbr).
  exists h, es. split; [exact Hb|]. split; [exact Hes|].
  unfold NMultiGet. rewrite Hh. cbn [bind]. rewrite Ha. cbn [bind].
  destruct Hrep as (Hnd & Hndim & Hisz & _).
  destruct Hbr as (Hblk & [Hdim Hdata] & HN & Hok & Hnodup).
  rewrite Hisz, Hblk. unfold find_key.
  destruct es as [|e es].
  - rewrite Hdata. cbn. reflexivity.
  - rewrite Hblk in Hdata. change (Z.to_nat 8) with 8%nat in Hdata.
    pose proof (scan_chain_stores 8 null_entry ltac:(lia)
                  (same_index (4 * nd) k) (e :: es) (data a) (dim a) 0 0 None
                  Hdata
                  (same_defined_ok nd ltac:(lia) k (e :: es) Hok Hk)
                  ltac:(lia)) as Hscan.
    change (Z.of_nat 8) with 8 in Hscan.
    destruct (first_match (same_index (4 * nd) k) (e :: es)) as [[t x]|].
    + rewrite Hscan. reflexivity.
    + destruct Hscan as [last' ->]. reflexivity.
Qed.

End NMultiFacts.

Section NMultiSetFacts.
Context {V : Type} {rawV : Raw V}.
Variables (w sizeof_DATA sizeof_LOCK : Z).
Hypothesis Hw : 31 <= w.

Local Abbreviation NMULTI := (MULTI (list (ARRAY (MDATA V))) unit unit).

Lemma new_entry_fresh (nd : Z) (k : list Z) (d : option V)
    (InitData : init_hook V) (newlock : option LOCK) :
  0 <= nd -> Z.of_nat (length k) = nd ->
  new_entry (4 * nd) k d InitData newlock
  = Ok (fresh_entry k d InitData newlock).
Proof using Type.
  intros Hnd Hk. unfold new_entry, fresh_entry.
  replace (Z.quot (4 * nd) 4) with nd
    by (rewrite Z.mul_comm, Z.quot_mul; lia).
  test_is ((nd <? 0) || (Z.of_nat (length k) <? nd)) false.
  rewrite firstn_all2 by lia. reflexivity.
Qed.

Lemma arr_holds_nonempty (a : ARRAY (MDATA V)) (es : list (MDATA V)) :
  dim a = Z.of_nat (length es) -> es <> [] ->
  stores (Z.to_nat (block a)) null_entry es (data a) ->
  arr_holds null_entry a es.
Proof using Type.
  intros Hdim Hne Hst. split; [exact Hdim|]. destruct es; [congruence | exact Hst].
Qed.

(** Lines 856-881 on a bucket whose chain [p] has the cell for the new
    entry at block [nb], slot [off]. *)
Lemma NMultiSet_insert_rep (nd N : Z) (ma : NMULTI)
    (ess : list (list (MDATA V))) (g : GLOBALS) (h : Z)
    (a : ARRAY (MDATA V)) (es : list (MDATA V))
    (p p' : DATA (MDATA V)) (nb off : nat) (size0 : Z) (k : list Z)
    (d : option V) (lock : lock_out) (InitData : init_hook V)
    (newlock : option LOCK) :
  NMulti_rep nd N ma ess -> Z.of_nat (length k) = nd -> N + 1 < 2 ^ 31 ->
  0 <= h -> ess !! Z.to_nat h = Some es -> bucket_rep nd N a es ->
  find_key nd k es = None ->
  chain_update p nb off (fun _ => Ok (fresh_entry k d InitData newlock))
  = Ok p' ->
  stores 8 null_entry (es ++ [fresh_entry k d InitData newlock]) p' ->
  exists ma' g',
    NMultiSet_insert sizeof_LOCK ma g h a p nb off size0 k d lock
      InitData newlock
    = Ok (ma', g', MDATA.data (fresh_entry k d InitData newlock),
          write_lock lock newlock)
    /\ NMulti_rep nd (N + 1) ma'
         (<[Z.to_nat h := set_entries nd k d InitData newlock es]> ess)
    /\ MULTI.maxsize ma' = MULTI.maxsize ma /\ _maxsize g' = _maxsize g
    /\ _overheadsize g' = _overheadsize g
    /\ MULTI.numelem ma' = sint (MULTI.numelem ma + 1)
    /\ exists cost,
         MULTI.totalsize ma' = MULTI.totalsize ma + cost
         /\ _totalsize g' = _totalsize g + cost.
Proof using Type.
  intros Hrep Hk HN Hh Hes Hbr Hfind Hupd Hst.
  pose proof Hrep as (Hnd & Hndim & Hisz & Hhs & Hhm & Hbk & Hlen).
  unfold NMultiSet_insert.
  rewrite Hisz, (new_entry_fresh nd k d InitData newlock ltac:(lia) Hk).
  cbn [bind]. rewrite Hupd. cbn [bind].
  pose proof (Forall2_length _ _ _ Hbk) as Hlen2.
  pose proof (lookup_lt_Some _ _ _ Hes) as Hlt.
  rewrite store_Ok by lia. cbn [bind].
  eexists _, _. split; [reflexivity|].
  destruct Hbr as (Hblk & [Hdim Hdata] & HNes & Hok & Hnodup).
  destruct (set_entries_ok nd ltac:(lia) k d InitData newlock es Hok Hnodup Hk)
    as (Hok' & Hnodup' & _).
  unfold set_entries in *. rewrite Hfind in *.
  split; [|split; [reflexivity|split; [reflexivity|split; [reflexivity|]]]].
  - repeat split; cbn; auto; try lia.
    + apply Forall2_insert.
      * eapply Forall2_impl; [exact Hbk|].
        intros b bs. apply bucket_rep_weaken. lia.
      * split; [exact Hblk|]. split; [|split; [|split; assumption]].
        -- apply arr_holds_nonempty.
           ++ cbn [dim set_dim set_data]. rewrite length_app. cbn [length].
              rewrite sint_small; lia.
           ++ destruct es; discriminate.
           ++ cbn [block data set_dim set_data]. rewrite Hblk. exact Hst.
        -- rewrite length_app. cbn [length]. lia.
    + rewrite length_insert. exact Hlen.
  - split; [reflexivity|].
    eexists. cbn. split; [rewrite <- Z.add_assoc | rewrite <- Z.add_assoc];
      reflexivity.
Qed.

(** The rest of [NMultiSet] after the critical block, on an array that
    holds [ess]: the bucket of the key receives [set_entries]; an entry
    found is overwritten in place and no counter moves; a new entry adds
    its bytes to both totals and one to [numelem]. *)
Lemma NMultiSet_body_rep (nd N : Z) (ma : NMULTI)
    (ess : list (list (MDATA V))) (g : GLOBALS) (k : list Z)
    (d : option V) (lock : lock_out) (InitData : init_hook V)
    (newlock : option LOCK) :
  NMulti_rep nd N ma ess -> Z.of_nat (length k) = nd -> N + 1 < 2 ^ 31 ->
  exists h es ma' g',
    bucket_of w nd k = Ok h /\ ess !! Z.to_nat h = Some es
    /\ NMultiSet_body w sizeof_DATA sizeof_LOCK ma g k d lock InitData newlock
       = Ok (ma', g',
             MDATA.data (set_entry nd k d InitData newlock es),
             write_lock lock
               (MDATA.lock (set_entry nd k d InitData newlock es)))
    /\ NMulti_rep nd (N + 1) ma'
         (<[Z.to_nat h := set_entries nd k d InitData newlock es]> ess)
    /\ MULTI.maxsize ma' = MULTI.maxsize ma /\ _maxsize g' = _maxsize g
    /\ _overheadsize g' = _overheadsize g
    /\ match find_key nd k es with
       | Some _ =>
           g' = g /\ MULTI.totalsize ma' = MULTI.totalsize ma
           /\ MULTI.numelem ma' = MULTI.numelem ma
       | None =>
           MULTI.numelem ma' = sint (MULTI.numelem ma + 1)
           /\ exists cost,
                MULTI.totalsize ma' = MULTI.totalsize ma + cost
                /\ _totalsize g' = _totalsize g + cost
       end.
Proof using Hw.
  intros Hrep Hk HN.
  destruct (rep_bucket w Hw nd N ma ess k Hrep Hk)
    as (h & a & es & Hh & Hb & Hrange & Ha & Hes & Hbr).
  exists h, es.
  pose proof Hrep as (Hnd & Hndim & Hisz & Hhs & Hhm & Hbk & Hlen).
  pose proof Hbr as (Hblk & [Hdim Hdata] & HNes & Hok & Hnodup).
  unfold NMultiSet_body. rewrite Hh. cbn [bind]. rewrite Ha. cbn [bind].
  unfold set_entry.
  destruct es as [|e0 es0].
  - (* the bucket is empty *)
    change (dim a = 0) in Hdim. rewrite Hdim. cbn [Z.eqb].
    assert (Hfind : find_key nd k (@nil (MDATA V)) = None) by reflexivity.
    rewrite Hfind.
    destruct (NMultiSet_insert_rep nd N ma ess g h a []
                (Block (Some (InitMDataData (block a))) NULL)
                (Block (Some (fresh_entry k d InitData newlock
                              :: repeat null_entry 7)) NULL)
                0 0 (sint (sizeof_DATA + bsize a)) k d lock InitData newlock
                Hrep Hk HN ltac:(lia) Hes Hbr Hfind)
      as (ma' & g' & Hins & Hrep' & Hmax & Hgmax & Hov & Hnum & Hcost).
    { rewrite Hblk. reflexivity. }
    { apply (stores_last 8 null_entry [fresh_entry k d InitData newlock]).
      cbn. lia. }
    exists ma', g'. split; [exact Hb|]. split; [exact Hes|].
    split; [exact Hins|]. split; [exact Hrep'|]. auto.
  - (* the bucket holds entries *)
    set (es := e0 :: es0) in *.
    assert (Hpos : (0 < length es)%nat) by (cbn; lia).
    test_is (dim a =? 0) false. test_is (0 <? dim a) true.
    rewrite Hblk in Hdata. change (Z.to_nat 8) with 8%nat in Hdata.
    change (stores 8 null_entry es (data a)) in Hdata.
    pose proof (same_defined_ok nd ltac:(lia) k es Hok Hk) as Hdef.
    rewrite Hisz, Hblk. change 8 with (Z.of_nat 8).
    rewrite (NMultiSet_scan_stores 8 null_entry _ ltac:(lia) es (data a)
               (dim a) 0 0 Hdata Hdef) by lia.
    cbn [bind]. fold (find_key nd k es).
    destruct (find_key nd k es) as [[t e]|] eqn:Hfind.
    + (* the key is there: overwrite in place *)
      destruct (find_key_Some nd ltac:(lia) k es t e Hok Hk Hfind)
        as (Ht & Hidx & He).
      destruct (overwritten_ok nd d e He) as (He' & Hidx' & Hlk' & Hdata').
      assert (Hf : NMultiSet_overwrite d e = Ok (overwritten d e)).
      { destruct He as (key & v & _ & _ & Hv).
        unfold NMultiSet_overwrite, overwritten. rewrite Hv.
        destruct d; reflexivity. }
      destruct (chain_update_stores 8 null_entry ltac:(lia) es (data a) t e
                  (overwritten d e) (NMultiSet_overwrite d) Hdata Ht Hf)
        as (p' & Hp' & Hst').
      cbn [Nat.add]. rewrite Hp'. cbn [bind].
      pose proof (Forall2_length _ _ _ Hbk) as Hlen2.
      rewrite store_Ok by lia. cbn [bind].
      eexists _, _. split; [exact Hb|]. split; [exact Hes|].
      rewrite Hdata', Hlk'. split; [reflexivity|].
      destruct (set_entries_ok nd ltac:(lia) k d InitData newlock es
                  Hok Hnodup Hk) as (Hok' & Hnodup' & _).
      unfold set_entries in *. rewrite Hfind in *.
      split; [|repeat split; reflexivity].
      repeat split; cbn; auto; try lia.
      * apply Forall2_insert.
        -- eapply Forall2_impl; [exact Hbk|].
           intros b bs. apply bucket_rep_weaken. lia.
        -- split; [exact Hblk|]. split; [|split; [|split; assumption]].
           ++ apply arr_holds_nonempty.
              ** cbn [dim set_data]. rewrite length_insert. exact Hdim.
              ** intros Hnil. apply (f_equal length) in Hnil.
                 rewrite length_insert in Hnil. cbn in Hnil. lia.
              ** cbn [block data set_data]. rewrite Hblk. exact Hst'.
           ++ rewrite length_insert. lia.
      * rewrite length_insert. exact Hlen.
    + (* the key is new *)
      destruct (length es mod 8 =? 0)%nat eqn:Hmod.
      * apply Nat.eqb_eq in Hmod.
        destruct (chain_append_block 8 null_entry ltac:(lia) es (data a)
                    (fresh_entry k d InitData newlock) Hdata Hmod)
          as (p1 & p2 & Hp1 & Hp2 & Hst').
        cbn [Nat.add].
        replace (InitMDataData (Z.of_nat 8)) with (repeat (@null_entry V) 8)
          by reflexivity.
        rewrite Hp1. cbn [bind].
        assert (Hq : (1 <= length es / 8)%nat).
        { apply Nat.div_le_lower_bound; [lia|].
          destruct (decide (length es < 8)%nat) as [Hlt|]; [|lia].
          rewrite Nat.mod_small in Hmod by lia. lia. }
        replace (S (length es / 8 - 1)) with (length es / 8)%nat by lia.
        destruct (NMultiSet_insert_rep nd N ma ess g h a es p1 p2
                    (length es / 8) 0 (sint (sizeof_DATA + bsize a))
                    k d lock InitData newlock
                    Hrep Hk HN ltac:(lia) Hes Hbr Hfind Hp2 Hst')
          as (ma' & g' & Hins & Hrep' & Hmax & Hgmax & Hov & Hnum & Hcost).
        exists ma', g'. split; [exact Hb|]. split; [exact Hes|].
        split; [exact Hins|]. split; [exact Hrep'|]. auto.
      * apply Nat.eqb_neq in Hmod.
        destruct (chain_append_free 8 null_entry ltac:(lia) es (data a)
                    (fresh_entry k d InitData newlock) Hdata Hmod)
          as (p' & Hp' & Hst').
        cbn [Nat.add].
        destruct (NMultiSet_insert_rep nd N ma ess g h a es (data a) p'
                    (length es / 8) (length es mod 8) 0
                    k d lock InitData newlock
                    Hrep Hk HN ltac:(lia) Hes Hbr Hfind Hp' Hst')
          as (ma' & g' & Hins & Hrep' & Hmax & Hgmax & Hov & Hnum & Hcost).
        exists ma', g'. split; [exact Hb|]. split; [exact Hes|].
        split; [exact Hins|]. split; [exact Hrep'|]. auto.
Qed.

End NMultiSetFacts.

(** ** Hash-sparse multi-array: eviction and initialisation *)

Section NMultiEvictFacts.
Context {V : Type} {rawV : Raw V}.
Variables (w sizeof_DATA sizeof_LOCK sizeof_MDATA sizeof_ARRAY : Z).
Variable MyRankMPI : Z.
Hypothesis Hw : 31 <= w.

Local Abbreviation NMULTI := (MULTI (list (ARRAY (MDATA V))) unit unit).

Lemma stores_nfree (blk : nat) (fill : MDATA V) (es : list (MDATA V))
    (p : DATA (MDATA V)) (FreeElem : free_hook V) :
  stores blk fill es p ->
  NMultiArrayFreeData p (Z.of_nat blk) FreeElem = Ok tt.
Proof using Type.
  induction 1 as [l Hl|buf l p Hbuf Hst IH]; cbn [NMultiArrayFreeData is_null bind].
  - rewrite length_app, repeat_length.
    test_is (Z.of_nat blk <=? Z.of_nat (length l + (blk - length l))) true.
    reflexivity.
  - rewrite (stores_not_null blk fill l p Hst), IH. cbn [bind].
    test_is (Z.of_nat blk <=? Z.of_nat (length buf)) true.
    reflexivity.
Qed.

(** Eviction empties a bucket. *)
Lemma NMultiFreeDataOnly_rep (nd N : Z) (a : ARRAY (MDATA V))
    (es : list (MDATA V)) (FreeElem : free_hook V) :
  bucket_rep nd N a es ->
  exists a', NMultiFreeDataOnly a FreeElem = Ok a' /\ bucket_rep nd N a' [].
Proof using Type.
  intros (Hblk & [Hdim Hdata] & HN & Hok & Hnodup).
  unfold NMultiFreeDataOnly.
  destruct es as [|e es].
  - change (dim a = 0) in Hdim. rewrite Hdim. cbn [Z.eqb].
    exists a. split; [reflexivity|].
    repeat split; auto; try constructor.
  - assert (Hpos : (0 < length (e :: es))%nat) by (cbn; lia).
    test_is (dim a =? 0) false.
    rewrite Hblk in *. change (Z.to_nat 8) with 8%nat in Hdata.
    pose proof (stores_nfree 8 null_entry _ _ FreeElem Hdata) as Hfree.
    change (Z.of_nat 8) with 8 in Hfree. rewrite Hfree. cbn [bind].
    eexists. split; [reflexivity|].
    repeat split; cbn; auto; try constructor. lia.
Qed.

Lemma map_result_rep (nd N : Z) (tbl : list (ARRAY (MDATA V)))
    (ess : list (list (MDATA V))) (FreeElem : free_hook V) :
  Forall2 (bucket_rep nd N) tbl ess ->
  exists tbl',
    map_result (fun a => NMultiFreeDataOnly a FreeElem) tbl = Ok tbl'
    /\ Forall2 (bucket_rep nd N) tbl' (map (fun _ => []) ess).
Proof using Type.
  induction 1 as [|a es tbl ess Hb _ IH]; cbn [map_result map].
  - exists []. split; [reflexivity | constructor].
  - destruct (NMultiFreeDataOnly_rep nd N a es FreeElem Hb) as (a' & Ha' & Hb').
    destruct IH as (tbl' & Htbl' & HF).
    rewrite Ha'. cbn [bind]. rewrite Htbl'. cbn [bind].
    exists (a' :: tbl'). split; [reflexivity | constructor; assumption].
Qed.

Lemma NMultiFreeData_clean (nd N : Z) (ma : NMULTI) (g : GLOBALS)
    (ess : list (list (MDATA V))) (FreeElem : free_hook V) (mode : Z) :
  NMulti_rep nd N ma ess ->
  (mode = 0 /\ Qle_bool (MULTI.maxsize ma) (inject_Z (MULTI.totalsize ma)) = true)
  \/ (mode = 1 /\ Qle_bool (_maxsize g) (inject_Z (_totalsize g)) = true) ->
  exists ma1 g1,
    NMultiFreeData MyRankMPI (MULTI.set_clean_mode ma mode) g FreeElem
    = Ok (ma1, g1)
    /\ flushed nd N ma g ess ma1 g1.
Proof using Type.
  intros (Hnd & Hndim & Hisz & Hhs & Hhm & Hbk & Hlen) Hmode.
  unfold NMultiFreeData.
  cbn [MULTI.clean_mode MULTI.set_clean_mode MULTI.totalsize MULTI.maxsize
       MULTI.array MULTI.hsize].
  assert (Hclean :
    (if mode =? 0
     then negb (Qltb (inject_Z (MULTI.totalsize ma)) (MULTI.maxsize ma))
     else if mode =? 1
          then negb (Qltb (inject_Z (_totalsize g)) (_maxsize g)
                     && Qle_bool (inject_Z (MULTI.totalsize ma))
                          ((1 # 10) * inject_Z (_totalsize g)))
          else negb (MULTI.totalsize ma <=? 0)) = true).
  { unfold Qltb. destruct Hmode as [[-> Hq]|[-> Hq]]; cbn [Z.eqb];
      rewrite Hq; reflexivity. }
  rewrite Hclean.
  pose proof (Forall2_length _ _ _ Hbk) as Hlen2.
  test_is (MULTI.hsize ma <=? Z.of_nat (length (MULTI.array ma))) true.
  rewrite firstn_all2, (drop_ge (MULTI.array ma)) by lia.
  destruct (map_result_rep nd N _ _ FreeElem Hbk) as (tbl' & Htbl' & HF).
  rewrite Htbl'. cbn [bind]. rewrite app_nil_r.
  eexists _, _. split; [reflexivity|].
  unfold flushed. cbn.
  repeat split; auto; try lia.
  rewrite length_map. exact Hlen.
Qed.

(** The critical block of [NMultiSet]: with a trigger the cache is flushed,
    without one nothing changes. *)
Lemma NMultiSet_critical_rep (nd N : Z) (ma : NMULTI) (g : GLOBALS)
    (ess : list (list (MDATA V))) (FreeElem : free_hook V) :
  NMulti_rep nd N ma ess ->
  exists ma1 g1,
    NMultiSet_critical MyRankMPI ma g FreeElem = Ok (ma1, g1)
    /\ if local_trigger ma || global_trigger ma g
       then flushed nd N ma g ess ma1 g1
       else ma1 = ma /\ g1 = g.
Proof using Type.
  intros Hrep. unfold NMultiSet_critical.
  destruct (local_trigger ma) eqn:Hloc.
  - cbn [orb]. apply NMultiFreeData_clean; [exact Hrep|].
    left. split; [reflexivity|].
    unfold local_trigger in Hloc. apply andb_true_iff in Hloc as [_ Hq].
    exact Hq.
  - cbn [orb]. destruct (global_trigger ma g) eqn:Hglob.
    + apply NMultiFreeData_clean; [exact Hrep|].
      right. split; [reflexivity|].
      unfold global_trigger in Hglob.
      apply andb_true_iff in Hglob as [Hglob _].
      apply andb_true_iff in Hglob as [_ Hq]. exact Hq.
    + exists ma, g. auto.
Qed.

Lemma Forall2_repeat {X Y : Type} (R : X -> Y -> Prop) (x : X) (y : Y) (n : nat) :
  R x y -> Forall2 R (repeat x n) (repeat y n).
Proof using Type.
  intros HR. induction n; cbn; constructor; assumption.
Qed.

(** [NMultiInit] leaves an empty array of [2^(ndim/2 + 16)] buckets with the
    mask set, no budget and a total of zero. *)
Lemma NMultiInit_rep {ARR : Type} (ma0 : MULTI ARR unit unit) (g0 : GLOBALS)
    (esz nd : Z) (blocks : list Z) (lk alk : option LOCK) :
  0 <= nd <= 29 -> 0 <= sizeof_ARRAY * 2 ^ (nd / 2 + 16) < 2 ^ 31 ->
  exists (ma : NMULTI) g,
    NMultiInit w sizeof_MDATA sizeof_ARRAY ma0 g0 esz nd blocks lk alk
    = Ok (ma, g)
    /\ NMulti_rep nd 0 ma (repeat [] (Z.to_nat (2 ^ (nd / 2 + 16))))
    /\ MULTI.maxsize ma = (-1)%Q /\ MULTI.totalsize ma = 0
    /\ MULTI.esize ma = esz
    /\ _maxsize g = _maxsize g0 /\ _totalsize g = _totalsize g0.
Proof using Hw.
  intros Hnd Hsz. unfold NMultiInit.
  destruct (HashSize_value w nd Hnd Hw) as [-> Hs]. cbn [bind].
  assert (Hpow : 0 < 2 ^ (nd / 2 + 16) <= 2 ^ 30).
  { split; [apply Z.pow_pos_nonneg; lia|].
    apply Z.pow_le_mono_r; lia. }
  rewrite (sint_small (2 ^ (nd / 2 + 16))) by lia.
  test_is ((0 <=? sizeof_ARRAY * 2 ^ (nd / 2 + 16))
           && (sizeof_ARRAY * 2 ^ (nd / 2 + 16) <? 2 ^ 31)) true.
  eexists _, _. split; [reflexivity|].
  split; [|cbn; auto].
  repeat split; cbn; auto; try lia.
  - rewrite sint_small; lia.
  - rewrite sint_small; lia.
  - apply Forall2_repeat.
    repeat split; cbn; auto; try constructor. lia.
  - rewrite repeat_length. lia.
Qed.

End NMultiEvictFacts.

(** ** Hash-sparse multi-array: the entry of a key *)

Section NMultiEntryFacts.
Context {V : Type} {rawV : Raw V}.
Variables (w sizeof_DATA sizeof_LOCK : Z).
Variable MyRankMPI : Z.
Hypothesis Hw : 31 <= w.

Local Abbreviation NMULTI := (MULTI (list (ARRAY (MDATA V))) unit unit).

Lemma get_view_entry (r : option (nat * MDATA V)) (lock : lock_out) :
  get_view r lock = entry_view (option_map snd r) lock.
Proof using Type. destruct r as [[t e]|]; reflexivity. Qed.

(** [NMultiGet] returns the entry of the key. *)
Lemma NMultiGet_entry (nd N : Z) (ma : NMULTI) (ess : list (list (MDATA V)))
    (k : list Z) (lock : lock_out) :
  NMulti_rep nd N ma ess -> Z.of_nat (length k) = nd ->
  NMultiGet w ma k lock = Ok (entry_view (entry_of w nd ess k) lock).
Proof using Hw.
  intros Hrep Hk.
  destruct (NMultiGet_rep w Hw nd N ma ess k lock Hrep Hk)
    as (h & es & Hb & Hes & HG).
  rewrite HG, get_view_entry. unfold entry_of. rewrite Hb, Hes. reflexivity.
Qed.

(** A table of empty buckets has no entry. *)
Lemma entry_of_empty (nd : Z) (ess : list (list (MDATA V))) (k : list Z) :
  Forall (fun es => es = []) ess -> entry_of w nd ess k = None.
Proof using Type.
  intros Hall. unfold entry_of.
  destruct (bucket_of w nd k) as [h|]; [|reflexivity].
  destruct (ess !! Z.to_nat h) as [es|] eqn:Hes; [|reflexivity].
  rewrite (Forall_lookup_1 _ _ _ _ Hall Hes). reflexivity.
Qed.

Lemma entry_of_flushed (nd : Z) (ess : list (list (MDATA V))) (k : list Z) :
  @entry_of V w nd (map (fun _ => []) ess) k = None.
Proof using Type.
  apply entry_of_empty. induction ess; cbn; constructor; auto.
Qed.

Lemma map_insert_same {X Y : Type} (f : X -> Y) (l : list X) (t : nat)
    (x x' : X) :
  l !! t = Some x -> f x' = f x -> map f (<[t := x']> l) = map f l.
Proof using Type.
  revert t. induction l as [|y l IH]; intros [|t] Hl Hf; try discriminate.
  - cbn in Hl. injection Hl as ->. cbn. rewrite Hf. reflexivity.
  - cbn in Hl. change (<[S t := x']> (y :: l)) with (y :: <[t := x']> l).
    cbn [map]. f_equal. exact (IH t Hl Hf).
Qed.

(** The entries after the bucket of [k] has taken the [NMultiSet] of [k]. *)
Lemma entry_of_set (nd : Z) (ess : list (list (MDATA V))) (k : list Z)
    (h : Z) (es : list (MDATA V)) (d : option V) (InitData : init_hook V)
    (newlock : option LOCK) (k' : list Z) :
  0 <= nd -> bucket_of w nd k = Ok h -> ess !! Z.to_nat h = Some es ->
  Forall (entry_ok nd) es ->
  Z.of_nat (length k) = nd -> Z.of_nat (length k') = nd ->
  entry_of w nd (<[Z.to_nat h := set_entries nd k d InitData newlock es]> ess) k'
  = if decide (k' = k)
    then Some (entry_set k d InitData newlock (entry_of w nd ess k))
    else entry_of w nd ess k'.
Proof using Type.
  intros Hnd Hb Hes Hok Hk Hk'.
  pose proof (lookup_lt_Some _ _ _ Hes) as Hlt.
  destruct (decide (k' = k)) as [->|Hne].
  - unfold entry_of. rewrite Hb, Hes.
    rewrite list_lookup_insert_eq by exact Hlt.
    destruct (find_set_same nd Hnd k d InitData newlock es Hok Hk)
      as (t & Ht).
    rewrite Ht. cbn [option_map snd]. f_equal.
    destruct (find_key nd k es) as [[t0 e]|]; reflexivity.
  - unfold entry_of.
    destruct (bucket_of w nd k') as [h'|]; [|reflexivity].
    destruct (decide (Z.to_nat h' = Z.to_nat h)) as [Heq|Hdiff].
    + rewrite Heq, list_lookup_insert_eq by exact Hlt.
      rewrite Hes.
      rewrite (find_set_other nd Hnd k k' d InitData newlock es Hok Hk Hk' Hne).
      reflexivity.
    + rewrite list_lookup_insert_ne by congruence. reflexivity.
Qed.

(** [NMultiSet], complete: the critical block flushes the cache when a
    trigger holds; then the entry of the key is overwritten or a new one
    is added, and no other key is affected. *)
Lemma NMultiSet_rep (nd N : Z) (ma : NMULTI) (g : GLOBALS)
    (ess : list (list (MDATA V))) (k : list Z) (d : option V)
    (lock : lock_out) (InitData : init_hook V) (FreeElem : free_hook V)
    (newlock : option LOCK) :
  NMulti_rep nd N ma ess -> Z.of_nat (length k) = nd -> N + 1 < 2 ^ 31 ->
  exists ma1 g1 ess1 ma' g' ess',
    NMultiSet_critical MyRankMPI ma g FreeElem = Ok (ma1, g1)
    /\ (if local_trigger ma || global_trigger ma g
        then flushed nd N ma g ess ma1 g1 /\ ess1 = map (fun _ => []) ess
        else ma1 = ma /\ g1 = g /\ ess1 = ess)
    /\ NMulti_rep nd N ma1 ess1
    /\ NMultiSet_body w sizeof_DATA sizeof_LOCK ma1 g1 k d lock InitData newlock
       = Ok (ma', g',
             MDATA.data
               (entry_set k d InitData newlock (entry_of w nd ess1 k)),
             write_lock lock
               (MDATA.lock
                  (entry_set k d InitData newlock (entry_of w nd ess1 k))))
    /\ NMultiSet w sizeof_DATA sizeof_LOCK MyRankMPI ma g k d lock
         InitData FreeElem newlock
       = Ok (ma', g',
             MDATA.data
               (entry_set k d InitData newlock (entry_of w nd ess1 k)),
             write_lock lock
               (MDATA.lock
                  (entry_set k d InitData newlock (entry_of w nd ess1 k))))
    /\ NMulti_rep nd (N + 1) ma' ess'
    /\ (forall k', Z.of_nat (length k') = nd ->
          entry_of w nd ess' k'
          = if decide (k' = k)
            then Some (entry_set k d InitData newlock (entry_of w nd ess1 k))
            else entry_of w nd ess1 k')
    /\ MULTI.maxsize ma' = MULTI.maxsize ma
    /\ _maxsize g' = _maxsize g
    /\ _overheadsize g' = _overheadsize g
    /\ match entry_of w nd ess1 k with
       | Some _ =>
           g' = g1 /\ MULTI.totalsize ma' = MULTI.totalsize ma1
           /\ MULTI.numelem ma' = MULTI.numelem ma1
           /\ map (map MDATA.index) ess' = map (map MDATA.index) ess1
       | None =>
           MULTI.numelem ma' = sint (MULTI.numelem ma1 + 1)
           /\ exists cost,
                MULTI.totalsize ma' = MULTI.totalsize ma1 + cost
                /\ _totalsize g' = _totalsize g1 + cost
       end.
Proof using Hw.
  intros Hrep Hk HN.
  destruct (NMultiSet_critical_rep MyRankMPI nd N ma g ess FreeElem Hrep)
    as (ma1 & g1 & Hcrit & Hfire).
  set (ess1 := if local_trigger ma || global_trigger ma g
               then map (fun _ => []) ess else ess).
  assert (Hrep1 : NMulti_rep nd N ma1 ess1).
  { unfold ess1. destruct (local_trigger ma || global_trigger ma g).
    - apply Hfire.
    - destruct Hfire as [-> ->]. exact Hrep. }
  assert (Hbud : MULTI.maxsize ma1 = MULTI.maxsize ma
                 /\ _maxsize g1 = _maxsize g
                 /\ _overheadsize g1 = _overheadsize g).
  { destruct (local_trigger ma || global_trigger ma g).
    - destruct Hfire as (_ & _ & _ & _ & Hm & _ & _ & Hgm & Hgo). auto.
    - destruct Hfire as [-> ->]. auto. }
  destruct Hbud as (Hm1 & Hgm1 & Hgo1).
  destruct (NMultiSet_body_rep w sizeof_DATA sizeof_LOCK Hw nd N ma1 ess1 g1
              k d lock InitData newlock Hrep1 Hk HN)
    as (h & es & ma' & g' & Hb & Hes & Hbody & Hrep' & Hm' & Hgm' & Hgo'
        & Hcount).
  destruct (rep_bucket w Hw nd N ma1 ess1 k Hrep1 Hk)
    as (h0 & a0 & es0 & _ & Hb0 & _ & _ & Hes0 & Hbr).
  assert (h0 = h) by congruence. subst h0.
  assert (es0 = es) by congruence. subst es0.
  destruct Hbr as (_ & _ & _ & Hok & _).
  assert (Hnd : 0 <= nd) by (destruct Hrep as [Hnd _]; lia).
  assert (Hentry : entry_of w nd ess1 k = option_map snd (find_key nd k es)).
  { unfold entry_of. rewrite Hb, Hes. reflexivity. }
  assert (Hset : set_entry nd k d InitData newlock es
                 = entry_set k d InitData newlock (entry_of w nd ess1 k)).
  { rewrite Hentry. unfold set_entry.
    destruct (find_key nd k es) as [[t e]|]; reflexivity. }
  rewrite Hset in Hbody.
  exists ma1, g1, ess1, ma', g',
    (<[Z.to_nat h := set_entries nd k d InitData newlock es]> ess1).
  split; [exact Hcrit|].
  split.
  { unfold ess1. destruct (local_trigger ma || global_trigger ma g).
    - split; [exact Hfire | reflexivity].
    - destruct Hfire as [-> ->]. auto. }
  split; [exact Hrep1|].
  split; [exact Hbody|].
  split.
  { unfold NMultiSet. rewrite Hcrit. cbn [bind]. exact Hbody. }
  split; [exact Hrep'|].
  split.
  { intros k' Hk'. apply entry_of_set; assumption. }
  split; [congruence|]. split; [congruence|]. split; [congruence|].
  rewrite Hentry.
  destruct (find_key nd k es) as [[t e]|] eqn:Hfind; cbn [option_map].
  - destruct Hcount as (Hg & Ht & Hn).
    split; [exact Hg|]. split; [exact Ht|]. split; [exact Hn|].
    destruct (find_key_Some nd Hnd k es t e Hok Hk Hfind) as (Hte & Hidx & He).
    destruct (overwritten_ok nd d e He) as (_ & Hidx' & _).
    apply (map_insert_same _ ess1 (Z.to_nat h) es); [exact Hes|].
    unfold set_entries. rewrite Hfind.
    apply (map_insert_same _ es t e); [exact Hte | exact Hidx'].
  - exact Hcount.
Qed.

End NMultiEntryFacts.

(** ** Hash-sparse multi-array: sequences of calls *)

Section NMultiRunFacts.
Context {V : Type} {rawV : Raw V}.
Variables (w sizeof_DATA sizeof_LOCK sizeof_MDATA sizeof_ARRAY : Z).
Variable MyRankMPI : Z.
Hypothesis Hw : 31 <= w.

Local Abbreviation NMULTI := (MULTI (list (ARRAY (MDATA V))) unit unit).

(** The triggers never hold without a positive budget. *)
Lemma no_budget_no_trigger (ma : NMULTI) (g : GLOBALS) :
  Qle_bool (MULTI.maxsize ma) 0 = true -> Qle_bool (_maxsize g) 0 = true ->
  local_trigger ma || global_trigger ma g = false.
Proof using Type.
  intros Hm Hg. unfold local_trigger, global_trigger, Qltb.
  rewrite Hm, Hg. reflexivity.
Qed.


Lemma entry_view_data (r : option (MDATA V)) (lock lock' : lock_out) :
  fst (entry_view r lock) = fst (entry_view r lock').
Proof using Type. destruct r; reflexivity. Qed.

Lemma entry_set_data (k : list Z) (v : V) (InitData : init_hook V)
    (newlock : option LOCK) (r : option (MDATA V)) :
  MDATA.data (entry_set k (Some v) InitData newlock r) = Some v.
Proof using Type. destruct r; reflexivity. Qed.

(** Any sequence of calls with keys of the right length runs to its end and
    leaves a well-formed table. *)
Lemma NMulti_run_rep (nd : Z) (FreeElem : free_hook V) (cs : list (call V)) :
  forall (N : Z) (ma : NMULTI) (g : GLOBALS) (ess : list (list (MDATA V))),
    NMulti_rep nd N ma ess -> keys_ok nd cs = true ->
    N + Z.of_nat (length cs) < 2 ^ 31 ->
    exists ma' g' ev ess',
      NMulti_run w sizeof_DATA sizeof_LOCK MyRankMPI FreeElem ma g cs
      = Ok (ma', g', ev)
      /\ NMulti_rep nd (N + Z.of_nat (length cs)) ma' ess'.
Proof using Hw.
  induction cs as [|c cs IH]; intros N ma g ess Hrep Hkeys HN.
  - exists ma, g, false, ess. split; [reflexivity|].
    cbn [length]. rewrite Z.add_0_r. exact Hrep.
  - unfold keys_ok in Hkeys. cbn [forallb] in Hkeys.
    apply andb_true_iff in Hkeys as [Hk Hkeys]. fold (keys_ok nd cs) in Hkeys.
    cbn [length] in HN |- *.
    destruct c as [k d InitData newlock|cache r]; cbn [NMulti_run].
    + apply Z.eqb_eq in Hk.
      destruct (NMultiSet_rep w sizeof_DATA sizeof_LOCK MyRankMPI Hw nd N ma g
                  ess k d None InitData FreeElem newlock Hrep Hk)
        as (ma1 & g1 & ess1 & ma' & g' & ess' & _ & _ & _ & _ & Hset & Hrep'
            & _); [lia|].
      rewrite Hset. cbn [bind].
      destruct (IH (N + 1) ma' g' ess' Hrep' Hkeys)
        as (ma2 & g2 & ev & ess2 & Hrun & Hrep2); [lia|].
      rewrite Hrun. cbn [bind].
      eexists _, _, _, ess2. split; [reflexivity|].
      replace (N + Z.of_nat (S (length cs)))
        with (N + 1 + Z.of_nat (length cs)) by lia.
      exact Hrep2.
    + assert (Hweak : forall ma0 : NMULTI,
                NMulti_rep nd N ma0 ess -> NMulti_rep nd (N + 1) ma0 ess).
      { intros ma0. apply NMulti_rep_weaken. lia. }
      replace (N + Z.of_nat (S (length cs)))
        with (N + 1 + Z.of_nat (length cs)) by lia.
      destruct cache.
      * apply (IH (N + 1) _ g ess); [|exact Hkeys|lia].
        apply Hweak. exact Hrep.
      * apply (IH (N + 1) ma _ ess); [|exact Hkeys|lia].
        apply Hweak. exact Hrep.
Qed.

(** A sequence of [Set(k, v)]: when no call evicts, every key has the
    value last set for it, and the other keys are as before. *)
Lemma NMulti_run_sets (nd : Z) (FreeElem : free_hook V)
    (InitData : init_hook V) (newlock : option LOCK)
    (kvs : list (list Z * V)) :
  forall (N : Z) (ma : NMULTI) (g : GLOBALS) (ess : list (list (MDATA V))),
    NMulti_rep nd N ma ess ->
    keys_ok nd (sets_of InitData newlock kvs) = true ->
    N + Z.of_nat (length kvs) < 2 ^ 31 ->
    exists ma' g' ev ess',
      NMulti_run w sizeof_DATA sizeof_LOCK MyRankMPI FreeElem ma g
        (sets_of InitData newlock kvs)
      = Ok (ma', g', ev)
      /\ NMulti_rep nd (N + Z.of_nat (length kvs)) ma' ess'
      /\ (ev = false ->
          forall k, Z.of_nat (length k) = nd ->
            fst (entry_view (entry_of w nd ess' k) None)
            = last_set k kvs (fst (entry_view (entry_of w nd ess k) None)))
      /\ (Qle_bool (MULTI.maxsize ma) 0 = true ->
          Qle_bool (_maxsize g) 0 = true -> ev = false).
Proof using Hw.
  induction kvs as [|[k v] kvs IH]; intros N ma g ess Hrep Hkeys HN.
  - exists ma, g, false, ess. split; [reflexivity|].
    cbn [length]. rewrite Z.add_0_r. split; [exact Hrep|]. split; auto.
  - cbn [sets_of map fst snd] in Hkeys |- *.
    fold (sets_of InitData newlock kvs) in Hkeys |- *.
    unfold keys_ok in Hkeys. cbn [forallb] in Hkeys.
    apply andb_true_iff in Hkeys as [Hk Hkeys].
    fold (keys_ok nd (sets_of InitData newlock kvs)) in Hkeys.
    apply Z.eqb_eq in Hk.
    cbn [length] in HN |- *. cbn [NMulti_run].
    destruct (NMultiSet_rep w sizeof_DATA sizeof_LOCK MyRankMPI Hw nd N ma g
                ess k (Some v) None InitData FreeElem newlock Hrep Hk)
      as (ma1 & g1 & ess1 & ma' & g' & ess' & _ & Hfire & _ & _ & Hset
          & Hrep' & Hentry & Hm & Hgm & _); [lia|].
    rewrite Hset. cbn [bind].
    destruct (IH (N + 1) ma' g' ess' Hrep' Hkeys)
      as (ma2 & g2 & ev & ess2 & Hrun & Hrep2 & Hlast & Hquiet); [lia|].
    rewrite Hrun. cbn [bind].
    eexists _, _, _, ess2. split; [reflexivity|].
    replace (N + Z.of_nat (S (length kvs)))
      with (N + 1 + Z.of_nat (length kvs)) by lia.
    split; [exact Hrep2|]. split.
    + intros Hev k0 Hk0. apply orb_false_iff in Hev as [Hfired Hev].
      rewrite Hfired in Hfire. destruct Hfire as (_ & _ & ->).
      rewrite (Hlast Hev k0 Hk0). cbn [last_set]. f_equal.
      rewrite (Hentry k0 Hk0).
      destruct (decide (k0 = k)) as [->|Hne].
      * rewrite decide_True by reflexivity. cbn [entry_view fst].
        apply entry_set_data.
      * rewrite decide_False by congruence. reflexivity.
    + intros Hmq Hgq. apply orb_false_iff. split.
      * apply no_budget_no_trigger; assumption.
      * apply Hquiet; congruence.
Qed.

(** The same from [NMultiInit]. *)
Lemma NMulti_start_rep {ARR : Type} (nd : Z) (FreeElem : free_hook V)
    (ma0 : MULTI ARR unit unit) (g0 : GLOBALS) (esz : Z) (blocks : list Z)
    (lk alk : option LOCK) (cs : list (call V)) :
  0 <= nd <= 29 -> 0 <= sizeof_ARRAY * 2 ^ (nd / 2 + 16) < 2 ^ 31 ->
  keys_ok nd cs = true -> Z.of_nat (length cs) < 2 ^ 31 ->
  exists ma g ev ess,
    NMulti_start w sizeof_DATA sizeof_LOCK sizeof_MDATA sizeof_ARRAY
      MyRankMPI FreeElem ma0 g0 esz nd blocks lk alk cs
    = Ok (ma, g, ev)
    /\ NMulti_rep nd (Z.of_nat (length cs)) ma ess.
Proof using Hw.
  intros Hnd Hsz Hkeys Hlen.
  destruct (NMultiInit_rep (V := V) w sizeof_MDATA sizeof_ARRAY Hw ma0 g0 esz
              nd blocks lk alk Hnd Hsz)
    as (ma & g & Hinit & Hrep & _).
  destruct (NMulti_run_rep nd FreeElem cs 0 ma g _ Hrep Hkeys)
    as (ma' & g' & ev & ess' & Hrun & Hrep'); [lia|].
  exists ma', g', ev, ess'. split; [|exact Hrep'].
  unfold NMulti_start. rewrite Hinit. cbn [bind]. exact Hrun.
Qed.

End NMultiRunFacts.

(** ** Hash-sparse multi-array: the keys in the chains *)

Section TableKeysFacts.
Context {V : Type}.

Lemma take_app_plus {X : Type} (a b : list X) (n : nat) :
  take (length a + n) (a ++ b) = a ++ take n b.
Proof using Type. induction a as [|x a IH]; cbn; [|rewrite IH]; reflexivity. Qed.

Lemma stores_cells {X : Type} (blk : nat) (fill : X) (l : list X) (p : DATA X) :
  stores blk fill l p -> take (length l) (chain_cells p) = l.
Proof using Type.
  induction 1 as [l Hl|buf l p Hbuf Hst IH]; cbn [chain_cells payload].
  - rewrite app_nil_r.
    rewrite <- (Nat.add_0_r (length l)) at 1.
    rewrite take_app_plus. cbn. apply app_nil_r.
  - rewrite length_app, take_app_plus, IH. reflexivity.
Qed.

Lemma bucket_keys_rep (nd N : Z) (a : ARRAY (MDATA V)) (es : list (MDATA V)) :
  bucket_rep nd N a es ->
  bucket_keys a = map MDATA.index es /\ dim a = Z.of_nat (length es).
Proof using Type.
  intros (Hblk & [Hdim Hdata] & _). split; [|exact Hdim].
  unfold bucket_keys. rewrite Hdim, Nat2Z.id.
  destruct es as [|e es]; [reflexivity|].
  rewrite (stores_cells _ _ _ _ Hdata). reflexivity.
Qed.

(** The keys in the chains and the lengths of the buckets are those of the
    entries. *)
Lemma table_keys_rep (nd N : Z) (ma : MULTI (list (ARRAY (MDATA V))) unit unit)
    (ess : list (list (MDATA V))) :
  NMulti_rep nd N ma ess ->
  table_keys ma = map (map MDATA.index) ess
  /\ map dim (MULTI.array ma)
     = map (fun ks => Z.of_nat (length ks)) (map (map MDATA.index) ess).
Proof using Type.
  intros (_ & _ & _ & _ & _ & Hbk & _). unfold table_keys.
  induction Hbk as [|a es tbl ess Hb _ [IH1 IH2]]; [split; reflexivity|].
  destruct (bucket_keys_rep nd N a es Hb) as [Hkeys Hdim].
  cbn [map]. rewrite IH1, IH2, Hkeys, Hdim, length_map. split; reflexivity.
Qed.

End TableKeysFacts.

(** ** Set, then Get *)

Lemma entry_of_init {V : Type} (w nd : Z) (n : nat) (k : list Z) :
  @entry_of V w nd (repeat [] n) k = None.
Proof.
  apply entry_of_empty. induction n; cbn; constructor; auto.
Qed.

(** On the hybrid array a key that no call has set is not always absent:
    after [Set([1,2], 7)] the dense array has ten cells, and [Get([1,1])]
    returns cell five, which holds whatever [malloc] left there. *)
Lemma MMulti_get_unset_key_present :
  MMulti_unset_key 64 131071 7 (-1) = Ok (Some (-1))
  /\ MMulti_unset_key 32 131071 7 (-1) = Ok (Some (-1)).
Proof. split; vm_compute; reflexivity. Qed.

(** C1, on the hash-sparse array.  From [NMultiInit], every sequence of
    [Set(k, v)] calls with keys of [ndim] ints runs to its end; no call
    evicts when the global budget is not positive; and when no call has
    evicted, [Get(k)] returns the value most recently set for [k], and
    absent for every key never set. *)
Theorem NMulti_get_after_sets {V : Type} {rawV : Raw V} {ARR : Type}
    (w sizeof_DATA sizeof_LOCK sizeof_MDATA sizeof_ARRAY MyRankMPI : Z)
    (FreeElem : free_hook V) (ma0 : MULTI ARR unit unit) (g0 : GLOBALS)
    (esize ndim : Z) (block : list Z) (lk alk : option LOCK)
    (InitData : init_hook V) (newlock : option LOCK)
    (kvs : list (list Z * V)) :
  31 <= w -> 0 <= ndim <= 29 ->
  0 <= sizeof_ARRAY * 2 ^ (ndim / 2 + 16) < 2 ^ 31 ->
  keys_ok ndim (sets_of InitData newlock kvs) = true ->
  Z.of_nat (length kvs) < 2 ^ 31 ->
  exists ma g ev,
    NMulti_start w sizeof_DATA sizeof_LOCK sizeof_MDATA sizeof_ARRAY
      MyRankMPI FreeElem ma0 g0 esize ndim block lk alk
      (sets_of InitData newlock kvs)
    = Ok (ma, g, ev)
    /\ (Qle_bool (_maxsize g0) 0 = true -> ev = false)
    /\ (ev = false ->
        forall k lock, Z.of_nat (length k) = ndim ->
          exists lock',
            NMultiGet w ma k lock = Ok (last_set k kvs None, lock')).
Proof.
  intros Hw Hnd Hsz Hkeys Hlen.
  destruct (NMultiInit_rep (V := V) w sizeof_MDATA sizeof_ARRAY Hw ma0 g0
              esize ndim block lk alk Hnd Hsz)
    as (ma & g & Hinit & Hrep & Hmax & _ & _ & Hgmax & _).
  destruct (NMulti_run_sets w sizeof_DATA sizeof_LOCK MyRankMPI Hw ndim
              FreeElem InitData newlock kvs 0 ma g _ Hrep Hkeys)
    as (ma' & g' & ev & ess' & Hrun & Hrep' & Hlast & Hquiet); [lia|].
  exists ma', g', ev. split; [|split].
  - unfold NMulti_start. rewrite Hinit. cbn [bind]. exact Hrun.
  - intros Hg0. apply Hquiet.
    + rewrite Hmax. reflexivity.
    + rewrite Hgmax. exact Hg0.
  - intros Hev k lock Hk.
    rewrite (NMultiGet_entry w Hw ndim _ ma' ess' k lock Hrep' Hk).
    pose proof (Hlast Hev k Hk) as Hval.
    rewrite entry_of_init in Hval.
    cbn [entry_view fst] in Hval.
    rewrite (entry_view_data _ None lock) in Hval.
    destruct (entry_view (entry_of w ndim ess' k) lock) as [r l].
    cbn [fst] in Hval. subst r. exists l. reflexivity.
Qed.

(** Three [Set]s on two keys of a two-dimensional array, then [Get]. *)
Lemma NMulti_get_after_sets_witness :
  31 <= 64 /\ 0 <= 2 <= 29 /\ 0 <= 32 * 2 ^ (2 / 2 + 16) < 2 ^ 31
  /\ keys_ok 2 (sets_of None None [([1; 2], 7); ([5; 2], 9); ([1; 2], 8)])
     = true
  /\ Z.of_nat (length [([1; 2], 7); ([5; 2], 9); ([1; 2], 8)]) < 2 ^ 31
  /\ exists ma g,
       NMulti_start (rawV := 0) 64 16 40 24 32 0 None (blank_MULTI 0)
         fresh_GLOBALS 8 2 [4; 4] None None
         (sets_of None None [([1; 2], 7); ([5; 2], 9); ([1; 2], 8)])
       = Ok (ma, g, false)
       /\ (exists l, NMultiGet 64 ma [1; 2] None = Ok (Some 8, l))
       /\ (exists l, NMultiGet 64 ma [5; 2] None = Ok (Some 9, l))
       /\ (exists l, NMultiGet 64 ma [1; 3] None = Ok (None, l)).
Proof.
  assert (H1 : 31 <= 64) by lia.
  assert (H2 : 0 <= 2 <= 29) by lia.
  assert (H3 : 0 <= 32 * 2 ^ (2 / 2 + 16) < 2 ^ 31)
    by (vm_compute; split; [discriminate | reflexivity]).
  assert (H4 : keys_ok 2 (sets_of (V := Z) None None
                            [([1; 2], 7); ([5; 2], 9); ([1; 2], 8)]) = true)
    by reflexivity.
  assert (H5 : Z.of_nat (length [([1; 2], 7); ([5; 2], 9); ([1; 2], 8)])
               < 2 ^ 31) by (vm_compute; reflexivity).
  split; [exact H1|]. split; [exact H2|]. split; [exact H3|].
  split; [exact H4|]. split; [exact H5|].
  destruct (NMulti_get_after_sets (rawV := 0) 64 16 40 24 32 0 None
              (blank_MULTI 0) fresh_GLOBALS 8 2 [4; 4] None None None None
              [([1; 2], 7); ([5; 2], 9); ([1; 2], 8)] H1 H2 H3 H4 H5)
    as (ma & g & ev & Hstart & Hquiet & Hget).
  assert (Hev : ev = false) by (apply Hquiet; reflexivity).
  subst ev.
  exists ma, g. split; [exact Hstart|].
  split; [|split].
  - exact (Hget eq_refl [1; 2] None eq_refl).
  - exact (Hget eq_refl [5; 2] None eq_refl).
  - exact (Hget eq_refl [1; 3] None eq_refl).
Defined.

(** ** Eviction *)

(** [NMultiGet] on a flushed cache. *)
Lemma NMultiGet_flushed {V : Type} (w nd N : Z)
    (ma ma1 : MULTI (list (ARRAY (MDATA V))) unit unit) (g g1 : GLOBALS)
    (ess : list (list (MDATA V))) (k : list Z) (lock : lock_out) :
  31 <= w -> flushed nd N ma g ess ma1 g1 -> Z.of_nat (length k) = nd ->
  NMultiGet w ma1 k lock = Ok (None, lock).
Proof.
  intros Hw (Hrep & _) Hk.
  rewrite (NMultiGet_entry w Hw nd N ma1 _ k lock Hrep Hk).
  rewrite entry_of_flushed. reflexivity.
Qed.




(** ** The triggers and the ledger *)

(** [MMultiSet] checks no trigger, and an [NMultiSet] that finds its key
    leaves the ledger alone.  On the hybrid array with a budget of one
    byte and a total of [100], the local trigger holds before each of two
    [MMultiSet]s, yet the value set first is still there and the total is
    unchanged; on the hash-sparse array without a budget, the second
    [NMultiSet] of a key leaves the ledger as it was. *)
Lemma MMultiSet_no_trigger_no_ledger :
  MMulti_over_budget 64 7 8 = Ok (true, true, Some 7, 100)
  /\ exists r1 o1 r2 o2 g,
       NMulti_set_twice 64 (-1) 70 (-1) None None = Ok (r1, o1, r2, o2, g, g).
Proof.
  split; [vm_compute; reflexivity|].
  eexists _, _, _, _, _. vm_compute. reflexivity.
Qed.

(** C2, on the hash-sparse array.  In every state reached from
    [NMultiInit] by [Set] and [LimitMultiSize] calls, [NMultiSet] is its
    critical block followed by the rest.  The critical block tests the
    local trigger, else the global one: when one holds the cache is
    flushed there (total zero, every key absent, the ledger lower by the
    total the array had), otherwise the block changes nothing.  The rest,
    outside the critical block, adds to the ledger what it adds to the
    total of the array, and nothing when it finds the key. *)
Theorem NMultiSet_triggers_and_ledger {V : Type} {rawV : Raw V} {ARR : Type}
    (w sizeof_DATA sizeof_LOCK sizeof_MDATA sizeof_ARRAY MyRankMPI : Z)
    (FreeElem : free_hook V) (ma0 : MULTI ARR unit unit) (g0 : GLOBALS)
    (esize ndim : Z) (block : list Z) (lk alk : option LOCK)
    (cs : list (call V)) (k : list Z) (d : option V) (lock : lock_out)
    (InitData : init_hook V) (newlock : option LOCK) :
  31 <= w -> 0 <= ndim <= 29 ->
  0 <= sizeof_ARRAY * 2 ^ (ndim / 2 + 16) < 2 ^ 31 ->
  keys_ok ndim cs = true -> Z.of_nat (length cs) + 1 < 2 ^ 31 ->
  Z.of_nat (length k) = ndim ->
  exists ma g ev,
    NMulti_start w sizeof_DATA sizeof_LOCK sizeof_MDATA sizeof_ARRAY
      MyRankMPI FreeElem ma0 g0 esize ndim block lk alk cs
    = Ok (ma, g, ev)
    /\ exists ma1 g1 ma' g' rd rl,
         NMultiSet_critical MyRankMPI ma g FreeElem = Ok (ma1, g1)
         /\ NMultiSet_body w sizeof_DATA sizeof_LOCK ma1 g1 k d lock
              InitData newlock
            = Ok (ma', g', rd, rl)
         /\ NMultiSet w sizeof_DATA sizeof_LOCK MyRankMPI ma g k d lock
              InitData FreeElem newlock
            = Ok (ma', g', rd, rl)
         /\ (if local_trigger ma || global_trigger ma g
             then MULTI.totalsize ma1 = 0
                  /\ _totalsize g1 = _totalsize g - MULTI.totalsize ma
                  /\ forall k' lock', Z.of_nat (length k') = ndim ->
                       NMultiGet w ma1 k' lock' = Ok (None, lock')
             else ma1 = ma /\ g1 = g)
         /\ _totalsize g' - _totalsize g1
            = MULTI.totalsize ma' - MULTI.totalsize ma1
         /\ _maxsize g' = _maxsize g
         /\ (forall v l, NMultiGet w ma1 k lock = Ok (Some v, l) ->
               g' = g1 /\ MULTI.totalsize ma' = MULTI.totalsize ma1).
Proof.
  intros Hw Hnd Hsz Hkeys Hlen Hk.
  destruct (NMulti_start_rep w sizeof_DATA sizeof_LOCK sizeof_MDATA
              sizeof_ARRAY MyRankMPI Hw ndim FreeElem ma0 g0 esize block
              lk alk cs Hnd Hsz Hkeys)
    as (ma & g & ev & ess & Hstart & Hrep); [lia|].
  exists ma, g, ev. split; [exact Hstart|].
  destruct (NMultiSet_rep w sizeof_DATA sizeof_LOCK MyRankMPI Hw ndim _ ma g
              ess k d lock InitData FreeElem newlock Hrep Hk)
    as (ma1 & g1 & ess1 & ma' & g' & ess' & Hcrit & Hfire & Hrep1 & Hbody
        & Hset & _ & _ & _ & Hgm & _ & Hcount); [lia|].
  eexists ma1, g1, ma', g', _, _.
  split; [exact Hcrit|]. split; [exact Hbody|]. split; [exact Hset|].
  split.
  { destruct (local_trigger ma || global_trigger ma g).
    - destruct Hfire as [Hflush _].
      pose proof Hflush as (_ & Ht1 & _ & _ & _ & _ & Hg1 & _).
      split; [exact Ht1|]. split; [exact Hg1|].
      intros k' lock' Hk'.
      exact (NMultiGet_flushed w ndim _ ma ma1 g g1 ess k' lock' Hw Hflush Hk').
    - destruct Hfire as (-> & -> & _). split; reflexivity. }
  split.
  { destruct (entry_of w ndim ess1 k).
    - destruct Hcount as (-> & -> & _). lia.
    - destruct Hcount as (_ & cost & -> & ->). lia. }
  split; [exact Hgm|].
  intros v l Hget.
  rewrite (NMultiGet_entry w Hw ndim _ ma1 ess1 k lock Hrep1 Hk) in Hget.
  destruct (entry_of w ndim ess1 k); [|discriminate].
  destruct Hcount as (Hg & Ht & _). split; assumption.
Qed.

(** One [Set] on a fresh array, then [Set] of another key. *)
Lemma NMultiSet_triggers_and_ledger_witness :
  31 <= 64 /\ 0 <= 2 <= 29 /\ 0 <= 32 * 2 ^ (2 / 2 + 16) < 2 ^ 31
  /\ keys_ok 2 [CallSet [1; 2] (Some 70) None None] = true
  /\ Z.of_nat (length [CallSet [1; 2] (Some 70) None None]) + 1 < 2 ^ 31
  /\ Z.of_nat (length [5; 2]) = 2
  /\ exists ma g ev ma' g' rd rl,
       NMulti_start (rawV := 0) 64 16 40 24 32 0 None (blank_MULTI 0)
         fresh_GLOBALS 8 2 [4; 4] None None
         [CallSet [1; 2] (Some 70) None None]
       = Ok (ma, g, ev)
       /\ NMultiSet (rawV := 0) 64 16 40 0 ma g [5; 2] (Some 90) None
            None None None
          = Ok (ma', g', rd, rl)
       /\ _totalsize g' - _totalsize g
          = MULTI.totalsize ma' - MULTI.totalsize ma.
Proof.
  assert (H1 : 31 <= 64) by lia.
  assert (H2 : 0 <= 2 <= 29) by lia.
  assert (H3 : 0 <= 32 * 2 ^ (2 / 2 + 16) < 2 ^ 31)
    by (vm_compute; split; [discriminate | reflexivity]).
  assert (H4 : keys_ok 2 [CallSet (V := Z) [1; 2] (Some 70) None None] = true)
    by reflexivity.
  assert (H5 : Z.of_nat (length [CallSet (V := Z) [1; 2] (Some 70) None None])
               + 1 < 2 ^ 31) by (vm_compute; reflexivity).
  assert (H6 : Z.of_nat (length [5; 2]) = 2) by reflexivity.
  split; [exact H1|]. split; [exact H2|]. split; [exact H3|].
  split; [exact H4|]. split; [exact H5|]. split; [exact H6|].
  destruct (NMultiSet_triggers_and_ledger (rawV := 0) 64 16 40 24 32 0 None
              (blank_MULTI 0) fresh_GLOBALS 8 2 [4; 4] None None
              [CallSet [1; 2] (Some 70) None None]
              [5; 2] (Some 90) None None None H1 H2 H3 H4 H5 H6)
    as (ma & g & ev & Hstart & ma1 & g1 & ma' & g' & rd & rl & _ & _ & Hset
        & Hfire & Hled & _).
  assert (Hc : match NMulti_start (rawV := 0) 64 16 40 24 32 0 None
                       (blank_MULTI 0) fresh_GLOBALS 8 2 [4; 4] None None
                       [CallSet [1; 2] (Some 70) None None]
               with
               | Ok (m, g, _) => local_trigger m || global_trigger m g
               | Undefined => true
               end = false) by (vm_compute; reflexivity).
  rewrite Hstart in Hc. rewrite Hc in Hfire. destruct Hfire as [-> ->].
  exists ma, g, ev, ma', g', rd, rl.
  split; [exact Hstart|]. split; [exact Hset|]. exact Hled.
Defined.

(** ** Setting a key twice *)

(** With a budget of one byte the second [Set] of the key evicts: it
    returns a new buffer, not the one holding [70], and the lock it has
    just created, not the one of the first entry. *)
Lemma NMulti_set_twice_evicts :
  exists g1 g2,
    NMulti_set_twice 64 1 70 (-1) (Some (LockAt 1)) (Some (LockAt 2))
    = Ok (Some 70, Some (Some (LockAt 1)),
          Some (-1), Some (Some (LockAt 2)), g1, g2).
Proof. eexists _, _. vm_compute. reflexivity. Qed.

(** C4, when the second call finds no trigger.  In every state reached
    from [NMultiInit] by [Set] and [LimitMultiSize] calls, after an
    [NMultiSet] of the key [k], a second [NMultiSet] of [k] that finds no
    trigger returns the data of the existing entry, overwritten by the
    data passed if any, and its lock; the keys in the chains, the lengths
    of the buckets, the count of elements, the total and the ledger are
    unchanged. *)
Theorem NMulti_set_twice_in_place {V : Type} {rawV : Raw V} {ARR : Type}
    (w sizeof_DATA sizeof_LOCK sizeof_MDATA sizeof_ARRAY MyRankMPI : Z)
    (FreeElem : free_hook V) (ma0 : MULTI ARR unit unit) (g0 : GLOBALS)
    (esize ndim : Z) (block : list Z) (lk alk : option LOCK)
    (cs : list (call V)) (k : list Z) (d1 d2 : option V) (lock : lock_out)
    (InitData1 InitData2 : init_hook V) (newlock1 newlock2 : option LOCK) :
  31 <= w -> 0 <= ndim <= 29 ->
  0 <= sizeof_ARRAY * 2 ^ (ndim / 2 + 16) < 2 ^ 31 ->
  keys_ok ndim cs = true -> Z.of_nat (length cs) + 2 < 2 ^ 31 ->
  Z.of_nat (length k) = ndim ->
  exists ma g ev ma1 g1 r1 o1,
    NMulti_start w sizeof_DATA sizeof_LOCK sizeof_MDATA sizeof_ARRAY
      MyRankMPI FreeElem ma0 g0 esize ndim block lk alk cs
    = Ok (ma, g, ev)
    /\ NMultiSet w sizeof_DATA sizeof_LOCK MyRankMPI ma g k d1 lock
         InitData1 FreeElem newlock1
       = Ok (ma1, g1, r1, o1)
    /\ (local_trigger ma1 || global_trigger ma1 g1 = false ->
        exists ma2,
          NMultiSet w sizeof_DATA sizeof_LOCK MyRankMPI ma1 g1 k d2 lock
            InitData2 FreeElem newlock2
          = Ok (ma2, g1,
                match d2 with Some v => Some v | None => r1 end, o1)
          /\ table_keys ma2 = table_keys ma1
          /\ map dim (MULTI.array ma2) = map dim (MULTI.array ma1)
          /\ MULTI.numelem ma2 = MULTI.numelem ma1
          /\ MULTI.totalsize ma2 = MULTI.totalsize ma1).
Proof.
  intros Hw Hnd Hsz Hkeys Hlen Hk.
  destruct (NMulti_start_rep w sizeof_DATA sizeof_LOCK sizeof_MDATA
              sizeof_ARRAY MyRankMPI Hw ndim FreeElem ma0 g0 esize block
              lk alk cs Hnd Hsz Hkeys)
    as (ma & g & ev & ess & Hstart & Hrep); [lia|].
  destruct (NMultiSet_rep w sizeof_DATA sizeof_LOCK MyRankMPI Hw ndim _ ma g
              ess k d1 lock InitData1 FreeElem newlock1 Hrep Hk)
    as (ma1 & g1 & ess1 & ma' & g' & ess' & _ & _ & _ & _ & Hset & Hrep'
        & Hentry & _); [lia|].
  eexists ma, g, ev, ma', g', _, _.
  split; [exact Hstart|]. split; [exact Hset|].
  intros Hquiet.
  destruct (NMultiSet_rep w sizeof_DATA sizeof_LOCK MyRankMPI Hw ndim _ ma' g'
              ess' k d2 lock InitData2 FreeElem newlock2 Hrep' Hk)
    as (ma2 & g2 & ess2 & ma'' & g'' & ess'' & _ & Hfire & _ & _ & Hset2
        & Hrep'' & _ & _ & _ & _ & Hcount); [lia|].
  rewrite Hquiet in Hfire. destruct Hfire as (-> & -> & ->).
  pose proof (Hentry k Hk) as Hfound.
  rewrite decide_True in Hfound by reflexivity.
  rewrite Hfound in Hset2, Hcount.
  destruct Hcount as (-> & Htot & Hnum & Hidx).
  exists ma''. split.
  { rewrite Hset2. cbn [entry_set]. destruct d2; reflexivity. }
  destruct (table_keys_rep ndim _ ma' ess' Hrep') as [Hk1 Hd1].
  destruct (table_keys_rep ndim _ ma'' ess'' Hrep'') as [Hk2 Hd2].
  split; [congruence|]. split; [congruence|]. split; assumption.
Qed.

(** Without a budget: [Set([1,2], 70)], then [Set([1,2], NULL)]. *)
Lemma NMulti_set_twice_in_place_witness :
  31 <= 64 /\ 0 <= 2 <= 29 /\ 0 <= 32 * 2 ^ (2 / 2 + 16) < 2 ^ 31
  /\ keys_ok (V := Z) 2 [] = true
  /\ Z.of_nat (length (@nil (call Z))) + 2 < 2 ^ 31
  /\ Z.of_nat (length [1; 2]) = 2
  /\ exists ma g ev ma1 g1 o1 ma2,
       NMulti_start (rawV := 0) 64 16 40 24 32 0 None (blank_MULTI 0)
         fresh_GLOBALS 8 2 [4; 4] None None []
       = Ok (ma, g, ev)
       /\ NMultiSet (rawV := 0) 64 16 40 0 ma g [1; 2] (Some 70) (Some None)
            None None (Some (LockAt 1))
          = Ok (ma1, g1, Some 70, o1)
       /\ local_trigger ma1 || global_trigger ma1 g1 = false
       /\ NMultiSet (rawV := 0) 64 16 40 0 ma1 g1 [1; 2] None (Some None)
            None None (Some (LockAt 2))
          = Ok (ma2, g1, Some 70, o1)
       /\ MULTI.numelem ma2 = MULTI.numelem ma1.
Proof.
  assert (H1 : 31 <= 64) by lia.
  assert (H2 : 0 <= 2 <= 29) by lia.
  assert (H3 : 0 <= 32 * 2 ^ (2 / 2 + 16) < 2 ^ 31)
    by (vm_compute; split; [discriminate | reflexivity]).
  assert (H4 : keys_ok (V := Z) 2 [] = true) by reflexivity.
  assert (H5 : Z.of_nat (length (@nil (call Z))) + 2 < 2 ^ 31)
    by (vm_compute; reflexivity).
  assert (H6 : Z.of_nat (length [1; 2]) = 2) by reflexivity.
  split; [exact H1|]. split; [exact H2|]. split; [exact H3|].
  split; [exact H4|]. split; [exact H5|]. split; [exact H6|].
  destruct (NMulti_set_twice_in_place (rawV := 0) 64 16 40 24 32 0 None
              (blank_MULTI 0) fresh_GLOBALS 8 2 [4; 4] None None []
              [1; 2] (Some 70) None (Some None) None None
              (Some (LockAt 1)) (Some (LockAt 2)) H1 H2 H3 H4 H5 H6)
    as (ma & g & ev & ma1 & g1 & r1 & o1 & Hstart & Hset & Htwice).
  assert (Hc : match
                 (do (m, g, _) <-
                    NMulti_start (rawV := 0) 64 16 40 24 32 0 None
                      (blank_MULTI 0) fresh_GLOBALS 8 2 [4; 4] None None [];
                  do (m1, g1, r, _) <-
                    NMultiSet (rawV := 0) 64 16 40 0 m g [1; 2] (Some 70)
                      (Some None) None None (Some (LockAt 1));
                  Ok (local_trigger m1 || global_trigger m1 g1, r))
               with
               | Ok r => r
               | Undefined => (true, None)
               end = (false, Some 70)) by (vm_compute; reflexivity).
  rewrite Hstart in Hc. cbn [bind] in Hc. rewrite Hset in Hc.
  cbn [bind] in Hc. injection Hc as Hquiet Hr1. subst r1.
  destruct (Htwice Hquiet) as (ma2 & Hset2 & _ & _ & Hnum & _).
  exists ma, g, ev, ma1, g1, o1, ma2.
  split; [exact Hstart|]. split; [exact Hset|]. split; [exact Hquiet|].
  split; [exact Hset2|]. exact Hnum.
Defined.

(** ** Block array: writes at any index *)

Section ChainCellFacts.
Context {A : Type} {rawA : Raw A}.
Variable b : Z.
Hypothesis Hb : 1 <= b.
Variable InitData : init_hook A.

Local Abbreviation init := (run_hook InitData raw).

Lemma div_step (i : Z) : b <= i -> (i - b) / b = i / b - 1.
Proof using Hb.
  intros Hi. replace (i - b) with (i + (-1) * b) by lia.
  rewrite Z.div_add by lia. lia.
Qed.

Lemma div_zero_iff (i : Z) : 0 <= i -> (i / b = 0 <-> i < b).
Proof using Hb.
  intros Hi. split; intros H.
  - destruct (Z.lt_ge_cases i b) as [Hlt|Hge]; [exact Hlt|].
    assert (1 <= i / b) by (apply Z.div_le_lower_bound; lia). lia.
  - apply Z.div_small. lia.
Qed.

(** [ArrayGet]'s walk reads the cell when the chain reaches its block. *)
Lemma chain_get_cell (p : DATA A) (i : Z) :
  chain_wf b p -> 0 <= i -> i / b < Z.of_nat (chain_nodes p) ->
  ArrayGet_walk b p i = Ok (chain_cell b p i).
Proof using Hb.
  intros Hwf. revert i.
  induction Hwf as [|dptr next Hlen Hwf IH]; intros i Hi Hn.
  - cbn in Hn. assert (0 <= i / b) by (apply Z.div_pos; lia). lia.
  - cbn [ArrayGet_walk chain_cell chain_nodes] in *.
    destruct (b <=? i) eqn:Hcmp.
    + apply Z.leb_le in Hcmp. apply IH; [lia|].
      rewrite div_step by lia. lia.
    + apply Z.leb_gt in Hcmp.
      destruct dptr as [buf|]; [|reflexivity].
      specialize (Hlen buf eq_refl).
      destruct (buf !! Z.to_nat i) as [x|] eqn:Hx; [reflexivity|].
      apply lookup_ge_None in Hx. lia.
Qed.

Lemma repeat_lookup {X : Type} (x : X) (n i : nat) :
  (i < n)%nat -> repeat x n !! i = Some x.
Proof using Type.
  revert i. induction n as [|n IH]; intros [|i] Hi; cbn; try lia.
  - reflexivity.
  - apply IH. lia.
Qed.

Lemma init_cells_lookup (j : Z) :
  0 <= j < b -> init_cells b InitData !! Z.to_nat j = Some init.
Proof using Hb.
  intros Hj. rewrite (init_cells_repeat InitData b).
  apply repeat_lookup. lia.
Qed.

Lemma init_cells_length : Z.of_nat (length (init_cells b InitData)) = b.
Proof using Hb.
  rewrite (init_cells_repeat InitData b), repeat_length. lia.
Qed.

(** The walk of [ArraySet]: the slot of [i] receives what [upd] makes of
    its content, the other cells of its block keep theirs or are
    initialised, and the rest of the chain is unchanged. *)
Lemma ArraySet_walk_cell {R : Type} (upd : A -> result (A * R)) (fuel : nat) :
  forall (p : DATA A) (i : Z) (y : A) (r : R),
    chain_wf b p -> is_null p = false -> 0 <= i ->
    i / b <= Z.of_nat fuel ->
    upd (default init (chain_cell b p i)) = Ok (y, r) ->
    exists p',
      ArraySet_walk fuel b (Ok (init_cells b InitData)) upd p i = Ok (p', r)
      /\ chain_wf b p' /\ is_null p' = false
      /\ Z.of_nat (chain_nodes p')
         = Z.max (Z.of_nat (chain_nodes p)) (i / b + 1)
      /\ forall j, 0 <= j ->
           chain_cell b p' j
           = if j =? i then Some y
             else if j / b =? i / b
                  then Some (default init (chain_cell b p j))
                  else chain_cell b p j.
Proof using Hb.
  assert (Hslot : forall (dptr : option (list A)) (next : DATA A) (i : Z)
                    (y : A) (r : R) (fuel : nat),
            (forall buf, dptr = Some buf -> Z.of_nat (length buf) = b) ->
            chain_wf b next -> 0 <= i < b ->
            upd (default init (chain_cell b (Block dptr next) i)) = Ok (y, r) ->
            exists p',
              ArraySet_walk fuel b (Ok (init_cells b InitData)) upd (Block dptr next) i = Ok (p', r)
              /\ chain_wf b p' /\ is_null p' = false
              /\ Z.of_nat (chain_nodes p')
                 = Z.max (Z.of_nat (chain_nodes (Block dptr next))) (i / b + 1)
              /\ forall j, 0 <= j ->
                   chain_cell b p' j
                   = if j =? i then Some y
                     else if j / b =? i / b
                          then Some (default init
                                       (chain_cell b (Block dptr next) j))
                          else chain_cell b (Block dptr next) j).
  { intros dptr next i y r fuel0 Hlen Hwf Hi Hupd.
    rewrite ArraySet_walk_eq. cbn [chain_cell] in Hupd |- *.
    test_is (b <=? i) false. replace (b <=? i) with false in Hupd by (symmetry; solve_bool).
    set (buf := match dptr with
                | Some b0 => b0
                | None => init_cells b InitData
                end).
    assert (Hbuflen : Z.of_nat (length buf) = b).
    { unfold buf. destruct dptr as [b0|]; [auto | apply init_cells_length]. }
    assert (Hcell : forall j, 0 <= j < b ->
              buf !! Z.to_nat j
              = Some (default init match dptr with
                                   | Some b0 => b0 !! Z.to_nat j
                                   | None => None
                                   end)).
    { intros j Hj. unfold buf. destruct dptr as [b0|].
      - specialize (Hlen b0 eq_refl).
        destruct (b0 !! Z.to_nat j) as [x|] eqn:Hx; [reflexivity|].
        apply lookup_ge_None in Hx. lia.
      - cbn [default]. apply init_cells_lookup. exact Hj. }
    rewrite (Hcell i Hi). rewrite Hupd. cbn [bind].
    eexists. split; [reflexivity|].
    split.
    { constructor; [|exact Hwf].
      intros buf' [= <-]. rewrite length_insert. exact Hbuflen. }
    split; [reflexivity|].
    split.
    { cbn [chain_nodes]. rewrite Z.div_small by lia. lia. }
    intros j Hj. cbn [chain_cell].
    rewrite (Z.div_small i b) by lia.
    destruct (b <=? j) eqn:Hcmp.
    - apply Z.leb_le in Hcmp.
      test_is (j =? i) false.
      assert (1 <= j / b) by (apply Z.div_le_lower_bound; lia).
      test_is (j / b =? 0) false. reflexivity.
    - apply Z.leb_gt in Hcmp.
      rewrite (Z.div_small j b) by lia. cbn [Z.eqb].
      destruct (j =? i) eqn:Hji.
      + apply Z.eqb_eq in Hji. subst j.
        apply list_lookup_insert_eq. lia.
      + apply Z.eqb_neq in Hji.
        rewrite list_lookup_insert_ne by lia.
        apply Hcell. lia. }
  induction fuel as [|fuel IH]; intros p i y r Hwf Hnn Hi Hfuel Hupd.
  - destruct Hwf as [|dptr next Hlen Hwf]; [discriminate|].
    apply Hslot; try assumption.
    split; [exact Hi|]. apply div_zero_iff; [exact Hi|].
    assert (0 <= i / b) by (apply Z.div_pos; lia). cbn in Hfuel. lia.
  - destruct Hwf as [|dptr next Hlen Hwf]; [discriminate|].
    destruct (Z.lt_ge_cases i b) as [Hlt|Hge].
    { apply Hslot; try assumption. lia. }
    assert (Hdiv : 1 <= i / b) by (apply Z.div_le_lower_bound; lia).
    rewrite ArraySet_walk_eq. cbn [chain_cell] in Hupd.
    test_is (b <=? i) true. replace (b <=? i) with true in Hupd by (symmetry; solve_bool).
    set (next1 := if is_null next then Block None NULL else next).
    assert (Hwf1 : chain_wf b next1).
    { unfold next1. destruct (is_null next); [|exact Hwf].
      constructor; [discriminate | constructor]. }
    assert (Hnn1 : is_null next1 = false).
    { unfold next1. destruct next; reflexivity. }
    assert (Hcell1 : forall j, chain_cell b next1 j = chain_cell b next j).
    { intros j. unfold next1. destruct next; cbn; try reflexivity.
      destruct (b <=? j); reflexivity. }
    assert (Hnodes1 : Z.of_nat (chain_nodes next1)
                      = Z.max (Z.of_nat (chain_nodes next)) 1).
    { unfold next1. destruct Hwf; cbn [is_null chain_nodes]; lia. }
    destruct (IH next1 (i - b) y r Hwf1 Hnn1) as (p2 & Hp2 & Hwf2 & _ & Hn2 & Hc2).
    { lia. }
    { rewrite div_step by lia. lia. }
    { rewrite Hcell1. exact Hupd. }
    rewrite Hp2. cbn [bind].
    eexists. split; [reflexivity|].
    split; [constructor; assumption|].
    split; [reflexivity|].
    split.
    { cbn [chain_nodes]. rewrite !Nat2Z.inj_succ, Hn2, Hnodes1.
      rewrite div_step by lia. lia. }
    intros j Hj. cbn [chain_cell].
    destruct (b <=? j) eqn:Hcmp.
    + apply Z.leb_le in Hcmp. rewrite (Hc2 (j - b)) by lia.
      rewrite Hcell1, !div_step by lia.
      replace (j - b =? i - b) with (j =? i)
        by (destruct (j =? i) eqn:E1, (j - b =? i - b) eqn:E2;
            try reflexivity; solve_bool).
      replace (j / b - 1 =? i / b - 1) with (j / b =? i / b)
        by (destruct (j / b =? i / b) eqn:E1, (j / b - 1 =? i / b - 1) eqn:E2;
            try reflexivity; solve_bool).
      reflexivity.
    + apply Z.leb_gt in Hcmp.
      test_is (j =? i) false.
      rewrite (Z.div_small j b) by lia.
      test_is (0 =? i / b) false. reflexivity.
Qed.

(** On a chain with all its payloads, the walk of [ArrayContiguous] stops
    at the first cell without payload. *)
Lemma ArrayContiguous_walk_hole (p : DATA A) (n j : Z) :
  chain_wf b p -> 0 <= j < n -> chain_cell b p j = None ->
  ArrayContiguous_walk b p n = Undefined.
Proof using Hb.
  intros Hwf. revert n j.
  induction Hwf as [|dptr next Hlen Hwf IH]; intros n j Hj Hnone;
    [reflexivity|].
  cbn [ArrayContiguous_walk chain_cell] in *.
  destruct dptr as [buf|]; [|reflexivity].
  specialize (Hlen buf eq_refl).
  destruct (b <=? j) eqn:Hcmp.
  - apply Z.leb_le in Hcmp.
    test_is (n <=? b) false.
    destruct ((0 <=? b) && (b <=? Z.of_nat (length buf))); [|reflexivity].
    rewrite (IH (n - b) (j - b)); [reflexivity | lia | exact Hnone].
  - apply Z.leb_gt in Hcmp. apply lookup_ge_None in Hnone. lia.
Qed.

(** Without a hole it returns the cells in order. *)
Lemma ArrayContiguous_walk_cells (p : DATA A) (n : Z) :
  chain_wf b p -> 0 < n ->
  (forall j, 0 <= j < n -> chain_cell b p j <> None) ->
  exists l,
    ArrayContiguous_walk b p n = Ok l
    /\ Z.of_nat (length l) = n
    /\ forall j, 0 <= j < n -> l !! Z.to_nat j = chain_cell b p j.
Proof using Hb.
  intros Hwf. revert n.
  induction Hwf as [|dptr next Hlen Hwf IH]; intros n Hn Hall.
  - exfalso. apply (Hall 0); [lia | reflexivity].
  - cbn [ArrayContiguous_walk].
    destruct dptr as [buf|].
    2:{ exfalso. apply (Hall 0); [lia|]. cbn [chain_cell].
        test_is (b <=? 0) false. reflexivity. }
    specialize (Hlen buf eq_refl).
    destruct (n <=? b) eqn:Hcmp.
    + apply Z.leb_le in Hcmp.
      test_is ((0 <=? n) && (n <=? Z.of_nat (length buf))) true.
      eexists. split; [reflexivity|].
      split; [rewrite length_take; lia|].
      intros j Hj. cbn [chain_cell]. test_is (b <=? j) false.
      apply lookup_take_lt. lia.
    + apply Z.leb_gt in Hcmp.
      test_is ((0 <=? b) && (b <=? Z.of_nat (length buf))) true.
      destruct (IH (n - b)) as (l & Hl & Hlen' & Hcells); [lia| |].
      { intros j Hj. specialize (Hall (j + b)). cbn [chain_cell] in Hall.
        replace (b <=? j + b) with true in Hall by (symmetry; solve_bool).
        replace (j + b - b) with j in Hall by lia. apply Hall. lia. }
      rewrite Hl. cbn [bind].
      eexists. split; [reflexivity|].
      assert (Htake : take (Z.to_nat b) buf = buf)
        by (apply take_ge; lia).
      rewrite Htake. split; [rewrite length_app; lia|].
      intros j Hj. cbn [chain_cell].
      destruct (b <=? j) eqn:Hjb.
      * apply Z.leb_le in Hjb.
        rewrite lookup_app_r by lia.
        rewrite <- (Hcells (j - b)) by lia. f_equal. lia.
      * apply Z.leb_gt in Hjb. apply lookup_app_l. lia.
Qed.

(** [ArrayFreeData] releases any chain of live blocks. *)
Lemma chain_wf_free (p : DATA A) (FreeElem : free_hook A) :
  chain_wf b p -> ArrayFreeData p b FreeElem = Ok tt.
Proof using Type.
  induction 1 as [|dptr next Hlen Hwf IH]; [reflexivity|].
  cbn [ArrayFreeData]. 
  replace (if is_null next then Ok tt else ArrayFreeData next b FreeElem)
    with (@Ok unit tt) by (destruct (is_null next); [reflexivity | symmetry; exact IH]).
  cbn [bind]. destruct FreeElem as [f|]; [|reflexivity].
  destruct dptr as [buf|]; [|reflexivity].
  rewrite (Hlen buf eq_refl). test_is (b <=? b) true. reflexivity.
Qed.

End ChainCellFacts.

Section ArrayWfFacts.
Context {A : Type} {rawA : Raw A}.
Variable InitData : init_hook A.

Local Abbreviation init := (run_hook InitData raw).

Lemma arr_wf_init (esz b : Z) (lk : option LOCK) :
  1 <= b -> arr_wf (ArrayInit (A := A) esz b lk).
Proof using Type.
  intros Hb. split; [exact Hb|]. split; [cbn; lia|]. cbn. lia.
Qed.

(** [ArrayGet] has a result at every index of a well-formed array. *)
Lemma ArrayGet_cell (a : ARRAY A) (i : Z) :
  arr_wf a ->
  ArrayGet a i
  = Ok (if (i <? 0) || (dim a <=? i) then None
        else chain_cell (block a) (data a) i).
Proof using Type.
  intros (Hb & Hdim & Hchain). unfold ArrayGet.
  destruct ((i <? 0) || (dim a <=? i)) eqn:Hrange; [reflexivity|].
  apply orb_false_iff in Hrange as [H0 H1].
  apply Z.ltb_ge in H0. apply Z.leb_gt in H1.
  destruct Hchain as [Hwf Hn]; [lia|].
  apply chain_get_cell; try assumption.
  assert (i / block a <= (dim a - 1) / block a)
    by (apply Z.div_le_mono; lia).
  lia.
Qed.

(** [ArraySet]'s walk on a well-formed array: the slot of [i] receives
    what [upd] makes of its content; [cur] is what the cells hold when the
    walk starts, after the first block of an empty array has been
    allocated. *)
Lemma ArraySet_slot_wf {R : Type} (upd : A -> result (A * R)) (a : ARRAY A)
    (i : Z) (y : A) (r : R) :
  arr_wf a -> arr_sized a -> 0 <= i -> i + 1 < 2 ^ 31 ->
  let cur := fun j =>
    if dim a =? 0 then (if j / block a =? 0 then Some init else None)
    else chain_cell (block a) (data a) j in
  upd (default init (cur i)) = Ok (y, r) ->
  exists a',
    ArraySet_slot a i InitData upd = Ok (a', r)
    /\ arr_wf a' /\ dim a' = Z.max (dim a) (i + 1)
    /\ block a' = block a /\ esize a' = esize a /\ bsize a' = bsize a
    /\ lock a' = lock a
    /\ forall j, 0 <= j ->
         chain_cell (block a) (data a') j
         = if j =? i then Some y
           else if j / block a =? i / block a
                then Some (default init (cur j))
                else cur j.
Proof using Type.
  intros (Hb & Hdim & Hchain) Hsized Hi Hi' cur Hupd.
  rewrite (ArraySet_slot_sized InitData a i upd Hsized Hb). cbv zeta.
  set (p0 := if dim a =? 0
             then Block (Some (init_cells (block a) InitData)) NULL
             else data a).
  assert (Hwf0 : chain_wf (block a) p0).
  { unfold p0. destruct (dim a =? 0) eqn:Hd.
    - constructor; [|constructor].
      intros buf [= <-]. apply init_cells_length. exact Hb.
    - apply Z.eqb_neq in Hd. apply Hchain. lia. }
  assert (Hnodes0 : (dim a - 1) / block a < Z.of_nat (chain_nodes p0)
                    /\ 1 <= Z.of_nat (chain_nodes p0)).
  { unfold p0. destruct (dim a =? 0) eqn:Hd.
    - apply Z.eqb_eq in Hd. rewrite Hd. cbn [chain_nodes].
      assert ((0 - 1) / block a < 0)
        by (apply Z.div_lt_upper_bound; lia).
      lia.
    - apply Z.eqb_neq in Hd. destruct Hchain as [_ Hn]; [lia|].
      assert (0 <= (dim a - 1) / block a) by (apply Z.div_pos; lia).
      lia. }
  assert (Hnn0 : is_null p0 = false).
  { destruct p0; cbn in Hnodes0 |- *; try reflexivity; lia. }
  assert (Hcur : forall j, 0 <= j -> chain_cell (block a) p0 j = cur j).
  { intros j Hj. unfold p0, cur. destruct (dim a =? 0); [|reflexivity].
    cbn [chain_cell].
    destruct (block a <=? j) eqn:Hcmp.
    - apply Z.leb_le in Hcmp.
      assert (1 <= j / block a) by (apply Z.div_le_lower_bound; lia).
      test_is (j / block a =? 0) false. reflexivity.
    - apply Z.leb_gt in Hcmp. rewrite Z.div_small by lia. cbn [Z.eqb].
      apply init_cells_lookup; lia. }
  destruct (ArraySet_walk_cell (block a) Hb InitData upd
              (Z.to_nat (i / block a)) p0 i y r Hwf0 Hnn0 Hi)
    as (p' & Hp' & Hwf' & _ & Hn' & Hc').
  { assert (0 <= i / block a) by (apply Z.div_pos; lia). lia. }
  { rewrite Hcur by exact Hi. exact Hupd. }
  rewrite Hp'. cbn [bind].
  eexists. split; [reflexivity|].
  assert (Hdim1 : (if dim a <=? i then sint (i + 1) else dim a)
                  = Z.max (dim a) (i + 1)).
  { destruct (dim a <=? i) eqn:Hcmp.
    - apply Z.leb_le in Hcmp. rewrite sint_small by lia. lia.
    - apply Z.leb_gt in Hcmp. lia. }
  unfold arr_wf.
  cbn [set_data set_dim dim data block esize bsize lock].
  rewrite Hdim1.
  split.
  { split; [exact Hb|]. split; [lia|]. intros _.
    split; [exact Hwf'|]. rewrite Hn'.
    destruct (Z.max_spec (dim a) (i + 1)) as [[Hlt ->]|[Hge ->]].
    - replace (i + 1 - 1) with i by lia. lia.
    - destruct Hnodes0 as [Hn0 _]. lia. }
  repeat (split; [reflexivity|]).
  intros j Hj. rewrite (Hc' j Hj), (Hcur j Hj). reflexivity.
Qed.

(** X1.  [ArraySet] at any index of a well-formed array whose elements have
    at least one byte and whose blocks have [bsize = esize * block] bytes,
    below [2^31], then [ArrayGet]. *)
Theorem ArraySet_then_get (a : ARRAY A) (i : Z) (d : option A) :
  arr_wf a -> arr_sized a -> 0 <= i -> i + 1 < 2 ^ 31 ->
  exists a' v,
    ArraySet a i d InitData = Ok (a', v)
    /\ arr_wf a' /\ arr_sized a' /\ dim a' = Z.max (dim a) (i + 1)
    /\ (forall x, d = Some x -> v = x)
    /\ (d = None -> forall y, ArrayGet a i = Ok (Some y) -> v = y)
    /\ ArrayGet a' i = Ok (Some v)
    /\ (forall j y, j <> i -> ArrayGet a j = Ok (Some y) ->
          ArrayGet a' j = Ok (Some y))
    /\ (forall j, dim a' <= j -> ArrayGet a' j = Ok None).
Proof using Type.
  intros Hwf Hsized Hi Hi'.
  set (cur := fun j =>
    if dim a =? 0 then (if j / block a =? 0 then Some init else None)
    else chain_cell (block a) (data a) j).
  set (v := match d with Some x => x | None => default init (cur i) end).
  destruct (ArraySet_slot_wf (copy_in d) a i v v Hwf Hsized Hi Hi')
    as (a' & Ha' & Hwf' & Hdim' & Hblk' & Hes' & Hbs' & _ & Hcells).
  { fold cur. unfold v, copy_in. destruct d; reflexivity. }
  exists a', v. split; [exact Ha'|]. split; [exact Hwf'|].
  split; [exact (arr_sized_eq a a' Hes' Hblk' Hbs' Hsized)|].
  split; [exact Hdim'|].
  split; [intros x ->; reflexivity|].
  split.
  { intros -> y Hy. rewrite (ArrayGet_cell a i Hwf) in Hy.
    destruct ((i <? 0) || (dim a <=? i)) eqn:Hr; [discriminate|].
    apply orb_false_iff in Hr as [_ Hr]. apply Z.leb_gt in Hr.
    injection Hy as Hy. unfold v, cur.
    test_is (dim a =? 0) false. rewrite Hy. reflexivity. }
  split.
  { rewrite (ArrayGet_cell a' i Hwf'), Hdim', Hblk'.
    test_is ((i <? 0) || (Z.max (dim a) (i + 1) <=? i)) false.
    rewrite (Hcells i Hi), Z.eqb_refl. reflexivity. }
  split.
  { intros j y Hne Hy. rewrite (ArrayGet_cell a j Hwf) in Hy.
    destruct ((j <? 0) || (dim a <=? j)) eqn:Hr; [discriminate|].
    apply orb_false_iff in Hr as [Hr0 Hr1].
    apply Z.ltb_ge in Hr0. apply Z.leb_gt in Hr1.
    injection Hy as Hy.
    rewrite (ArrayGet_cell a' j Hwf'), Hdim', Hblk'.
    test_is ((j <? 0) || (Z.max (dim a) (i + 1) <=? j)) false.
    rewrite (Hcells j Hr0).
    test_is (j =? i) false. unfold cur. cbv beta.
    test_is (dim a =? 0) false. rewrite Hy.
    destruct (j / block a =? i / block a); reflexivity. }
  intros j Hj. rewrite (ArrayGet_cell a' j Hwf').
  test_is ((j <? 0) || (dim a' <=? j)) true. reflexivity.
Qed.

Lemma set_all_cells (ops : list (Z * A)) :
  forall a : ARRAY A,
    arr_wf a -> arr_sized a -> 0 < dim a ->
    Forall (fun op => 0 <= fst op /\ fst op + 1 < 2 ^ 31) ops ->
    exists a',
      set_all a ops InitData = Ok a'
      /\ arr_wf a' /\ 0 < dim a' /\ dim a' = extent ops (dim a)
      /\ block a' = block a
      /\ forall j, 0 <= j ->
           chain_cell (block a) (data a') j
           = cell_after (block a) init ops j (chain_cell (block a) (data a) j).
Proof using Type.
  induction ops as [|[i v] ops IH]; intros a Hwf Hsized Hdim Hops.
  - exists a. split; [reflexivity|]. split; [exact Hwf|].
    split; [exact Hdim|]. split; [reflexivity|]. split; [reflexivity|].
    intros j _. reflexivity.
  - apply Forall_cons in Hops as [[Hi Hi'] Hops]. cbn [fst] in Hi, Hi'.
    cbn [set_all extent cell_after]. unfold ArraySet.
    destruct (ArraySet_slot_wf (copy_in (Some v)) a i v v Hwf Hsized Hi Hi')
      as (a1 & Ha1 & Hwf1 & Hdim1 & Hblk1 & Hes1 & Hbs1 & _ & Hcells1);
      [reflexivity|].
    rewrite Ha1. cbn [bind].
    destruct (IH a1 Hwf1 (arr_sized_eq a a1 Hes1 Hblk1 Hbs1 Hsized))
      as (a' & Ha' & Hwf' & Hpos' & Hdim' & Hblk' & Hcells');
      [lia | exact Hops |].
    exists a'. split; [exact Ha'|]. split; [exact Hwf'|].
    split; [exact Hpos'|]. split; [congruence|]. split; [congruence|].
    intros j Hj. rewrite Hblk1 in Hcells'.
    rewrite (Hcells' j Hj), (Hcells1 j Hj).
    test_is (dim a =? 0) false. reflexivity.
Qed.

(** X2.  The cells of a block array after any sequence of [ArraySet]s from
    [ArrayInit], for elements of at least one byte in blocks of less than
    [2^31] bytes. *)
Theorem ArraySet_sequence (esz b : Z) (lk : option LOCK)
    (ops : list (Z * A)) :
  1 <= b -> 1 <= esz -> esz * b < 2 ^ 31 ->
  Forall (fun op => 0 <= fst op /\ fst op + 1 < 2 ^ 31) ops ->
  exists a,
    set_all (ArrayInit esz b lk) ops InitData = Ok a
    /\ dim a = extent ops 0
    /\ forall i,
         ArrayGet a i
         = Ok (if (i <? 0) || (extent ops 0 <=? i) then None
               else cell_after b init ops i
                      (if i / b =? 0 then Some init else None)).
Proof using Type.
  intros Hb Hesz Hbytes Hops.
  pose proof (arr_sized_init (A := A) esz b lk Hesz Hb Hbytes) as Hsized.
  destruct ops as [|[i0 v] ops].
  - exists (ArrayInit esz b lk). split; [reflexivity|].
    split; [reflexivity|]. intros i. unfold ArrayGet. cbn [dim ArrayInit extent].
    destruct ((i <? 0) || (0 <=? i)) eqn:Hr; [reflexivity|].
    apply orb_false_iff in Hr as [H0 H1]. apply Z.ltb_ge in H0.
    apply Z.leb_gt in H1. lia.
  - apply Forall_cons in Hops as [[Hi Hi'] Hops]. cbn [fst] in Hi, Hi'.
    cbn [set_all extent cell_after]. unfold ArraySet.
    destruct (ArraySet_slot_wf (copy_in (Some v)) (ArrayInit esz b lk) i0 v v
                (arr_wf_init esz b lk Hb) Hsized Hi Hi')
      as (a1 & Ha1 & Hwf1 & Hdim1 & Hblk1 & Hes1 & Hbs1 & _ & Hcells1);
      [reflexivity|].
    pose proof (arr_sized_eq _ a1 Hes1 Hblk1 Hbs1 Hsized) as Hsized1.
    cbn [dim block ArrayInit] in Hdim1, Hblk1, Hcells1.
    rewrite Ha1. cbn [bind].
    destruct (set_all_cells ops a1 Hwf1 Hsized1)
      as (a' & Ha' & Hwf' & Hpos' & Hdim' & Hblk' & Hcells');
      [lia | exact Hops |].
    exists a'. split; [exact Ha'|].
    rewrite Hdim1 in Hdim'. split; [exact Hdim'|].
    intros i. rewrite (ArrayGet_cell a' i Hwf'), Hdim'.
    destruct ((i <? 0) || (extent ops (Z.max 0 (i0 + 1)) <=? i)) eqn:Hr;
      [reflexivity|].
    apply orb_false_iff in Hr as [H0 _]. apply Z.ltb_ge in H0.
    rewrite Hblk', Hblk1. rewrite Hblk1 in Hcells'.
    rewrite (Hcells' i H0), (Hcells1 i H0). reflexivity.
Qed.

(** X3.  A negative index.  On an array with elements, [ArraySet(a, i, ...)]
    with [i < 0] is [ArraySet(a, 0, ...)]; on an empty array whose elements
    have at least one byte and whose blocks have [bsize = esize * block]
    bytes, below [2^31], it allocates the first block and leaves the array
    empty. *)
Theorem ArraySet_negative_index (a : ARRAY A) (i : Z) (d : option A) :
  1 <= block a -> 0 <= dim a -> i < 0 ->
  (0 < dim a -> ArraySet a i d InitData = ArraySet a 0 d InitData)
  /\ (dim a = 0 -> arr_sized a ->
      exists a' v,
        ArraySet a i d InitData = Ok (a', v)
        /\ dim a' = 0 /\ forall j, ArrayGet a' j = Ok None).
Proof using Type.
  intros Hb Hdim Hi.
  assert (Hq : Z.to_nat (i / block a) = 0%nat).
  { assert (i / block a < 0) by (apply Z.div_lt_upper_bound; lia). lia. }
  split.
  - intros Hpos. unfold ArraySet, ArraySet_slot.
    rewrite Hq, Z.div_0_l by lia. cbn [Z.to_nat].
    test_is (dim a =? 0) false. test_is (dim a <=? i) false.
    test_is (dim a <=? 0) false. cbn [bind].
    rewrite !ArraySet_walk_unfold.
    destruct (data a) as [| |dptr next]; try reflexivity.
    test_is (block a <=? i) false. test_is (block a <=? 0) false.
    replace (Z.to_nat i) with 0%nat by lia. reflexivity.
  - intros Hzero Hsized. unfold ArraySet.
    rewrite (ArraySet_slot_sized InitData a i (copy_in d) Hsized Hb).
    cbv zeta.
    rewrite Hq, Hzero. cbn [Z.eqb]. test_is (0 <=? i) false.
    rewrite ArraySet_walk_eq. test_is (block a <=? i) false.
    replace (Z.to_nat i) with 0%nat by lia.
    rewrite (init_cells_lookup (block a) Hb InitData 0) by lia.
    destruct d as [x|]; cbn [copy_in bind].
    + eexists _, _. split; [reflexivity|]. split; [reflexivity|].
      intros j. unfold ArrayGet. cbn [dim set_dim set_data].
      destruct ((j <? 0) || (0 <=? j)) eqn:Hr; [reflexivity|].
      apply orb_false_iff in Hr as [H0 H1]. apply Z.ltb_ge in H0.
      apply Z.leb_gt in H1. lia.
    + eexists _, _. split; [reflexivity|]. split; [reflexivity|].
      intros j. unfold ArrayGet. cbn [dim set_dim set_data].
      destruct ((j <? 0) || (0 <=? j)) eqn:Hr; [reflexivity|].
      apply orb_false_iff in Hr as [H0 H1]. apply Z.ltb_ge in H0.
      apply Z.leb_gt in H1. lia.
Qed.

(** X4.  [ArrayContiguous] needs every element to have storage: it has no
    defined result when some index below the length reads [NULL], and
    otherwise, for elements of at least one byte whose bytes together stay
    below [2^31], returns the elements in order. *)
Theorem ArrayContiguous_holes (a : ARRAY A) :
  arr_wf a -> 0 < dim a ->
  (forall j, 0 <= j < dim a -> ArrayGet a j = Ok None ->
     ArrayContiguous a = Undefined)
  /\ (0 < esize a -> esize a * dim a < 2 ^ 31 ->
      (forall j, 0 <= j < dim a -> ArrayGet a j <> Ok None) ->
      exists l,
        ArrayContiguous a = Ok (Some l)
        /\ Z.of_nat (length l) = dim a
        /\ forall j, 0 <= j < dim a ->
             ArrayGet a j = Ok (l !! Z.to_nat j)).
Proof using Type.
  intros Hwf Hpos. pose proof Hwf as (Hb & Hdim & Hchain).
  destruct Hchain as [Hcw Hn]; [exact Hpos|].
  assert (Hget : forall j, 0 <= j < dim a ->
            ArrayGet a j = Ok (chain_cell (block a) (data a) j)).
  { intros j Hj. rewrite (ArrayGet_cell a j Hwf).
    test_is ((j <? 0) || (dim a <=? j)) false. reflexivity. }
  split.
  - intros j Hj Hnone. rewrite (Hget j Hj) in Hnone. injection Hnone as Hnone.
    unfold ArrayContiguous. test_is (dim a =? 0) false.
    rewrite (ArrayContiguous_walk_hole (block a) Hb (data a) (dim a) j Hcw Hj
               Hnone).
    destruct ((0 <? esize a) && (esize a * dim a <=? sint (esize a * dim a)));
      reflexivity.
  - intros Hes Hbytes Hall.
    destruct (ArrayContiguous_walk_cells (block a) Hb (data a) (dim a) Hcw Hpos)
      as (l & Hl & Hlen & Hcells).
    { intros j Hj Hnone. apply (Hall j Hj). rewrite (Hget j Hj), Hnone.
      reflexivity. }
    exists l. unfold ArrayContiguous. test_is (dim a =? 0) false.
    rewrite (sint_small (esize a * dim a)) by nia.
    test_is ((0 <? esize a) && (esize a * dim a <=? esize a * dim a)) true.
    rewrite Hl. cbn [bind]. split; [reflexivity|]. split; [exact Hlen|].
    intros j Hj. rewrite (Hget j Hj), (Hcells j Hj). reflexivity.
Qed.

End ArrayWfFacts.

Section TrimFacts.
Context {A : Type} {rawA : Raw A}.
Variable b : Z.
Hypothesis Hb : 1 <= b.

Lemma dangling_not_null (q : nat) (p : DATA A) :
  dangling_at q p -> is_null p = false.
Proof using Type. destruct q, p; cbn; intros H; try reflexivity; contradiction. Qed.

(** No walk of [ArraySet] gets past a freed block. *)
Lemma ArraySet_walk_dangling {R : Type} (alloc : result (list A))
    (upd : A -> result (A * R)) (q : nat) :
  forall (p : DATA A) (i : Z) (fuel : nat),
    dangling_at q p -> Z.of_nat q <= i / b -> 0 <= i ->
    ArraySet_walk fuel b alloc upd p i = Undefined.
Proof using Hb.
  induction q as [|q IH]; intros p i fuel Hd Hq Hi.
  - destruct p; try contradiction. destruct fuel; reflexivity.
  - destruct p as [| |dptr next]; try contradiction. cbn [dangling_at] in Hd.
    rewrite ArraySet_walk_unfold.
    assert (b <= i).
    { destruct (Z.lt_ge_cases i b) as [Hlt|Hge]; [|exact Hge].
      rewrite Z.div_small in Hq by lia. lia. }
    test_is (b <=? i) true. destruct fuel as [|fuel]; [reflexivity|].
    rewrite (dangling_not_null q next Hd).
    rewrite (IH next (i - b) fuel Hd); [reflexivity| |lia].
    rewrite (div_step b Hb) by lia. lia.
Qed.

Lemma ArrayFreeData_dangling (FreeElem : free_hook A) (q : nat) :
  forall p : DATA A, dangling_at q p -> ArrayFreeData p b FreeElem = Undefined.
Proof using Type.
  induction q as [|q IH]; intros p Hd.
  - destruct p; try contradiction. reflexivity.
  - destruct p as [| |dptr next]; try contradiction. cbn [dangling_at] in Hd.
    cbn [ArrayFreeData]. rewrite (dangling_not_null q next Hd), (IH next Hd).
    reflexivity.
Qed.

Lemma free_tail_spec (FreeElem : free_hook A) (i : Z) (dptr : option (list A)) :
  (forall buf, dptr = Some buf -> Z.of_nat (length buf) = b) -> 0 < i < b ->
  exists dptr',
    free_tail FreeElem b i dptr = Ok dptr'
    /\ (forall buf, dptr' = Some buf -> Z.of_nat (length buf) = b)
    /\ forall j, 0 <= j < i ->
         match dptr' with Some buf => buf !! Z.to_nat j | None => None end
         = match dptr with Some buf => buf !! Z.to_nat j | None => None end.
Proof using Hb.
  intros Hlen Hi. unfold free_tail.
  destruct dptr as [buf|]; [|exists None; auto].
  destruct FreeElem as [f|]; [|exists (Some buf); auto].
  specialize (Hlen buf eq_refl).
  test_is (b <=? i) false.
  test_is ((0 <=? i) && (b <=? Z.of_nat (length buf))) true.
  eexists. split; [reflexivity|]. split.
  - intros buf' [= <-].
    rewrite !length_app, length_map, !length_take, !length_drop. lia.
  - intros j Hj. rewrite lookup_app_l by (rewrite length_take; lia).
    apply lookup_take_lt. lia.
Qed.

(** The walk of [ArrayTrim] on a chain of live blocks. *)
Lemma ArrayTrim_walk_wf (FreeElem : free_hook A) (p : DATA A) :
  chain_wf b p ->
  forall i, 0 <= i -> i / b < Z.of_nat (chain_nodes p) ->
    exists p',
      ArrayTrim_walk b FreeElem p i = Ok p'
      /\ (forall j, 0 <= j < i ->
            ArrayGet_walk b p' j = ArrayGet_walk b p j)
      /\ (i mod b <> 0 ->
          chain_wf b p' /\ Z.of_nat (chain_nodes p') = i / b + 1)
      /\ (i mod b = 0 -> dangling_at (Z.to_nat (i / b)) p').
Proof using Hb.
  induction 1 as [|dptr next Hlen Hwf IH]; intros i Hi Hn.
  - cbn in Hn. assert (0 <= i / b) by (apply Z.div_pos; lia). lia.
  - cbn [ArrayTrim_walk chain_nodes] in *.
    destruct (b <=? i) eqn:Hcmp.
    + apply Z.leb_le in Hcmp.
      assert (Hdiv : 1 <= i / b) by (apply Z.div_le_lower_bound; lia).
      destruct (IH (i - b)) as (p' & Hp' & Hget & Hwf' & Hd'); [lia| |].
      { rewrite (div_step b Hb) by lia. lia. }
      rewrite Hp'. cbn [bind]. eexists. split; [reflexivity|].
      assert (Hmod : (i - b) mod b = i mod b).
      { replace (i - b) with (i + (-1) * b) by lia.
        apply Z.mod_add. lia. }
      rewrite Hmod, (div_step b Hb) in * by lia.
      split; [|split].
      * intros j Hj. cbn [ArrayGet_walk].
        destruct (b <=? j) eqn:Hjb; [|reflexivity].
        apply Z.leb_le in Hjb. apply Hget. lia.
      * intros Hne. destruct (Hwf' Hne) as [Hw Hnn].
        split; [constructor; assumption|].
        cbn [chain_nodes]. lia.
      * intros Heq. specialize (Hd' Heq).
        replace (Z.to_nat (i / b)) with (S (Z.to_nat (i / b - 1))) by lia.
        exact Hd'.
    + apply Z.leb_gt in Hcmp. rewrite Z.mod_small, Z.div_small by lia.
      destruct (i =? 0) eqn:Hi0.
      * apply Z.eqb_eq in Hi0. subst i.
        pose proof (chain_wf_free b (Block dptr next) FreeElem
                      (chain_wf_block b dptr next Hlen Hwf)) as Hfree.
        rewrite Hfree. cbn [bind].
        eexists. split; [reflexivity|].
        split; [intros j Hj; lia|]. split; [intros Hne; lia|].
        intros _. exact I.
      * apply Z.eqb_neq in Hi0.
        replace (if is_null next then Ok tt
                 else ArrayFreeData next b FreeElem) with (@Ok unit tt)
          by (destruct (is_null next);
              [reflexivity | symmetry; apply chain_wf_free; exact Hwf]).
        cbn [bind].
        destruct (free_tail_spec FreeElem i dptr Hlen)
          as (dptr' & Hft & Hlen' & Hcells); [lia|].
        rewrite Hft. cbn [bind]. eexists. split; [reflexivity|].
        split; [|split].
        -- intros j Hj. cbn [ArrayGet_walk]. test_is (b <=? j) false.
           specialize (Hcells j Hj).
           destruct dptr' as [buf'|], dptr as [buf|]; cbn in Hcells |- *.
           ++ rewrite Hcells. reflexivity.
           ++ specialize (Hlen' buf' eq_refl).
              apply lookup_ge_None in Hcells. lia.
           ++ specialize (Hlen buf eq_refl). symmetry in Hcells.
              apply lookup_ge_None in Hcells. lia.
           ++ reflexivity.
        -- intros _. split; [constructor; [exact Hlen'|constructor]|].
           cbn [chain_nodes]. lia.
        -- intros Heq. lia.
Qed.

End TrimFacts.

Section ArrayTrimFacts.
Context {A : Type} {rawA : Raw A}.

(** X5.  [ArrayTrim] to a length [n] inside the array keeps the first [n]
    elements; the array stays well formed unless [n] is a multiple of the
    block size. *)
Theorem ArrayTrim_keeps_prefix (a : ARRAY A) (n : Z) (FreeElem : free_hook A) :
  arr_wf a -> 0 < n < dim a ->
  exists a',
    ArrayTrim a n FreeElem = Ok a'
    /\ dim a' = n /\ block a' = block a
    /\ (forall j, ArrayGet a' j = if j <? n then ArrayGet a j else Ok None)
    /\ (n mod block a <> 0 -> arr_wf a').
Proof using Type.
  intros Hwf Hn. pose proof Hwf as (Hb & Hdim & Hchain).
  destruct Hchain as [Hcw Hnodes]; [lia|].
  destruct (ArrayTrim_walk_wf (block a) Hb FreeElem (data a) Hcw n)
    as (p' & Hp' & Hget & Hwf' & _); [lia| |].
  { assert (n / block a <= (dim a - 1) / block a)
      by (apply Z.div_le_mono; lia). lia. }
  unfold ArrayTrim. test_is (dim a <=? n) false. test_is (n =? 0) false.
  rewrite Hp'. cbn [bind]. eexists. split; [reflexivity|].
  split; [reflexivity|]. split; [reflexivity|]. split.
  - intros j. unfold ArrayGet. cbn [dim data block set_dim set_data].
    destruct (j <? n) eqn:Hjn.
    + apply Z.ltb_lt in Hjn.
      destruct (j <? 0) eqn:Hj0; [reflexivity|]. apply Z.ltb_ge in Hj0.
      test_is (n <=? j) false. test_is (dim a <=? j) false.
      cbn [orb]. apply Hget. lia.
    + apply Z.ltb_ge in Hjn. test_is (n <=? j) true.
      rewrite orb_true_r. reflexivity.
  - intros Hne. destruct (Hwf' Hne) as [Hw Hnn].
    unfold arr_wf. cbn [dim data block set_dim set_data].
    split; [exact Hb|]. split; [lia|]. intros _. split; [exact Hw|].
    rewrite Hnn.
    assert ((n - 1) / block a <= n / block a) by (apply Z.div_le_mono; lia).
    lia.
Qed.

(** X6.  After [ArrayTrim] to a positive multiple of the block size, the
    last link of the chain points to the block just freed: [ArrayAppend],
    any [ArraySet] at or past the new length, and [ArrayFree] walk into
    it. *)
Theorem ArrayTrim_block_boundary_dangles (a : ARRAY A) (n : Z)
    (FreeElem : free_hook A) :
  arr_wf a -> 0 < n < dim a -> n mod block a = 0 ->
  exists a',
    ArrayTrim a n FreeElem = Ok a'
    /\ (forall d InitData, ArrayAppend a' d InitData = Undefined)
    /\ (forall i d InitData, n <= i -> ArraySet a' i d InitData = Undefined)
    /\ (forall FreeElem', ArrayFree a' FreeElem' = Undefined).
Proof using Type.
  intros Hwf Hn Hmod. pose proof Hwf as (Hb & Hdim & Hchain).
  destruct Hchain as [Hcw Hnodes]; [lia|].
  destruct (ArrayTrim_walk_wf (block a) Hb FreeElem (data a) Hcw n)
    as (p' & Hp' & _ & _ & Hdang); [lia| |].
  { assert (n / block a <= (dim a - 1) / block a)
      by (apply Z.div_le_mono; lia). lia. }
  specialize (Hdang Hmod).
  unfold ArrayTrim. test_is (dim a <=? n) false. test_is (n =? 0) false.
  rewrite Hp'. cbn [bind]. eexists. split; [reflexivity|].
  assert (Hset : forall i d InitData, n <= i ->
            ArraySet (set_dim (set_data a p') n) i d InitData = Undefined).
  { intros i d InitData Hi. unfold ArraySet, ArraySet_slot.
    cbn [dim data block set_dim set_data]. test_is (n =? 0) false.
    cbn [bind].
    rewrite (ArraySet_walk_dangling (block a) Hb _ (copy_in d)
               (Z.to_nat (n / block a)) p' i); [reflexivity|exact Hdang| |lia].
    assert (0 <= n / block a) by (apply Z.div_pos; lia).
    assert (n / block a <= i / block a) by (apply Z.div_le_mono; lia).
    lia. }
  split; [|split].
  - intros d InitData. unfold ArrayAppend. apply Hset.
    cbn [dim set_dim]. lia.
  - exact Hset.
  - intros F'. unfold ArrayFree. cbn [dim data block set_dim set_data].
    test_is (n =? 0) false.
    rewrite (ArrayFreeData_dangling (block a) F' _ p' Hdang). reflexivity.
Qed.

(** X7.  [ArrayFree] empties a well-formed array, which can be used again;
    the lock is released only when the array had elements. *)
Theorem ArrayFree_resets (a : ARRAY A) (FreeElem : free_hook A) :
  arr_wf a ->
  exists a',
    ArrayFree a FreeElem = Ok a'
    /\ arr_wf a' /\ dim a' = 0 /\ block a' = block a
    /\ (forall j, ArrayGet a' j = Ok None)
    /\ ArrayContiguous a' = Ok None
    /\ (0 < dim a -> data a' = NULL /\ lock a' = None)
    /\ (dim a = 0 -> a' = a).
Proof using Type.
  intros (Hb & Hdim & Hchain). unfold ArrayFree.
  assert (Hempty : forall a0 : ARRAY A, dim a0 = 0 ->
            (forall j, ArrayGet a0 j = Ok None)
            /\ ArrayContiguous a0 = Ok None).
  { intros a0 H0. split.
    - intros j. unfold ArrayGet. rewrite H0.
      destruct ((j <? 0) || (0 <=? j)) eqn:Hr; [reflexivity|].
      apply orb_false_iff in Hr as [Hr0 Hr1]. apply Z.ltb_ge in Hr0.
      apply Z.leb_gt in Hr1. lia.
    - unfold ArrayContiguous. rewrite H0. reflexivity. }
  destruct (dim a =? 0) eqn:Hd.
  - apply Z.eqb_eq in Hd. exists a. split; [reflexivity|].
    split; [unfold arr_wf; repeat split; try lia|].
    split; [exact Hd|]. split; [reflexivity|].
    destruct (Hempty a Hd) as [Hg Hc].
    split; [exact Hg|]. split; [exact Hc|]. split; [lia|]. reflexivity.
  - apply Z.eqb_neq in Hd. destruct Hchain as [Hcw _]; [lia|].
    rewrite (chain_wf_free (block a) (data a) FreeElem Hcw). cbn [bind].
    eexists. split; [reflexivity|].
    split.
    { unfold arr_wf. cbn [dim block set_lock set_data set_dim].
      repeat split; try lia. }
    split; [reflexivity|]. split; [reflexivity|].
    destruct (Hempty (set_lock (set_data (set_dim a 0) NULL) None) eq_refl)
      as [Hg Hc].
    split; [exact Hg|]. split; [exact Hc|].
    split; [intros _; split; reflexivity|]. intros H0. lia.
Qed.

End ArrayTrimFacts.

(** Witnesses: an array of three elements in one block of four, an array
    of five elements in blocks of two whose second block has no storage,
    and an array of three elements in two blocks of two. *)
Lemma ArraySet_then_get_witness :
  arr_wf (mkARRAY 8 4 32 3 (Block (Some [10; 11; 12; 0]) NULL) None)
  /\ arr_sized (mkARRAY 8 4 32 3 (Block (Some [10; 11; 12; 0]) NULL) None)
  /\ 0 <= 6 /\ 6 + 1 < 2 ^ 31
  /\ exists a',
       ArraySet (rawA := 0)
         (mkARRAY 8 4 32 3 (Block (Some [10; 11; 12; 0]) NULL) None)
         6 (Some 77) None
       = Ok (a', 77)
       /\ dim a' = 7
       /\ ArrayGet a' 6 = Ok (Some 77)
       /\ ArrayGet a' 1 = Ok (Some 11).
Proof.
  assert (Hwf : arr_wf (mkARRAY 8 4 32 3
                          (Block (Some [10; 11; 12; 0]) NULL) None)).
  { unfold arr_wf. cbn [block dim data]. split; [lia|]. split; [lia|].
    intros _. split; [|vm_compute; reflexivity].
    constructor; [|constructor]. intros buf [= <-]. reflexivity. }
  assert (Hsz : arr_sized (mkARRAY 8 4 32 3
                             (Block (Some [10; 11; 12; 0]) NULL) None)).
  { unfold arr_sized. cbn [esize block bsize]. lia. }
  assert (H1 : 0 <= 6) by lia.
  assert (H2 : 6 + 1 < 2 ^ 31) by lia.
  split; [exact Hwf|]. split; [exact Hsz|]. split; [exact H1|].
  split; [exact H2|].
  destruct (ArraySet_then_get (rawA := 0) None _ 6 (Some 77) Hwf Hsz H1 H2)
    as (a' & v & Hset & _ & _ & Hdim & Hv & _ & Hget & Hframe & _).
  rewrite (Hv 77 eq_refl) in *.
  exists a'. split; [exact Hset|]. split; [exact Hdim|].
  split; [exact Hget|].
  apply Hframe; [lia|]. vm_compute. reflexivity.
Defined.

Lemma ArraySet_sequence_witness :
  1 <= 4 /\ 1 <= 8 /\ 8 * 4 < 2 ^ 31
  /\ Forall (fun op => 0 <= fst op /\ fst op + 1 < 2 ^ 31)
       [(6, 60); (1, 10); (6, 61)]
  /\ exists a,
       set_all (rawA := 0) (ArrayInit 8 4 None) [(6, 60); (1, 10); (6, 61)]
         None
       = Ok a
       /\ dim a = 7
       /\ ArrayGet a 6 = Ok (Some 61)
       /\ ArrayGet a 1 = Ok (Some 10)
       /\ ArrayGet a 2 = Ok (Some 0)
       /\ ArrayGet a 7 = Ok None.
Proof.
  assert (H1 : 1 <= 4) by lia.
  assert (H2 : Forall (fun op => 0 <= fst op /\ fst op + 1 < 2 ^ 31)
                 [(6, 60); (1, 10); (6, 61)]).
  { repeat constructor; cbn; lia. }
  assert (H3 : 1 <= 8) by lia.
  assert (H4 : 8 * 4 < 2 ^ 31) by lia.
  split; [exact H1|]. split; [exact H3|]. split; [exact H4|].
  split; [exact H2|].
  destruct (ArraySet_sequence (rawA := 0) None 8 4 None
              [(6, 60); (1, 10); (6, 61)] H1 H3 H4 H2)
    as (a & Ha & Hdim & Hget).
  exists a. split; [exact Ha|]. split; [exact Hdim|].
  rewrite !Hget. repeat split; vm_compute; reflexivity.
Defined.

Lemma ArraySet_negative_index_witness :
  1 <= block (mkARRAY 8 4 32 3 (Block (Some [10; 11; 12; 0]) NULL) None)
  /\ 0 <= dim (mkARRAY 8 4 32 3 (Block (Some [10; 11; 12; 0]) NULL) None)
  /\ -3 < 0
  /\ ArraySet (rawA := 0)
       (mkARRAY 8 4 32 3 (Block (Some [10; 11; 12; 0]) NULL) None)
       (-3) (Some 77) None
     = Ok (mkARRAY 8 4 32 3 (Block (Some [77; 11; 12; 0]) NULL) None, 77).
Proof.
  assert (H1 : 1 <= block (mkARRAY 8 4 32 3
                             (Block (Some [10; 11; 12; 0]) NULL) None))
    by (cbn; lia).
  assert (H2 : 0 <= dim (mkARRAY 8 4 32 3
                           (Block (Some [10; 11; 12; 0]) NULL) None))
    by (cbn; lia).
  assert (H3 : -3 < 0) by lia.
  split; [exact H1|]. split; [exact H2|]. split; [exact H3|].
  destruct (ArraySet_negative_index (rawA := 0) None _ (-3) (Some 77) H1 H2 H3)
    as [Hneg _].
  rewrite Hneg by (cbn; lia). vm_compute. reflexivity.
Defined.

Lemma ArrayContiguous_holes_witness :
  arr_wf (mkARRAY 8 2 16 5
            (Block (Some [1; 2]) (Block None (Block (Some [5; 0]) NULL)))
            None)
  /\ 0 < dim (mkARRAY 8 2 16 5
                (Block (Some [1; 2]) (Block None (Block (Some [5; 0]) NULL)))
                None)
  /\ ArrayGet
       (mkARRAY 8 2 16 5
          (Block (Some [1; 2]) (Block None (Block (Some [5; 0]) NULL))) None)
       2 = Ok None
  /\ ArrayContiguous
       (mkARRAY 8 2 16 5
          (Block (Some [1; 2]) (Block None (Block (Some [5; 0]) NULL))) None)
     = Undefined.
Proof.
  assert (Hwf : arr_wf (mkARRAY 8 2 16 5
                          (Block (Some [1; 2])
                             (Block None (Block (Some [5; 0]) NULL))) None)).
  { unfold arr_wf. cbn [block dim data]. split; [lia|]. split; [lia|].
    intros _. split; [|vm_compute; reflexivity].
    repeat constructor; intros buf [= <-]; reflexivity. }
  assert (Hpos : 0 < dim (mkARRAY 8 2 16 5
                            (Block (Some [1; 2])
                               (Block None (Block (Some [5; 0]) NULL))) None))
    by (cbn; lia).
  assert (Hnone : ArrayGet
                    (mkARRAY 8 2 16 5
                       (Block (Some [1; 2])
                          (Block None (Block (Some [5; 0]) NULL))) None)
                    2 = Ok None) by (vm_compute; reflexivity).
  split; [exact Hwf|]. split; [exact Hpos|]. split; [exact Hnone|].
  destruct (ArrayContiguous_holes _ Hwf Hpos) as [Hhole _].
  apply (Hhole 2); [cbn; lia | exact Hnone].
Defined.

Lemma ArrayTrim_keeps_prefix_witness :
  arr_wf (mkARRAY 8 4 32 3 (Block (Some [10; 11; 12; 0]) NULL) None)
  /\ 0 < 2 < dim (mkARRAY 8 4 32 3 (Block (Some [10; 11; 12; 0]) NULL) None)
  /\ exists a',
       ArrayTrim (mkARRAY 8 4 32 3 (Block (Some [10; 11; 12; 0]) NULL) None)
         2 None
       = Ok a'
       /\ dim a' = 2 /\ arr_wf a'
       /\ ArrayGet a' 1 = Ok (Some 11) /\ ArrayGet a' 2 = Ok None.
Proof.
  assert (Hwf : arr_wf (mkARRAY 8 4 32 3
                          (Block (Some [10; 11; 12; 0]) NULL) None)).
  { unfold arr_wf. cbn [block dim data]. split; [lia|]. split; [lia|].
    intros _. split; [|vm_compute; reflexivity].
    constructor; [|constructor]. intros buf [= <-]. reflexivity. }
  assert (Hn : 0 < 2 < dim (mkARRAY 8 4 32 3
                              (Block (Some [10; 11; 12; 0]) NULL) None))
    by (cbn; lia).
  split; [exact Hwf|]. split; [exact Hn|].
  destruct (ArrayTrim_keeps_prefix _ 2 None Hwf Hn)
    as (a' & Ha' & Hdim & _ & Hget & Hwf').
  exists a'. split; [exact Ha'|]. split; [exact Hdim|].
  split; [apply Hwf'; vm_compute; discriminate|].
  rewrite !Hget. split; vm_compute; reflexivity.
Defined.

Lemma ArrayTrim_block_boundary_dangles_witness :
  arr_wf (mkARRAY 8 2 16 3
            (Block (Some [1; 2]) (Block (Some [3; 0]) NULL)) None)
  /\ 0 < 2 < dim (mkARRAY 8 2 16 3
                    (Block (Some [1; 2]) (Block (Some [3; 0]) NULL)) None)
  /\ 2 mod block (mkARRAY 8 2 16 3
                    (Block (Some [1; 2]) (Block (Some [3; 0]) NULL)) None) = 0
  /\ exists a',
       ArrayTrim (mkARRAY 8 2 16 3
                    (Block (Some [1; 2]) (Block (Some [3; 0]) NULL)) None)
         2 None
       = Ok a'
       /\ ArrayAppend (rawA := 0) a' (Some 9) None = Undefined
       /\ ArrayFree a' None = Undefined.
Proof.
  assert (Hwf : arr_wf (mkARRAY 8 2 16 3
                          (Block (Some [1; 2]) (Block (Some [3; 0]) NULL))
                          None)).
  { unfold arr_wf. cbn [block dim data]. split; [lia|]. split; [lia|].
    intros _. split; [|vm_compute; reflexivity].
    repeat constructor; intros buf [= <-]; reflexivity. }
  assert (Hn : 0 < 2 < dim (mkARRAY 8 2 16 3
                              (Block (Some [1; 2]) (Block (Some [3; 0]) NULL))
                              None)) by (cbn; lia).
  assert (Hmod : 2 mod block (mkARRAY 8 2 16 3
                                (Block (Some [1; 2])
                                   (Block (Some [3; 0]) NULL)) None) = 0)
    by reflexivity.
  split; [exact Hwf|]. split; [exact Hn|]. split; [exact Hmod|].
  destruct (ArrayTrim_block_boundary_dangles (rawA := 0) _ 2 None Hwf Hn Hmod)
    as (a' & Ha' & Happ & _ & Hfree).
  exists a'. split; [exact Ha'|]. split; [apply Happ | apply Hfree].
Defined.

Lemma ArrayFree_resets_witness :
  arr_wf (mkARRAY 8 4 32 3 (Block (Some [10; 11; 12; 0]) NULL)
            (Some (LockAt 1)))
  /\ exists a',
       ArrayFree (mkARRAY 8 4 32 3 (Block (Some [10; 11; 12; 0]) NULL)
                    (Some (LockAt 1))) None
       = Ok a'
       /\ arr_wf a' /\ dim a' = 0 /\ lock a' = None
       /\ ArrayGet a' 1 = Ok None.
Proof.
  assert (Hwf : arr_wf (mkARRAY 8 4 32 3
                          (Block (Some [10; 11; 12; 0]) NULL)
                          (Some (LockAt 1)))).
  { unfold arr_wf. cbn [block dim data]. split; [lia|]. split; [lia|].
    intros _. split; [|vm_compute; reflexivity].
    constructor; [|constructor]. intros buf [= <-]. reflexivity. }
  split; [exact Hwf|].
  destruct (ArrayFree_resets _ None Hwf)
    as (a' & Ha' & Hwf' & Hdim & _ & Hget & _ & Hlock & _).
  exists a'. split; [exact Ha'|]. split; [exact Hwf'|].
  split; [exact Hdim|]. split; [apply Hlock; cbn; lia | apply Hget].
Defined.

(** ** Index array: any list *)

Lemma last_index_snoc (v x : Z) (l : list Z) (k cur : Z) :
  last_index v (l ++ [x]) k cur
  = if x =? v then k + Z.of_nat (length l) else last_index v l k cur.
Proof.
  revert k cur. induction l as [|y l IH]; intros k cur; cbn [app last_index length].
  - rewrite Z.add_0_r. reflexivity.
  - rewrite IH. destruct (x =? v); [lia | reflexivity].
Qed.

Lemma last_index_absent (v : Z) (l : list Z) (k cur : Z) :
  (forall j, l !! j <> Some v) -> last_index v l k cur = cur.
Proof.
  revert k cur. induction l as [|y l IH]; intros k cur Hno; [reflexivity|].
  cbn [last_index]. rewrite IH by (intros j; apply (Hno (S j))).
  destruct (y =? v) eqn:Hy; [|reflexivity].
  apply Z.eqb_eq in Hy. subst y. exfalso. apply (Hno 0%nat). reflexivity.
Qed.

Lemma last_index_found (v : Z) (l : list Z) (k cur : Z) (j : nat) :
  l !! j = Some v -> (forall j', (j < j')%nat -> l !! j' <> Some v) ->
  last_index v l k cur = k + Z.of_nat j.
Proof.
  revert k cur j. induction l as [|y l IH]; intros k cur j Hj Hlast;
    [discriminate|].
  cbn [last_index]. destruct j as [|j].
  - injection Hj as ->. rewrite Z.eqb_refl.
    rewrite last_index_absent; [cbn; lia|].
    intros j'. apply (Hlast (S j')). lia.
  - rewrite (IH (k + 1) _ j Hj); [lia|].
    intros j' Hj'. apply (Hlast (S j')). lia.
Qed.

Section IdxAryFacts.
Variable d : list Z.
Variable n : Z.
Hypothesis Hn : n = Z.of_nat (length d).
Hypothesis Hpos : 0 < n < 2 ^ 31.

Lemma load_d (i : Z) :
  0 <= i < n -> exists x, load d i = Ok x /\ d !! Z.to_nat i = Some x.
Proof using Hn.
  intros Hi. destruct (d !! Z.to_nat i) as [x|] eqn:Hx.
  - exists x. split; [|reflexivity]. apply load_Ok. split; [lia | exact Hx].
  - apply lookup_ge_None in Hx. lia.
Qed.

(** The first loop of [InitIdxAry] finds the least and the greatest
    element. *)
Lemma InitIdxAry_bounds_loop (d0 : Z) :
  d !! 0%nat = Some d0 ->
  exists lo hi,
    for_range 1 n (InitIdxAry_bounds d) (d0, d0) = Ok (lo, hi)
    /\ (exists j, d !! j = Some lo) /\ (exists j, d !! j = Some hi)
    /\ forall j x, d !! j = Some x -> lo <= x <= hi.
Proof using Hn Hpos.
  intros Hd0.
  pose (P := fun (i : Z) (mm : Z * Z) =>
    fst mm <= snd mm
    /\ (exists j, d !! j = Some (fst mm)) /\ (exists j, d !! j = Some (snd mm))
    /\ forall j x, Z.of_nat j < i -> d !! j = Some x ->
         fst mm <= x <= snd mm).
  destruct (for_loop_total P (InitIdxAry_bounds d) (Z.to_nat (n - 1)) 1
              (d0, d0)) as ([lo hi] & Hloop & _ & Hlo & Hhi & Hall).
  - split; [cbn; lia|].
    split; [exists 0%nat; exact Hd0|]. split; [exists 0%nat; exact Hd0|].
    intros j x Hj Hx. destruct j; [|lia]. cbn [fst snd].
    rewrite Hd0 in Hx. injection Hx as ->. lia.
  - intros i [lo hi] Hi (Hle & Hlo & Hhi & Hall). cbn [fst snd] in *.
    destruct (load_d i) as (x & Hload & Hx); [lia|].
    unfold InitIdxAry_bounds. rewrite Hload. cbn [bind fst snd].
    eexists. split; [reflexivity|]. cbn [fst snd].
    destruct (Z.ltb_spec x lo) as [E1|E1], (Z.ltb_spec hi x) as [E2|E2].
    all: unfold P; cbn [fst snd].
    all: split; [lia|].
    all: split; [first [exact Hlo | exists (Z.to_nat i); exact Hx]|].
    all: split; [first [exact Hhi | exists (Z.to_nat i); exact Hx]|].
    all: intros j y Hj Hy.
    all: assert (Hcase : Z.of_nat j < i \/ j = Z.to_nat i) by lia.
    all: destruct Hcase as [Hlt| ->];
      [specialize (Hall j y Hlt Hy); lia
      |rewrite Hx in Hy; injection Hy as ->; lia].
  - exists lo, hi. split; [exact Hloop|]. cbn [fst snd] in *.
    split; [exact Hlo|]. split; [exact Hhi|].
    intros j x Hx. apply (Hall j x); [|exact Hx].
    apply lookup_lt_Some in Hx. lia.
Qed.

(** The second loop leaves at [v - lo] the last position of [v]. *)
Lemma InitIdxAry_fill_loop (lo hi : Z) :
  (forall j x, d !! j = Some x -> lo <= x <= hi) ->
  hi - lo + 1 < 2 ^ 31 ->
  exists tbl,
    for_range 0 n (InitIdxAry_fill d lo)
      (repeat (-1) (Z.to_nat (hi - lo + 1))) = Ok tbl
    /\ forall v, lo <= v <= hi ->
         load tbl (v - lo) = Ok (last_index v d 0 (-1)).
Proof using Hn Hpos.
  intros Hall Hm.
  pose (Q := fun (i : Z) (tbl : list Z) =>
    Z.of_nat (length tbl) = hi - lo + 1
    /\ forall v, lo <= v <= hi ->
         tbl !! Z.to_nat (v - lo)
         = Some (last_index v (take (Z.to_nat i) d) 0 (-1))).
  assert (Hrange : lo <= hi).
  { destruct (load_d 0) as (x & _ & Hx); [lia|].
    specialize (Hall _ _ Hx). lia. }
  destruct (for_loop_total Q (InitIdxAry_fill d lo) (Z.to_nat (n - 0)) 0
              (repeat (-1) (Z.to_nat (hi - lo + 1)))) as (tbl & Hloop & Hlen & Hcells).
  - split; [rewrite repeat_length; lia|].
    intros v Hv. cbn [Z.to_nat take last_index].
    apply repeat_lookup. lia.
  - intros i tbl Hi (Hlen & Hcells).
    destruct (load_d i) as (x & Hload & Hx); [lia|].
    pose proof (Hall _ _ Hx) as Hxr.
    unfold InitIdxAry_fill. rewrite Hload. cbn [bind].
    rewrite sint_small by lia. rewrite store_Ok by lia.
    eexists. split; [reflexivity|].
    split; [rewrite length_insert; exact Hlen|].
    intros v Hv.
    replace (Z.to_nat (i + 1)) with (S (Z.to_nat i)) by lia.
    rewrite (take_S_r d (Z.to_nat i) x Hx), last_index_snoc.
    rewrite length_take.
    destruct (x =? v) eqn:Hxv.
    + apply Z.eqb_eq in Hxv. subst v.
      rewrite list_lookup_insert_eq by lia. f_equal.
      apply lookup_lt_Some in Hx. lia.
    + apply Z.eqb_neq in Hxv.
      rewrite list_lookup_insert_ne by lia. apply Hcells. exact Hv.
  - exists tbl. unfold for_range. split; [exact Hloop|].
    intros v Hv. apply load_Ok. split; [lia|].
    rewrite (Hcells v Hv). f_equal. f_equal.
    apply take_ge. lia.
Qed.

End IdxAryFacts.

(** X8.  [InitIdxAry] on any list of [n >= 1] ints whose spread fits an
    [int]: [m0] and [m1] are the least and the greatest element, and
    [IdxGet] maps every value to the position of its last occurrence,
    to [-1] when it is below the least element or inside the range but
    not in the list, and to [-2] when it is above the greatest. *)
Theorem InitIdxAry_IdxGet (d : list Z) (n : Z) :
  n = Z.of_nat (length d) -> 0 < n < 2 ^ 31 ->
  (forall j j' x y, d !! j = Some x -> d !! j' = Some y -> y - x + 1 < 2 ^ 31) ->
  exists ia,
    InitIdxAry n d = Ok ia
    /\ (exists j, d !! j = Some (IdxAry.m0 ia))
    /\ (exists j, d !! j = Some (IdxAry.m1 ia))
    /\ (forall j x, d !! j = Some x -> IdxAry.m0 ia <= x <= IdxAry.m1 ia)
    /\ (forall j x, d !! j = Some x ->
          (forall j', (j < j')%nat -> d !! j' <> Some x) ->
          IdxGet ia x = Ok (Z.of_nat j))
    /\ (forall v, (forall j, d !! j <> Some v) ->
          IdxGet ia v = Ok (if IdxAry.m1 ia <? v then -2 else -1)).
Proof.
  intros Hn Hpos Hspread.
  destruct (load_d d n Hn 0) as (d0 & Hload0 & Hd0); [lia|].
  destruct (InitIdxAry_bounds_loop d n Hn Hpos d0 Hd0)
    as (lo & hi & Hb & Hlo & Hhi & Hall).
  assert (Hm : hi - lo + 1 < 2 ^ 31).
  { destruct Hlo as [j Hj], Hhi as [j' Hj']. exact (Hspread _ _ _ _ Hj Hj'). }
  assert (Hrange : lo <= hi).
  { specialize (Hall _ _ Hd0). lia. }
  destruct (InitIdxAry_fill_loop d n Hn Hpos lo hi Hall Hm) as (tbl & Hfill & Hcells).
  unfold InitIdxAry. test_is (n =? 0) false.
  rewrite Hload0. cbn [bind]. rewrite Hb. cbn [bind fst snd].
  assert (Hsize : sint (sint (1 + hi) - lo) = hi - lo + 1).
  { unfold sint at 1. rewrite <- (sint_small (hi - lo + 1)) by lia.
    unfold sint. f_equal. 
    replace ((1 + hi + 2 ^ 31) mod 2 ^ 32 - 2 ^ 31 - lo + 2 ^ 31)
      with ((1 + hi + 2 ^ 31) mod 2 ^ 32 + (- lo)) by lia.
    rewrite Zplus_mod_idemp_l. f_equal. lia. }
  rewrite Hsize, Hfill. cbn [bind].
  eexists. split; [reflexivity|].
  cbn [IdxAry.m0 IdxAry.m1].
  split; [exact Hlo|]. split; [exact Hhi|]. split; [exact Hall|].
  assert (Hget : forall v, lo <= v <= hi ->
            IdxGet (IdxAry.mk n (Some d) lo hi (hi - lo + 1) (Some tbl)) v
            = Ok (last_index v d 0 (-1))).
  { intros v Hv. unfold IdxGet. cbn [IdxAry.m0 IdxAry.m1 IdxAry.i].
    test_is (v <? lo) false. test_is (hi <? v) false.
    rewrite sint_small by lia. apply Hcells. exact Hv. }
  split.
  - intros j x Hx Hlast. rewrite (Hget x (Hall _ _ Hx)).
    rewrite (last_index_found x d 0 (-1) j Hx Hlast). f_equal.
  - intros v Hno.
    destruct (Z.lt_ge_cases v lo) as [Hlt|Hge].
    { unfold IdxGet. cbn [IdxAry.m0 IdxAry.m1 IdxAry.i].
      test_is (v <? lo) true. test_is (hi <? v) false. reflexivity. }
    destruct (Z.lt_ge_cases hi v) as [Hgt|Hle].
    { unfold IdxGet. cbn [IdxAry.m0 IdxAry.m1 IdxAry.i].
      test_is (v <? lo) false. test_is (hi <? v) true. reflexivity. }
    rewrite Hget by lia. rewrite last_index_absent by exact Hno.
    test_is (hi <? v) false. reflexivity.
Qed.

(** A list with a repeated value and a gap. *)
Lemma InitIdxAry_IdxGet_witness :
  4 = Z.of_nat (length [7; 3; 7; 5]) /\ 0 < 4 < 2 ^ 31
  /\ (forall j j' x y, [7; 3; 7; 5] !! j = Some x -> [7; 3; 7; 5] !! j' = Some y ->
        y - x + 1 < 2 ^ 31)
  /\ exists ia,
       InitIdxAry 4 [7; 3; 7; 5] = Ok ia
       /\ IdxGet ia 7 = Ok 2 /\ IdxGet ia 5 = Ok 3 /\ IdxGet ia 3 = Ok 1
       /\ IdxGet ia 4 = Ok (-1) /\ IdxGet ia 2 = Ok (-1)
       /\ IdxGet ia 8 = Ok (-2).
Proof.
  assert (H1 : 4 = Z.of_nat (length [7; 3; 7; 5])) by reflexivity.
  assert (H2 : 0 < 4 < 2 ^ 31) by lia.
  assert (H3 : forall j j' x y,
            [7; 3; 7; 5] !! j = Some x -> [7; 3; 7; 5] !! j' = Some y ->
            y - x + 1 < 2 ^ 31).
  { intros j j' x y Hx Hy.
    assert (Hb : forall i z, [7; 3; 7; 5] !! i = Some z -> 3 <= z <= 7).
    { intros [|[|[|[|i]]]] z Hz; cbn in Hz; try discriminate;
        injection Hz as <-; lia. }
    specialize (Hb _ _ Hx) as Hbx. specialize (Hb _ _ Hy) as Hby. lia. }
  split; [exact H1|]. split; [exact H2|]. split; [exact H3|].
  destruct (InitIdxAry_IdxGet [7; 3; 7; 5] 4 H1 H2 H3)
    as (ia & Hia & _ & _ & _ & _ & _).
  exists ia. split; [exact Hia|].
  vm_compute in Hia. injection Hia as <-.
  repeat split; vm_compute; reflexivity.
Defined.

(** X9.  The empty index array: [InitIdxAry] with [n = 0] stores no table,
    and [IdxGet] answers [-1] below zero and [-2] above, but reads through
    the [NULL] table at [0]. *)
Theorem IdxGet_empty (d : list Z) (v : Z) :
  exists ia,
    InitIdxAry 0 d = Ok ia
    /\ IdxGet ia v
       = if v <? 0 then Ok (-1) else if 0 <? v then Ok (-2) else Undefined.
Proof.
  eexists. split; [reflexivity|]. unfold IdxGet. cbn.
  destruct (v <? 0); [reflexivity|]. destruct (0 <? v); reflexivity.
Qed.

(** ** Hash-sparse multi-array: one [Set] in any reachable state *)

Lemma Qltb_true (x y : Q) : Qltb x y = true <-> (x < y)%Q.
Proof.
  unfold Qltb. rewrite negb_true_iff. split; intros H.
  - apply Qnot_le_lt. intros Hle. apply Qle_bool_iff in Hle. congruence.
  - destruct (Qle_bool y x) eqn:E; [|reflexivity].
    apply Qle_bool_iff in E. exfalso. exact (Qlt_not_le _ _ H E).
Qed.

Lemma Qltb_false (x y : Q) : Qltb x y = false <-> (y <= x)%Q.
Proof.
  unfold Qltb. rewrite negb_false_iff. apply Qle_bool_iff.
Qed.

(** X11.  One [NMultiSet] that finds no trigger, in any state reached from
    [NMultiInit]: every other key reads as before, and the key itself
    reads the data passed, or with [d == NULL] what it read before, or an
    initialised buffer if it was absent; what [NMultiSet] returns is what
    [NMultiGet] then returns. *)
Theorem NMultiSet_frame {V : Type} {rawV : Raw V} {ARR : Type}
    (w sizeof_DATA sizeof_LOCK sizeof_MDATA sizeof_ARRAY MyRankMPI : Z)
    (FreeElem : free_hook V) (ma0 : MULTI ARR unit unit) (g0 : GLOBALS)
    (esize ndim : Z) (block : list Z) (lk alk : option LOCK)
    (cs : list (call V)) (k : list Z) (d : option V) (lock : lock_out)
    (InitData : init_hook V) (newlock : option LOCK) :
  31 <= w -> 0 <= ndim <= 29 ->
  0 <= sizeof_ARRAY * 2 ^ (ndim / 2 + 16) < 2 ^ 31 ->
  keys_ok ndim cs = true -> Z.of_nat (length cs) + 1 < 2 ^ 31 ->
  Z.of_nat (length k) = ndim ->
  exists ma g ev,
    NMulti_start w sizeof_DATA sizeof_LOCK sizeof_MDATA sizeof_ARRAY
      MyRankMPI FreeElem ma0 g0 esize ndim block lk alk cs
    = Ok (ma, g, ev)
    /\ (local_trigger ma || global_trigger ma g = false ->
        exists ma' g' rd rl old oldlock,
          NMultiGet w ma k lock = Ok (old, oldlock)
          /\ NMultiSet w sizeof_DATA sizeof_LOCK MyRankMPI ma g k d lock
               InitData FreeElem newlock
             = Ok (ma', g', rd, rl)
          /\ NMultiGet w ma' k lock = Ok (rd, rl)
          /\ rd = match d, old with
                  | Some v, _ => Some v
                  | None, Some v => Some v
                  | None, None => Some (run_hook InitData raw)
                  end
          /\ (old <> None -> rl = oldlock /\ g' = g)
          /\ forall k' lock', Z.of_nat (length k') = ndim -> k' <> k ->
               NMultiGet w ma' k' lock' = NMultiGet w ma k' lock').
Proof.
  intros Hw Hnd Hsz Hkeys Hlen Hk.
  destruct (NMulti_start_rep w sizeof_DATA sizeof_LOCK sizeof_MDATA
              sizeof_ARRAY MyRankMPI Hw ndim FreeElem ma0 g0 esize block
              lk alk cs Hnd Hsz Hkeys)
    as (ma & g & ev & ess & Hstart & Hrep); [lia|].
  exists ma, g, ev. split; [exact Hstart|].
  intros Hquiet.
  destruct (NMultiSet_rep w sizeof_DATA sizeof_LOCK MyRankMPI Hw ndim _ ma g
              ess k d lock InitData FreeElem newlock Hrep Hk)
    as (ma1 & g1 & ess1 & ma' & g' & ess' & _ & Hfire & _ & _ & Hset
        & Hrep' & Hentry & _ & _ & _ & Hcount); [lia|].
  rewrite Hquiet in Hfire. destruct Hfire as (-> & -> & ->).
  pose proof (rep_bucket w Hw ndim _ ma ess k Hrep Hk)
    as (h & a & es & _ & Hb & _ & _ & Hes & Hbr).
  destruct Hbr as (_ & _ & _ & Hok & _).
  assert (Hnd0 : 0 <= ndim) by lia.
  assert (Hlive : forall e, entry_of w ndim ess k = Some e ->
            exists v, MDATA.data e = Some v).
  { intros e He. unfold entry_of in He. rewrite Hb, Hes in He.
    destruct (find_key ndim k es) as [[t e']|] eqn:Hfind; [|discriminate].
    injection He as <-.
    destruct (find_key_Some ndim Hnd0 k es t e' Hok Hk Hfind)
      as (_ & _ & (key & v & _ & _ & Hv)).
    exists v. exact Hv. }
  exists ma', g',
    (MDATA.data (entry_set k d InitData newlock (entry_of w ndim ess k))),
    (write_lock lock
       (MDATA.lock (entry_set k d InitData newlock (entry_of w ndim ess k)))),
    (fst (entry_view (entry_of w ndim ess k) lock)),
    (snd (entry_view (entry_of w ndim ess k) lock)).
  split.
  { rewrite (NMultiGet_entry w Hw ndim _ ma ess k lock Hrep Hk).
    destruct (entry_view (entry_of w ndim ess k) lock); reflexivity. }
  split; [exact Hset|].
  split.
  { rewrite (NMultiGet_entry w Hw ndim _ ma' ess' k lock Hrep' Hk).
    rewrite (Hentry k Hk), decide_True by reflexivity. reflexivity. }
  split.
  { destruct (entry_of w ndim ess k) as [e|] eqn:He; cbn [entry_view fst].
    - destruct (Hlive e eq_refl) as [v Hv]. cbn [entry_set].
      destruct d as [x|]; cbn [overwritten MDATA.data]; try rewrite Hv;
        reflexivity.
    - cbn [entry_set fresh_entry MDATA.data]. destruct d; reflexivity. }
  split.
  { intros Hold.
    destruct (entry_of w ndim ess k) as [e|] eqn:He;
      cbn [entry_view fst snd] in Hold |- *; [|contradiction].
    destruct Hcount as (Hg & _). split; [|exact Hg].
    cbn [entry_set]. destruct d; reflexivity. }
  intros k' lock' Hk' Hne.
  rewrite (NMultiGet_entry w Hw ndim _ ma' ess' k' lock' Hrep' Hk').
  rewrite (NMultiGet_entry w Hw ndim _ ma ess k' lock' Hrep Hk').
  rewrite (Hentry k' Hk'), decide_False by exact Hne. reflexivity.
Qed.

(** One entry set, then [Set] of the same key without data. *)
Lemma NMultiSet_frame_witness :
  31 <= 64 /\ 0 <= 2 <= 29 /\ 0 <= 32 * 2 ^ (2 / 2 + 16) < 2 ^ 31
  /\ keys_ok 2 [CallSet [1; 2] (Some 70) None None] = true
  /\ Z.of_nat (length [CallSet [1; 2] (Some 70) None None]) + 1 < 2 ^ 31
  /\ Z.of_nat (length [1; 2]) = 2
  /\ exists ma g ev ma' rl,
       NMulti_start (rawV := 0) 64 16 40 24 32 0 None (blank_MULTI 0)
         fresh_GLOBALS 8 2 [4; 4] None None
         [CallSet [1; 2] (Some 70) None None]
       = Ok (ma, g, ev)
       /\ local_trigger ma || global_trigger ma g = false
       /\ NMultiSet (rawV := 0) 64 16 40 0 ma g [1; 2] None None
            None None None
          = Ok (ma', g, Some 70, rl)
       /\ NMultiGet 64 ma' [1; 2] None = Ok (Some 70, rl).
Proof.
  assert (H1 : 31 <= 64) by lia.
  assert (H2 : 0 <= 2 <= 29) by lia.
  assert (H3 : 0 <= 32 * 2 ^ (2 / 2 + 16) < 2 ^ 31)
    by (vm_compute; split; [discriminate | reflexivity]).
  assert (H4 : keys_ok 2 [CallSet (V := Z) [1; 2] (Some 70) None None] = true)
    by reflexivity.
  assert (H5 : Z.of_nat (length [CallSet (V := Z) [1; 2] (Some 70) None None])
               + 1 < 2 ^ 31) by (vm_compute; reflexivity).
  assert (H6 : Z.of_nat (length [1; 2]) = 2) by reflexivity.
  split; [exact H1|]. split; [exact H2|]. split; [exact H3|].
  split; [exact H4|]. split; [exact H5|]. split; [exact H6|].
  destruct (NMultiSet_frame (rawV := 0) 64 16 40 24 32 0 None
              (blank_MULTI 0) fresh_GLOBALS 8 2 [4; 4] None None
              [CallSet [1; 2] (Some 70) None None]
              [1; 2] None None None None H1 H2 H3 H4 H5 H6)
    as (ma & g & ev & Hstart & Hstep).
  assert (Hc : match
                 (do (m, g, _) <-
                    NMulti_start (rawV := 0) 64 16 40 24 32 0 None
                      (blank_MULTI 0) fresh_GLOBALS 8 2 [4; 4] None None
                      [CallSet [1; 2] (Some 70) None None];
                  do (r, _) <- NMultiGet 64 m [1; 2] None;
                  Ok (local_trigger m || global_trigger m g, r))
               with
               | Ok r => r
               | Undefined => (true, None)
               end = (false, Some 70)) by (vm_compute; reflexivity).
  rewrite Hstart in Hc. cbn [bind] in Hc.
  destruct (Hstep ltac:(destruct (NMultiGet 64 ma [1; 2] None) as [[? ?]|];
                        cbn [bind] in Hc; congruence))
    as (ma' & g' & rd & rl & old & oldlock & Hget & Hset & Hget' & Hrd & Hold & _).
  rewrite Hget in Hc. cbn [bind] in Hc. injection Hc as Hquiet Hold70.
  subst old. cbn in Hrd. subst rd.
  destruct Hold as [_ ->]; [discriminate|].
  exists ma, g, ev, ma', rl.
  split; [exact Hstart|]. split; [exact Hquiet|]. split; [exact Hset|].
  exact Hget'.
Defined.

(** ** Hash-sparse multi-array: the counters *)

Lemma sum_with_insert {X : Type} (f : X -> Z) (l : list X) (i : nat) (x y : X) :
  l !! i = Some x ->
  sum_with f (<[i := y]> l) = sum_with f l - f x + f y.
Proof.
  revert i. induction l as [|z l IH]; intros [|i] Hl; try discriminate.
  - cbn in Hl. injection Hl as ->. cbn. lia.
  - cbn in Hl. change (<[S i := y]> (z :: l)) with (z :: <[i := y]> l).
    cbn [sum_with fold_right]. fold (sum_with f (<[i := y]> l)).
    fold (sum_with f l). rewrite (IH i Hl). lia.
Qed.

Lemma sum_with_zero {X : Type} (f : X -> Z) (l : list X) :
  Forall (fun x => f x = 0) l -> sum_with f l = 0.
Proof.
  induction 1 as [|x l Hx _ IH]; [reflexivity|].
  cbn [sum_with fold_right]. fold (sum_with f l). lia.
Qed.

Lemma sum_with_nonneg {X : Type} (f : X -> Z) (l : list X) :
  (forall x, 0 <= f x) -> 0 <= sum_with f l.
Proof.
  intros Hf. induction l as [|x l IH]; [cbn; lia|].
  cbn [sum_with fold_right]. fold (sum_with f l). specialize (Hf x). lia.
Qed.

Lemma sum_with_map {X Y : Type} (f : Y -> Z) (g : X -> Y) (l : list X) :
  sum_with f (map g l) = sum_with (fun x => f (g x)) l.
Proof.
  induction l as [|x l IH]; [reflexivity|].
  cbn [map sum_with fold_right]. fold (sum_with f (map g l)).
  fold (sum_with (fun x => f (g x)) l). rewrite IH. reflexivity.
Qed.

Lemma bucket_bytes_next (bb eb : Z) (n : nat) :
  bucket_bytes bb eb (Z.of_nat (S n))
  = bucket_bytes bb eb (Z.of_nat n)
    + ((if (n mod 8 =? 0)%nat then bb else 0) + eb).
Proof.
  unfold bucket_bytes.
  pose proof (Nat.div_mod_eq n 8) as Hdm.
  pose proof (Nat.mod_upper_bound n 8 ltac:(lia)) as Hr.
  set (q := (n / 8)%nat) in *. set (r := (n mod 8)%nat) in *.
  assert (H1 : (Z.of_nat (S n) + 7) / 8 = Z.of_nat q + 1).
  { symmetry. apply (Z.div_unique _ 8 _ (Z.of_nat r)); lia. }
  rewrite H1.
  destruct (r =? 0)%nat eqn:Hz.
  - apply Nat.eqb_eq in Hz.
    assert (H0 : (Z.of_nat n + 7) / 8 = Z.of_nat q).
    { symmetry. apply (Z.div_unique _ 8 _ 7); lia. }
    rewrite H0. lia.
  - apply Nat.eqb_neq in Hz.
    assert (H0 : (Z.of_nat n + 7) / 8 = Z.of_nat q + 1).
    { symmetry. apply (Z.div_unique _ 8 _ (Z.of_nat r - 1)); lia. }
    rewrite H0. lia.
Qed.

Section NMultiCostFacts.
Context {V : Type} {rawV : Raw V}.
Variables (w sizeof_DATA sizeof_LOCK : Z).
Variable MyRankMPI : Z.
Hypothesis Hw : 31 <= w.

Local Abbreviation NMULTI := (MULTI (list (ARRAY (MDATA V))) unit unit).

(** What [NMultiSet_insert] does to the counters and to the table. *)
Lemma NMultiSet_insert_inv (ma ma' : NMULTI) (g g' : GLOBALS) (h : Z)
    (a : ARRAY (MDATA V)) (p : DATA (MDATA V)) (nb off : nat) (size0 : Z)
    (k : list Z) (d rd : option V) (lock rl : lock_out)
    (InitData : init_hook V) (newlock : option LOCK) :
  NMultiSet_insert sizeof_LOCK ma g h a p nb off size0 k d lock InitData
    newlock = Ok (ma', g', rd, rl) ->
  exists a',
    MULTI.array ma' = <[Z.to_nat h := a']> (MULTI.array ma)
    /\ bsize a' = bsize a
    /\ MULTI.esize ma' = MULTI.esize ma
    /\ MULTI.clean_mode ma' = MULTI.clean_mode ma
    /\ MULTI.overheadsize ma' = MULTI.overheadsize ma
    /\ _overheadsize g' = _overheadsize g
    /\ MULTI.totalsize ma'
       = MULTI.totalsize ma
         + (size0 + sint (sizeof_LOCK
                          + sint (MULTI.esize ma + MULTI.isize ma)))
    /\ _totalsize g'
       = _totalsize g
         + (size0 + sint (sizeof_LOCK
                          + sint (MULTI.esize ma + MULTI.isize ma)))
    /\ MULTI.numelem ma' = sint (MULTI.numelem ma + 1).
Proof using Type.
  unfold NMultiSet_insert. intros H.
  destruct (new_entry (MULTI.isize ma) k d InitData newlock) as [e|];
    [|discriminate].
  cbn [bind] in H.
  destruct (chain_update p nb off (fun _ => Ok e)) as [p'|]; [|discriminate].
  cbn [bind] in H.
  destruct (store (MULTI.array ma) h
              (set_dim (set_data a p') (sint (dim a + 1)))) as [tbl|] eqn:Hst;
    [|discriminate].
  cbn [bind] in H. apply store_inv in Hst as [_ ->].
  injection H as <- <- _ _.
  eexists. cbn. repeat split; try reflexivity; lia.
Qed.

(** The rest of [NMultiSet] after the critical block, with what it adds
    to the counters. *)
Lemma NMultiSet_body_cost (nd N : Z) (ma : NMULTI)
    (ess : list (list (MDATA V))) (g : GLOBALS) (k : list Z)
    (d : option V) (lock : lock_out) (InitData : init_hook V)
    (newlock : option LOCK) :
  NMulti_rep nd N ma ess -> Z.of_nat (length k) = nd -> N + 1 < 2 ^ 31 ->
  exists h a a' es ma' g' rd rl,
    ess !! Z.to_nat h = Some es
    /\ MULTI.array ma !! Z.to_nat h = Some a
    /\ NMultiSet_body w sizeof_DATA sizeof_LOCK ma g k d lock InitData newlock
       = Ok (ma', g', rd, rl)
    /\ NMulti_rep nd (N + 1) ma'
         (<[Z.to_nat h := set_entries nd k d InitData newlock es]> ess)
    /\ MULTI.array ma' = <[Z.to_nat h := a']> (MULTI.array ma)
    /\ bsize a' = bsize a
    /\ MULTI.esize ma' = MULTI.esize ma
    /\ MULTI.clean_mode ma' = MULTI.clean_mode ma
    /\ _overheadsize g' = _overheadsize g
    /\ match find_key nd k es with
       | Some _ =>
           set_entries nd k d InitData newlock es <> []
           /\ length (set_entries nd k d InitData newlock es) = length es
           /\ MULTI.totalsize ma' = MULTI.totalsize ma
           /\ _totalsize g' = _totalsize g
           /\ MULTI.numelem ma' = MULTI.numelem ma
       | None =>
           length (set_entries nd k d InitData newlock es) = S (length es)
           /\ MULTI.totalsize ma'
              = MULTI.totalsize ma
                + ((if (length es mod 8 =? 0)%nat
                    then sint (sizeof_DATA + bsize a) else 0)
                   + sint (sizeof_LOCK
                           + sint (MULTI.esize ma + MULTI.isize ma)))
           /\ _totalsize g'
              = _totalsize g
                + ((if (length es mod 8 =? 0)%nat
                    then sint (sizeof_DATA + bsize a) else 0)
                   + sint (sizeof_LOCK
                           + sint (MULTI.esize ma + MULTI.isize ma)))
           /\ MULTI.numelem ma' = sint (MULTI.numelem ma + 1)
       end.
Proof using Hw.
  intros Hrep Hk HN.
  destruct (NMultiSet_body_rep w sizeof_DATA sizeof_LOCK Hw nd N ma ess g
              k d lock InitData newlock Hrep Hk HN)
    as (h & es & ma' & g' & Hb & Hes & Hbody & Hrep' & _ & _ & Hov & _).
  destruct (rep_bucket w Hw nd N ma ess k Hrep Hk)
    as (h0 & a & es0 & Hh & Hb0 & Hrange & Ha & Hes0 & Hbr).
  assert (h0 = h) by congruence. subst h0.
  assert (es0 = es) by congruence. subst es0.
  pose proof Hrep as (Hnd & Hndim & Hisz & Hhs & Hhm & Hbk & Hlen).
  pose proof Hbr as (Hblk & [Hdim Hdata] & HNes & Hok & Hnodup).
  apply load_Ok in Ha as Ha'. destruct Ha' as [_ Hlook].
  pose proof Hbody as Hrun.
  unfold NMultiSet_body in Hrun. rewrite Hh in Hrun. cbn [bind] in Hrun.
  rewrite Ha in Hrun. cbn [bind] in Hrun.
  destruct es as [|e0 es0].
  - change (dim a = 0) in Hdim. rewrite Hdim in Hrun. cbn [Z.eqb] in Hrun.
    destruct (NMultiSet_insert_inv _ _ _ _ _ _ _ _ _ _ _ _ _ _ _ _ _ Hrun)
      as (a' & Harr & Hbs & Hes' & Hcm & _ & _ & Htot & Hled & Hnum).
    exists h, a, a', [], ma', g'. eexists _, _.
    split; [exact Hes|]. split; [exact Hlook|]. split; [exact Hbody|].
    split; [exact Hrep'|]. split; [exact Harr|]. split; [exact Hbs|].
    split; [exact Hes'|]. split; [exact Hcm|]. split; [exact Hov|].
    cbn [find_key first_match length Nat.modulo Nat.eqb].
    split; [reflexivity|]. split; [exact Htot|]. split; [exact Hled|].
    exact Hnum.
  - set (es := e0 :: es0) in *.
    assert (Hpos : (0 < length es)%nat) by (cbn; lia).
    replace (dim a =? 0) with false in Hrun by (symmetry; solve_bool).
    replace (0 <? dim a) with true in Hrun by (symmetry; solve_bool).
    rewrite Hblk in Hdata. change (Z.to_nat 8) with 8%nat in Hdata.
    change (stores 8 null_entry es (data a)) in Hdata.
    pose proof (same_defined_ok nd ltac:(lia) k es Hok Hk) as Hdef.
    rewrite Hisz, Hblk in Hrun. change 8 with (Z.of_nat 8) in Hrun.
    rewrite (NMultiSet_scan_stores 8 null_entry _ ltac:(lia) es (data a)
               (dim a) 0 0 Hdata Hdef) in Hrun by lia.
    cbn [bind] in Hrun. fold (find_key nd k es) in Hrun.
    assert (Hsetlen := set_entries_ok nd ltac:(lia) k d InitData newlock es
                         Hok Hnodup Hk).
    unfold set_entries in *.
    destruct (find_key nd k es) as [[t e]|] eqn:Hfind.
    + destruct (chain_update (data a) (0 + t / 8) (t mod 8)
                  (NMultiSet_overwrite d)) as [p'|]; [|discriminate].
      cbn [bind] in Hrun.
      destruct (store (MULTI.array ma) h (set_data a p')) as [tbl|] eqn:Hst;
        [|discriminate].
      cbn [bind] in Hrun. apply store_inv in Hst as [_ ->].
      injection Hrun as <- <- _ _.
      exists h, a, (set_data a p'), es. eexists _, _, _, _.
      unfold set_entries. rewrite Hfind.
      split; [exact Hes|]. split; [exact Hlook|]. split; [exact Hbody|].
      split; [exact Hrep'|]. split; [reflexivity|].
      repeat (split; [reflexivity|]).
      split.
      { intros Hnil. apply (f_equal length) in Hnil.
        rewrite length_insert in Hnil. cbn in Hnil. lia. }
      split; [apply length_insert|]. repeat split; reflexivity.
    + assert (Hlen1 : length (es ++ [fresh_entry k d InitData newlock])
                      = S (length es))
        by (rewrite length_app; cbn; lia).
      destruct (length es mod 8 =? 0)%nat eqn:Hmod.
      * destruct (chain_set_next (data a) (0 + length es / 8 - 1)
                    (Block (Some (InitMDataData (Z.of_nat 8))) NULL))
          as [p1|]; [|discriminate].
        cbn [bind] in Hrun.
        destruct (NMultiSet_insert_inv _ _ _ _ _ _ _ _ _ _ _ _ _ _ _ _ _ Hrun)
          as (a' & Harr & Hbs & Hes' & Hcm & _ & _ & Htot & Hled & Hnum).
        exists h, a, a', es, ma', g'. eexists _, _.
        unfold set_entries. rewrite Hfind, Hmod.
        split; [exact Hes|]. split; [exact Hlook|]. split; [exact Hbody|].
        split; [exact Hrep'|]. split; [exact Harr|]. split; [exact Hbs|].
        split; [exact Hes'|]. split; [exact Hcm|]. split; [exact Hov|].
        split; [exact Hlen1|]. split; [exact Htot|]. split; [exact Hled|].
        exact Hnum.
      * destruct (NMultiSet_insert_inv _ _ _ _ _ _ _ _ _ _ _ _ _ _ _ _ _ Hrun)
          as (a' & Harr & Hbs & Hes' & Hcm & _ & _ & Htot & Hled & Hnum).
        exists h, a, a', es, ma', g'. eexists _, _.
        unfold set_entries. rewrite Hfind, Hmod.
        split; [exact Hes|]. split; [exact Hlook|]. split; [exact Hbody|].
        split; [exact Hrep'|]. split; [exact Harr|]. split; [exact Hbs|].
        split; [exact Hes'|]. split; [exact Hcm|]. split; [exact Hov|].
        split; [exact Hlen1|].
        split; [rewrite Htot; lia|]. split; [rewrite Hled; lia|].
        exact Hnum.
Qed.

Lemma map_result_free_static (P : ARRAY (MDATA V) -> Prop)
    (FreeElem : free_hook V) (l l' : list (ARRAY (MDATA V))) :
  (forall a p z, P a -> P (set_data (set_dim a z) p)) ->
  map_result (fun a => NMultiFreeDataOnly a FreeElem) l = Ok l' ->
  Forall P l -> Forall P l'.
Proof using Type.
  intros HP. revert l'. induction l as [|a l IH]; intros l' Hm Hall.
  - injection Hm as <-. constructor.
  - apply Forall_cons in Hall as [Ha Hall]. cbn [map_result] in Hm.
    destruct (NMultiFreeDataOnly a FreeElem) as [a'|] eqn:Hfree;
      [|discriminate].
    cbn [bind] in Hm.
    destruct (map_result (fun a0 => NMultiFreeDataOnly a0 FreeElem) l)
      as [l1|]; [|discriminate].
    injection Hm as <-. constructor; [|apply IH; [reflexivity|exact Hall]].
    unfold NMultiFreeDataOnly in Hfree.
    destruct (dim a =? 0); [injection Hfree as <-; exact Ha|].
    destruct (NMultiArrayFreeData (data a) (block a) FreeElem);
      [|discriminate].
    injection Hfree as <-. apply HP. exact Ha.
Qed.

(** The critical block keeps what [NMultiInit] fixed. *)
Lemma NMultiSet_critical_static (esz bs : Z) (ma ma1 : NMULTI)
    (g g1 : GLOBALS) (FreeElem : free_hook V) :
  NMulti_static esz bs ma ->
  NMultiSet_critical MyRankMPI ma g FreeElem = Ok (ma1, g1) ->
  NMulti_static esz bs ma1.
Proof using Type.
  intros (Hesz & Hcm & Hbs) Hcrit.
  assert (Hfree : forall mode,
            NMultiFreeData MyRankMPI (MULTI.set_clean_mode ma mode) g FreeElem
            = Ok (ma1, g1) -> NMulti_static esz bs ma1).
  { intros mode Hf. unfold NMultiFreeData in Hf.
    cbn [MULTI.clean_mode MULTI.set_clean_mode MULTI.totalsize MULTI.maxsize
         MULTI.array MULTI.hsize] in Hf.
    match type of Hf with
    | context [if ?c then _ else Ok (_, g)] => destruct c
    end.
    - destruct (MULTI.hsize ma <=? Z.of_nat (length (MULTI.array ma)));
        [|discriminate].
      destruct (map_result (fun a => NMultiFreeDataOnly a FreeElem)
                  (take (Z.to_nat (MULTI.hsize ma)) (MULTI.array ma)))
        as [cleared|] eqn:Hm; [|discriminate].
      cbn [bind] in Hf. injection Hf as <- <-.
      split; [exact Hesz|]. split; [reflexivity|].
      cbn [MULTI.array MULTI.set_clean_mode MULTI.set_numelem
           MULTI.set_totalsize MULTI.set_array MULTI.set_clean_thread].
      apply Forall_app. split.
      + apply (map_result_free_static (fun a => bsize a = bs) FreeElem _ _
                 (fun _ _ _ H => H) Hm).
        apply Forall_take. exact Hbs.
      + apply Forall_drop. exact Hbs.
    - cbn [bind] in Hf. injection Hf as <- <-.
      split; [exact Hesz|]. split; [reflexivity|]. exact Hbs. }
  unfold NMultiSet_critical in Hcrit.
  destruct (local_trigger ma); [exact (Hfree 0 Hcrit)|].
  destruct (global_trigger ma g); [exact (Hfree 1 Hcrit)|].
  injection Hcrit as <- <-. repeat split; assumption.
Qed.

Local Abbreviation bytes_of bb eb :=
  (sum_with (fun es : list (MDATA V) =>
               bucket_bytes bb eb (Z.of_nat (length es)))).
Local Abbreviation count_of :=
  (sum_with (fun es : list (MDATA V) => Z.of_nat (length es))).

(** One [NMultiSet] and the counters.  [bb] are the bytes of a block and
    [eb] those of an entry, as the code computes them. *)
Lemma NMultiSet_accounts (nd N esz bs : Z) (ma : NMULTI) (g : GLOBALS)
    (ess : list (list (MDATA V))) (k : list Z) (d : option V)
    (lock : lock_out) (InitData : init_hook V) (FreeElem : free_hook V)
    (newlock : option LOCK) :
  NMulti_rep nd N ma ess -> NMulti_static esz bs ma ->
  Z.of_nat (length k) = nd -> N + 1 < 2 ^ 31 ->
  MULTI.totalsize ma
  = bytes_of (sint (sizeof_DATA + bs))
      (sint (sizeof_LOCK + sint (esz + 4 * nd))) ess ->
  0 <= count_of ess <= N ->
  exists ma' g' rd rl ess',
    NMultiSet w sizeof_DATA sizeof_LOCK MyRankMPI ma g k d lock InitData
      FreeElem newlock = Ok (ma', g', rd, rl)
    /\ NMulti_rep nd (N + 1) ma' ess' /\ NMulti_static esz bs ma'
    /\ MULTI.totalsize ma'
       = bytes_of (sint (sizeof_DATA + bs))
           (sint (sizeof_LOCK + sint (esz + 4 * nd))) ess'
    /\ 0 <= count_of ess' <= N + 1
    /\ _totalsize g' - MULTI.totalsize ma'
       = _totalsize g - MULTI.totalsize ma
    /\ _overheadsize g' = _overheadsize g
    /\ _maxsize g' = _maxsize g
    /\ MULTI.maxsize ma' = MULTI.maxsize ma
    /\ (fits_int (MULTI.numelem ma) ->
        fits_int (MULTI.numelem ma')
        /\ MULTI.numelem ma'
           = (if local_trigger ma || global_trigger ma g then count_of ess'
              else sint (MULTI.numelem ma + (count_of ess' - count_of ess)))).
Proof using Hw.
  intros Hrep Hstat Hk HN Htot Hcnt.
  destruct (NMultiSet_critical_rep MyRankMPI nd N ma g ess FreeElem Hrep)
    as (ma1 & g1 & Hcrit & Hfire).
  pose proof (NMultiSet_critical_static esz bs ma ma1 g g1 FreeElem Hstat Hcrit)
    as Hstat1.
  set (fired := local_trigger ma || global_trigger ma g) in *.
  set (ess1 := if fired then map (fun _ => @nil (MDATA V)) ess else ess).
  assert (Hzero : forall (f : list (MDATA V) -> Z)
                     (l : list (list (MDATA V))), f [] = 0 ->
            sum_with f (map (fun _ => []) l) = 0).
  { intros f l Hf. apply sum_with_zero.
    induction l; cbn; constructor; auto. }
  assert (H1 : NMulti_rep nd N ma1 ess1
               /\ MULTI.totalsize ma1
                  = bytes_of (sint (sizeof_DATA + bs))
                      (sint (sizeof_LOCK + sint (esz + 4 * nd))) ess1
               /\ 0 <= count_of ess1 <= N
               /\ _totalsize g1 - MULTI.totalsize ma1
                  = _totalsize g - MULTI.totalsize ma
               /\ _overheadsize g1 = _overheadsize g
               /\ _maxsize g1 = _maxsize g
               /\ MULTI.maxsize ma1 = MULTI.maxsize ma
               /\ (if fired then MULTI.numelem ma1 = 0 /\ count_of ess1 = 0
                   else MULTI.numelem ma1 = MULTI.numelem ma
                        /\ count_of ess1 = count_of ess)).
  { unfold ess1. destruct fired.
    - destruct Hfire as (Hr & Ht & Hn & _ & Hm & _ & Hg & Hgm & Ho).
      rewrite !Hzero by reflexivity.
      rewrite Hn.
      split; [exact Hr|]. split; [exact Ht|]. split; [lia|].
      split; [lia|]. split; [exact Ho|]. split; [exact Hgm|].
      split; [exact Hm|].
      split; reflexivity.
    - destruct Hfire as [-> ->].
      split; [exact Hrep|]. split; [exact Htot|]. split; [exact Hcnt|].
      split; [reflexivity|]. split; [reflexivity|]. split; [reflexivity|].
      split; [reflexivity|].
      split; reflexivity. }
  destruct H1 as (Hrep1 & Htot1 & Hcnt1 & Hled1 & Hov1 & Hgm1 & Hm1 & Hnum1).
  destruct (NMultiSet_body_cost nd N ma1 ess1 g1 k d lock InitData newlock
              Hrep1 Hk HN)
    as (h & a & a' & es & ma' & g' & rd & rl & Hes & Hlook & Hbody & Hrep'
        & Harr & Hbs' & Hesz' & Hcm' & Hov' & Hcost).
  destruct (NMultiSet_body_rep w sizeof_DATA sizeof_LOCK Hw nd N ma1 ess1 g1
              k d lock InitData newlock Hrep1 Hk HN)
    as (h2 & es2 & ma2 & g2 & _ & _ & Hbody2 & _ & Hm' & Hgm' & _).
  rewrite Hbody in Hbody2. injection Hbody2 as <- <-.
  destruct Hstat1 as (Hesz1 & Hcm1 & Hbs1).
  pose proof Hrep1 as (_ & _ & Hisz1 & _).
  assert (Hbsa : bsize a = bs).
  { rewrite Forall_lookup in Hbs1. exact (Hbs1 _ _ Hlook). }
  exists ma', g', rd, rl,
    (<[Z.to_nat h := set_entries nd k d InitData newlock es]> ess1).
  split.
  { unfold NMultiSet. rewrite Hcrit. cbn [bind]. exact Hbody. }
  split; [exact Hrep'|].
  split.
  { split; [congruence|]. split; [congruence|].
    rewrite Harr. apply Forall_insert; [exact Hbs1 | congruence]. }
  rewrite !(sum_with_insert _ ess1 (Z.to_nat h) es _ Hes).
  rewrite Hesz1, Hisz1, Hbsa in Hcost.
  destruct (find_key nd k es) as [[t e]|].
  - destruct Hcost as (_ & Hlen & Ht & Hg & Hn).
    rewrite Hlen.
    split; [lia|]. split; [lia|].
    split; [lia|]. split; [congruence|]. split; [congruence|].
    split; [congruence|].
    intros Hfit. rewrite Hn. destruct fired.
    + destruct Hnum1 as [-> Hc0]. unfold fits_int. split; lia.
    + destruct Hnum1 as [-> Hc0]. split; [exact Hfit|].
      transitivity (sint (MULTI.numelem ma));
        [symmetry; apply sint_small; exact Hfit | f_equal; lia].
  - destruct Hcost as (Hlen & Ht & Hg & Hn).
    rewrite Hlen, bucket_bytes_next.
    split; [lia|]. split; [lia|].
    split; [lia|]. split; [congruence|]. split; [congruence|].
    split; [congruence|].
    intros Hfit. rewrite Hn. split; [apply sint_range|]. destruct fired.
    + destruct Hnum1 as [-> Hc0]. rewrite Hc0.
      rewrite sint_small; lia.
    + destruct Hnum1 as [-> Hc0]. f_equal. lia.
Qed.

(** Any sequence of calls and the counters; [ev] tells whether some
    [NMultiSet] flushed. *)
Lemma NMulti_run_accounts (nd esz bs : Z) (FreeElem : free_hook V)
    (cs : list (call V)) :
  forall (N : Z) (ma : NMULTI) (g : GLOBALS) (ess : list (list (MDATA V))),
    NMulti_rep nd N ma ess -> NMulti_static esz bs ma ->
    keys_ok nd cs = true -> N + Z.of_nat (length cs) < 2 ^ 31 ->
    MULTI.totalsize ma
    = bytes_of (sint (sizeof_DATA + bs))
        (sint (sizeof_LOCK + sint (esz + 4 * nd))) ess ->
    0 <= count_of ess <= N ->
    exists ma' g' ev ess',
      NMulti_run w sizeof_DATA sizeof_LOCK MyRankMPI FreeElem ma g cs
      = Ok (ma', g', ev)
      /\ NMulti_rep nd (N + Z.of_nat (length cs)) ma' ess'
      /\ NMulti_static esz bs ma'
      /\ MULTI.totalsize ma'
         = bytes_of (sint (sizeof_DATA + bs))
             (sint (sizeof_LOCK + sint (esz + 4 * nd))) ess'
      /\ 0 <= count_of ess' <= N + Z.of_nat (length cs)
      /\ _totalsize g' - MULTI.totalsize ma'
         = _totalsize g - MULTI.totalsize ma
      /\ _overheadsize g' = _overheadsize g
      /\ (fits_int (MULTI.numelem ma) ->
          fits_int (MULTI.numelem ma')
          /\ MULTI.numelem ma'
             = (if ev then count_of ess'
                else sint (MULTI.numelem ma
                           + (count_of ess' - count_of ess)))).
Proof using Hw.
  induction cs as [|c cs IH];
    intros N ma g ess Hrep Hstat Hkeys HN Htot Hcnt.
  - exists ma, g, false, ess. split; [reflexivity|].
    cbn [length]. rewrite Z.add_0_r.
    split; [exact Hrep|]. split; [exact Hstat|]. split; [exact Htot|].
    split; [exact Hcnt|]. split; [reflexivity|].
    split; [reflexivity|]. intros Hfit. split; [exact Hfit|].
    rewrite Z.sub_diag, Z.add_0_r. symmetry. apply sint_small. exact Hfit.
  - unfold keys_ok in Hkeys. cbn [forallb] in Hkeys.
    apply andb_true_iff in Hkeys as [Hk Hkeys]. fold (keys_ok nd cs) in Hkeys.
    cbn [length] in HN |- *.
    replace (N + Z.of_nat (S (length cs)))
      with (N + 1 + Z.of_nat (length cs)) by lia.
    destruct c as [k d InitData newlock|cache r]; cbn [NMulti_run].
    + apply Z.eqb_eq in Hk.
      destruct (NMultiSet_accounts nd N esz bs ma g ess k d None InitData
                  FreeElem newlock Hrep Hstat Hk ltac:(lia) Htot Hcnt)
        as (ma1 & g1 & rd & rl & ess1 & Hset & Hrep1 & Hstat1 & Htot1 & Hcnt1
            & Hled1 & Hov1 & _ & _ & Hnum1).
      rewrite Hset. cbn [bind].
      destruct (IH (N + 1) ma1 g1 ess1 Hrep1 Hstat1 Hkeys ltac:(lia) Htot1
                  Hcnt1)
        as (ma2 & g2 & ev & ess2 & Hrun & Hrep2 & Hstat2 & Htot2 & Hcnt2
            & Hled2 & Hov2 & Hnum2).
      rewrite Hrun. cbn [bind].
      eexists _, _, _, ess2. split; [reflexivity|].
      split; [exact Hrep2|]. split; [exact Hstat2|]. split; [exact Htot2|].
      split; [exact Hcnt2|]. split; [lia|].
      split; [congruence|].
      intros Hfit. destruct (Hnum1 Hfit) as [Hfit1 Hn1].
      destruct (Hnum2 Hfit1) as [Hfit2 Hn2]. split; [exact Hfit2|].
      rewrite Hn2, Hn1.
      destruct ev; [rewrite orb_true_r; reflexivity|].
      rewrite orb_false_r.
      destruct (local_trigger ma || global_trigger ma g).
      * replace (sum_with (fun es => Z.of_nat (length es)) ess1
                 + (sum_with (fun es => Z.of_nat (length es)) ess2
                    - sum_with (fun es => Z.of_nat (length es)) ess1))
          with (sum_with (fun es : list (MDATA V) => Z.of_nat (length es))
                  ess2) by lia.
        apply sint_small. lia.
      * rewrite sint_add_l. f_equal. lia.
    + assert (Hweak : forall ma0 : NMULTI,
                NMulti_rep nd N ma0 ess -> NMulti_rep nd (N + 1) ma0 ess).
      { intros ma0. apply NMulti_rep_weaken. lia. }
      destruct cache.
      * destruct (IH (N + 1) (MULTI.set_maxsize ma r) g ess)
          as (ma2 & g2 & ev & ess2 & Hrun & Hrest); try assumption; try lia.
        { apply Hweak. exact Hrep. }
        exists ma2, g2, ev, ess2. split; [exact Hrun|]. exact Hrest.
      * destruct (IH (N + 1) ma
                    (mkGLOBALS r (_totalsize g) (_overheadsize g)) ess)
          as (ma2 & g2 & ev & ess2 & Hrun & Hrest); try assumption; try lia.
        { apply Hweak. exact Hrep. }
        exists ma2, g2, ev, ess2. split; [exact Hrun|]. exact Hrest.
Qed.

(** The sums over the entries are the sums over the lengths of the
    buckets. *)
Lemma sum_with_rep (nd N : Z) (ma : NMULTI) (ess : list (list (MDATA V)))
    (f : Z -> Z) :
  NMulti_rep nd N ma ess ->
  sum_with (fun es : list (MDATA V) => f (Z.of_nat (length es))) ess
  = sum_with (fun a : ARRAY (MDATA V) => f (dim a)) (MULTI.array ma).
Proof using Type.
  intros (_ & _ & _ & _ & _ & Hbk & _).
  induction Hbk as [|a es tbl ess Hb _ IH]; [reflexivity|].
  cbn [sum_with fold_right].
  fold (sum_with (fun es : list (MDATA V) => f (Z.of_nat (length es))) ess).
  fold (sum_with (fun a : ARRAY (MDATA V) => f (dim a)) tbl).
  destruct Hb as (_ & [Hdim _] & _). rewrite IH, Hdim. reflexivity.
Qed.

(** [NMultiFreeData] in the mode [NMultiInit] and every flush leave. *)
Lemma NMultiFreeData_default (nd N : Z) (ma : NMULTI) (g : GLOBALS)
    (ess : list (list (MDATA V))) (FreeElem : free_hook V) :
  NMulti_rep nd N ma ess -> MULTI.clean_mode ma = -1 ->
  0 <= MULTI.totalsize ma ->
  exists ma1 g1,
    NMultiFreeData MyRankMPI ma g FreeElem = Ok (ma1, g1)
    /\ MULTI.ndim ma1 = nd
    /\ MULTI.totalsize ma1 = 0
    /\ MULTI.overheadsize ma1 = MULTI.overheadsize ma
    /\ _totalsize g1 = _totalsize g - MULTI.totalsize ma
    /\ _overheadsize g1 = _overheadsize g.
Proof using Type.
  intros (Hnd & Hndim & Hisz & Hhs & Hhm & Hbk & Hlen) Hmode Htot.
  unfold NMultiFreeData. rewrite Hmode. cbn [Z.eqb].
  destruct (MULTI.totalsize ma <=? 0) eqn:Hle.
  - apply Z.leb_le in Hle. cbn [negb bind].
    eexists _, _. split; [reflexivity|]. cbn.
    split; [exact Hndim|]. split; [lia|]. split; [reflexivity|].
    split; [lia|]. reflexivity.
  - cbn [negb].
    pose proof (Forall2_length _ _ _ Hbk) as Hlen2.
    test_is (MULTI.hsize ma <=? Z.of_nat (length (MULTI.array ma))) true.
    destruct (map_result_rep nd N _ _ FreeElem
                (Forall2_take _ _ _ (Z.to_nat (MULTI.hsize ma)) Hbk))
      as (tbl' & Htbl' & _).
    rewrite Htbl'. cbn [bind].
    eexists _, _. split; [reflexivity|]. cbn.
    split; [exact Hndim|]. split; [reflexivity|]. split; [reflexivity|].
    split; reflexivity.
Qed.

End NMultiCostFacts.

(** [NMultiInit] and the counters. *)
Lemma NMultiInit_static {V ARR : Type} (w sizeof_MDATA sizeof_ARRAY : Z)
    (ma0 : MULTI ARR unit unit) (g0 : GLOBALS) (esz nd : Z) (blocks : list Z)
    (lk alk : option LOCK) (ma : MULTI (list (ARRAY (MDATA V))) unit unit)
    (g : GLOBALS) :
  NMultiInit w sizeof_MDATA sizeof_ARRAY ma0 g0 esz nd blocks lk alk
  = Ok (ma, g) ->
  NMulti_static esz (sint (sizeof_MDATA * 8)) ma
  /\ MULTI.numelem ma = MULTI.numelem ma0
  /\ MULTI.totalsize ma = 0
  /\ _totalsize g = _totalsize g0
  /\ exists hs,
       HashSize w nd = Ok hs
       /\ _overheadsize g
          = _overheadsize g0 + sint (2 * nd) + sizeof_ARRAY * sint hs
       /\ MULTI.overheadsize ma
          = MULTI.overheadsize ma0 + sint (2 * nd) + sizeof_ARRAY * sint hs.
Proof.
  unfold NMultiInit. intros H.
  destruct (HashSize w nd) as [hs|]; [|discriminate]. cbn [bind] in H.
  destruct ((0 <=? sizeof_ARRAY * sint hs) && (sizeof_ARRAY * sint hs <? 2 ^ 31));
    [|discriminate].
  injection H as <- <-. cbn.
  split.
  { split; [reflexivity|]. split; [reflexivity|].
    apply Forall_forall. intros a Ha.
    apply list_elem_of_In, repeat_spec in Ha. subst a. reflexivity. }
  repeat (split; [reflexivity|]).
  exists hs. repeat split; reflexivity.
Qed.
(** The counters in every state reached from [NMultiInit]. *)
Lemma NMulti_start_accounts {V : Type} {rawV : Raw V} {ARR : Type}
    (w sizeof_DATA sizeof_LOCK sizeof_MDATA sizeof_ARRAY MyRankMPI : Z)
    (FreeElem : free_hook V) (ma0 : MULTI ARR unit unit) (g0 : GLOBALS)
    (esize ndim : Z) (block : list Z) (lk alk : option LOCK)
    (cs : list (call V)) :
  31 <= w -> 0 <= ndim <= 29 ->
  0 <= sizeof_ARRAY * 2 ^ (ndim / 2 + 16) < 2 ^ 31 ->
  keys_ok ndim cs = true -> Z.of_nat (length cs) < 2 ^ 31 ->
  exists ma g ev ess,
    NMulti_start w sizeof_DATA sizeof_LOCK sizeof_MDATA sizeof_ARRAY
      MyRankMPI FreeElem ma0 g0 esize ndim block lk alk cs
    = Ok (ma, g, ev)
    /\ NMulti_rep ndim (Z.of_nat (length cs)) ma ess
    /\ MULTI.clean_mode ma = -1
    /\ MULTI.totalsize ma
       = sum_with
           (fun a => bucket_bytes
                       (sint (sizeof_DATA + sint (sizeof_MDATA * 8)))
                       (sint (sizeof_LOCK + sint (esize + 4 * ndim)))
                       (dim a))
           (MULTI.array ma)
    /\ 0 <= sum_with dim (MULTI.array ma)
    /\ Forall (fun a => 0 <= dim a) (MULTI.array ma)
    /\ _totalsize g = _totalsize g0 + MULTI.totalsize ma
    /\ _overheadsize g
       = _overheadsize g0 + sint (2 * ndim)
         + sizeof_ARRAY * 2 ^ (ndim / 2 + 16)
    /\ (fits_int (MULTI.numelem ma0) ->
        MULTI.numelem ma
        = (if ev then sum_with dim (MULTI.array ma)
           else sint (MULTI.numelem ma0 + sum_with dim (MULTI.array ma)))).
Proof.
  intros Hw Hnd Hsz Hkeys Hlen.
  destruct (NMultiInit_rep (V := V) w sizeof_MDATA sizeof_ARRAY Hw ma0 g0
              esize ndim block lk alk Hnd Hsz)
    as (ma1 & g1 & Hinit & Hrep1 & _).
  destruct (NMultiInit_static w sizeof_MDATA sizeof_ARRAY ma0 g0 esize ndim
              block lk alk ma1 g1 Hinit)
    as (Hstat1 & Hnum1 & Htot1 & Hg1 & hs & Hhs & Hov1 & _).
  destruct (HashSize_value w ndim Hnd Hw) as [Hhv Hrange].
  rewrite Hhv in Hhs. injection Hhs as <-.
  assert (Hpow : 0 < 2 ^ (ndim / 2 + 16) <= 2 ^ 30).
  { split; [apply Z.pow_pos_nonneg; lia|].
    apply Z.pow_le_mono_r; lia. }
  rewrite (sint_small (2 ^ (ndim / 2 + 16))) in Hov1 by lia.
  assert (Hz : forall (f : Z -> Z) (n : nat), f 0 = 0 ->
             sum_with (fun es : list (MDATA V) => f (Z.of_nat (length es)))
               (repeat [] n) = 0).
  { intros f n Hf. apply sum_with_zero. apply Forall_forall.
    intros es Hes. apply list_elem_of_In, repeat_spec in Hes. subst es.
    exact Hf. }
  destruct (NMulti_run_accounts w sizeof_DATA sizeof_LOCK MyRankMPI Hw ndim
              esize (sint (sizeof_MDATA * 8)) FreeElem cs 0 ma1 g1 _
              Hrep1 Hstat1 Hkeys)
    as (ma & g & ev & ess & Hrun & Hrep & Hstat & Htot & Hcnt & Hled & Hov
        & Hnum).
  { lia. }
  { rewrite Htot1. symmetry.
    apply (Hz (bucket_bytes _ _)). reflexivity. }
  { rewrite (Hz (fun n => n)) by reflexivity. lia. }
  cbn [Z.add] in Hrep, Hcnt.
  exists ma, g, ev, ess.
  split; [unfold NMulti_start; rewrite Hinit; cbn [bind]; exact Hrun|].
  split; [exact Hrep|].
  split; [apply Hstat|].
  rewrite (sum_with_rep ndim _ ma ess (bucket_bytes _ _) Hrep) in Htot.
  rewrite (sum_with_rep ndim _ ma ess (fun n => n) Hrep) in Hcnt, Hnum.
  split; [exact Htot|]. split; [exact (proj1 Hcnt)|].
  split.
  { destruct Hrep as (_ & _ & _ & _ & _ & Hbk & _).
    clear - Hbk. induction Hbk as [|a es tbl ess Hb _ IH]; constructor;
      [|exact IH].
    destruct Hb as (_ & [Hdim _] & _). lia. }
  split; [lia|]. split; [lia|].
  intros Hfit. rewrite <- Hnum1 in Hfit.
  destruct (Hnum Hfit) as [_ Hn]. rewrite Hn, Hnum1.
  rewrite (Hz (fun n => n)) by reflexivity.
  rewrite Z.sub_0_r. reflexivity.
Qed.

(** The state reached from [NMultiInit] keeps what [NMultiInit] fixed. *)
Lemma NMulti_start_static {V : Type} {rawV : Raw V} {ARR : Type}
    (w sizeof_DATA sizeof_LOCK sizeof_MDATA sizeof_ARRAY MyRankMPI : Z)
    (FreeElem : free_hook V) (ma0 : MULTI ARR unit unit) (g0 : GLOBALS)
    (esize ndim : Z) (block : list Z) (lk alk : option LOCK)
    (cs : list (call V)) :
  31 <= w -> 0 <= ndim <= 29 ->
  0 <= sizeof_ARRAY * 2 ^ (ndim / 2 + 16) < 2 ^ 31 ->
  keys_ok ndim cs = true -> Z.of_nat (length cs) < 2 ^ 31 ->
  exists ma g ev ess,
    NMulti_start w sizeof_DATA sizeof_LOCK sizeof_MDATA sizeof_ARRAY
      MyRankMPI FreeElem ma0 g0 esize ndim block lk alk cs
    = Ok (ma, g, ev)
    /\ NMulti_rep ndim (Z.of_nat (length cs)) ma ess
    /\ NMulti_static esize (sint (sizeof_MDATA * 8)) ma.
Proof.
  intros Hw Hnd Hsz Hkeys Hlen.
  destruct (NMultiInit_rep (V := V) w sizeof_MDATA sizeof_ARRAY Hw ma0 g0
              esize ndim block lk alk Hnd Hsz)
    as (ma1 & g1 & Hinit & Hrep1 & _).
  destruct (NMultiInit_static w sizeof_MDATA sizeof_ARRAY ma0 g0 esize ndim
              block lk alk ma1 g1 Hinit)
    as (Hstat1 & _ & Htot1 & _).
  assert (Hz : forall (f : Z -> Z) (n : nat), f 0 = 0 ->
             sum_with (fun es : list (MDATA V) => f (Z.of_nat (length es)))
               (repeat [] n) = 0).
  { intros f n Hf. apply sum_with_zero. apply Forall_forall.
    intros es Hes. apply list_elem_of_In, repeat_spec in Hes. subst es.
    exact Hf. }
  destruct (NMulti_run_accounts w sizeof_DATA sizeof_LOCK MyRankMPI Hw ndim
              esize (sint (sizeof_MDATA * 8)) FreeElem cs 0 ma1 g1 _
              Hrep1 Hstat1 Hkeys)
    as (ma & g & ev & ess & Hrun & Hrep & Hstat & _).
  { lia. }
  { rewrite Htot1. symmetry.
    apply (Hz (bucket_bytes _ _)). reflexivity. }
  { rewrite (Hz (fun n => n)) by reflexivity. lia. }
  cbn [Z.add] in Hrep.
  exists ma, g, ev, ess.
  split; [unfold NMulti_start; rewrite Hinit; cbn [bind]; exact Hrun|].
  split; [exact Hrep | exact Hstat].
Qed.

(** X10.  The global trigger.  In every state reached from [NMultiInit] by
    [Set] and [LimitMultiSize] calls in which the local budget has not
    been reached: when the global budget is positive, the global total has
    reached it and the array holds more than a tenth of the global total,
    the next [NMultiSet] flushes the array before it inserts its key, so
    the array then holds that key alone, its total is the bytes of one
    block of 8 entries plus those of one entry, and the global total has
    gone down by the total the array had and up by these bytes; when one
    of the three conditions fails, it flushes nothing and every other key
    reads as before. *)
Theorem NMulti_global_trigger {V : Type} {rawV : Raw V} {ARR : Type}
    (w sizeof_DATA sizeof_LOCK sizeof_MDATA sizeof_ARRAY MyRankMPI : Z)
    (FreeElem : free_hook V) (ma0 : MULTI ARR unit unit) (g0 : GLOBALS)
    (esize ndim : Z) (block : list Z) (lk alk : option LOCK)
    (cs : list (call V)) (k : list Z) (d : option V) (lock : lock_out)
    (InitData : init_hook V) (newlock : option LOCK) :
  31 <= w -> 0 <= ndim <= 29 ->
  0 <= sizeof_ARRAY * 2 ^ (ndim / 2 + 16) < 2 ^ 31 ->
  keys_ok ndim cs = true -> Z.of_nat (length cs) + 1 < 2 ^ 31 ->
  Z.of_nat (length k) = ndim ->
  exists ma g ev,
    NMulti_start w sizeof_DATA sizeof_LOCK sizeof_MDATA sizeof_ARRAY
      MyRankMPI FreeElem ma0 g0 esize ndim block lk alk cs
    = Ok (ma, g, ev)
    /\ (((MULTI.maxsize ma <= 0)%Q
         \/ (inject_Z (MULTI.totalsize ma) < MULTI.maxsize ma)%Q) ->
        ((0 < _maxsize g)%Q ->
         (_maxsize g <= inject_Z (_totalsize g))%Q ->
         ((1 # 10) * inject_Z (_totalsize g)
          < inject_Z (MULTI.totalsize ma))%Q ->
         exists ma' g',
           NMultiSet w sizeof_DATA sizeof_LOCK MyRankMPI ma g k d lock
             InitData FreeElem newlock
           = Ok (ma', g', MDATA.data (fresh_entry k d InitData newlock),
                 write_lock lock newlock)
           /\ (forall k' lock', Z.of_nat (length k') = ndim -> k' <> k ->
                 NMultiGet w ma' k' lock' = Ok (None, lock'))
           /\ MULTI.totalsize ma'
              = sint (sizeof_DATA + sint (sizeof_MDATA * 8))
                + sint (sizeof_LOCK + sint (esize + 4 * ndim))
           /\ _totalsize g'
              = _totalsize g - MULTI.totalsize ma + MULTI.totalsize ma')
        /\ (((_maxsize g <= 0)%Q
             \/ (inject_Z (_totalsize g) < _maxsize g)%Q
             \/ (inject_Z (MULTI.totalsize ma)
                 <= (1 # 10) * inject_Z (_totalsize g))%Q) ->
            exists ma' g' rd rl,
              NMultiSet w sizeof_DATA sizeof_LOCK MyRankMPI ma g k d lock
                InitData FreeElem newlock
              = Ok (ma', g', rd, rl)
              /\ forall k' lock', Z.of_nat (length k') = ndim -> k' <> k ->
                   NMultiGet w ma' k' lock' = NMultiGet w ma k' lock')).
Proof.
  intros Hw Hnd Hsz Hkeys Hlen Hk.
  destruct (NMulti_start_static w sizeof_DATA sizeof_LOCK sizeof_MDATA
              sizeof_ARRAY MyRankMPI FreeElem ma0 g0 esize ndim block
              lk alk cs Hw Hnd Hsz Hkeys)
    as (ma & g & ev & ess & Hstart & Hrep & Hstat); [lia|].
  exists ma, g, ev. split; [exact Hstart|].
  intros Hlocal.
  assert (Hloc : local_trigger ma = false).
  { unfold local_trigger. apply andb_false_iff.
    destruct Hlocal as [Hle|Hlt].
    - left. apply Qltb_false. exact Hle.
    - right. destruct (Qle_bool (MULTI.maxsize ma)
                         (inject_Z (MULTI.totalsize ma))) eqn:E;
        [|reflexivity].
      apply Qle_bool_iff in E. exfalso. exact (Qlt_not_le _ _ Hlt E). }
  destruct (NMultiSet_rep w sizeof_DATA sizeof_LOCK MyRankMPI Hw ndim _ ma g
              ess k d lock InitData FreeElem newlock Hrep Hk)
    as (ma1 & g1 & ess1 & ma' & g' & ess' & Hcrit & Hfire & Hrep1 & Hbody
        & Hset & Hrep' & Hentry & _ & _ & _ & Hcount); [lia|].
  rewrite Hloc in Hfire. cbn [orb] in Hfire.
  split.
  - intros Hpos Hreach Hshare.
    assert (Hglob : global_trigger ma g = true).
    { unfold global_trigger. rewrite !andb_true_iff.
      split; [split|].
      - apply Qltb_true. exact Hpos.
      - apply Qle_bool_iff. exact Hreach.
      - apply Qltb_true. exact Hshare. }
    rewrite Hglob in Hfire. destruct Hfire as [Hflush ->].
    rewrite entry_of_flushed in Hset, Hentry, Hbody.
    cbn [entry_set] in Hset, Hentry, Hbody.
    pose proof Hflush as (_ & Ht1 & _ & _ & _ & _ & Hg1 & _).
    pose proof (NMultiSet_critical_static MyRankMPI esize
                  (sint (sizeof_MDATA * 8)) ma ma1 g g1 FreeElem Hstat Hcrit)
      as (Hesz1 & _ & Hbs1).
    pose proof Hrep1 as (_ & _ & Hisz1 & _).
    destruct (NMultiSet_body_cost w sizeof_DATA sizeof_LOCK Hw ndim _ ma1 _ g1
                k d lock InitData newlock Hrep1 Hk)
      as (h & a & a' & es & ma2 & g2 & rd & rl & Hes & Hlook & Hbody2 & _ & _
          & _ & _ & _ & _ & Hcost); [lia|].
    rewrite Hbody in Hbody2. injection Hbody2 as <- <- _ _.
    rewrite list_lookup_fmap in Hes.
    destruct (ess !! Z.to_nat h) as [es0|]; [|discriminate].
    injection Hes as <-.
    change (find_key ndim k (@nil (MDATA V))) with (@None (nat * MDATA V))
      in Hcost.
    change ((length (@nil (MDATA V)) mod 8 =? 0)%nat) with true in Hcost.
    cbv iota in Hcost.
    destruct Hcost as (_ & Htot & Hled & _).
    assert (Hbsa : bsize a = sint (sizeof_MDATA * 8)).
    { rewrite Forall_lookup in Hbs1. exact (Hbs1 _ _ Hlook). }
    rewrite Hesz1, Hisz1, Hbsa, Ht1 in Htot.
    rewrite Hesz1, Hisz1, Hbsa, Hg1 in Hled.
    exists ma', g'. split; [exact Hset|].
    split.
    { intros k' lock' Hk' Hne.
      rewrite (NMultiGet_entry w Hw ndim _ ma' ess' k' lock' Hrep' Hk').
      rewrite (Hentry k' Hk'), decide_False by exact Hne.
      rewrite entry_of_flushed. reflexivity. }
    split; [rewrite Htot; lia | rewrite Hled, Htot; lia].
  - intros Hquiet.
    assert (Hglob : global_trigger ma g = false).
    { unfold global_trigger. rewrite !andb_false_iff.
      destruct Hquiet as [H1|[H2|H3]].
      - left. left. apply Qltb_false. exact H1.
      - left. right.
        destruct (Qle_bool (_maxsize g) (inject_Z (_totalsize g))) eqn:E;
          [|reflexivity].
        apply Qle_bool_iff in E. exfalso. exact (Qlt_not_le _ _ H2 E).
      - right. apply Qltb_false. exact H3. }
    rewrite Hglob in Hfire. destruct Hfire as (-> & -> & ->).
    eexists ma', g', _, _. split; [exact Hset|].
    intros k' lock' Hk' Hne.
    rewrite (NMultiGet_entry w Hw ndim _ ma' ess' k' lock' Hrep' Hk').
    rewrite (NMultiGet_entry w Hw ndim _ ma ess k' lock' Hrep Hk').
    rewrite (Hentry k' Hk'), decide_False by exact Hne. reflexivity.
Qed.

(** A global budget of one byte and one entry set: the next [Set]
    flushes. *)
Lemma NMulti_global_trigger_witness :
  31 <= 64 /\ 0 <= 2 <= 29 /\ 0 <= 32 * 2 ^ (2 / 2 + 16) < 2 ^ 31
  /\ keys_ok 2 [CallLimit false 1; CallSet [1; 2] (Some 70) None None] = true
  /\ Z.of_nat (length [CallLimit (V := Z) false 1;
                       CallSet [1; 2] (Some 70) None None]) + 1 < 2 ^ 31
  /\ Z.of_nat (length [5; 2]) = 2
  /\ exists ma g ev ma' g' l,
       NMulti_start (rawV := 0) 64 16 40 24 32 0 None (blank_MULTI 0)
         fresh_GLOBALS 8 2 [4; 4] None None
         [CallLimit false 1; CallSet [1; 2] (Some 70) None None]
       = Ok (ma, g, ev)
       /\ (MULTI.maxsize ma <= 0)%Q
       /\ (0 < _maxsize g)%Q
       /\ (_maxsize g <= inject_Z (_totalsize g))%Q
       /\ ((1 # 10) * inject_Z (_totalsize g)
           < inject_Z (MULTI.totalsize ma))%Q
       /\ NMultiSet (rawV := 0) 64 16 40 0 ma g [5; 2] (Some 90) None
            None None None
          = Ok (ma', g', Some 90, l)
       /\ NMultiGet 64 ma' [1; 2] None = Ok (None, None).
Proof.
  assert (H1 : 31 <= 64) by lia.
  assert (H2 : 0 <= 2 <= 29) by lia.
  assert (H3 : 0 <= 32 * 2 ^ (2 / 2 + 16) < 2 ^ 31)
    by (vm_compute; split; [discriminate | reflexivity]).
  assert (H4 : keys_ok 2 [CallLimit (V := Z) false 1;
                          CallSet [1; 2] (Some 70) None None] = true)
    by reflexivity.
  assert (H5 : Z.of_nat (length [CallLimit (V := Z) false 1;
                                 CallSet [1; 2] (Some 70) None None]) + 1
               < 2 ^ 31) by (vm_compute; reflexivity).
  assert (H6 : Z.of_nat (length [5; 2]) = 2) by reflexivity.
  split; [exact H1|]. split; [exact H2|]. split; [exact H3|].
  split; [exact H4|]. split; [exact H5|]. split; [exact H6|].
  destruct (NMulti_global_trigger (rawV := 0) 64 16 40 24 32 0 None
              (blank_MULTI 0) fresh_GLOBALS 8 2 [4; 4] None None
              [CallLimit false 1; CallSet [1; 2] (Some 70) None None]
              [5; 2] (Some 90) None None None H1 H2 H3 H4 H5 H6)
    as (ma & g & ev & Hstart & Hstep).
  assert (Hc : match NMulti_start (rawV := 0) 64 16 40 24 32 0 None
                       (blank_MULTI 0) fresh_GLOBALS 8 2 [4; 4] None None
                       [CallLimit false 1; CallSet [1; 2] (Some 70) None None]
               with
               | Ok (m, g, _) =>
                   Qle_bool (MULTI.maxsize m) 0 && global_trigger m g
               | Undefined => false
               end = true) by (vm_compute; reflexivity).
  rewrite Hstart in Hc. unfold global_trigger in Hc.
  rewrite !andb_true_iff in Hc. destruct Hc as (Hc0 & (Hc1 & Hc2) & Hc3).
  apply Qle_bool_iff in Hc0. apply Qltb_true in Hc1.
  apply Qle_bool_iff in Hc2. apply Qltb_true in Hc3.
  destruct (Hstep (or_introl Hc0)) as [Hflush _].
  destruct (Hflush Hc1 Hc2 Hc3) as (ma' & g' & Hset & Hother & _).
  exists ma, g, ev, ma', g', None.
  split; [exact Hstart|]. split; [exact Hc0|]. split; [exact Hc1|].
  split; [exact Hc2|]. split; [exact Hc3|]. split; [exact Hset|].
  apply Hother; [reflexivity | discriminate].
Defined.

(** X12.  The two ledgers.  In every state reached from [NMultiInit] by [Set]
    and [LimitMultiSize] calls, flushes included, the global total has
    grown by exactly the total of the array, and the global overhead by
    the two allocations of [NMultiInit]: the [block] array of
    [2 * ndim] bytes and the table of [2^(ndim/2 + 16)] [ARRAY]
    headers.  No later call touches the overhead. *)
Theorem NMulti_ledger_balance {V : Type} {rawV : Raw V} {ARR : Type}
    (w sizeof_DATA sizeof_LOCK sizeof_MDATA sizeof_ARRAY MyRankMPI : Z)
    (FreeElem : free_hook V) (ma0 : MULTI ARR unit unit) (g0 : GLOBALS)
    (esize ndim : Z) (block : list Z) (lk alk : option LOCK)
    (cs : list (call V)) :
  31 <= w -> 0 <= ndim <= 29 ->
  0 <= sizeof_ARRAY * 2 ^ (ndim / 2 + 16) < 2 ^ 31 ->
  keys_ok ndim cs = true -> Z.of_nat (length cs) < 2 ^ 31 ->
  exists ma g ev,
    NMulti_start w sizeof_DATA sizeof_LOCK sizeof_MDATA sizeof_ARRAY
      MyRankMPI FreeElem ma0 g0 esize ndim block lk alk cs
    = Ok (ma, g, ev)
    /\ _totalsize g = _totalsize g0 + MULTI.totalsize ma
    /\ _overheadsize g
       = _overheadsize g0 + sint (2 * ndim)
         + sizeof_ARRAY * 2 ^ (ndim / 2 + 16).
Proof.
  intros Hw Hnd Hsz Hkeys Hlen.
  destruct (NMulti_start_accounts w sizeof_DATA sizeof_LOCK sizeof_MDATA
              sizeof_ARRAY MyRankMPI FreeElem ma0 g0 esize ndim block lk alk
              cs Hw Hnd Hsz Hkeys Hlen)
    as (ma & g & ev & ess & Hstart & _ & _ & _ & _ & _ & Hled & Hov & _).
  exists ma, g, ev. split; [exact Hstart|]. split; [exact Hled | exact Hov].
Qed.

(** X13.  The total of a hash-sparse array is a function of its bucket
    lengths.  In every state reached from [NMultiInit] by [Set] and
    [LimitMultiSize] calls, [ma->totalsize] is the sum over the buckets
    of [sizeof(DATA) + 8 * sizeof(MDATA)] for every block of 8 entries
    started plus [sizeof(LOCK) + esize + 4 * ndim] for every entry, each
    sum wrapped to an int as the code computes it.  The [sizeof(LOCK)] is
    counted for entries without a lock too, and overwriting a key adds
    nothing. *)
Theorem NMulti_totalsize_formula {V : Type} {rawV : Raw V} {ARR : Type}
    (w sizeof_DATA sizeof_LOCK sizeof_MDATA sizeof_ARRAY MyRankMPI : Z)
    (FreeElem : free_hook V) (ma0 : MULTI ARR unit unit) (g0 : GLOBALS)
    (esize ndim : Z) (block : list Z) (lk alk : option LOCK)
    (cs : list (call V)) :
  31 <= w -> 0 <= ndim <= 29 ->
  0 <= sizeof_ARRAY * 2 ^ (ndim / 2 + 16) < 2 ^ 31 ->
  keys_ok ndim cs = true -> Z.of_nat (length cs) < 2 ^ 31 ->
  exists ma g ev,
    NMulti_start w sizeof_DATA sizeof_LOCK sizeof_MDATA sizeof_ARRAY
      MyRankMPI FreeElem ma0 g0 esize ndim block lk alk cs
    = Ok (ma, g, ev)
    /\ MULTI.totalsize ma
       = sum_with
           (fun a => bucket_bytes
                       (sint (sizeof_DATA + sint (sizeof_MDATA * 8)))
                       (sint (sizeof_LOCK + sint (esize + 4 * ndim)))
                       (dim a))
           (MULTI.array ma).
Proof.
  intros Hw Hnd Hsz Hkeys Hlen.
  destruct (NMulti_start_accounts w sizeof_DATA sizeof_LOCK sizeof_MDATA
              sizeof_ARRAY MyRankMPI FreeElem ma0 g0 esize ndim block lk alk
              cs Hw Hnd Hsz Hkeys Hlen)
    as (ma & g & ev & ess & Hstart & _ & _ & Htot & _).
  exists ma, g, ev. split; [exact Hstart | exact Htot].
Qed.

(** X14.  The element counter.  [NMultiInit] does not set [ma->numelem]; only
    a flush zeroes it.  So in a state reached from [NMultiInit] by [Set]
    and [LimitMultiSize] calls, [numelem] is the number of entries in the
    buckets if some [NMultiSet] has flushed, and otherwise that number
    plus whatever the struct held before [NMultiInit]. *)
Theorem NMulti_numelem_counts {V : Type} {rawV : Raw V} {ARR : Type}
    (w sizeof_DATA sizeof_LOCK sizeof_MDATA sizeof_ARRAY MyRankMPI : Z)
    (FreeElem : free_hook V) (ma0 : MULTI ARR unit unit) (g0 : GLOBALS)
    (esize ndim : Z) (block : list Z) (lk alk : option LOCK)
    (cs : list (call V)) :
  31 <= w -> 0 <= ndim <= 29 ->
  0 <= sizeof_ARRAY * 2 ^ (ndim / 2 + 16) < 2 ^ 31 ->
  keys_ok ndim cs = true -> Z.of_nat (length cs) < 2 ^ 31 ->
  fits_int (MULTI.numelem ma0) ->
  exists ma g ev,
    NMulti_start w sizeof_DATA sizeof_LOCK sizeof_MDATA sizeof_ARRAY
      MyRankMPI FreeElem ma0 g0 esize ndim block lk alk cs
    = Ok (ma, g, ev)
    /\ MULTI.numelem ma
       = (if ev then sum_with dim (MULTI.array ma)
          else sint (MULTI.numelem ma0 + sum_with dim (MULTI.array ma))).
Proof.
  intros Hw Hnd Hsz Hkeys Hlen Hfit.
  destruct (NMulti_start_accounts w sizeof_DATA sizeof_LOCK sizeof_MDATA
              sizeof_ARRAY MyRankMPI FreeElem ma0 g0 esize ndim block lk alk
              cs Hw Hnd Hsz Hkeys Hlen)
    as (ma & g & ev & ess & Hstart & _ & _ & _ & _ & _ & _ & _ & Hnum).
  exists ma, g, ev. split; [exact Hstart | exact (Hnum Hfit)].
Qed.

(** X15.  [NMultiFree] of an array of at least one dimension, in any state
    reached from [NMultiInit] by [Set] and [LimitMultiSize] calls, when
    the two byte counts of [NMultiSet] are not negative.  It takes the
    total of the array off the global total, which is back at its value
    before [NMultiInit]; it frees the table and sets [ndim] to 0, so a
    second [NMultiFree] does nothing.  It does not give the overhead
    back: the global overhead keeps the bytes [NMultiInit] added. *)
Theorem NMultiFree_ledger {V : Type} {rawV : Raw V} {ARR : Type}
    (w sizeof_DATA sizeof_LOCK sizeof_MDATA sizeof_ARRAY MyRankMPI : Z)
    (FreeElem : free_hook V) (ma0 : MULTI ARR unit unit) (g0 : GLOBALS)
    (esize ndim : Z) (block : list Z) (lk alk : option LOCK)
    (cs : list (call V)) :
  31 <= w -> 0 < ndim <= 29 ->
  0 <= sizeof_ARRAY * 2 ^ (ndim / 2 + 16) < 2 ^ 31 ->
  0 <= sint (sizeof_DATA + sint (sizeof_MDATA * 8)) ->
  0 <= sint (sizeof_LOCK + sint (esize + 4 * ndim)) ->
  keys_ok ndim cs = true -> Z.of_nat (length cs) < 2 ^ 31 ->
  exists ma g ev ma' g',
    NMulti_start w sizeof_DATA sizeof_LOCK sizeof_MDATA sizeof_ARRAY
      MyRankMPI FreeElem ma0 g0 esize ndim block lk alk cs
    = Ok (ma, g, ev)
    /\ NMultiFree MyRankMPI ma g FreeElem = Ok (ma', g')
    /\ MULTI.ndim ma' = 0 /\ MULTI.array ma' = []
    /\ MULTI.totalsize ma' = 0
    /\ _totalsize g' = _totalsize g0
    /\ _overheadsize g'
       = _overheadsize g0 + sint (2 * ndim)
         + sizeof_ARRAY * 2 ^ (ndim / 2 + 16)
    /\ NMultiFree MyRankMPI ma' g' FreeElem = Ok (ma', g').
Proof.
  intros Hw Hnd Hsz Hbb Heb Hkeys Hlen.
  destruct (NMulti_start_accounts w sizeof_DATA sizeof_LOCK sizeof_MDATA
              sizeof_ARRAY MyRankMPI FreeElem ma0 g0 esize ndim block lk alk
              cs Hw ltac:(lia) Hsz Hkeys Hlen)
    as (ma & g & ev & ess & Hstart & Hrep & Hmode & Htot & _ & Hdims & Hled
        & Hov & _).
  assert (Hpos : 0 <= MULTI.totalsize ma).
  { rewrite Htot. clear - Hdims Hbb Heb.
    induction Hdims as [|a tbl Ha _ IH]; [cbn; lia|].
    cbn [sum_with fold_right].
    apply Z.add_nonneg_nonneg; [|exact IH].
    unfold bucket_bytes. cbv beta in Ha.
    assert (Hq : 0 <= (dim a + 7) / 8) by (apply Z.div_pos; lia).
    pose proof (Z.mul_nonneg_nonneg _ _ Hq Hbb).
    pose proof (Z.mul_nonneg_nonneg _ _ Ha Heb).
    lia. }
  destruct (NMultiFreeData_default MyRankMPI ndim _ ma g ess FreeElem Hrep
              Hmode Hpos)
    as (ma1 & g1 & Hfree & Hndim1 & Htot1 & _ & Hg1 & Hov1).
  assert (Hndim : MULTI.ndim ma = ndim) by apply Hrep.
  exists ma, g, ev. eexists _, _.
  split; [exact Hstart|].
  unfold NMultiFree at 1. test_is (MULTI.ndim ma <=? 0) false.
  rewrite Hfree. cbn [bind].
  split; [reflexivity|]. cbn [MULTI.ndim MULTI.array MULTI.totalsize].
  split; [reflexivity|]. split; [reflexivity|]. split; [exact Htot1|].
  split; [lia|]. split; [lia|].
  unfold NMultiFree. cbn [MULTI.ndim Z.leb Z.compare]. reflexivity.
Qed.

(** X16.  [NMultiFree] of an array of no dimension.  [NMultiInit] with
    [ndim = 0] allocates the table of [2^16] buckets and [NMultiSet]
    stores under the empty key, but [NMultiFree] tests [ndim <= 0] first
    and returns: the table, the entries and both ledgers stay as they
    are. *)
Theorem NMultiFree_no_dimension {V : Type} {rawV : Raw V} {ARR : Type}
    (w sizeof_DATA sizeof_LOCK sizeof_MDATA sizeof_ARRAY MyRankMPI : Z)
    (FreeElem : free_hook V) (ma0 : MULTI ARR unit unit) (g0 : GLOBALS)
    (esize : Z) (block : list Z) (lk alk : option LOCK)
    (cs : list (call V)) :
  31 <= w -> 0 <= sizeof_ARRAY * 2 ^ 16 < 2 ^ 31 ->
  keys_ok 0 cs = true -> Z.of_nat (length cs) < 2 ^ 31 ->
  exists ma g ev,
    NMulti_start w sizeof_DATA sizeof_LOCK sizeof_MDATA sizeof_ARRAY
      MyRankMPI FreeElem ma0 g0 esize 0 block lk alk cs
    = Ok (ma, g, ev)
    /\ Z.of_nat (length (MULTI.array ma)) = 2 ^ 16
    /\ NMultiFree MyRankMPI ma g FreeElem = Ok (ma, g).
Proof.
  intros Hw Hsz Hkeys Hlen.
  destruct (NMulti_start_rep w sizeof_DATA sizeof_LOCK sizeof_MDATA
              sizeof_ARRAY MyRankMPI Hw 0 FreeElem ma0 g0 esize block
              lk alk cs ltac:(lia) Hsz Hkeys Hlen)
    as (ma & g & ev & ess & Hstart & Hrep).
  exists ma, g, ev. split; [exact Hstart|].
  destruct Hrep as (_ & Hndim & _ & _ & _ & Hbk & Hl).
  split.
  - rewrite (Forall2_length _ _ _ Hbk). exact Hl.
  - unfold NMultiFree. rewrite Hndim. reflexivity.
Qed.
Lemma NMulti_ledger_balance_witness :
  31 <= 64
  /\ 0 <= 2 <= 29
  /\ 0 <= 32 * 2 ^ (2 / 2 + 16) < 2 ^ 31
  /\ keys_ok 2
      [CallLimit (V := Z) true 1; CallSet [1; 2] (Some 70) None None;
       CallSet [5; 2] (Some 90) None None] = true
  /\ Z.of_nat (length
      [CallLimit (V := Z) true 1; CallSet [1; 2] (Some 70) None None;
       CallSet [5; 2] (Some 90) None None]) < 2 ^ 31
  /\ exists ma g ev,
       NMulti_start (rawV := 0) 64 16 40 24 32 0 None (blank_MULTI 0)
         fresh_GLOBALS 8 2 [4; 4] None None
         [CallLimit true 1; CallSet [1; 2] (Some 70) None None;
          CallSet [5; 2] (Some 90) None None]
       = Ok (ma, g, ev)
       /\ _totalsize g = _totalsize fresh_GLOBALS + MULTI.totalsize ma
       /\ _overheadsize g
          = _overheadsize fresh_GLOBALS + sint (2 * 2)
            + 32 * 2 ^ (2 / 2 + 16).
Proof.
  assert (H1 : 31 <= 64)
    by (lia).
  assert (H2 : 0 <= 2 <= 29)
    by (lia).
  assert (H3 : 0 <= 32 * 2 ^ (2 / 2 + 16) < 2 ^ 31)
    by (vm_compute; split; [discriminate | reflexivity]).
  assert (H4 : keys_ok 2
      [CallLimit (V := Z) true 1; CallSet [1; 2] (Some 70) None None;
       CallSet [5; 2] (Some 90) None None] = true)
    by (reflexivity).
  assert (H5 : Z.of_nat (length
      [CallLimit (V := Z) true 1; CallSet [1; 2] (Some 70) None None;
       CallSet [5; 2] (Some 90) None None]) < 2 ^ 31)
    by (vm_compute; reflexivity).
  split; [exact H1|].
  split; [exact H2|].
  split; [exact H3|].
  split; [exact H4|].
  split; [exact H5|].
  exact (NMulti_ledger_balance (rawV := 0) 64 16 40 24 32 0 None
           (blank_MULTI 0) fresh_GLOBALS 8 2 [4; 4] None None
           [CallLimit true 1; CallSet [1; 2] (Some 70) None None;
            CallSet [5; 2] (Some 90) None None]
           H1 H2 H3 H4 H5).
Defined.

Lemma NMulti_totalsize_formula_witness :
  31 <= 64
  /\ 0 <= 2 <= 29
  /\ 0 <= 32 * 2 ^ (2 / 2 + 16) < 2 ^ 31
  /\ keys_ok 2
      [CallLimit (V := Z) true 1; CallSet [1; 2] (Some 70) None None;
       CallSet [5; 2] (Some 90) None None] = true
  /\ Z.of_nat (length
      [CallLimit (V := Z) true 1; CallSet [1; 2] (Some 70) None None;
       CallSet [5; 2] (Some 90) None None]) < 2 ^ 31
  /\ exists ma g ev,
       NMulti_start (rawV := 0) 64 16 40 24 32 0 None (blank_MULTI 0)
         fresh_GLOBALS 8 2 [4; 4] None None
         [CallLimit true 1; CallSet [1; 2] (Some 70) None None;
          CallSet [5; 2] (Some 90) None None]
       = Ok (ma, g, ev)
       /\ MULTI.totalsize ma
          = sum_with
              (fun a => bucket_bytes (sint (16 + sint (24 * 8)))
                          (sint (40 + sint (8 + 4 * 2))) (dim a))
              (MULTI.array ma).
Proof.
  assert (H1 : 31 <= 64)
    by (lia).
  assert (H2 : 0 <= 2 <= 29)
    by (lia).
  assert (H3 : 0 <= 32 * 2 ^ (2 / 2 + 16) < 2 ^ 31)
    by (vm_compute; split; [discriminate | reflexivity]).
  assert (H4 : keys_ok 2
      [CallLimit (V := Z) true 1; CallSet [1; 2] (Some 70) None None;
       CallSet [5; 2] (Some 90) None None] = true)
    by (reflexivity).
  assert (H5 : Z.of_nat (length
      [CallLimit (V := Z) true 1; CallSet [1; 2] (Some 70) None None;
       CallSet [5; 2] (Some 90) None None]) < 2 ^ 31)
    by (vm_compute; reflexivity).
  split; [exact H1|].
  split; [exact H2|].
  split; [exact H3|].
  split; [exact H4|].
  split; [exact H5|].
  exact (NMulti_totalsize_formula (rawV := 0) 64 16 40 24 32 0 None
           (blank_MULTI 0) fresh_GLOBALS 8 2 [4; 4] None None
           [CallLimit true 1; CallSet [1; 2] (Some 70) None None;
            CallSet [5; 2] (Some 90) None None]
           H1 H2 H3 H4 H5).
Defined.

Lemma NMulti_numelem_counts_witness :
  31 <= 64
  /\ 0 <= 2 <= 29
  /\ 0 <= 32 * 2 ^ (2 / 2 + 16) < 2 ^ 31
  /\ keys_ok 2
      [CallLimit (V := Z) true 1; CallSet [1; 2] (Some 70) None None;
       CallSet [5; 2] (Some 90) None None] = true
  /\ Z.of_nat (length
      [CallLimit (V := Z) true 1; CallSet [1; 2] (Some 70) None None;
       CallSet [5; 2] (Some 90) None None]) < 2 ^ 31
  /\ fits_int (MULTI.numelem (blank_MULTI 0))
  /\ exists ma g ev,
       NMulti_start (rawV := 0) 64 16 40 24 32 0 None (blank_MULTI 0)
         fresh_GLOBALS 8 2 [4; 4] None None
         [CallLimit true 1; CallSet [1; 2] (Some 70) None None;
          CallSet [5; 2] (Some 90) None None]
       = Ok (ma, g, ev)
       /\ MULTI.numelem ma
          = (if ev then sum_with dim (MULTI.array ma)
             else sint (MULTI.numelem (blank_MULTI 0)
                        + sum_with dim (MULTI.array ma))).
Proof.
  assert (H1 : 31 <= 64)
    by (lia).
  assert (H2 : 0 <= 2 <= 29)
    by (lia).
  assert (H3 : 0 <= 32 * 2 ^ (2 / 2 + 16) < 2 ^ 31)
    by (vm_compute; split; [discriminate | reflexivity]).
  assert (H4 : keys_ok 2
      [CallLimit (V := Z) true 1; CallSet [1; 2] (Some 70) None None;
       CallSet [5; 2] (Some 90) None None] = true)
    by (reflexivity).
  assert (H5 : Z.of_nat (length
      [CallLimit (V := Z) true 1; CallSet [1; 2] (Some 70) None None;
       CallSet [5; 2] (Some 90) None None]) < 2 ^ 31)
    by (vm_compute; reflexivity).
  assert (H6 : fits_int (MULTI.numelem (blank_MULTI 0)))
    by (vm_compute; split; [discriminate | reflexivity]).
  split; [exact H1|].
  split; [exact H2|].
  split; [exact H3|].
  split; [exact H4|].
  split; [exact H5|].
  split; [exact H6|].
  exact (NMulti_numelem_counts (rawV := 0) 64 16 40 24 32 0 None
           (blank_MULTI 0) fresh_GLOBALS 8 2 [4; 4] None None
           [CallLimit true 1; CallSet [1; 2] (Some 70) None None;
            CallSet [5; 2] (Some 90) None None]
           H1 H2 H3 H4 H5 H6).
Defined.

Lemma NMultiFree_ledger_witness :
  31 <= 64
  /\ 0 < 2 <= 29
  /\ 0 <= 32 * 2 ^ (2 / 2 + 16) < 2 ^ 31
  /\ 0 <= sint (16 + sint (24 * 8))
  /\ 0 <= sint (40 + sint (8 + 4 * 2))
  /\ keys_ok 2
      [CallLimit (V := Z) true 1; CallSet [1; 2] (Some 70) None None;
       CallSet [5; 2] (Some 90) None None] = true
  /\ Z.of_nat (length
      [CallLimit (V := Z) true 1; CallSet [1; 2] (Some 70) None None;
       CallSet [5; 2] (Some 90) None None]) < 2 ^ 31
  /\ exists ma g ev ma' g',
       NMulti_start (rawV := 0) 64 16 40 24 32 0 None (blank_MULTI 0)
         fresh_GLOBALS 8 2 [4; 4] None None
         [CallLimit true 1; CallSet [1; 2] (Some 70) None None;
          CallSet [5; 2] (Some 90) None None]
       = Ok (ma, g, ev)
       /\ NMultiFree 0 ma g None = Ok (ma', g')
       /\ MULTI.ndim ma' = 0 /\ MULTI.array ma' = []
       /\ MULTI.totalsize ma' = 0
       /\ _totalsize g' = _totalsize fresh_GLOBALS
       /\ _overheadsize g'
          = _overheadsize fresh_GLOBALS + sint (2 * 2)
            + 32 * 2 ^ (2 / 2 + 16)
       /\ NMultiFree 0 ma' g' None = Ok (ma', g').
Proof.
  assert (H1 : 31 <= 64)
    by (lia).
  assert (H2 : 0 < 2 <= 29)
    by (lia).
  assert (H3 : 0 <= 32 * 2 ^ (2 / 2 + 16) < 2 ^ 31)
    by (vm_compute; split; [discriminate | reflexivity]).
  assert (H4 : 0 <= sint (16 + sint (24 * 8)))
    by (vm_compute; discriminate).
  assert (H5 : 0 <= sint (40 + sint (8 + 4 * 2)))
    by (vm_compute; discriminate).
  assert (H6 : keys_ok 2
      [CallLimit (V := Z) true 1; CallSet [1; 2] (Some 70) None None;
       CallSet [5; 2] (Some 90) None None] = true)
    by (reflexivity).
  assert (H7 : Z.of_nat (length
      [CallLimit (V := Z) true 1; CallSet [1; 2] (Some 70) None None;
       CallSet [5; 2] (Some 90) None None]) < 2 ^ 31)
    by (vm_compute; reflexivity).
  split; [exact H1|].
  split; [exact H2|].
  split; [exact H3|].
  split; [exact H4|].
  split; [exact H5|].
  split; [exact H6|].
  split; [exact H7|].
  exact (NMultiFree_ledger (rawV := 0) 64 16 40 24 32 0 None
           (blank_MULTI 0) fresh_GLOBALS 8 2 [4; 4] None None
           [CallLimit true 1; CallSet [1; 2] (Some 70) None None;
            CallSet [5; 2] (Some 90) None None]
           H1 H2 H3 H4 H5 H6 H7).
Defined.

Lemma NMultiFree_no_dimension_witness :
  31 <= 64
  /\ 0 <= 32 * 2 ^ 16 < 2 ^ 31
  /\ keys_ok 0 [CallSet (V := Z) [] (Some 70) None None] = true
  /\ Z.of_nat (length [CallSet (V := Z) [] (Some 70) None None]) < 2 ^ 31
  /\ exists ma g ev,
       NMulti_start (rawV := 0) 64 16 40 24 32 0 None (blank_MULTI 0)
         fresh_GLOBALS 8 0 [] None None [CallSet [] (Some 70) None None]
       = Ok (ma, g, ev)
       /\ Z.of_nat (length (MULTI.array ma)) = 2 ^ 16
       /\ NMultiFree 0 ma g None = Ok (ma, g).
Proof.
  assert (H1 : 31 <= 64)
    by (lia).
  assert (H2 : 0 <= 32 * 2 ^ 16 < 2 ^ 31)
    by (vm_compute; split; [discriminate | reflexivity]).
  assert (H3 : keys_ok 0 [CallSet (V := Z) [] (Some 70) None None] = true)
    by (reflexivity).
  assert (H4 : Z.of_nat (length [CallSet (V := Z) [] (Some 70) None None]) < 2 ^ 31)
    by (vm_compute; reflexivity).
  split; [exact H1|].
  split; [exact H2|].
  split; [exact H3|].
  split; [exact H4|].
  exact (NMultiFree_no_dimension (rawV := 0) 64 16 40 24 32 0 None
           (blank_MULTI 0) fresh_GLOBALS 8 [] None None
           [CallSet [] (Some 70) None None]
           H1 H2 H3 H4).
Defined.

(** ** Hybrid multi-array: the dense part *)

Section ArraySetStores.
Context {A : Type} {rawA : Raw A}.
Variable InitData : init_hook A.

(** [ArraySet] with data, then [ArrayGet], on a well-formed array. *)
Lemma ArraySet_stores (a : ARRAY A) (i : Z) (v : A) :
  arr_wf a -> arr_sized a -> 0 <= i -> i + 1 < 2 ^ 31 ->
  exists a',
    ArraySet a i (Some v) InitData = Ok (a', v)
    /\ arr_wf a' /\ arr_sized a' /\ esize a' = esize a /\ 0 < dim a'
    /\ ArrayGet a' i = Ok (Some v)
    /\ forall j y, j <> i -> ArrayGet a j = Ok (Some y) ->
         ArrayGet a' j = Ok (Some y).
Proof using Type.
  intros Hwf Hsized Hi Hi'.
  destruct (ArraySet_slot_wf InitData (copy_in (Some v)) a i v v Hwf Hsized
              Hi Hi')
    as (a' & Ha' & Hwf' & Hdim' & Hblk' & Hes' & Hbs' & _ & Hcells);
    [reflexivity|].
  exists a'. split; [exact Ha'|]. split; [exact Hwf'|].
  split; [exact (arr_sized_eq a a' Hes' Hblk' Hbs' Hsized)|].
  split; [exact Hes'|]. split; [lia|].
  split.
  - rewrite (ArrayGet_cell a' i Hwf'), Hdim', Hblk'.
    test_is ((i <? 0) || (Z.max (dim a) (i + 1) <=? i)) false.
    rewrite (Hcells i Hi), Z.eqb_refl. reflexivity.
  - intros j y Hne Hy. rewrite (ArrayGet_cell a j Hwf) in Hy.
    destruct ((j <? 0) || (dim a <=? j)) eqn:Hr; [discriminate|].
    apply orb_false_iff in Hr as [Hr0 Hr1].
    apply Z.ltb_ge in Hr0. apply Z.leb_gt in Hr1.
    injection Hy as Hy.
    rewrite (ArrayGet_cell a' j Hwf'), Hdim', Hblk'.
    test_is ((j <? 0) || (Z.max (dim a) (i + 1) <=? j)) false.
    rewrite (Hcells j Hr0).
    test_is (j =? i) false. cbv beta.
    test_is (dim a =? 0) false. rewrite Hy.
    destruct (j / block a =? i / block a); reflexivity.
Qed.

End ArraySetStores.

(** [MMultiIndex] writes the index storage and nothing else. *)
Lemma MMultiIndex_keeps_shape {ARR IAT DAT : Type}
    (ma ma' : MULTI ARR IAT DAT) (k : list Z) :
  MMulti_shape ma -> length k = Z.to_nat (MULTI.ndim ma) ->
  MMultiIndex ma k = Ok ma' ->
  MMulti_shape ma' /\ MULTI.ndim ma' = MULTI.ndim ma
  /\ MULTI.block ma' = MULTI.block ma
  /\ MULTI.iblock ma' = MULTI.iblock ma
  /\ MULTI.hsize ma' = MULTI.hsize ma.
Proof.
  intros Hshape Hk. unfold MMultiIndex, for_range.
  destruct (for_loop _ 0 (MMultiIndex_split _ _) _)
    as [[[[ii si] ri] isf]|] eqn:Hloop; [|discriminate].
  cbn [bind].
  destruct (load ri 0) as [r0|]; [|discriminate]. cbn [bind].
  destruct (for_loop _ 1 _ _) as [aidx|]; [|discriminate]. cbn [bind].
  intros [= <-].
  apply (for_loop_inv
           (split_inv (Z.to_nat (MULTI.ndim ma)) (MULTI.block ma) k))
    in Hloop.
  - destruct Hloop as (Hii & Hsi & Hri & _).
    destruct Hshape as (Hpos & Hb & _ & _ & _ & Hib).
    unfold MMulti_shape. cbn.
    split; [|repeat split; reflexivity].
    split; [exact Hpos|]. split; [exact Hb|]. split; [exact Hii|].
    split; [exact Hsi|]. split; [exact Hri | exact Hib].
  - apply split_inv_start; assumption.
  - intros i t t' Hi. apply split_step; [exact Hk | lia].
Qed.

(** [MMultiIndex] on a key with every coordinate below its block size. *)
Lemma MMultiIndex_dense {ARR IAT DAT : Type} (ma : MULTI ARR IAT DAT)
    (k : list Z) :
  MMulti_shape ma -> length k = Z.to_nat (MULTI.ndim ma) ->
  Forall2 Z.lt k (MULTI.block ma) ->
  exists ma',
    MMultiIndex ma k = Ok ma'
    /\ MULTI.isf ma' = 1
    /\ MULTI.aidx ma' = sint (dense_offset (map ushort k) (MULTI.iblock ma))
    /\ MULTI.array ma' = MULTI.array ma /\ MULTI.ia ma' = MULTI.ia ma
    /\ MULTI.da ma' = MULTI.da ma.
Proof.
  intros Hshape Hk Hlt.
  pose proof (proj2 (below_all ma k Hshape Hk) Hlt) as Hbelow.
  destruct (MMultiIndex_defined ma k Hshape Hk)
    as (ma' & ri & aidx & Hma' & Hri & Haidx & Hlen & Hres & Hoff
        & Harr & Hia & Hda & _).
  { intros j. destruct (decide (j < Z.to_nat (MULTI.ndim ma))%nat) as [Hj|Hj].
    - left. apply Hbelow. exact Hj.
    - right. destruct Hshape as (_ & Hb & _).
      rewrite lookup_ge_None_2 by lia. discriminate. }
  exists ma'. split; [exact Hma'|].
  split; [apply (MMultiIndex_isf ma k Hshape Hk ma' Hma'); exact Hlt|].
  assert (Hrk : ri = map ushort k).
  { apply list_eq. intros j. rewrite list_lookup_fmap.
    destruct (decide (j < Z.to_nat (MULTI.ndim ma))%nat) as [Hj|Hj].
    - destruct (Hbelow j Hj) as (kj & bj & Hkj & Hbj & Hcmp).
      rewrite (Hres j kj bj Hkj Hbj), Hkj. cbn. f_equal.
      unfold residual. replace (bj <=? kj) with false by (symmetry; lia).
      reflexivity.
    - rewrite !lookup_ge_None_2 by lia. reflexivity. }
  rewrite Haidx, Hoff, Hrk.
  split; [reflexivity|]. split; [exact Harr|]. split; [exact Hia | exact Hda].
Qed.

(** One [MMultiSet] on the fast path: it stores in the dense [ARRAY] at the
    offset of the key, and every fast-path key with another offset reads
    as before. *)
Lemma MMultiSet_dense_step {V : Type} {rawV : Raw V} (w : Z)
    (ma : MULTI (ARRAY V) (list (ARRAY (list Z))) (list (ARRAY V)))
    (k : list Z) (v : V) (lock : lock_out)
    (InitData : init_hook V) (FreeElem : free_hook V) :
  MMulti_shape ma -> arr_wf (MULTI.array ma) ->
  arr_sized (MULTI.array ma) ->
  length k = Z.to_nat (MULTI.ndim ma) ->
  Forall2 Z.lt k (MULTI.block ma) ->
  0 <= dense_offset (map ushort k) (MULTI.iblock ma) ->
  dense_offset (map ushort k) (MULTI.iblock ma) + 1 < 2 ^ 31 ->
  exists ma1,
    MMultiSet w ma k (Some v) lock InitData FreeElem = Ok (ma1, v, lock)
    /\ MMulti_shape ma1 /\ arr_wf (MULTI.array ma1)
    /\ arr_sized (MULTI.array ma1)
    /\ MULTI.ndim ma1 = MULTI.ndim ma
    /\ MULTI.block ma1 = MULTI.block ma
    /\ MULTI.iblock ma1 = MULTI.iblock ma
    /\ MULTI.ia ma1 = MULTI.ia ma /\ MULTI.da ma1 = MULTI.da ma
    /\ MULTI.hsize ma1 = MULTI.hsize ma
    /\ 0 < dim (MULTI.array ma1)
    /\ (forall lock',
          exists ma2, MMultiGet w ma1 k lock' = Ok (ma2, Some v, lock'))
    /\ (forall k' y ma3 lock',
          length k' = Z.to_nat (MULTI.ndim ma) ->
          Forall2 Z.lt k' (MULTI.block ma) ->
          sint (dense_offset (map ushort k') (MULTI.iblock ma))
          <> dense_offset (map ushort k) (MULTI.iblock ma) ->
          MMultiGet w ma k' lock' = Ok (ma3, Some y, lock') ->
          exists ma4, MMultiGet w ma1 k' lock' = Ok (ma4, Some y, lock')).
Proof.
  intros Hshape Hwf Hsized Hk Hlt Ho Ho'.
  destruct (MMultiIndex_dense ma k Hshape Hk Hlt)
    as (mi & Hmi & Hisf & Haidx & Harr & Hia & Hda).
  destruct (MMultiIndex_keeps_shape ma mi k Hshape Hk Hmi)
    as (Hshape_i & Hnd_i & Hb_i & Hib_i & Hhs_i).
  rewrite sint_small in Haidx by (unfold fits_int; lia).
  destruct (ArraySet_stores InitData (MULTI.array ma)
              (dense_offset (map ushort k) (MULTI.iblock ma)) v Hwf Hsized
              Ho Ho')
    as (a' & Hset & Hwf' & Hsized' & _ & Hpos' & Hget & Hframe).
  exists (MULTI.set_array mi a').
  assert (Hshape1 : MMulti_shape (MULTI.set_array mi a')) by exact Hshape_i.
  split.
  { unfold MMultiSet. rewrite Hmi. cbn [bind]. rewrite Hisf. cbn [Z.eqb negb].
    rewrite Harr, Haidx, Hset. reflexivity. }
  split; [exact Hshape1|]. split; [exact Hwf'|]. split; [exact Hsized'|].
  split; [exact Hnd_i|]. split; [exact Hb_i|]. split; [exact Hib_i|].
  split; [exact Hia|]. split; [exact Hda|]. split; [exact Hhs_i|].
  split; [exact Hpos'|].
  assert (Hdense1 : forall k' lock',
            length k' = Z.to_nat (MULTI.ndim ma) ->
            Forall2 Z.lt k' (MULTI.block ma) ->
            exists m,
              MMultiGet w (MULTI.set_array mi a') k' lock'
              = (do r <- ArrayGet a'
                           (sint (dense_offset (map ushort k')
                                    (MULTI.iblock ma)));
                 Ok (m, r, lock'))).
  { intros k' lock' Hk' Hlt'.
    destruct (MMultiIndex_dense (MULTI.set_array mi a') k' Hshape1)
      as (m & Hm & Hisf' & Haidx' & Harr' & _).
    { cbn [MULTI.ndim MULTI.set_array]. rewrite Hnd_i. exact Hk'. }
    { cbn [MULTI.block MULTI.set_array]. rewrite Hb_i. exact Hlt'. }
    exists m. unfold MMultiGet. rewrite Hm. cbn [bind]. rewrite Hisf'.
    cbn [Z.eqb negb]. rewrite Harr', Haidx'.
    cbn [MULTI.array MULTI.iblock MULTI.set_array]. rewrite Hib_i.
    reflexivity. }
  split.
  - intros lock'. destruct (Hdense1 k lock' Hk Hlt) as (m & Hm). exists m.
    rewrite Hm, sint_small by (unfold fits_int; lia).
    rewrite Hget. reflexivity.
  - intros k' y ma3 lock' Hk' Hlt' Hne Hold.
    destruct (Hdense1 k' lock' Hk' Hlt') as (m & Hm). exists m. rewrite Hm.
    destruct (MMultiIndex_dense ma k' Hshape Hk' Hlt')
      as (m0 & Hm0 & Hisf0 & Haidx0 & Harr0 & _).
    unfold MMultiGet in Hold. rewrite Hm0 in Hold. cbn [bind] in Hold.
    rewrite Hisf0 in Hold. cbn [Z.eqb negb] in Hold.
    rewrite Harr0, Haidx0 in Hold.
    destruct (ArrayGet (MULTI.array ma) _) as [r|] eqn:Hr; [|discriminate].
    cbn [bind] in Hold. injection Hold as _ ->.
    rewrite (Hframe _ y Hne Hr). reflexivity.
Qed.

(** ** Hybrid multi-array: the layout [MMultiInit] sets up *)

Section DenseLayout.

Local Abbreviation prod := (fold_right Z.mul 1).

Lemma prod_app (l l' : list Z) : prod (l ++ l') = prod l * prod l'.
Proof using Type.
  induction l as [|x l IH]; cbn [app fold_right]; [lia|].
  rewrite IH. lia.
Qed.

Lemma prod_take_S (bs : list Z) (i : nat) (b : Z) :
  bs !! i = Some b -> prod (take (S i) bs) = b * prod (take i bs).
Proof using Type.
  intros Hb. rewrite (take_S_r bs i b Hb), prod_app. cbn [fold_right]. lia.
Qed.

Lemma prod_take_bounds (bs : list Z) :
  Forall (fun b => 1 <= b) bs ->
  forall i, 1 <= prod (take i bs) <= prod bs.
Proof using Type.
  induction 1 as [|b bs Hb _ IH]; intros i.
  - rewrite take_nil. cbn. lia.
  - destruct i as [|i]; cbn [take firstn fold_right].
    + specialize (IH 0%nat). rewrite take_0 in IH. cbn [fold_right] in IH. nia.
    + specialize (IH i). nia.
Qed.

Lemma running_products_lookup (bs : list Z) :
  forall (c : Z) (j : nat), (j < length bs)%nat ->
    running_products c bs !! j = Some (c * prod (take (S j) bs)).
Proof using Type.
  induction bs as [|b bs IH]; intros c j Hj; [cbn in Hj; lia|].
  destruct j as [|j]; cbn [running_products].
  - change ((b * c :: running_products (b * c) bs) !! 0%nat)
      with (Some (b * c)).
    change (take 1 (b :: bs)) with [b]. cbn [fold_right]. f_equal. lia.
  - cbn [length] in Hj.
    change ((b * c :: running_products (b * c) bs) !! S j)
      with (running_products (b * c) bs !! j).
    rewrite (IH (b * c) j) by lia.
    change (take (S (S j)) (b :: bs)) with (b :: take (S j) bs).
    cbn [fold_right]. f_equal. lia.
Qed.

Lemma running_products_length (bs : list Z) (c : Z) :
  length (running_products c bs) = length bs.
Proof using Type.
  revert c. induction bs as [|b bs IH]; intros c; cbn; [reflexivity|].
  rewrite IH. reflexivity.
Qed.

Lemma weighted_sum_radix (k : list Z) :
  forall (c : Z) (bs : list Z), length k = length bs ->
    weighted_sum k (c :: running_products c bs) = c * radix k bs.
Proof using Type.
  induction k as [|x k IH]; intros c [|b bs] Hlen; try discriminate.
  - cbn. lia.
  - cbn [weighted_sum running_products radix].
    injection Hlen as Hlen. rewrite (IH (b * c) bs Hlen). lia.
Qed.

Lemma dense_offset_radix (k bs : list Z) :
  length k = length bs ->
  dense_offset k (running_products 1 bs) = radix k bs.
Proof using Type.
  destruct k as [|x k], bs as [|b bs]; try discriminate; [reflexivity|].
  intros [= Hlen]. cbn [dense_offset running_products radix].
  rewrite (weighted_sum_radix k (b * 1) bs Hlen). lia.
Qed.

Lemma radix_bounds (k bs : list Z) :
  in_blocks k bs -> 0 <= radix k bs < prod bs.
Proof using Type.
  induction 1 as [|x b k bs Hx _ IH]; cbn [radix fold_right]; [lia|]. nia.
Qed.

Lemma radix_inj (k k' bs : list Z) :
  in_blocks k bs -> in_blocks k' bs -> radix k bs = radix k' bs -> k = k'.
Proof using Type.
  intros Hk. revert k'.
  induction Hk as [|x b k bs Hx Hk IH]; intros k' Hk' Heq.
  - inversion Hk'. reflexivity.
  - inversion Hk' as [|x' b' k'' bs' Hx' Hk'']; subst.
    cbn [radix] in Heq.
    assert (Hq : radix k bs = radix k'' bs) by nia.
    assert (Hr : x = x') by nia.
    rewrite Hr, (IH k'' Hk'' Hq). reflexivity.
Qed.

Lemma in_blocks_ushort (k bs : list Z) :
  in_blocks k bs -> Forall (fun b => 1 <= b <= 65535) bs ->
  map ushort k = k.
Proof using Type.
  induction 1 as [|x b k bs Hx _ IH]; intros Hbs; [reflexivity|].
  apply Forall_cons in Hbs as [Hb Hbs]. cbn [map].
  rewrite (IH Hbs). f_equal. unfold ushort. apply Z.mod_small.
  change (2 ^ 16) with 65536. lia.
Qed.

End DenseLayout.

Section MMultiInitFacts.
Context {V : Type} {rawV : Raw V} {rawZ : Raw Z}.
Variable w : Z.
Hypothesis Hw : 31 <= w.

Local Abbreviation prod := (fold_right Z.mul 1).

(** The loop at lines 1003-1010. *)
Lemma MMultiInit_block_loop (block : list Z) (ndim : Z) :
  1 <= ndim -> Z.of_nat (length block) = ndim ->
  Forall (fun b => 1 <= b <= 65535) block -> prod block < 2 ^ 31 ->
  for_range 0 ndim (MMultiInit_block block)
    (repeat raw (Z.to_nat ndim), repeat raw (Z.to_nat ndim))
  = Ok (block, running_products 1 block).
Proof using Type.
  intros Hnd Hlen Hbs Hprod.
  assert (Hone : Forall (fun b => 1 <= b) block).
  { eapply Forall_impl; [exact Hbs|]. cbv beta. intros b Hb. lia. }
  pose (P := fun (i : Z) (st : list Z * list Z) =>
    length (fst st) = Z.to_nat ndim /\ length (snd st) = Z.to_nat ndim
    /\ forall j, Z.of_nat j < i ->
         fst st !! j = block !! j
         /\ snd st !! j = Some (prod (take (S j) block))).
  destruct (for_loop_total P (MMultiInit_block block)
              (Z.to_nat (ndim - 0)) 0
              (repeat raw (Z.to_nat ndim), repeat raw (Z.to_nat ndim)))
    as ([mb ib] & Hloop & Hmb & Hib & Hcells).
  { unfold P. cbn [fst snd]. rewrite !repeat_length.
    split; [reflexivity|]. split; [reflexivity|]. intros j Hj. lia. }
  { intros i [mb ib] Hi (Hmb & Hib & Hcells). cbn [fst snd] in Hmb, Hib, Hcells.
    destruct (lookup_lt_is_Some_2 block (Z.to_nat i)) as [b Hb]; [lia|].
    assert (Hbr : 1 <= b <= 65535).
    { rewrite Forall_lookup in Hbs. exact (Hbs _ _ Hb). }
    pose proof (prod_take_bounds block Hone (S (Z.to_nat i))) as Hpb.
    rewrite (prod_take_S block _ b Hb) in Hpb.
    unfold MMultiInit_block.
    rewrite (proj2 (load_Ok block i b)) by (split; [lia | exact Hb]).
    cbn [bind]. rewrite store_Ok by lia. cbn [bind].
    assert (Hu : ushort b = b).
    { unfold ushort. apply Z.mod_small. change (2 ^ 16) with 65536. lia. }
    rewrite Hu.
    assert (Hv : (if 0 <? i
                  then do prev <- load ib (i - 1); Ok (sint (b * prev))
                  else Ok b)
                 = Ok (prod (take (S (Z.to_nat i)) block))).
    { rewrite (prod_take_S block _ b Hb).
      destruct (0 <? i) eqn:Hi0.
      - apply Z.ltb_lt in Hi0.
        destruct (Hcells (Z.to_nat (i - 1)) ltac:(lia)) as [_ Hprev].
        replace (S (Z.to_nat (i - 1))) with (Z.to_nat i) in Hprev by lia.
        assert (Hi1 : 0 <= i - 1) by lia.
        rewrite (proj2 (load_Ok ib (i - 1) _) (conj Hi1 Hprev)).
        cbn [bind]. rewrite sint_small by lia. reflexivity.
      - apply Z.ltb_ge in Hi0. replace (Z.to_nat i) with 0%nat by lia.
        rewrite take_0. cbn [fold_right]. f_equal. lia. }
    rewrite Hv. cbn [bind]. rewrite store_Ok by lia. cbn [bind].
    eexists. split; [reflexivity|].
    unfold P. cbn [fst snd]. rewrite !length_insert.
    split; [exact Hmb|]. split; [exact Hib|].
    intros j Hj. destruct (decide (j = Z.to_nat i)) as [->|Hne].
    - rewrite !list_lookup_insert_eq by lia. rewrite Hb. split; reflexivity.
    - rewrite !list_lookup_insert_ne by congruence. apply Hcells. lia. }
  unfold for_range. rewrite Hloop. f_equal.
  cbn [fst snd] in Hmb, Hib, Hcells.
  f_equal.
  - apply list_eq. intros j.
    destruct (decide (j < length block)%nat) as [Hj|Hj].
    + apply Hcells. lia.
    + rewrite !lookup_ge_None_2 by lia. reflexivity.
  - apply list_eq. intros j.
    destruct (decide (j < length block)%nat) as [Hj|Hj].
    + rewrite running_products_lookup by exact Hj.
      rewrite (proj2 (Hcells j ltac:(lia))). f_equal. lia.
    + rewrite !lookup_ge_None_2; [reflexivity| |lia].
      rewrite running_products_length. lia.
Qed.

End MMultiInitFacts.

(** What [MMultiInit] leaves. *)
Lemma MMultiInit_shape {V : Type} {rawZ : Raw Z} {ARR IAT DAT : Type}
    (w : Z) (ma0 : MULTI ARR IAT DAT) (esize ndim : Z) (bs : list Z)
    (lk : option LOCK) :
  31 <= w -> 1 <= ndim <= 29 -> Z.of_nat (length bs) = ndim ->
  Forall (fun b => 1 <= b <= 65535) bs ->
  fold_right Z.mul 1 bs < 2 ^ 31 ->
  exists ma : MULTI (ARRAY V) (list (ARRAY (list Z))) (list (ARRAY V)),
    MMultiInit w ma0 esize ndim bs lk = Ok ma
    /\ MMulti_shape ma /\ arr_wf (MULTI.array ma)
    /\ MULTI.ndim ma = ndim
    /\ MULTI.block ma = bs
    /\ MULTI.iblock ma = running_products 1 bs
    /\ block (MULTI.array ma) = fold_right Z.mul 1 bs
    /\ dim (MULTI.array ma) = 0 /\ data (MULTI.array ma) = NULL
    /\ MULTI.hsize ma = 2 ^ (ndim / 2 + 16)
    /\ (exists x, MULTI.ia ma = repeat x (Z.to_nat (2 ^ (ndim / 2 + 16)))
                  /\ dim x = 0 /\ data x = NULL)
    /\ (exists y, MULTI.da ma = repeat y (Z.to_nat (2 ^ (ndim / 2 + 16)))
                  /\ dim y = 0 /\ data y = NULL)
    /\ (1 <= esize -> esize * fold_right Z.mul 1 bs < 2 ^ 31 ->
        arr_sized (MULTI.array ma)).
Proof.
  intros Hw Hnd Hlen Hbs Hprod.
  assert (Hone : Forall (fun b => 1 <= b) bs).
  { eapply Forall_impl; [exact Hbs|]. cbv beta. intros b Hb. lia. }
  unfold MMultiInit.
  rewrite (MMultiInit_block_loop bs ndim) by (assumption || lia).
  cbn [bind].
  destruct (HashSize_value w ndim ltac:(lia) Hw) as [-> Hs]. cbn [bind].
  rewrite (sint_small (ndim - 1)) by lia.
  assert (Hcell : running_products 1 bs !! Z.to_nat (ndim - 1)
                  = Some (fold_right Z.mul 1 bs)).
  { rewrite running_products_lookup by lia.
    rewrite firstn_all2 by lia. f_equal. lia. }
  assert (Hn1 : 0 <= ndim - 1) by lia.
  rewrite (proj2 (load_Ok _ (ndim - 1) _) (conj Hn1 Hcell)).
  cbn [bind]. eexists. split; [reflexivity|].
  pose proof (prod_take_bounds bs Hone (length bs)) as Hpb.
  rewrite firstn_all in Hpb.
  assert (Hpow : 0 < 2 ^ (ndim / 2 + 16) <= 2 ^ 30).
  { split; [apply Z.pow_pos_nonneg; lia|].
    apply Z.pow_le_mono_r; lia. }
  rewrite (sint_small (2 ^ (ndim / 2 + 16))) by lia.
  cbn [MULTI.array MULTI.block MULTI.iblock MULTI.ndim MULTI.hsize MULTI.ia
       MULTI.da].
  split.
  { unfold MMulti_shape. cbn. rewrite !repeat_length, running_products_length.
    repeat split; lia. }
  split; [apply arr_wf_init; lia|].
  repeat (split; [reflexivity|]).
  split; [eexists; (split; [reflexivity|]); split; reflexivity|].
  split; [eexists; (split; [reflexivity|]); split; reflexivity|].
  intros He Hbytes. apply arr_sized_init; [exact He | lia | exact Hbytes].
Qed.

(** The offset of a key inside the blocks. *)
Lemma in_blocks_offset (k bs : list Z) :
  Forall (fun b => 1 <= b <= 65535) bs -> in_blocks k bs ->
  dense_offset (map ushort k) (running_products 1 bs) = radix k bs
  /\ 0 <= radix k bs < fold_right Z.mul 1 bs
  /\ Forall2 Z.lt k bs.
Proof.
  intros Hbs Hk.
  rewrite (in_blocks_ushort k bs Hk Hbs).
  rewrite (dense_offset_radix k bs (Forall2_length _ _ _ Hk)).
  split; [reflexivity|]. split; [apply radix_bounds; exact Hk|].
  eapply Forall2_impl; [exact Hk|]. cbv beta. intros x b Hx. lia.
Qed.

Section MMultiDenseRun.
Context {V : Type} {rawV : Raw V}.
Variables (w : Z) (bs : list Z).
Variables (InitData : init_hook V) (FreeElem : free_hook V).
Hypothesis Hbs : Forall (fun b => 1 <= b <= 65535) bs.
Hypothesis Hprod : fold_right Z.mul 1 bs < 2 ^ 31.

Local Abbreviation MMULTI :=
  (MULTI (ARRAY V) (list (ARRAY (list Z))) (list (ARRAY V))).

Lemma MMulti_set_all_dense (kvs : list (list Z * V)) :
  forall (ma : MMULTI) (cur : list Z -> option V),
    MMulti_shape ma -> arr_wf (MULTI.array ma) ->
    arr_sized (MULTI.array ma) ->
    MULTI.block ma = bs -> MULTI.iblock ma = running_products 1 bs ->
    Forall (fun kv => in_blocks (fst kv) bs) kvs ->
    (forall k v, cur k = Some v ->
       in_blocks k bs
       /\ forall lock, exists m, MMultiGet w ma k lock = Ok (m, Some v, lock)) ->
    exists ma',
      MMulti_set_all w ma kvs InitData FreeElem = Ok ma'
      /\ (MMulti_shape ma' /\ arr_wf (MULTI.array ma')
          /\ arr_sized (MULTI.array ma')
          /\ MULTI.block ma' = bs
          /\ MULTI.iblock ma' = running_products 1 bs
          /\ MULTI.ndim ma' = MULTI.ndim ma
          /\ MULTI.hsize ma' = MULTI.hsize ma
          /\ MULTI.ia ma' = MULTI.ia ma /\ MULTI.da ma' = MULTI.da ma
          /\ (dim (MULTI.array ma') = 0 -> ma' = ma))
      /\ forall k v, last_set k kvs (cur k) = Some v ->
           forall lock, exists m, MMultiGet w ma' k lock = Ok (m, Some v, lock).
Proof using Hbs Hprod.
  induction kvs as [|[k0 v0] kvs IH];
    intros ma cur Hshape Hwf Hsized Hblk Hib Hkeys Hcur.
  - exists ma. split; [reflexivity|].
    split.
    { split; [exact Hshape|]. split; [exact Hwf|]. split; [exact Hsized|].
      split; [exact Hblk|].
      split; [exact Hib|]. repeat (split; [reflexivity|]).
      intros _. reflexivity. }
    intros k v Hl. apply (Hcur k v Hl).
  - apply Forall_cons in Hkeys as [Hk0 Hkeys]. cbn [fst] in Hk0.
    destruct (in_blocks_offset k0 bs Hbs Hk0) as (Hoff0 & Hr0 & Hlt0).
    assert (Hlenb : length bs = Z.to_nat (MULTI.ndim ma)).
    { rewrite <- Hblk. apply Hshape. }
    assert (Hlen0 : length k0 = Z.to_nat (MULTI.ndim ma)).
    { rewrite (Forall2_length _ _ _ Hk0). exact Hlenb. }
    destruct (MMultiSet_dense_step w ma k0 v0 None InitData FreeElem
                Hshape Hwf Hsized Hlen0)
      as (ma1 & Hset & Hshape1 & Hwf1 & Hsized1 & Hnd1 & Hblk1 & Hib1 & Hia1
          & Hda1 & Hhs1 & Hpos1 & Hget1 & Hframe1).
    { rewrite Hblk. exact Hlt0. }
    { rewrite Hib, Hoff0. lia. }
    { rewrite Hib, Hoff0. lia. }
    destruct (IH ma1 (fun k => if decide (k0 = k) then Some v0 else cur k)
                Hshape1 Hwf1 Hsized1)
      as (ma' & Hrun & Hinv & Hlast).
    { rewrite Hblk1. exact Hblk. }
    { rewrite Hib1. exact Hib. }
    { exact Hkeys. }
    { intros k v. cbv beta. destruct (decide (k0 = k)) as [<-|Hne].
      - intros [= <-]. split; [exact Hk0 | exact Hget1].
      - intros Hc. destruct (Hcur k v Hc) as [Hk Hold].
        split; [exact Hk|]. intros lock. destruct (Hold lock) as [m Hm].
        destruct (in_blocks_offset k bs Hbs Hk) as (Hoff & Hr & Hlt).
        apply (Hframe1 k v m lock).
        + rewrite (Forall2_length _ _ _ Hk). exact Hlenb.
        + rewrite Hblk. exact Hlt.
        + rewrite Hib, Hoff, Hoff0. rewrite sint_small by lia.
          intros Heq. apply Hne. symmetry.
          exact (radix_inj k k0 bs Hk Hk0 Heq).
        + exact Hm. }
    exists ma'. split; [|split].
    + cbn [MMulti_set_all]. rewrite Hset. cbn [bind]. exact Hrun.
    + destruct Hinv as (Hs' & Hw' & Hz' & Hb' & Hi' & Hn' & Hh' & Hia' & Hda'
                        & Hnull').
      split; [exact Hs'|]. split; [exact Hw'|]. split; [exact Hz'|].
      split; [exact Hb'|].
      split; [exact Hi'|]. split; [congruence|]. split; [congruence|].
      split; [congruence|]. split; [congruence|].
      intros Hd0. rewrite (Hnull' Hd0) in Hd0. lia.
    + intros k v Hl. apply Hlast. exact Hl.
Qed.

End MMultiDenseRun.

(** X17.  The dense part of a hybrid array returns what was stored.
    [MMultiInit] with [1 <= ndim <= 29], block sizes in [1, 65535],
    elements of at least one byte and a dense block of less than [2^31]
    bytes ([esize] times the product of the block sizes), then any
    sequence of [MMultiSet]s with data at keys whose coordinates are all
    in [0, block[i]): every call is defined, and [MMultiGet] of a key that
    was set returns the value of its last [Set]. *)
Theorem MMulti_dense_get_after_sets {V : Type} {rawV : Raw V}
    {rawZ : Raw Z} {ARR IAT DAT : Type} (w : Z) (ma0 : MULTI ARR IAT DAT)
    (esize ndim : Z) (bs : list Z) (lk : option LOCK)
    (InitData : init_hook V) (FreeElem : free_hook V)
    (kvs : list (list Z * V)) :
  31 <= w -> 1 <= ndim <= 29 -> Z.of_nat (length bs) = ndim ->
  Forall (fun b => 1 <= b <= 65535) bs ->
  1 <= esize -> esize * fold_right Z.mul 1 bs < 2 ^ 31 ->
  Forall (fun kv => in_blocks (fst kv) bs) kvs ->
  exists ma ma',
    MMultiInit w ma0 esize ndim bs lk = Ok ma
    /\ MMulti_set_all w ma kvs InitData FreeElem = Ok ma'
    /\ forall k v lock, last_set k kvs None = Some v ->
         exists m, MMultiGet w ma' k lock = Ok (m, Some v, lock).
Proof.
  intros Hw Hnd Hlen Hbs Hesz Hbytes Hkeys.
  assert (Hprod : fold_right Z.mul 1 bs < 2 ^ 31) by nia.
  destruct (MMultiInit_shape (V := V) w ma0 esize ndim bs lk Hw Hnd Hlen Hbs
              Hprod)
    as (ma & Hinit & Hshape & Hwf & _ & Hblk & Hib & _ & _ & _ & _ & _ & _
        & Hsized).
  destruct (MMulti_set_all_dense w bs InitData FreeElem Hbs Hprod kvs ma
              (fun _ => None) Hshape Hwf (Hsized Hesz Hbytes) Hblk Hib Hkeys)
    as (ma' & Hrun & _ & Hlast).
  { intros k v [=]. }
  exists ma, ma'. split; [exact Hinit|]. split; [exact Hrun|].
  intros k v lock Hl. exact (Hlast k v Hl lock).
Qed.

(** Three [Set]s on two keys of the array with block sizes 4 and 4. *)
Lemma MMulti_dense_get_after_sets_witness :
  31 <= 64 /\ 1 <= 2 <= 29 /\ Z.of_nat (length [4; 4]) = 2
  /\ Forall (fun b => 1 <= b <= 65535) [4; 4]
  /\ 1 <= 8 /\ 8 * fold_right Z.mul 1 [4; 4] < 2 ^ 31
  /\ Forall (fun kv : list Z * Z => in_blocks (fst kv) [4; 4])
       [([1; 2], 7); ([3; 1], 9); ([1; 2], 8)]
  /\ exists ma ma' m m',
       MMultiInit (rawZ := 0) 64 (blank_MULTI 0) 8 2 [4; 4] None = Ok ma
       /\ MMulti_set_all (rawV := 0) 64 ma
            [([1; 2], 7); ([3; 1], 9); ([1; 2], 8)] None None = Ok ma'
       /\ MMultiGet 64 ma' [1; 2] None = Ok (m, Some 8, None)
       /\ MMultiGet 64 ma' [3; 1] None = Ok (m', Some 9, None).
Proof.
  assert (H1 : 31 <= 64) by lia.
  assert (H2 : 1 <= 2 <= 29) by lia.
  assert (H3 : Z.of_nat (length [4; 4]) = 2) by reflexivity.
  assert (H4 : Forall (fun b => 1 <= b <= 65535) [4; 4])
    by (repeat constructor; lia).
  assert (H5 : 8 * fold_right Z.mul 1 [4; 4] < 2 ^ 31)
    by (vm_compute; reflexivity).
  assert (H6 : Forall (fun kv : list Z * Z => in_blocks (fst kv) [4; 4])
                 [([1; 2], 7); ([3; 1], 9); ([1; 2], 8)])
    by (unfold in_blocks; repeat constructor; cbn; lia).
  assert (H7 : 1 <= 8) by lia.
  split; [exact H1|]. split; [exact H2|]. split; [exact H3|].
  split; [exact H4|]. split; [exact H7|]. split; [exact H5|].
  split; [exact H6|].
  destruct (MMulti_dense_get_after_sets (rawV := 0) (rawZ := 0) 64
              (blank_MULTI 0) 8 2 [4; 4] None None None
              [([1; 2], 7); ([3; 1], 9); ([1; 2], 8)] H1 H2 H3 H4 H7 H5 H6)
    as (ma & ma' & Hinit & Hrun & Hget).
  destruct (Hget [1; 2] 8 None eq_refl) as [m Hm].
  destruct (Hget [3; 1] 9 None eq_refl) as [m' Hm'].
  exists ma, ma', m, m'.
  split; [exact Hinit|]. split; [exact Hrun|]. split; [exact Hm | exact Hm'].
Defined.

(** X18.  The dense layout.  [MMultiInit] with [1 <= ndim <= 29], block sizes
    in [1, 65535] and a product of the block sizes below [2^31] leaves an
    array whose index storage has [ndim] cells, whose dense [ARRAY] is
    well formed with the product as its block size, and whose [iblock]
    holds the running products.  For keys with every coordinate in
    [0, block[i]) the fast path applies, the dense offset lies in
    [0, product), and two keys with the same offset are the same key. *)
Theorem MMultiInit_dense_layout {V : Type} {rawZ : Raw Z}
    {ARR IAT DAT : Type} (w : Z) (ma0 : MULTI ARR IAT DAT)
    (esize ndim : Z) (bs : list Z) (lk : option LOCK) :
  31 <= w -> 1 <= ndim <= 29 -> Z.of_nat (length bs) = ndim ->
  Forall (fun b => 1 <= b <= 65535) bs ->
  fold_right Z.mul 1 bs < 2 ^ 31 ->
  exists ma : MULTI (ARRAY V) (list (ARRAY (list Z))) (list (ARRAY V)),
    MMultiInit w ma0 esize ndim bs lk = Ok ma
    /\ MMulti_shape ma /\ arr_wf (MULTI.array ma)
    /\ MULTI.block ma = bs
    /\ MULTI.iblock ma = running_products 1 bs
    /\ block (MULTI.array ma) = fold_right Z.mul 1 bs
    /\ (forall k, in_blocks k bs ->
          Forall2 Z.lt k (MULTI.block ma)
          /\ 0 <= dense_offset (map ushort k) (MULTI.iblock ma)
             < fold_right Z.mul 1 bs)
    /\ (forall k k', in_blocks k bs -> in_blocks k' bs ->
          dense_offset (map ushort k) (MULTI.iblock ma)
          = dense_offset (map ushort k') (MULTI.iblock ma) ->
          k = k').
Proof.
  intros Hw Hnd Hlen Hbs Hprod.
  destruct (MMultiInit_shape (V := V) w ma0 esize ndim bs lk Hw Hnd Hlen Hbs
              Hprod)
    as (ma & Hinit & Hshape & Hwf & _ & Hblk & Hib & Hcell & _).
  exists ma. split; [exact Hinit|]. split; [exact Hshape|].
  split; [exact Hwf|]. split; [exact Hblk|]. split; [exact Hib|].
  split; [exact Hcell|]. rewrite Hblk, Hib.
  split.
  - intros k Hk.
    destruct (in_blocks_offset k bs Hbs Hk) as (Hoff & Hr & Hlt).
    split; [exact Hlt|]. rewrite Hoff. exact Hr.
  - intros k k' Hk Hk'.
    destruct (in_blocks_offset k bs Hbs Hk) as (Hoff & _).
    destruct (in_blocks_offset k' bs Hbs Hk') as (Hoff' & _).
    rewrite Hoff, Hoff'. apply radix_inj; assumption.
Qed.

(** Block sizes 4 and 4. *)
Lemma MMultiInit_dense_layout_witness :
  31 <= 64 /\ 1 <= 2 <= 29 /\ Z.of_nat (length [4; 4]) = 2
  /\ Forall (fun b => 1 <= b <= 65535) [4; 4]
  /\ fold_right Z.mul 1 [4; 4] < 2 ^ 31
  /\ exists ma : MULTI (ARRAY Z) (list (ARRAY (list Z))) (list (ARRAY Z)),
       MMultiInit (rawZ := 0) 64 (blank_MULTI 0) 8 2 [4; 4] None = Ok ma
       /\ MULTI.iblock ma = [4; 16]
       /\ block (MULTI.array ma) = 16.
Proof.
  assert (H1 : 31 <= 64) by lia.
  assert (H2 : 1 <= 2 <= 29) by lia.
  assert (H3 : Z.of_nat (length [4; 4]) = 2) by reflexivity.
  assert (H4 : Forall (fun b => 1 <= b <= 65535) [4; 4])
    by (repeat constructor; lia).
  assert (H5 : fold_right Z.mul 1 [4; 4] < 2 ^ 31) by (vm_compute; reflexivity).
  split; [exact H1|]. split; [exact H2|]. split; [exact H3|].
  split; [exact H4|]. split; [exact H5|].
  destruct (MMultiInit_dense_layout (V := Z) (rawZ := 0) 64 (blank_MULTI 0)
              8 2 [4; 4] None H1 H2 H3 H4 H5)
    as (ma & Hinit & _ & _ & _ & Hib & Hblk & _).
  exists ma. split; [exact Hinit|]. split; [exact Hib | exact Hblk].
Defined.

(** ** Dense nested multi-array: [Set], then [Get] *)

Lemma SMultiGet_walk_S {V : Type} (c : nat) (k : list Z) (i : Z)
    (a : ARRAY (SNODE V)) :
  SMultiGet_walk (S c) k i (SArray a)
  = (do ki <- load k i;
     do r <- ArrayGet a ki;
     match r with
     | Some y => SMultiGet_walk c k (i + 1) y
     | None => Ok None
     end).
Proof. reflexivity. Qed.

Lemma ArrayGet_no_elements {A : Type} (a : ARRAY A) (i : Z) :
  dim a = 0 -> ArrayGet a i = Ok None.
Proof.
  intros Hd. unfold ArrayGet. rewrite Hd.
  test_is ((i <? 0) || (0 <=? i)) true. reflexivity.
Qed.

Section SMultiFacts.
Context {V : Type} {rawV : Raw V} {rawZ : Raw Z} {rawL : Raw (option LOCK)}.
Variables (sizeof_ARRAY esz ndim ndim2 : Z) (blocks : list Z).
Variable lk : option LOCK.
Hypothesis HsA : 0 < sizeof_ARRAY.
Hypothesis Hesz : 0 < esz.
Hypothesis Hnd : 1 <= ndim < 2 ^ 31.
Hypothesis Hbl : Z.of_nat (length blocks) = ndim.
Hypothesis Hb1 : Forall (fun b => 1 <= b) blocks.
Hypothesis Hbytes :
  Forall (fun b => sizeof_ARRAY * b < 2 ^ 31 /\ esz * b < 2 ^ 31) blocks.

Local Abbreviation blank := (InitArrayData (V := V) SRaw).

Lemma level_wf_init (depth : nat) (e b : Z) :
  1 <= e -> 1 <= b -> e * b < 2 ^ 31 ->
  level_wf (V := V) depth (ArrayInit e b lk).
Proof using Type.
  intros He Hb Hlt.
  assert (H : arr_wf (ArrayInit (A := SNODE V) e b lk)
              /\ arr_sized (ArrayInit (A := SNODE V) e b lk)).
  { split; [apply arr_wf_init; exact Hb | apply arr_sized_init; assumption]. }
  destruct depth; cbn [level_wf]; (split; [apply H|]); (split; [apply H|]);
    [exact I|].
  intros j y _ Hc. cbn in Hc. discriminate.
Qed.

Lemma node_wf_blank (wf : ARRAY (SNODE V) -> Prop) : node_wf wf blank.
Proof using Type. cbn. reflexivity. Qed.

Section OneKey.
Variables (k : list Z) (v : V) (InitData : init_hook V).
Hypothesis Hkl : Z.of_nat (length k) = ndim.
Hypothesis Hkr : Forall (fun x => 0 <= x /\ x + 1 < 2 ^ 31) k.

Lemma SMultiSet_walk_wf (count : nat) :
  forall (i : Z) (a : ARRAY (SNODE V)),
    0 <= i -> i + Z.of_nat count = ndim - 1 -> level_wf count a ->
    exists a',
      SMultiSet_walk sizeof_ARRAY count ndim2 esz blocks k (Some v) InitData
        lk i a
      = Ok (a', SElem v)
      /\ level_wf count a'
      /\ SMultiGet_walk (S count) k i (SArray a') = Ok (Some (SElem v))
      /\ forall k' y, length k' = length k ->
           drop (Z.to_nat i) k' <> drop (Z.to_nat i) k ->
           SMultiGet_walk (S count) k' i (SArray a) = Ok (Some y) ->
           SMultiGet_walk (S count) k' i (SArray a') = Ok (Some y).
Proof using HsA Hesz Hnd Hbl Hb1 Hbytes Hkl Hkr.
  induction count as [|count IH]; intros i a Hi Hic Hwf.
  - destruct Hwf as (Hawf & Hes & _).
    destruct (lookup_lt_is_Some_2 k (Z.to_nat i)) as [ki Hki]; [lia|].
    assert (Hkir : 0 <= ki /\ ki + 1 < 2 ^ 31).
    { rewrite Forall_lookup in Hkr. exact (Hkr _ _ Hki). }
    assert (Hload : load k i = Ok ki) by (apply load_Ok; split; [lia | exact Hki]).
    destruct (ArraySet_stores (leaf_hook InitData) a ki (SElem v) Hawf Hes
                (proj1 Hkir) (proj2 Hkir))
      as (a' & Hset & Hwf' & Hsz' & _ & _ & Hget & Hframe).
    exists a'. cbn [SMultiSet_walk]. rewrite Hload. cbn [bind option_map].
    split; [exact Hset|].
    split; [cbn [level_wf]; split; [exact Hwf'|]; split; [exact Hsz' | exact I]|].
    split.
    + rewrite SMultiGet_walk_S, Hload. cbn [bind]. rewrite Hget. reflexivity.
    + intros k' y Hlen Hne Hold.
      rewrite SMultiGet_walk_S in Hold |- *.
      destruct (load k' i) as [ki'|] eqn:Hki'; [|discriminate].
      cbn [bind] in Hold |- *.
      destruct (ArrayGet a ki') as [[x|]|] eqn:Hx; try discriminate.
      assert (Hneq : ki' <> ki).
      { intros ->. apply Hne. apply load_Ok in Hki' as [_ Hki'].
        rewrite (drop_S k' ki _ Hki'), (drop_S k ki _ Hki).
        rewrite !drop_ge by lia. reflexivity. }
      rewrite (Hframe ki' x Hneq Hx). exact Hold.
  - destruct Hwf as (Hawf & Hes & Hcells).
    destruct (lookup_lt_is_Some_2 k (Z.to_nat i)) as [ki Hki]; [lia|].
    assert (Hkir : 0 <= ki /\ ki + 1 < 2 ^ 31).
    { rewrite Forall_lookup in Hkr. exact (Hkr _ _ Hki). }
    destruct Hkir as [Hk0 Hk1].
    assert (Hload : load k i = Ok ki) by (apply load_Ok; split; [lia | exact Hki]).
    destruct (lookup_lt_is_Some_2 blocks (Z.to_nat (i + 1))) as [b Hb]; [lia|].
    assert (Hbpos : 1 <= b).
    { rewrite Forall_lookup in Hb1. exact (Hb1 _ _ Hb). }
    assert (Hbby : sizeof_ARRAY * b < 2 ^ 31 /\ esz * b < 2 ^ 31).
    { rewrite Forall_lookup in Hbytes. exact (Hbytes _ _ Hb). }
    assert (Hloadb : load blocks (sint (i + 1)) = Ok b).
    { rewrite sint_small by lia. apply load_Ok. split; [lia | exact Hb]. }
    pose (cur := fun j =>
      if dim a =? 0 then (if j / block a =? 0 then Some blank else None)
      else chain_cell (block a) (data a) j).
    assert (Hcur : forall j y, 0 <= j -> cur j = Some y ->
                     node_wf (level_wf count) y).
    { intros j y Hj. unfold cur. destruct (dim a =? 0).
      - destruct (j / block a =? 0); [|discriminate].
        intros [= <-]. apply node_wf_blank.
      - apply Hcells. exact Hj. }
    assert (Hdef : forall j, 0 <= j ->
                     node_wf (level_wf count) (default blank (cur j))).
    { intros j Hj. destruct (cur j) as [y|] eqn:Hc; cbn [default].
      - exact (Hcur j y Hj Hc).
      - apply node_wf_blank. }
    pose proof (Hdef ki Hk0) as Hx0.
    destruct (default blank (cur ki)) as [| |sub] eqn:Hx0e;
      try (exfalso; exact Hx0).
    cbn [node_wf] in Hx0.
    pose (sub1 := if esize sub =? 0
                  then ArrayInit (if i <? ndim2 then sizeof_ARRAY else esz) b lk
                  else sub).
    assert (Hwf1 : level_wf count sub1).
    { unfold sub1. destruct (esize sub =? 0); [|exact Hx0].
      apply level_wf_init; [|exact Hbpos|];
        destruct (i <? ndim2); lia. }
    destruct (IH (i + 1) sub1 ltac:(lia) ltac:(lia) Hwf1)
      as (sub2 & Hwalk & Hwf2 & Hget2 & Hframe2).
    assert (Hstep : exists a',
      SMultiSet_walk sizeof_ARRAY (S count) ndim2 esz blocks k (Some v)
        InitData lk i a = Ok (a', SElem v)
      /\ arr_wf a' /\ dim a' = Z.max (dim a) (ki + 1)
      /\ block a' = block a /\ arr_sized a'
      /\ forall j, 0 <= j ->
           chain_cell (block a) (data a') j
           = if j =? ki then Some (SArray sub2)
             else if j / block a =? ki / block a
                  then Some (default blank (cur j))
                  else cur j).
    { cbn [SMultiSet_walk]. rewrite Hload. cbn [bind].
      match goal with
      | |- context [ArraySet_slot a ki ?h ?u] =>
          destruct (ArraySet_slot_wf h u a ki (SArray sub2) (SElem v)
                      Hawf Hes Hk0 Hk1)
            as (a' & Ha' & Hwf' & Hdim' & Hblk' & Hes' & Hbs' & _ & Hc')
      end.
      { cbv zeta. change (run_hook (Some InitArrayData) raw) with blank.
        change (if dim a =? 0
                then if ki / block a =? 0 then Some blank else None
                else chain_cell (block a) (data a) ki) with (cur ki).
        rewrite Hx0e.
        destruct (esize sub =? 0) eqn:He.
        - rewrite Hloadb. cbn [bind]. unfold sub1 in Hwalk.
          rewrite Hwalk. reflexivity.
        - cbn [bind]. unfold sub1 in Hwalk. rewrite Hwalk. reflexivity. }
      exists a'. split; [exact Ha'|]. split; [exact Hwf'|].
      split; [exact Hdim'|]. split; [exact Hblk'|].
      split; [exact (arr_sized_eq a a' Hes' Hblk' Hbs' Hes)|].
      exact Hc'. }
    destruct Hstep as (a' & Ha' & Hwf' & Hdim' & Hblk' & Hes' & Hc').
    assert (Hes2 : esize sub2 <> 0).
    { assert (Hsz2 : arr_sized sub2)
        by (destruct count; cbn [level_wf] in Hwf2; apply Hwf2).
      destruct Hsz2 as [Hpos2 _]. lia. }
    assert (Hgetk : ArrayGet a' ki = Ok (Some (SArray sub2))).
    { rewrite (ArrayGet_cell a' ki Hwf'), Hdim', Hblk'.
      test_is ((ki <? 0) || (Z.max (dim a) (ki + 1) <=? ki)) false.
      rewrite (Hc' ki Hk0), Z.eqb_refl. reflexivity. }
    exists a'. split; [exact Ha'|].
    split.
    { cbn [level_wf]. split; [exact Hwf'|]. split; [exact Hes'|].
      intros j y Hj. rewrite Hblk', (Hc' j Hj).
      destruct (j =? ki).
      - intros [= <-]. cbn [node_wf].
        destruct (esize sub2 =? 0) eqn:He; [|exact Hwf2].
        apply Z.eqb_eq in He. contradiction.
      - destruct (j / block a =? ki / block a).
        + intros [= <-]. apply Hdef. exact Hj.
        + apply Hcur. exact Hj. }
    split.
    { rewrite SMultiGet_walk_S, Hload. cbn [bind]. rewrite Hgetk.
      cbn [bind]. exact Hget2. }
    intros k' y Hlen Hne Hold.
    rewrite SMultiGet_walk_S in Hold. rewrite SMultiGet_walk_S.
    destruct (load k' i) as [ki'|] eqn:Hki'; [|discriminate].
    cbn [bind] in Hold |- *.
    destruct (ArrayGet a ki') as [[x|]|] eqn:Hx; try discriminate.
    cbn [bind] in Hold.
    pose proof Hx as Hx'. rewrite (ArrayGet_cell a ki' Hawf) in Hx'.
    destruct ((ki' <? 0) || (dim a <=? ki')) eqn:Hr; [discriminate|].
    apply orb_false_iff in Hr as [Hr0 Hr1].
    apply Z.ltb_ge in Hr0. apply Z.leb_gt in Hr1.
    injection Hx' as Hx'.
    assert (Hcx : cur ki' = Some x).
    { unfold cur. test_is (dim a =? 0) false. exact Hx'. }
    destruct (decide (ki' = ki)) as [->|Hneq].
    + rewrite Hgetk. cbn [bind].
      rewrite Hcx in Hx0e. cbn [default from_option id] in Hx0e. subst x.
      destruct (esize sub =? 0) eqn:He.
      * exfalso. rewrite SMultiGet_walk_S in Hold.
        destruct (load k' (i + 1)); [|discriminate]. cbn [bind] in Hold.
        rewrite (ArrayGet_no_elements sub _ Hx0) in Hold. discriminate.
      * apply Hframe2; [exact Hlen | | exact Hold].
        intros Heq. apply Hne. apply load_Ok in Hki' as [_ Hki'].
        rewrite (drop_S k' ki _ Hki'), (drop_S k ki _ Hki).
        replace (S (Z.to_nat i)) with (Z.to_nat (i + 1)) by lia.
        rewrite Heq. reflexivity.
    + assert (Hnew : ArrayGet a' ki' = Ok (Some x)).
      { rewrite (ArrayGet_cell a' ki' Hwf'), Hdim', Hblk'.
        test_is ((ki' <? 0) || (Z.max (dim a) (ki + 1) <=? ki')) false.
        rewrite (Hc' ki' Hr0). test_is (ki' =? ki) false.
        rewrite Hcx. destruct (ki' / block a =? ki / block a); reflexivity. }
      rewrite Hnew. cbn [bind]. exact Hold.
Qed.

End OneKey.
End SMultiFacts.

(** One [SMultiSet] with data on a well-formed array, then [SMultiGet]. *)
Lemma SMultiSet_step {V : Type} {rawV : Raw V} {rawZ : Raw Z}
    {rawL : Raw (option LOCK)} {IAT DAT : Type} (sizeof_ARRAY : Z)
    (ma : MULTI (option (ARRAY (SNODE V))) IAT DAT) (k : list Z) (v : V)
    (lock : lock_out) (InitData : init_hook V) (FreeElem : free_hook V)
    (lk : option LOCK) :
  SMulti_wf sizeof_ARRAY ma ->
  Z.of_nat (length k) = MULTI.ndim ma ->
  Forall (fun x => 0 <= x /\ x + 1 < 2 ^ 31) k ->
  exists ma1,
    SMultiSet sizeof_ARRAY ma k (Some v) lock InitData FreeElem lk
    = Ok (ma1, SElem v, lock)
    /\ SMulti_wf sizeof_ARRAY ma1
    /\ MULTI.ndim ma1 = MULTI.ndim ma
    /\ (forall lock', SMultiGet ma1 k lock' = Ok (Some (SElem v), lock'))
    /\ forall k' y lock', length k' = length k -> k' <> k ->
         SMultiGet ma k' lock' = Ok (Some y, lock') ->
         SMultiGet ma1 k' lock' = Ok (Some y, lock').
Proof.
  intros (Hnd & Hbl & Hb1 & HsA & Hesz & Hbytes & Harr) Hkl Hkr.
  assert (Ha0 : exists a0,
            match MULTI.array ma with
            | Some a => Ok a
            | None =>
                do b0 <- load (MULTI.block ma) 0;
                Ok (ArrayInit
                      (if 1 <? MULTI.ndim ma then sizeof_ARRAY
                       else MULTI.esize ma) b0 lk)
            end = Ok a0
            /\ level_wf (Z.to_nat (MULTI.ndim ma - 1)) a0
            /\ forall a, MULTI.array ma = Some a -> a0 = a).
  { destruct (MULTI.array ma) as [a|].
    - exists a. split; [reflexivity|]. split; [exact Harr|].
      intros a' [= ->]. reflexivity.
    - destruct (lookup_lt_is_Some_2 (MULTI.block ma) 0) as [b0 Hb0]; [lia|].
      rewrite (proj2 (load_Ok (MULTI.block ma) 0 b0) (conj (Z.le_refl 0) Hb0)).
      cbn [bind]. eexists. split; [reflexivity|].
      split; [|discriminate].
      assert (Hb0' : 1 <= b0).
      { rewrite Forall_lookup in Hb1. exact (Hb1 _ _ Hb0). }
      assert (Hby0 : sizeof_ARRAY * b0 < 2 ^ 31
                     /\ MULTI.esize ma * b0 < 2 ^ 31).
      { rewrite Forall_lookup in Hbytes. exact (Hbytes _ _ Hb0). }
      apply level_wf_init; [|exact Hb0'|];
        destruct (1 <? MULTI.ndim ma); lia. }
  destruct Ha0 as (a0 & Ha0 & Hwf0 & Hsame).
  destruct (SMultiSet_walk_wf sizeof_ARRAY (MULTI.esize ma) (MULTI.ndim ma)
              (sint (MULTI.ndim ma - 2)) (MULTI.block ma) lk HsA Hesz Hnd
              Hbl Hb1 Hbytes k v InitData Hkl Hkr
              (Z.to_nat (MULTI.ndim ma - 1)) 0 a0 (Z.le_refl 0)
              ltac:(lia) Hwf0)
    as (a1 & Hwalk & Hwf1 & Hget & Hframe).
  exists (MULTI.set_array ma (Some a1)).
  assert (Hcount : Z.to_nat (MULTI.ndim ma)
                   = S (Z.to_nat (MULTI.ndim ma - 1))) by lia.
  split.
  { unfold SMultiSet. rewrite Ha0. cbn [bind].
    rewrite (sint_small (MULTI.ndim ma - 1)) by lia.
    rewrite Hwalk. reflexivity. }
  split.
  { unfold SMulti_wf. cbn [MULTI.set_array MULTI.ndim MULTI.block
                           MULTI.esize MULTI.array].
    split; [exact Hnd|]. split; [exact Hbl|]. split; [exact Hb1|].
    split; [exact HsA|]. split; [exact Hesz|].
    split; [exact Hbytes | exact Hwf1]. }
  split; [reflexivity|].
  split.
  { intros lock'. unfold SMultiGet.
    cbn [MULTI.set_array MULTI.ndim MULTI.array].
    rewrite Hcount, Hget. reflexivity. }
  intros k' y lock' Hlen Hne Hold. unfold SMultiGet in Hold |- *.
  cbn [MULTI.set_array MULTI.ndim MULTI.array].
  destruct (MULTI.array ma) as [a|] eqn:Hma; [|discriminate].
  rewrite (Hsame a eq_refl) in Hframe.
  rewrite Hcount in Hold |- *.
  destruct (SMultiGet_walk _ k' 0 (SArray a)) as [[x|]|] eqn:Hx;
    try discriminate.
  cbn [bind] in Hold. injection Hold as ->.
  rewrite (Hframe k' y Hlen Hne Hx). reflexivity.
Qed.

(** [SMultiInit] with block sizes that fit an [unsigned short]. *)
Lemma SMultiInit_wf {V ARR IAT DAT : Type} (sizeof_ARRAY : Z)
    (ma0 : MULTI ARR IAT DAT) (esize ndim : Z) (bs : list Z) :
  1 <= ndim < 2 ^ 31 -> Z.of_nat (length bs) = ndim ->
  Forall (fun b => 1 <= b <= 65535) bs ->
  0 < esize -> 0 < sizeof_ARRAY ->
  Forall (fun b => sizeof_ARRAY * b < 2 ^ 31 /\ esize * b < 2 ^ 31) bs ->
  exists ma : MULTI (option (ARRAY (SNODE V))) IAT DAT,
    SMultiInit ma0 esize ndim bs = Ok ma
    /\ SMulti_wf sizeof_ARRAY ma
    /\ MULTI.ndim ma = ndim /\ MULTI.block ma = bs
    /\ MULTI.array ma = None.
Proof.
  intros Hnd Hlen Hbs Hesz HsA Hbytes.
  assert (Hloop :
    for_range 0 ndim
      (fun i acc => do b <- load bs i; Ok (acc ++ [ushort b])) []
    = Ok bs).
  { unfold for_range.
    destruct (for_loop_total
                (fun i acc => acc = take (Z.to_nat i) bs)
                (fun i acc => do b <- load bs i; Ok (acc ++ [ushort b]))
                (Z.to_nat (ndim - 0)) 0 [])
      as (acc & Hacc & Hfin).
    { rewrite take_0. reflexivity. }
    { intros i acc Hi ->.
      destruct (lookup_lt_is_Some_2 bs (Z.to_nat i)) as [b Hb]; [lia|].
      assert (Hi0 : 0 <= i) by lia.
      rewrite (proj2 (load_Ok bs i b) (conj Hi0 Hb)). cbn [bind].
      eexists. split; [reflexivity|].
      replace (Z.to_nat (i + 1)) with (S (Z.to_nat i)) by lia.
      rewrite (take_S_r bs _ b Hb). f_equal. f_equal.
      rewrite Forall_lookup in Hbs. specialize (Hbs _ _ Hb). cbv beta in Hbs.
      unfold ushort. apply Z.mod_small. change (2 ^ 16) with 65536. lia. }
    rewrite Hacc, Hfin. f_equal. apply firstn_all2. lia. }
  unfold SMultiInit. rewrite Hloop. cbn [bind].
  eexists. split; [reflexivity|].
  unfold SMulti_wf.
  cbn [MULTI.ndim MULTI.block MULTI.esize MULTI.array].
  split; [|repeat split; reflexivity].
  split; [exact Hnd|]. split; [exact Hlen|].
  split; [eapply Forall_impl; [exact Hbs|]; cbv beta; intros b Hb; lia|].
  split; [exact HsA|]. split; [exact Hesz|]. split; [exact Hbytes | exact I].
Qed.

Section SMultiRun.
Context {V : Type} {rawV : Raw V} {rawZ : Raw Z} {rawL : Raw (option LOCK)}.
Context {IAT DAT : Type}.
Variables (sizeof_ARRAY ndim : Z).
Variables (InitData : init_hook V) (FreeElem : free_hook V).
Variable lk : option LOCK.

Local Abbreviation key_ok :=
  (fun k : list Z =>
     Z.of_nat (length k) = ndim
     /\ Forall (fun x => 0 <= x /\ x + 1 < 2 ^ 31) k).

Lemma SMulti_set_all_wf (kvs : list (list Z * V)) :
  forall (ma : MULTI (option (ARRAY (SNODE V))) IAT DAT)
         (cur : list Z -> option V),
    SMulti_wf sizeof_ARRAY ma -> MULTI.ndim ma = ndim ->
    Forall (fun kv => key_ok (fst kv)) kvs ->
    (forall k v, cur k = Some v ->
       Z.of_nat (length k) = ndim
       /\ forall lock, SMultiGet ma k lock = Ok (Some (SElem v), lock)) ->
    exists ma',
      SMulti_set_all sizeof_ARRAY ma kvs InitData FreeElem lk = Ok ma'
      /\ SMulti_wf sizeof_ARRAY ma'
      /\ forall k v, last_set k kvs (cur k) = Some v ->
           forall lock, SMultiGet ma' k lock = Ok (Some (SElem v), lock).
Proof using Type.
  induction kvs as [|[k0 v0] kvs IH]; intros ma cur Hwf Hndim Hkeys Hcur.
  - exists ma. split; [reflexivity|]. split; [exact Hwf|].
    intros k v Hl. apply (Hcur k v Hl).
  - apply Forall_cons in Hkeys as [[Hk0 Hr0] Hkeys]. cbn [fst] in Hk0, Hr0.
    destruct (SMultiSet_step sizeof_ARRAY ma k0 v0 None InitData FreeElem lk
                Hwf)
      as (ma1 & Hset & Hwf1 & Hnd1 & Hget1 & Hframe1);
      [congruence | exact Hr0 |].
    destruct (IH ma1 (fun k => if decide (k0 = k) then Some v0 else cur k)
                Hwf1)
      as (ma' & Hrun & Hwf' & Hlast); [congruence | exact Hkeys | |].
    { intros k v. cbv beta. destruct (decide (k0 = k)) as [<-|Hne].
      - intros [= <-]. split; [exact Hk0 | exact Hget1].
      - intros Hc. destruct (Hcur k v Hc) as [Hk Hold].
        split; [exact Hk|]. intros lock.
        apply Hframe1; [lia | congruence | apply Hold]. }
    exists ma'. split; [|split; [exact Hwf'|]].
    + cbn [SMulti_set_all]. rewrite Hset. cbn [bind]. exact Hrun.
    + intros k v Hl. apply Hlast. exact Hl.
Qed.

End SMultiRun.

(** X19.  A dense nested array returns what was stored.  [SMultiInit] with
    [ndim >= 1], block sizes in [1, 65535], a positive element size and
    blocks of less than [2^31] bytes, whether of elements or of [ARRAY]s,
    then any sequence of [SMultiSet]s with data at keys of [ndim]
    coordinates in [0, 2^31 - 2]: every call is defined, and [SMultiGet] of
    a key that was set returns the element holding the value of its last
    [Set].  Before the first [Set], [SMultiGet] returns [NULL] for every
    key. *)
Theorem SMulti_get_after_sets {V : Type} {rawV : Raw V} {rawZ : Raw Z}
    {rawL : Raw (option LOCK)} {ARR IAT DAT : Type} (sizeof_ARRAY : Z)
    (ma0 : MULTI ARR IAT DAT) (esize ndim : Z) (bs : list Z)
    (InitData : init_hook V) (FreeElem : free_hook V) (lk : option LOCK)
    (kvs : list (list Z * V)) :
  1 <= ndim < 2 ^ 31 -> Z.of_nat (length bs) = ndim ->
  Forall (fun b => 1 <= b <= 65535) bs ->
  0 < esize -> 0 < sizeof_ARRAY ->
  Forall (fun b => sizeof_ARRAY * b < 2 ^ 31 /\ esize * b < 2 ^ 31) bs ->
  Forall (fun kv => Z.of_nat (length (fst kv)) = ndim
                    /\ Forall (fun x => 0 <= x /\ x + 1 < 2 ^ 31) (fst kv))
    kvs ->
  exists ma ma' : MULTI (option (ARRAY (SNODE V))) IAT DAT,
    SMultiInit ma0 esize ndim bs = Ok ma
    /\ (forall k lock, SMultiGet ma k lock = Ok (None, lock))
    /\ SMulti_set_all sizeof_ARRAY ma kvs InitData FreeElem lk = Ok ma'
    /\ forall k v lock, last_set k kvs None = Some v ->
         SMultiGet ma' k lock = Ok (Some (SElem v), lock).
Proof.
  intros Hnd Hlen Hbs Hesz HsA Hbytes Hkeys.
  destruct (SMultiInit_wf (V := V) sizeof_ARRAY ma0 esize ndim bs Hnd Hlen
              Hbs Hesz HsA Hbytes)
    as (ma & Hinit & Hwf & Hndim & _ & Hnone).
  destruct (SMulti_set_all_wf sizeof_ARRAY ndim InitData FreeElem lk kvs ma
              (fun _ => None) Hwf Hndim Hkeys)
    as (ma' & Hrun & _ & Hlast).
  { intros k v [=]. }
  exists ma, ma'. split; [exact Hinit|].
  split.
  { intros k lock. unfold SMultiGet. rewrite Hnone. reflexivity. }
  split; [exact Hrun|].
  intros k v lock Hl. exact (Hlast k v Hl lock).
Qed.

(** Three [Set]s on two keys of a two-dimensional array with block sizes
    4 and 4. *)
Lemma SMulti_get_after_sets_witness :
  1 <= 2 < 2 ^ 31 /\ Z.of_nat (length [4; 4]) = 2
  /\ Forall (fun b => 1 <= b <= 65535) [4; 4]
  /\ 0 < 8 /\ 0 < 32
  /\ Forall (fun b => 32 * b < 2 ^ 31 /\ 8 * b < 2 ^ 31) [4; 4]
  /\ Forall (fun kv : list Z * Z =>
               Z.of_nat (length (fst kv)) = 2
               /\ Forall (fun x => 0 <= x /\ x + 1 < 2 ^ 31) (fst kv))
       [([1; 6], 7); ([9; 0], 9); ([1; 6], 8)]
  /\ exists ma ma' : MULTI (option (ARRAY (SNODE Z))) unit unit,
       SMultiInit (blank_MULTI 0) 8 2 [4; 4] = Ok ma
       /\ SMulti_set_all (rawV := 0) (rawZ := 0) (rawL := None) 32 ma
            [([1; 6], 7); ([9; 0], 9); ([1; 6], 8)] None None None = Ok ma'
       /\ SMultiGet ma' [1; 6] None = Ok (Some (SElem 8), None)
       /\ SMultiGet ma' [9; 0] None = Ok (Some (SElem 9), None).
Proof.
  assert (H1 : 1 <= 2 < 2 ^ 31) by lia.
  assert (H2 : Z.of_nat (length [4; 4]) = 2) by reflexivity.
  assert (H3 : Forall (fun b => 1 <= b <= 65535) [4; 4])
    by (repeat constructor; lia).
  assert (H4 : 0 < 8) by lia.
  assert (H5 : 0 < 32) by lia.
  assert (H7 : Forall (fun b => 32 * b < 2 ^ 31 /\ 8 * b < 2 ^ 31) [4; 4])
    by (repeat constructor; lia).
  assert (H6 : Forall (fun kv : list Z * Z =>
                         Z.of_nat (length (fst kv)) = 2
                         /\ Forall (fun x => 0 <= x /\ x + 1 < 2 ^ 31)
                              (fst kv))
                 [([1; 6], 7); ([9; 0], 9); ([1; 6], 8)])
    by (repeat constructor; cbn; lia).
  split; [exact H1|]. split; [exact H2|]. split; [exact H3|].
  split; [exact H4|]. split; [exact H5|]. split; [exact H7|].
  split; [exact H6|].
  destruct (SMulti_get_after_sets (rawV := 0) (rawZ := 0) (rawL := None)
              (IAT := unit) (DAT := unit) 32
              (blank_MULTI 0) 8 2 [4; 4] None None None
              [([1; 6], 7); ([9; 0], 9); ([1; 6], 8)] H1 H2 H3 H4 H5 H7 H6)
    as (ma & ma' & Hinit & _ & Hrun & Hget).
  exists ma, ma'.
  split; [exact Hinit|]. split; [exact Hrun|].
  split; [exact (Hget [1; 6] 8 None eq_refl)
         | exact (Hget [9; 0] 9 None eq_refl)].
Defined.

(** ** Dense nested multi-array: [SMultiFree] *)

Section SMultiFreeFacts.
Context {V : Type} {rawV : Raw V}.
Variable FreeElem : free_hook V.

Lemma ArrayFree_defined {A : Type} (a : ARRAY A) (F : free_hook A) :
  arr_wf a -> exists a', ArrayFree a F = Ok a'.
Proof using Type.
  intros (Hb & Hdim & Hchain). unfold ArrayFree.
  destruct (dim a =? 0) eqn:Hd; [eexists; reflexivity|].
  apply Z.eqb_neq in Hd. destruct Hchain as [Hcw _]; [lia|].
  rewrite (chain_wf_free (block a) (data a) F Hcw). cbn [bind].
  eexists. reflexivity.
Qed.

Lemma SMultiFreeDataOnly_no_elements (d : nat) (a : ARRAY (SNODE V)) :
  dim a = 0 -> SMultiFreeDataOnly d a FreeElem = Ok a.
Proof using Type.
  intros Hd. destruct d as [|[|d]]; cbn [SMultiFreeDataOnly];
    unfold ArrayFree, for_range; rewrite Hd; reflexivity.
Qed.

Lemma SMultiFreeDataOnly_inner (d : nat) (a : ARRAY (SNODE V)) :
  SMultiFreeDataOnly (S (S d)) a FreeElem
  = (do _ <- for_range 0 (dim a)
               (fun i (_ : unit) =>
                  do r <- ArrayGet a i;
                  match r with
                  | Some (SArray b) =>
                      do _ <- SMultiFreeDataOnly (S d) b FreeElem; Ok tt
                  | Some _ => Undefined
                  | None => Ok tt
                  end) tt;
     ArrayFree a None).
Proof using Type. reflexivity. Qed.

Lemma SMultiFreeDataOnly_defined (depth : nat) :
  forall a : ARRAY (SNODE V),
    level_wf depth a ->
    exists a', SMultiFreeDataOnly (S depth) a FreeElem = Ok a'.
Proof using Type.
  induction depth as [|depth IH]; intros a Hwf.
  - destruct Hwf as (Hawf & _). cbn [SMultiFreeDataOnly].
    apply ArrayFree_defined. exact Hawf.
  - destruct Hwf as (Hawf & _ & Hcells). rewrite SMultiFreeDataOnly_inner.
    destruct (for_loop_total
                (fun (_ : Z) (_ : unit) => True)
                (fun i (_ : unit) =>
                   do r <- ArrayGet a i;
                   match r with
                   | Some (SArray b) =>
                       do _ <- SMultiFreeDataOnly (S depth) b FreeElem; Ok tt
                   | Some _ => Undefined
                   | None => Ok tt
                   end)
                (Z.to_nat (dim a - 0)) 0 tt I)
      as (u & Hloop & _).
    { intros i [] Hi _. exists tt. split; [|exact I].
      rewrite (ArrayGet_cell a i Hawf).
      destruct ((i <? 0) || (dim a <=? i)); [reflexivity|]. cbn [bind].
      destruct (chain_cell (block a) (data a) i) as [y|] eqn:Hc;
        [|reflexivity].
      pose proof (Hcells i y ltac:(lia) Hc) as Hy.
      destruct y as [| |b]; try (exfalso; exact Hy).
      cbn [node_wf] in Hy. destruct (esize b =? 0).
      - rewrite (SMultiFreeDataOnly_no_elements _ b Hy). reflexivity.
      - destruct (IH b Hy) as [b' Hb']. rewrite Hb'. reflexivity. }
    unfold for_range. rewrite Hloop. destruct u. cbn [bind].
    apply ArrayFree_defined. exact Hawf.
Qed.

End SMultiFreeFacts.

(** X20.  [SMultiFree] after any use.  [SMultiInit] with [ndim >= 1], block
    sizes in [1, 65535], a positive element size and blocks of less than
    [2^31] bytes, whether of elements or of [ARRAY]s, then any
    sequence of [SMultiSet]s with data at keys of [ndim] coordinates in
    [0, 2^31 - 2], then [SMultiFree]: the call is defined and leaves
    [ndim = 0] and no array, so [SMultiGet] returns [NULL] for every key
    and a second [SMultiFree] does nothing.  It also frees [ma->block]:
    unlike a block array after [ArrayFree], the array cannot be set again
    before another [SMultiInit]. *)
Theorem SMultiFree_after_sets {V : Type} {rawV : Raw V} {rawZ : Raw Z}
    {rawL : Raw (option LOCK)} {ARR IAT DAT : Type} (sizeof_ARRAY : Z)
    (ma0 : MULTI ARR IAT DAT) (esize ndim : Z) (bs : list Z)
    (InitData : init_hook V) (FreeElem : free_hook V) (lk : option LOCK)
    (kvs : list (list Z * V)) :
  1 <= ndim < 2 ^ 31 -> Z.of_nat (length bs) = ndim ->
  Forall (fun b => 1 <= b <= 65535) bs ->
  0 < esize -> 0 < sizeof_ARRAY ->
  Forall (fun b => sizeof_ARRAY * b < 2 ^ 31 /\ esize * b < 2 ^ 31) bs ->
  Forall (fun kv => Z.of_nat (length (fst kv)) = ndim
                    /\ Forall (fun x => 0 <= x /\ x + 1 < 2 ^ 31) (fst kv))
    kvs ->
  exists ma ma' ma'' : MULTI (option (ARRAY (SNODE V))) IAT DAT,
    SMultiInit ma0 esize ndim bs = Ok ma
    /\ SMulti_set_all sizeof_ARRAY ma kvs InitData FreeElem lk = Ok ma'
    /\ SMultiFree ma' FreeElem = Ok ma''
    /\ MULTI.ndim ma'' = 0 /\ MULTI.array ma'' = None
    /\ (forall k lock, SMultiGet ma'' k lock = Ok (None, lock))
    /\ SMultiFree ma'' FreeElem = Ok ma''
    /\ (forall k d lock I F l,
          SMultiSet sizeof_ARRAY ma'' k d lock I F l = Undefined).
Proof.
  intros Hnd Hlen Hbs Hesz HsA Hbytes Hkeys.
  destruct (SMultiInit_wf (V := V) sizeof_ARRAY ma0 esize ndim bs Hnd Hlen
              Hbs Hesz HsA Hbytes)
    as (ma & Hinit & Hwf & Hndim & _ & _).
  destruct (SMulti_set_all_wf sizeof_ARRAY ndim InitData FreeElem lk kvs ma
              (fun _ => None) Hwf Hndim Hkeys)
    as (ma' & Hrun & Hwf' & _).
  { intros k v [=]. }
  destruct Hwf' as (Hnd' & _ & _ & _ & _ & _ & Harr').
  assert (Hdata : exists r, SMultiFreeData ma' FreeElem = Ok r).
  { unfold SMultiFreeData. destruct (MULTI.array ma') as [a|].
    - replace (Z.to_nat (MULTI.ndim ma'))
        with (S (Z.to_nat (MULTI.ndim ma' - 1))) by lia.
      destruct (SMultiFreeDataOnly_defined FreeElem _ a Harr') as [a' Ha'].
      rewrite Ha'. eexists. reflexivity.
    - eexists. reflexivity. }
  destruct Hdata as [r Hdata].
  exists ma, ma'. eexists.
  split; [exact Hinit|]. split; [exact Hrun|].
  split.
  { unfold SMultiFree. test_is (MULTI.ndim ma' <=? 0) false.
    rewrite Hdata. reflexivity. }
  cbn [MULTI.ndim MULTI.array].
  split; [reflexivity|]. split; [reflexivity|].
  split; [intros k lock; reflexivity|].
  split; [reflexivity|].
  intros k d lock I F l. reflexivity.
Qed.

(** Two [Set]s on a two-dimensional array with block sizes 4 and 4. *)
Lemma SMultiFree_after_sets_witness :
  1 <= 2 < 2 ^ 31 /\ Z.of_nat (length [4; 4]) = 2
  /\ Forall (fun b => 1 <= b <= 65535) [4; 4]
  /\ 0 < 8 /\ 0 < 32
  /\ Forall (fun b => 32 * b < 2 ^ 31 /\ 8 * b < 2 ^ 31) [4; 4]
  /\ Forall (fun kv : list Z * Z =>
               Z.of_nat (length (fst kv)) = 2
               /\ Forall (fun x => 0 <= x /\ x + 1 < 2 ^ 31) (fst kv))
       [([1; 6], 7); ([9; 0], 9)]
  /\ exists ma ma' ma'' : MULTI (option (ARRAY (SNODE Z))) unit unit,
       SMultiInit (blank_MULTI 0) 8 2 [4; 4] = Ok ma
       /\ SMulti_set_all (rawV := 0) (rawZ := 0) (rawL := None) 32 ma
            [([1; 6], 7); ([9; 0], 9)] None None None = Ok ma'
       /\ SMultiFree (rawV := 0) ma' None = Ok ma''
       /\ SMultiGet ma'' [1; 6] None = Ok (None, None).
Proof.
  assert (H1 : 1 <= 2 < 2 ^ 31) by lia.
  assert (H2 : Z.of_nat (length [4; 4]) = 2) by reflexivity.
  assert (H3 : Forall (fun b => 1 <= b <= 65535) [4; 4])
    by (repeat constructor; lia).
  assert (H4 : 0 < 8) by lia.
  assert (H5 : 0 < 32) by lia.
  assert (H7 : Forall (fun b => 32 * b < 2 ^ 31 /\ 8 * b < 2 ^ 31) [4; 4])
    by (repeat constructor; lia).
  assert (H6 : Forall (fun kv : list Z * Z =>
                         Z.of_nat (length (fst kv)) = 2
                         /\ Forall (fun x => 0 <= x /\ x + 1 < 2 ^ 31)
                              (fst kv))
                 [([1; 6], 7); ([9; 0], 9)])
    by (repeat constructor; cbn; lia).
  split; [exact H1|]. split; [exact H2|]. split; [exact H3|].
  split; [exact H4|]. split; [exact H5|]. split; [exact H7|].
  split; [exact H6|].
  destruct (SMultiFree_after_sets (rawV := 0) (rawZ := 0) (rawL := None)
              (IAT := unit) (DAT := unit) 32
              (blank_MULTI 0) 8 2 [4; 4] None None None
              [([1; 6], 7); ([9; 0], 9)] H1 H2 H3 H4 H5 H7 H6)
    as (ma & ma' & ma'' & Hinit & Hrun & Hfree & _ & _ & Hget & _).
  exists ma, ma', ma''.
  split; [exact Hinit|]. split; [exact Hrun|]. split; [exact Hfree|].
  exact (Hget [1; 6] None).
Defined.

(** ** Hybrid multi-array: [MMultiFreeData] *)

(** The loop over bucket tables that no sparse key has touched. *)
Lemma MMultiFreeData_tables_fresh {V : Type} (FreeElem : free_hook V)
    (x : ARRAY (list Z)) (y : ARRAY V) (n : nat) (hs : Z) :
  dim x = 0 -> data x = NULL -> dim y = 0 -> data y = NULL ->
  hs = Z.of_nat n ->
  for_range 0 hs (MMultiFreeData_tables FreeElem) (repeat x n, repeat y n)
  = Ok (repeat x n, repeat y n).
Proof.
  intros Hdx Hpx Hdy Hpy ->.
  assert (Hx : set_data (set_dim x 0) NULL = x).
  { destruct x; cbn in *; subst; reflexivity. }
  assert (Hy : set_data (set_dim y 0) NULL = y).
  { destruct y; cbn in *; subst; reflexivity. }
  unfold for_range.
  destruct (for_loop_total
              (fun (_ : Z) st => st = (repeat x n, repeat y n))
              (MMultiFreeData_tables FreeElem)
              (Z.to_nat (Z.of_nat n - 0)) 0 (repeat x n, repeat y n) eq_refl)
    as (st & Hloop & ->); [|exact Hloop].
  intros i t Hi ->. exists (repeat x n, repeat y n). split; [|reflexivity].
  assert (Hi0 : 0 <= i) by lia.
  assert (Hlx : repeat x n !! Z.to_nat i = Some x).
  { apply repeat_lookup. lia. }
  assert (Hly : repeat y n !! Z.to_nat i = Some y).
  { apply repeat_lookup. lia. }
  unfold MMultiFreeData_tables.
  rewrite (proj2 (load_Ok _ i x) (conj Hi0 Hlx)). cbn [bind].
  rewrite Hpx. cbn [ArrayFreeData bind].
  rewrite store_Ok by (rewrite repeat_length; lia). cbn [bind].
  rewrite (proj2 (load_Ok _ i y) (conj Hi0 Hly)). cbn [bind].
  rewrite Hpy. cbn [ArrayFreeData bind].
  rewrite store_Ok by (rewrite repeat_length; lia). cbn [bind].
  rewrite Hx, Hy.
  rewrite !list_insert_id by assumption. reflexivity.
Qed.

(** X21.  [MMultiFreeData] empties the dense part and leaves it usable.
    [MMultiInit] with [1 <= ndim <= 29], block sizes in [1, 65535],
    elements of at least one byte and a dense block of less than [2^31]
    bytes ([esize] times the product of the block sizes), then any
    [MMultiSet]s with data at keys inside the blocks, then
    [MMultiFreeData]: the call is defined, [MMultiGet] then returns [NULL]
    for every key inside the blocks, and the array takes any further
    sequence of such [MMultiSet]s as a fresh one does. *)
Theorem MMultiFreeData_resets {V : Type} {rawV : Raw V} {rawZ : Raw Z}
    {ARR IAT DAT : Type} (w : Z) (ma0 : MULTI ARR IAT DAT)
    (esize ndim : Z) (bs : list Z) (lk : option LOCK)
    (InitData : init_hook V) (FreeElem : free_hook V)
    (kvs kvs' : list (list Z * V)) :
  31 <= w -> 1 <= ndim <= 29 -> Z.of_nat (length bs) = ndim ->
  Forall (fun b => 1 <= b <= 65535) bs ->
  1 <= esize -> esize * fold_right Z.mul 1 bs < 2 ^ 31 ->
  Forall (fun kv => in_blocks (fst kv) bs) kvs ->
  Forall (fun kv => in_blocks (fst kv) bs) kvs' ->
  exists ma ma1 ma2 ma3,
    MMultiInit w ma0 esize ndim bs lk = Ok ma
    /\ MMulti_set_all w ma kvs InitData FreeElem = Ok ma1
    /\ MMultiFreeData ma1 FreeElem = Ok ma2
    /\ (forall k lock, in_blocks k bs ->
          exists m, MMultiGet w ma2 k lock = Ok (m, None, lock))
    /\ MMulti_set_all w ma2 kvs' InitData FreeElem = Ok ma3
    /\ forall k v lock, last_set k kvs' None = Some v ->
         exists m, MMultiGet w ma3 k lock = Ok (m, Some v, lock).
Proof.
  intros Hw Hnd Hlen Hbs Hesz Hbytes Hkeys Hkeys'.
  assert (Hprod : fold_right Z.mul 1 bs < 2 ^ 31) by nia.
  destruct (MMultiInit_shape (V := V) w ma0 esize ndim bs lk Hw Hnd Hlen Hbs
              Hprod)
    as (ma & Hinit & Hshape & Hwf & Hndim & Hblk & Hib & _ & Hd0 & Hp0 & Hhs
        & (x & Hia & Hdx & Hpx) & (y & Hda & Hdy & Hpy) & Hsized).
  destruct (MMulti_set_all_dense w bs InitData FreeElem Hbs Hprod kvs ma
              (fun _ => None) Hshape Hwf (Hsized Hesz Hbytes) Hblk Hib Hkeys)
    as (ma1 & Hrun & (Hshape1 & Hwf1 & Hsized1 & Hblk1 & Hib1 & Hnd1 & Hhs1
                      & Hia1 & Hda1 & Hsame1) & _).
  { intros k v [=]. }
  assert (Hfree : ArrayFreeData (data (MULTI.array ma1))
                    (block (MULTI.array ma1)) FreeElem = Ok tt).
  { destruct (Z.eq_dec (dim (MULTI.array ma1)) 0) as [Hz|Hnz].
    - rewrite (Hsame1 Hz), Hp0. reflexivity.
    - destruct Hwf1 as (_ & Hdim & Hchain).
      destruct Hchain as [Hcw _]; [lia|].
      apply chain_wf_free. exact Hcw. }
  assert (Hhalf : 0 <= ndim / 2) by (apply Z.div_pos; lia).
  assert (Hpow : 0 < 2 ^ (ndim / 2 + 16)).
  { apply Z.pow_pos_nonneg; [reflexivity|]. clear - Hhalf. lia. }
  pose (ma2 := MULTI.set_da
                 (MULTI.set_ia
                    (MULTI.set_array ma1
                       (set_data (set_dim (MULTI.array ma1) 0) NULL))
                    (MULTI.ia ma1))
                 (MULTI.da ma1)).
  assert (Hfd : MMultiFreeData ma1 FreeElem = Ok ma2).
  { unfold MMultiFreeData. rewrite Hnd1, Hndim.
    test_is (ndim =? 0) false. cbv zeta. rewrite Hfree. cbn [bind].
    rewrite Hhs1, Hhs, Hia1, Hda1, Hia, Hda.
    rewrite (MMultiFreeData_tables_fresh FreeElem x y _ _ Hdx Hpx Hdy Hpy)
      by lia.
    cbn [bind]. unfold ma2. rewrite Hia1, Hda1, Hia, Hda. reflexivity. }
  assert (Hshape2 : MMulti_shape ma2) by exact Hshape1.
  assert (Hwf2 : arr_wf (MULTI.array ma2)).
  { unfold ma2. cbn [MULTI.array MULTI.set_da MULTI.set_ia MULTI.set_array].
    destruct Hwf1 as (Hb & _ & _). unfold arr_wf.
    cbn [block dim data set_data set_dim].
    split; [exact Hb|]. split; lia. }
  assert (Hsized2 : arr_sized (MULTI.array ma2)) by exact Hsized1.
  destruct (MMulti_set_all_dense w bs InitData FreeElem Hbs Hprod kvs' ma2
              (fun _ => None) Hshape2 Hwf2 Hsized2 Hblk1 Hib1 Hkeys')
    as (ma3 & Hrun3 & _ & Hlast3).
  { intros k v [=]. }
  exists ma, ma1, ma2, ma3.
  split; [exact Hinit|]. split; [exact Hrun|]. split; [exact Hfd|].
  split.
  { intros k lock Hk.
    destruct (in_blocks_offset k bs Hbs Hk) as (Hoff & Hr & Hlt).
    destruct (MMultiIndex_dense ma2 k Hshape2)
      as (m & Hm & Hisf & _ & Harr & _).
    { rewrite (Forall2_length _ _ _ Hk).
      change (MULTI.ndim ma2) with (MULTI.ndim ma1).
      rewrite <- Hblk1. apply Hshape1. }
    { change (MULTI.block ma2) with (MULTI.block ma1). rewrite Hblk1.
      exact Hlt. }
    exists m. unfold MMultiGet. rewrite Hm. cbn [bind]. rewrite Hisf.
    cbn [Z.eqb negb]. rewrite Harr.
    rewrite ArrayGet_no_elements by reflexivity. reflexivity. }
  split; [exact Hrun3|].
  intros k v lock Hl. exact (Hlast3 k v Hl lock).
Qed.

(** On the array with block sizes 4 and 4. *)
Lemma MMultiFreeData_resets_witness :
  31 <= 64 /\ 1 <= 2 <= 29 /\ Z.of_nat (length [4; 4]) = 2
  /\ Forall (fun b => 1 <= b <= 65535) [4; 4]
  /\ 1 <= 8 /\ 8 * fold_right Z.mul 1 [4; 4] < 2 ^ 31
  /\ Forall (fun kv : list Z * Z => in_blocks (fst kv) [4; 4])
       [([1; 2], 7); ([3; 1], 9)]
  /\ Forall (fun kv : list Z * Z => in_blocks (fst kv) [4; 4]) [([1; 2], 5)]
  /\ exists ma ma1 ma2 ma3 m m',
       MMultiInit (rawZ := 0) 64 (blank_MULTI 0) 8 2 [4; 4] None = Ok ma
       /\ MMulti_set_all (rawV := 0) 64 ma [([1; 2], 7); ([3; 1], 9)]
            None None = Ok ma1
       /\ MMultiFreeData ma1 None = Ok ma2
       /\ MMultiGet 64 ma2 [3; 1] None = Ok (m, None, None)
       /\ MMulti_set_all (rawV := 0) 64 ma2 [([1; 2], 5)] None None = Ok ma3
       /\ MMultiGet 64 ma3 [1; 2] None = Ok (m', Some 5, None).
Proof.
  assert (H1 : 31 <= 64) by lia.
  assert (H2 : 1 <= 2 <= 29) by lia.
  assert (H3 : Z.of_nat (length [4; 4]) = 2) by reflexivity.
  assert (H4 : Forall (fun b => 1 <= b <= 65535) [4; 4])
    by (repeat constructor; lia).
  assert (H5 : 8 * fold_right Z.mul 1 [4; 4] < 2 ^ 31)
    by (vm_compute; reflexivity).
  assert (H9 : 1 <= 8) by lia.
  assert (H6 : Forall (fun kv : list Z * Z => in_blocks (fst kv) [4; 4])
                 [([1; 2], 7); ([3; 1], 9)])
    by (unfold in_blocks; repeat constructor; cbn; lia).
  assert (H7 : Forall (fun kv : list Z * Z => in_blocks (fst kv) [4; 4])
                 [([1; 2], 5)])
    by (unfold in_blocks; repeat constructor; cbn; lia).
  assert (H8 : in_blocks [3; 1] [4; 4])
    by (unfold in_blocks; repeat constructor; lia).
  split; [exact H1|]. split; [exact H2|]. split; [exact H3|].
  split; [exact H4|]. split; [exact H9|]. split; [exact H5|].
  split; [exact H6|]. split; [exact H7|].
  destruct (MMultiFreeData_resets (rawV := 0) (rawZ := 0) 64
              (blank_MULTI 0) 8 2 [4; 4] None None None
              [([1; 2], 7); ([3; 1], 9)] [([1; 2], 5)]
              H1 H2 H3 H4 H9 H5 H6 H7)
    as (ma & ma1 & ma2 & ma3 & Hinit & Hrun & Hfree & Hnone & Hrun3 & Hget).
  destruct (Hnone [3; 1] None H8) as [m Hm].
  destruct (Hget [1; 2] 5 None eq_refl) as [m' Hm'].
  exists ma, ma1, ma2, ma3, m, m'.
  split; [exact Hinit|]. split; [exact Hrun|]. split; [exact Hfree|].
  split; [exact Hm|]. split; [exact Hrun3 | exact Hm'].
Defined.

(** ** Index array: [FreeIdxAry] *)

(** The struct [InitIdxAry] fills for a list of at least one int. *)
Lemma InitIdxAry_value (d : list Z) (n : Z) :
  n = Z.of_nat (length d) -> 0 < n < 2 ^ 31 ->
  (forall j j' x y, d !! j = Some x -> d !! j' = Some y -> y - x + 1 < 2 ^ 31) ->
  exists lo hi tbl,
    InitIdxAry n d
    = Ok (IdxAry.mk n (Some d) lo hi (hi - lo + 1) (Some tbl))
    /\ lo <= hi.
Proof.
  intros Hn Hpos Hspread.
  destruct (load_d d n Hn 0) as (d0 & Hload0 & Hd0); [lia|].
  destruct (InitIdxAry_bounds_loop d n Hn Hpos d0 Hd0)
    as (lo & hi & Hb & Hlo & Hhi & Hall).
  assert (Hm : hi - lo + 1 < 2 ^ 31).
  { destruct Hlo as [j Hj], Hhi as [j' Hj']. exact (Hspread _ _ _ _ Hj Hj'). }
  assert (Hrange : lo <= hi).
  { specialize (Hall _ _ Hd0). lia. }
  destruct (InitIdxAry_fill_loop d n Hn Hpos lo hi Hall Hm)
    as (tbl & Hfill & _).
  unfold InitIdxAry. test_is (n =? 0) false.
  rewrite Hload0. cbn [bind]. rewrite Hb. cbn [bind fst snd].
  assert (Hsize : sint (sint (1 + hi) - lo) = hi - lo + 1).
  { rewrite <- (sint_small (hi - lo + 1)) by lia.
    replace (hi - lo + 1) with ((- lo) + (1 + hi)) by lia.
    rewrite <- (sint_add_r (- lo) (1 + hi)). f_equal. lia. }
  rewrite Hsize, Hfill. cbn [bind].
  exists lo, hi, tbl. split; [reflexivity | exact Hrange].
Qed.

(** X22.  [FreeIdxAry] keeps the bounds.  After [InitIdxAry] on a list of
    [n >= 1] ints, [FreeIdxAry] in mode 1 frees the list only and [IdxGet]
    answers as before.  In modes 0 and 2 it frees the table and sets [m]
    to 0 but leaves [m0] and [m1]: [IdxGet] still answers [-1] below the
    least element and [-2] above the greatest, and for every value between
    them it reads the freed table. *)
Theorem FreeIdxAry_keeps_bounds (d : list Z) (n md v : Z) :
  n = Z.of_nat (length d) -> 0 < n < 2 ^ 31 ->
  (forall j j' x y, d !! j = Some x -> d !! j' = Some y -> y - x + 1 < 2 ^ 31) ->
  exists ia,
    InitIdxAry n d = Ok ia
    /\ IdxAry.m0 ia <= IdxAry.m1 ia
    /\ IdxGet (FreeIdxAry ia 1) v = IdxGet ia v
    /\ (md = 0 \/ md = 2 ->
        IdxAry.m (FreeIdxAry ia md) = 0
        /\ IdxAry.m0 (FreeIdxAry ia md) = IdxAry.m0 ia
        /\ IdxAry.m1 (FreeIdxAry ia md) = IdxAry.m1 ia
        /\ IdxGet (FreeIdxAry ia md) v
           = if v <? IdxAry.m0 ia then Ok (-1)
             else if IdxAry.m1 ia <? v then Ok (-2)
             else Undefined).
Proof.
  intros Hn Hpos Hspread.
  destruct (InitIdxAry_value d n Hn Hpos Hspread)
    as (lo & hi & tbl & Hinit & Hrange).
  eexists. split; [exact Hinit|].
  cbn [IdxAry.m0 IdxAry.m1].
  split; [exact Hrange|]. split; [reflexivity|].
  intros Hmd. unfold FreeIdxAry. cbn [IdxAry.n IdxAry.m IdxAry.i IdxAry.d
                                      IdxAry.m0 IdxAry.m1].
  test_is (0 <? hi - lo + 1) true.
  destruct Hmd as [-> | ->]; cbn [Z.eqb];
    (split; [reflexivity|]; split; [reflexivity|]; split; [reflexivity|]);
    unfold IdxGet; cbn [IdxAry.m0 IdxAry.m1 IdxAry.i]; reflexivity.
Qed.

(** A list with a repeated value and a gap, freed in mode 2. *)
Lemma FreeIdxAry_keeps_bounds_witness :
  4 = Z.of_nat (length [7; 3; 7; 5]) /\ 0 < 4 < 2 ^ 31
  /\ (forall j j' x y, [7; 3; 7; 5] !! j = Some x -> [7; 3; 7; 5] !! j' = Some y ->
        y - x + 1 < 2 ^ 31)
  /\ exists ia,
       InitIdxAry 4 [7; 3; 7; 5] = Ok ia
       /\ IdxGet ia 5 = Ok 3
       /\ IdxGet (FreeIdxAry ia 1) 5 = Ok 3
       /\ IdxGet (FreeIdxAry ia 2) 5 = Undefined
       /\ IdxGet (FreeIdxAry ia 2) 2 = Ok (-1).
Proof.
  assert (H1 : 4 = Z.of_nat (length [7; 3; 7; 5])) by reflexivity.
  assert (H2 : 0 < 4 < 2 ^ 31) by lia.
  assert (H3 : forall j j' x y,
            [7; 3; 7; 5] !! j = Some x -> [7; 3; 7; 5] !! j' = Some y ->
            y - x + 1 < 2 ^ 31).
  { intros j j' x y Hx Hy.
    assert (Hb : forall i z, [7; 3; 7; 5] !! i = Some z -> 3 <= z <= 7).
    { intros [|[|[|[|i]]]] z Hz; cbn in Hz; try discriminate;
        injection Hz as <-; lia. }
    specialize (Hb _ _ Hx) as Hbx. specialize (Hb _ _ Hy) as Hby. lia. }
  split; [exact H1|]. split; [exact H2|]. split; [exact H3|].
  destruct (FreeIdxAry_keeps_bounds [7; 3; 7; 5] 4 2 5 H1 H2 H3)
    as (ia & Hia & _).
  exists ia. split; [exact Hia|].
  vm_compute in Hia. injection Hia as <-.
  repeat split; vm_compute; reflexivity.
Defined.
